(** * Retreivr archiver: a shallow embedding of [archiver.py]

    The development follows the layout of the script.

    - [PyStr]: the Python string and [os.path] primitives the script calls.
    - [Sys]: the file system, the log and the external programs
      (yt-dlp, ffmpeg, the thumbnail download), with the functions
      [is_partial_file_stuck], [embed_metadata] and [download_with_ytdlp].
    - [Run]: the ledger, the run lists, the background copies and [run_once].

    Strings are Stdlib strings: sequences of characters with codes below
    256, read as the first 256 Unicode code points.  External collaborators
    are oracles that receive a clock value, so that their answers may change
    from one call to the next. *)

From Stdlib Require Import ZArith Lia Bool List Ascii String.
From stdpp Require Import base option list gmap strings pretty.

Local Open Scope string_scope.
Local Open Scope list_scope.
Local Open Scope Z_scope.

(* ===================================================================== *)
(** ** Python strings and POSIX paths *)
(* ===================================================================== *)

Module PyStr.

Definition chr (c : ascii) : string := String c EmptyString.

Definition code (c : ascii) : N := N_of_ascii c.

(** [len(s)] *)
Definition len (s : string) : Z := Z.of_nat (String.length s).

(** [s.startswith(p)] *)
Definition startswith (s p : string) : bool := String.prefix p s.

(** [s.endswith(p)] *)
Definition endswith (s p : string) : bool :=
  String.prefix (String.rev p) (String.rev s).

(** [s[i:j]] for [0 <= i <= j]; out-of-range bounds are clamped. *)
Definition slice (i j : nat) (s : string) : string :=
  String.substring i (j - i) s.

(** [s[i:]] *)
Fixpoint drop (i : nat) (s : string) : string :=
  match i, s with
  | O, _ => s
  | S i', EmptyString => EmptyString
  | S i', String _ s' => drop i' s'
  end.

(** [s[:i]] *)
Definition take (i : nat) (s : string) : string := String.substring 0 i s.

(** [s.rfind(c)] for a one-character [c]: the last index, or [-1]. *)
Fixpoint rfind_from (c : ascii) (s : string) (i : Z) (acc : Z) : Z :=
  match s with
  | EmptyString => acc
  | String a s' =>
      rfind_from c s' (i + 1) (if Ascii.eqb a c then i else acc)
  end.

Definition rfind (c : ascii) (s : string) : Z := rfind_from c s 0 (-1).

(** [sub in s] *)
Fixpoint contains (sub s : string) : bool :=
  String.prefix sub s ||
  match s with
  | EmptyString => false
  | String _ s' => contains sub s'
  end.

(** [s.split(sep)[-1]] for a non-empty [sep] that cannot overlap
    itself: what follows the last occurrence of [sep], the whole string
    when there is none. *)
Fixpoint split_last_go (sep : string) (n : nat) (s cur : string)
  : string :=
  match s with
  | EmptyString => cur
  | String _ s' =>
      if String.prefix sep s
      then let rest := drop n s in
           split_last_go sep n s' rest
      else split_last_go sep n s' cur
  end.

Definition split_last (sep s : string) : string :=
  split_last_go sep (String.length sep) s s.

(** [s.split(sep, 1)]: [None] when [sep] does not occur (the result
    then has one element only). *)
Fixpoint split_once_go (sep : string) (n : nat) (s acc : string)
  : option (string * string) :=
  match s with
  | EmptyString => None
  | String a s' =>
      if String.prefix sep s
      then Some (String.rev acc, drop n s)
      else split_once_go sep n s' (String a acc)
  end.

Definition split_once (sep s : string) : option (string * string) :=
  split_once_go sep (String.length sep) s "".

(** [s.lstrip(".")] *)
Fixpoint lstrip_dot (s : string) : string :=
  match s with
  | String "." s' => lstrip_dot s'
  | _ => s
  end.

(** [c.isdigit()] on the first 256 code points: the decimal digits and
    the superscripts two, three and one. *)
Definition isdigit_char (c : ascii) : bool :=
  let n := code c in
  ((48 <=? n) && (n <=? 57) || (n =? 178) || (n =? 179) || (n =? 185))%N.

Fixpoint all_chars (p : ascii -> bool) (s : string) : bool :=
  match s with
  | EmptyString => true
  | String a s' => p a && all_chars p s'
  end.

(** [s.isdigit()]: every character is a digit and there is at least
    one. *)
Definition isdigit (s : string) : bool :=
  match s with
  | EmptyString => false
  | _ => all_chars isdigit_char s
  end.

(** [c.isspace()], which is also the class [\s] of [re] on [str]. *)
Definition isspace_char (c : ascii) : bool :=
  let n := code c in
  ((9 <=? n) && (n <=? 13) || (28 <=? n) && (n <=? 32)
   || (n =? 133) || (n =? 160))%N.

(** [c.lower()] on the first 256 code points. *)
Definition lower_char (c : ascii) : ascii :=
  let n := code c in
  if ((65 <=? n) && (n <=? 90)
      || (192 <=? n) && (n <=? 222) && negb (n =? 215))%N
  then ascii_of_N (n + 32) else c.

Fixpoint lower (s : string) : string :=
  match s with
  | EmptyString => EmptyString
  | String a s' => String (lower_char a) (lower s')
  end.

(** [s.strip()] and [s.rstrip()] *)
Fixpoint lstrip (s : string) : string :=
  match s with
  | String a s' => if isspace_char a then lstrip s' else s
  | EmptyString => EmptyString
  end.

Definition rstrip (s : string) : string :=
  String.rev (lstrip (String.rev s)).

Definition strip (s : string) : string := rstrip (lstrip s).

(** [sep.join(l)] *)
Definition join (sep : string) (l : list string) : string :=
  String.concat sep l.

(** Truthiness of a string. *)
Definition truthy (s : string) : bool := negb (String.eqb s "").

(** [x or d] for an optional string: [None] and the empty string are
    falsy. *)
Definition or_else (x : option string) (d : string) : string :=
  match x with
  | Some s => if truthy s then s else d
  | None => d
  end.

(** *** [os.path] (posixpath) *)

(** [os.path.join(a, b)] *)
Definition os_path_join (a b : string) : string :=
  if startswith b "/" then b
  else if negb (truthy a) || endswith a "/" then a +:+ b
  else a +:+ "/" +:+ b.

(** The loop of [genericpath._splitext]: is some character of
    [p[i:j]] not a dot? *)
Fixpoint has_non_dot (s : string) (i j : Z) (k : Z) : bool :=
  match s with
  | EmptyString => false
  | String a s' =>
      ((i <=? k)%Z && (k <? j)%Z && negb (Ascii.eqb a "."))
      || has_non_dot s' i j (k + 1)
  end.

(** [os.path.splitext(p)] *)
Definition splitext (p : string) : string * string :=
  let sepIndex := rfind "/" p in
  let dotIndex := rfind "." p in
  if (dotIndex >? sepIndex)%Z && has_non_dot p (sepIndex + 1) dotIndex 0
  then (take (Z.to_nat dotIndex) p, drop (Z.to_nat dotIndex) p)
  else (p, "").

Fixpoint rstrip_slash_rev (r : string) : string :=
  match r with
  | String "/" r' => rstrip_slash_rev r'
  | _ => r
  end.

(** [os.path.dirname(p)] *)
Definition dirname (p : string) : string :=
  let i := Z.to_nat (rfind "/" p + 1) in
  let head := take i p in
  if truthy head && negb (all_chars (Ascii.eqb "/") head)
  then String.rev (rstrip_slash_rev (String.rev head))
  else head.

(** [os.path.basename(p)] *)
Definition basename (p : string) : string :=
  drop (Z.to_nat (rfind "/" p + 1)) p.

(** [os.path.split(p)] *)
Definition os_path_split (p : string) : string * string :=
  (dirname p, basename p).

End PyStr.

(* ===================================================================== *)
(** ** Values, exceptions and configuration *)
(* ===================================================================== *)

(** JSON-like Python values, for the option dictionaries handed to
    [YoutubeDL]. *)
#[local] Set Warnings "-register-all".

Inductive pyval :=
| PNone
| PBool (b : bool)
| PInt (z : Z)
| PStr (s : string)
| PList (l : list pyval)
| PDict (d : list (string * pyval)).

(** The exception classes the script distinguishes; [OtherError] stands
    for every exception that is none of the named ones. *)
Inductive exn :=
| CalledProcessError
| FileNotFoundError
| FileExistsError
| IsADirectoryError
| NotADirectoryError
| OSError
| KeyError
| OperationalError
| ValueError
| HttpError
| RefreshError
| OtherError.

Inductive res (A : Type) :=
| Ok (a : A)
| Raise (e : exn).

Arguments Ok {A} a.
Arguments Raise {A} e.

(** One entry of [config["playlists"]]. *)
Record playlist := {
  playlist_id : string;
  folder : string;
  account : string;
  remove_after_download : bool
}.

(** [config.json], with the keys the script reads.  A key that the file
    does not have is [None]: [config.get(key)] gives [None] for it, and
    [config[key]] raises KeyError. *)
Record config := {
  accounts : option (list (string * option string));
  playlists : option (list playlist);
  final_format : option string;
  filename_template : option string;
  yt_dlp_opts : option (gmap string pyval);
  js_runtime_cfg : option string;
  telegram : option (option string * option string)
}.

(** The dictionary built by [get_video_metadata]. *)
Record metadata := {
  title : option string;
  channel : option string;
  upload_date : option string;
  description : option string;
  tags : list string;
  url : option string;
  thumbnail_url : option string
}.

(* ===================================================================== *)
(** ** Control flow: state, exceptions, loops *)
(* ===================================================================== *)

(** A computation of the script over a state [S]: it returns or raises,
    and leaves a state behind. *)
Definition ST (S A : Type) : Type := S -> res A * S.

Definition ret {S A} (a : A) : ST S A := fun s => (Ok a, s).

Definition raise {S A} (e : exn) : ST S A := fun s => (Raise e, s).

Definition bind {S A B} (m : ST S A) (k : A -> ST S B) : ST S B :=
  fun s =>
    match m s with
    | (Ok a, s') => k a s'
    | (Raise e, s') => (Raise e, s')
    end.

Notation "x <- c1 ;; c2" := (bind c1 (fun x => c2))
  (at level 20, c1 at level 99, c2 at level 200, only parsing).
Notation "c1 ;; c2" := (bind c1 (fun _ => c2))
  (at level 100, c2 at level 200, only parsing, right associativity).

(** [try: body  except Exception as e: handler e] *)
Definition try_except {S A} (body : ST S A) (handler : exn -> ST S A)
  : ST S A :=
  fun s =>
    match body s with
    | (Ok a, s') => (Ok a, s')
    | (Raise e, s') => handler e s'
    end.

(** [try: body  finally: fin] *)
Definition try_finally {S A} (body : ST S A) (fin : ST S unit) : ST S A :=
  fun s =>
    match body s with
    | (r, s') =>
        match fin s' with
        | (Ok _, s'') => (r, s'')
        | (Raise e, s'') => (Raise e, s'')
        end
    end.

Definition lift_res {S A} (r : res A) : ST S A := fun s => (r, s).

(** A loop that can be left early: [body] returns [Some r] for
    [return r] (or [break]) and [None] to go on. *)
Fixpoint for_first {S A R} (l : list A) (body : A -> ST S (option R))
  : ST S (option R) :=
  match l with
  | [] => ret None
  | x :: l' =>
      r <- body x ;;
      match r with
      | Some v => ret (Some v)
      | None => for_first l' body
      end
  end.

(** A plain [for] loop. *)
Fixpoint for_each {S A} (l : list A) (body : A -> ST S unit) : ST S unit :=
  match l with
  | [] => ret tt
  | x :: l' => body x ;; for_each l' body
  end.

(** *** Assertions about computations *)

(** [I] holds after [m] whenever it held before, whether [m] returns or
    raises. *)
Definition stable {S A} (I : S -> Prop) (m : ST S A) : Prop :=
  forall s, I s -> I (snd (m s)).

(** From a state in which [I] holds, [m] returns and [I] holds again. *)
Definition always_ok {S A} (I : S -> Prop) (m : ST S A) : Prop :=
  forall s, I s -> exists a, fst (m s) = Ok a /\ I (snd (m s)).

(** A search that tries the candidates [n, n + w): [J k] holds before
    candidate [k] is tried; when none of them hits, [m] returns [None] and
    [J (n + w)] holds; when [k] is the first that hits, [m] returns some
    [v] with [Q k v]. *)
Definition scans {S R} (hit : nat -> bool) (J : nat -> S -> Prop)
    (Q : nat -> R -> S -> Prop) (n w : nat) (m : ST S (option R)) : Prop :=
  forall s, J n s ->
    ((forall k, (n <= k < n + w)%nat -> hit k = false) ->
     exists s', m s = (Ok None, s') /\ J (n + w)%nat s')
    /\
    (forall k, (n <= k < n + w)%nat -> hit k = true ->
       (forall j, (n <= j < k)%nat -> hit j = false) ->
       exists v s', m s = (Ok (Some v), s') /\ Q k v s').

(* ===================================================================== *)
(** ** The file system, the log and the external programs *)
(* ===================================================================== *)

Module Sys.
Import PyStr.

(** *** File system

    A path names at most one visible entry.  The store is a list, in the
    order in which [os.listdir] reports the entries; a lookup takes the
    first entry of a path.  Paths are kept as the script writes them,
    relative to the working directory. *)

Record inode := {
  is_dir : bool;
  st_size : option Z;  (* [None]: [os.path.getsize] raises *)
  data : string
}.

Definition FS : Type := list (string * inode).

Definition empty_file : inode :=
  {| is_dir := false; st_size := Some 0; data := "" |}.

Definition new_dir : inode :=
  {| is_dir := true; st_size := Some 4096; data := "" |}.

Definition regular (content : string) : inode :=
  {| is_dir := false; st_size := Some (len content); data := content |}.

Fixpoint fs_lookup (p : string) (fs : FS) : option inode :=
  match fs with
  | [] => None
  | (q, i) :: fs' => if String.eqb p q then Some i else fs_lookup p fs'
  end.

(** [os.path.exists(p)] *)
Definition os_path_exists (fs : FS) (p : string) : bool :=
  match fs_lookup p fs with Some _ => true | None => false end.

(** [os.path.isdir(p)] *)
Definition os_path_isdir (fs : FS) (p : string) : bool :=
  match fs_lookup p fs with Some i => is_dir i | None => false end.

(** The prefix shared by the paths of the entries of directory [d]. *)
Definition dir_prefix (d : string) : string :=
  if negb (truthy d) || endswith d "/" then d else d +:+ "/".

Fixpoint strip_prefix (pre s : string) : option string :=
  match pre, s with
  | EmptyString, _ => Some s
  | String a pre', String b s' =>
      if Ascii.eqb a b then strip_prefix pre' s' else None
  | String _ _, EmptyString => None
  end.

Definition child_name (d p : string) : option string :=
  match strip_prefix (dir_prefix d) p with
  | Some n =>
      if truthy n && negb (contains "/" n) then Some n else None
  | None => None
  end.

(** [os.listdir(d)] for an existing directory [d]. *)
Definition os_listdir (fs : FS) (d : string) : list string :=
  omap (fun e : string * inode => child_name d (fst e)) fs.

(** [os.path.getsize(p)] *)
Definition os_path_getsize (fs : FS) (p : string) : res Z :=
  match fs_lookup p fs with
  | Some i =>
      match st_size i with Some z => Ok z | None => Raise OSError end
  | None => Raise FileNotFoundError
  end.

Definition fs_delete (p : string) (fs : FS) : FS :=
  List.filter (fun e : string * inode => negb (String.eqb p (fst e))) fs.

Definition fs_put (p : string) (i : inode) (fs : FS) : FS :=
  if os_path_exists fs p
  then map (fun e : string * inode =>
              if String.eqb p (fst e) then (fst e, i) else e) fs
  else fs ++ [(p, i)].

(** Is [p] the directory [d] or something below it? *)
Definition under (d p : string) : bool :=
  String.eqb p d || String.prefix (dir_prefix d) p.

(** [shutil.rmtree(d, ignore_errors=True)]: on a path that is not a
    directory the call fails, and the error is ignored.  Nothing can
    lie below a missing directory, so such entries are dropped too. *)
Definition shutil_rmtree (d : string) (fs : FS) : FS :=
  match fs_lookup d fs with
  | Some i =>
      if is_dir i
      then List.filter (fun e : string * inode => negb (under d (fst e))) fs
      else fs
  | None =>
      List.filter (fun e : string * inode => negb (under d (fst e))) fs
  end.

(** The root directory: a path of slashes only.  It exists and is not
    listed. *)
Definition is_root (p : string) : bool :=
  truthy p && all_chars (Ascii.eqb "/") p.

(** The directory in which the last component of [name] is looked up,
    and that component: [os.path.split], taken once more when [name]
    ends with a slash. *)
Definition parent_and_name (name : string) : string * string :=
  let (head, tail) := os_path_split name in
  if truthy tail then (head, tail) else os_path_split head.

(** [os.mkdir(name)] *)
Definition os_mkdir (name : string) (fs : FS) : res FS :=
  if negb (truthy name) then Raise FileNotFoundError
  else if os_path_exists fs name || is_root name then Raise FileExistsError
  else
    let head := fst (parent_and_name name) in
    if negb (truthy head) || is_root head
    then Ok (fs ++ [(name, new_dir)])
    else
      match fs_lookup head fs with
      | None => Raise FileNotFoundError
      | Some i =>
          if is_dir i then Ok (fs ++ [(name, new_dir)])
          else Raise NotADirectoryError
      end.

(** The last step of [os.makedirs(name, exist_ok=True)]: [mkdir(name)],
    whose error is forgiven when [name] is a directory. *)
Definition mkdir_exist_ok (name : string) (fs : FS) : res FS :=
  match os_mkdir name fs with
  | Ok fs' => Ok fs'
  | Raise e =>
      if os_path_isdir fs name || is_root name then Ok fs else Raise e
  end.

(** The body of [os.makedirs(name, exist_ok=True)] for a path that does
    not exist: the missing ancestors are made first, from the top.
    Each call works on a shorter path, so that [n] calls suffice for a
    path of [n] characters.  For a [name] that ends in [/.], the
    function returns once the directory before the dot is made, which
    is then a directory under the name [name] too: it is listed under
    that name. *)
Fixpoint makedirs_from (n : nat) (name : string) (fs : FS) : res FS :=
  let (head, tail) := parent_and_name name in
  if truthy head && truthy tail
     && negb (os_path_exists fs head || is_root head)
  then
    match n with
    | O => mkdir_exist_ok name fs
    | S n' =>
        match
          match makedirs_from n' head fs with
          | Raise FileExistsError => Ok fs
          | r => r
          end
        with
        | Raise e => Raise e
        | Ok fs1 =>
            if String.eqb tail "." then Ok (fs1 ++ [(name, new_dir)])
            else mkdir_exist_ok name fs1
        end
    end
  else mkdir_exist_ok name fs.

(** [os.makedirs(name, exist_ok=True)].  An entry that exists lies in
    directories that exist, so for such a path no ancestor is made and
    [mkdir] fails with FileExistsError, which is forgiven when the
    entry is a directory.  A call that raises has made no directory: it
    raises at the topmost ancestor that is missing. *)
Definition os_makedirs (name : string) (fs : FS) : res FS :=
  match fs_lookup name fs with
  | Some i => if is_dir i then Ok fs else Raise FileExistsError
  | None => makedirs_from (String.length name) name fs
  end.

(** [os.unlink(p)], which is also [os.remove(p)]. *)
Definition os_unlink (p : string) (fs : FS) : res FS :=
  match fs_lookup p fs with
  | Some i => if is_dir i then Raise IsADirectoryError
              else Ok (fs_delete p fs)
  | None => Raise FileNotFoundError
  end.

(** [os.replace(src, dst)]: one atomic rename. *)
Definition os_replace (src dst : string) (fs : FS) : res FS :=
  match fs_lookup src fs with
  | None => Raise FileNotFoundError
  | Some i =>
      if os_path_isdir fs dst then Raise IsADirectoryError
      else if String.eqb src dst then Ok fs
      else Ok (fs_delete src (fs_put dst i fs))
  end.

(** [with open(p, "wb") as f: f.write(content)] *)
Definition write_file (p : string) (content : string) (fs : FS) : res FS :=
  if os_path_isdir fs p then Raise IsADirectoryError
  else Ok (fs_put p (regular content) fs).

(** *** Partial file check *)

Fixpoint stuck_scan (fs : FS) (temp_dir vid : string) (names : list string)
  : bool :=
  match names with
  | [] => false
  | f :: rest =>
      if startswith f vid && endswith f ".part" then
        let p := os_path_join temp_dir f in
        match os_path_getsize fs p with
        | Ok size =>
            if (size <? 1024 * 512)%Z then true
            else stuck_scan fs temp_dir vid rest
        | Raise _ => true
        end
      else stuck_scan fs temp_dir vid rest
  end.

(** An in-progress artifact of item [vid]: the test of the loop. *)
Definition in_progress (vid f : string) : Prop :=
  startswith f vid = true /\ endswith f ".part" = true.

(** [is_partial_file_stuck(temp_dir, vid)] *)
Definition is_partial_file_stuck (fs : FS) (temp_dir vid : string) : bool :=
  if negb (os_path_isdir fs temp_dir) then false
  else stuck_scan fs temp_dir vid (os_listdir fs temp_dir).

(** *** State, oracles and the monad of the script

    A log entry is the level and the message of a [logging] call; the
    text of an exception that the script appends to a message is left
    out. *)

Inductive level := INFO | WARNING | ERROR | EXCEPTION.

(** The calls made to external programs, in order. *)
Inductive call :=
| CallYdl (opts : gmap string pyval) (video_url : string)
| CallFfmpeg (cmd : list string)
| CallGet (u : string).

Record sys := {
  sys_fs : FS;
  sys_clock : nat;
  sys_log : list (level * string);
  sys_calls : list call
}.

(** What [YoutubeDL(opts).extract_info(url, download=True)] did: it
    raised, returned nothing, or returned an info dictionary; and the
    entries it left in the scratch directory, in listing order. *)
Inductive ydl_result := YdlRaise | YdlNoInfo | YdlInfo.

Record ydl_outcome := {
  ydl_res : ydl_result;
  ydl_files : list (string * inode)
}.

(** [requests.get]: raised, answered without a usable body, or answered
    with [resp.ok] and the body [content]. *)
Inductive http_outcome := HttpRaise | HttpNotOk | HttpBody (content : string).

(** An ffmpeg run: exit status 0 with the output written, a non-zero
    exit status (with what it had written so far, if anything), or the
    program could not be started. *)
Inductive proc_outcome :=
| ProcOk (out : string)
| ProcFailed (partial : option string)
| ProcNotStarted.

Record extern := {
  ydl_extract_info : nat -> gmap string pyval -> string -> ydl_outcome;
  requests_get : nat -> string -> http_outcome;
  ffmpeg : nat -> list string -> FS -> proc_outcome;
  mkstemp_random : nat -> option string
}.

Definition M (A : Type) : Type := ST sys A.

Definition with_fs (fs : FS) (s : sys) : sys :=
  {| sys_fs := fs; sys_clock := sys_clock s;
     sys_log := sys_log s; sys_calls := sys_calls s |}.

Definition get_fs : M FS := fun s => (Ok (sys_fs s), s).

Definition modify_fs (f : FS -> FS) : M unit :=
  fun s => (Ok tt, with_fs (f (sys_fs s)) s).

Definition lift_fs (f : FS -> res FS) : M unit :=
  fun s =>
    match f (sys_fs s) with
    | Ok fs' => (Ok tt, with_fs fs' s)
    | Raise e => (Raise e, s)
    end.

Definition logging (l : level) (msg : string) : M unit :=
  fun s => (Ok tt,
            {| sys_fs := sys_fs s; sys_clock := sys_clock s;
               sys_log := sys_log s ++ [(l, msg)];
               sys_calls := sys_calls s |}).

Definition tick (s : sys) : sys :=
  {| sys_fs := sys_fs s; sys_clock := S (sys_clock s);
     sys_log := sys_log s; sys_calls := sys_calls s |}.

(** An external call: it is recorded and the clock advances. *)
Definition external (c : call) (s : sys) : sys :=
  {| sys_fs := sys_fs s; sys_clock := S (sys_clock s);
     sys_log := sys_log s; sys_calls := sys_calls s ++ [c] |}.

(** [subprocess.run(cmd, ..., check=True)] for an ffmpeg command whose
    output file is [out_path]. *)
Definition subprocess_run_ffmpeg (E : extern) (cmd : list string)
    (out_path : string) : M unit :=
  fun s =>
    let s1 := external (CallFfmpeg cmd) s in
    match ffmpeg E (sys_clock s) cmd (sys_fs s) with
    | ProcOk c =>
        (Ok tt, with_fs (fs_put out_path (regular c) (sys_fs s)) s1)
    | ProcFailed (Some c) =>
        (Raise CalledProcessError,
         with_fs (fs_put out_path (regular c) (sys_fs s)) s1)
    | ProcFailed None => (Raise CalledProcessError, s1)
    | ProcNotStarted => (Raise FileNotFoundError, s1)
    end.

Definition longest_path (fs : FS) : nat :=
  fold_right (fun e n => Nat.max (String.length (fst e)) n) 0%nat fs.

Fixpoint underscores (n : nat) : string :=
  match n with
  | O => ""
  | S n' => String "_" (underscores n')
  end.

(** [tempfile.mkstemp(suffix=suffix, dir=dir)]: a new empty file with
    an unused name in the directory [dir]; the empty [dir] is the
    working directory.  The call raises when [dir] is not a directory,
    and when the file cannot be created there: the random source
    answers [None] when the directory is not writable, the device is
    full or the name is too long for the file system.  The first
    candidate comes from the random source; if that name is taken, the
    retries of [mkstemp] are stood for by a name longer than every
    existing path.  The path is kept relative to the working directory,
    as [dir] is. *)
Definition mkstemp_path (random : string) (fs : FS) (suffix dir : string)
  : string :=
  let cand := os_path_join dir ("tmp" +:+ random +:+ suffix) in
  if os_path_exists fs cand
  then os_path_join dir
         ("tmp" +:+ underscores (S (longest_path fs)) +:+ suffix)
  else cand.

(** [d] names a directory: the working directory, the root, or a
    directory that is listed. *)
Definition dir_exists (fs : FS) (d : string) : bool :=
  negb (truthy d) || is_root d || os_path_isdir fs d.

Definition mkstemp (E : extern) (suffix dir : string) : M string :=
  fun s =>
    if negb (dir_exists (sys_fs s) dir) then
      (Raise (if os_path_exists (sys_fs s) dir
              then NotADirectoryError else FileNotFoundError), s)
    else
      match mkstemp_random E (sys_clock s) with
      | None => (Raise OSError, tick s)
      | Some random =>
          let p := mkstemp_path random (sys_fs s) suffix dir in
          (Ok p,
           {| sys_fs := sys_fs s ++ [(p, empty_file)];
              sys_clock := S (sys_clock s);
              sys_log := sys_log s; sys_calls := sys_calls s |})
      end.

(** *** Metadata embedding *)

(** The conversion [YYYYMMDD -> YYYY-MM-DD] of [embed_metadata]; the
    empty string when the upload date is not of that form. *)
Definition date_tag (upload_date : string) : string :=
  if (len upload_date =? 8) && isdigit upload_date
  then slice 0 4 upload_date +:+ "-" +:+ slice 4 6 upload_date
       +:+ "-" +:+ slice 6 8 upload_date
  else "".

Definition metadata_arg (key value : string) : list string :=
  if truthy value then ["-metadata"; key +:+ "=" +:+ value] else [].

Definition thumbs_dir : string := "/tmp/yt-dlp/thumbs".

Definition thumb_file (video_id : string) : string :=
  os_path_join thumbs_dir (video_id +:+ ".jpg").

Definition http_get (E : extern) (u : string) : M http_outcome :=
  fun s =>
    match requests_get E (sys_clock s) u with
    | HttpRaise => (Raise OtherError, external (CallGet u) s)
    | r => (Ok r, external (CallGet u) s)
    end.

(** The best-effort thumbnail download; the result is [thumb_path]. *)
Definition download_thumbnail (E : extern) (thumb_url : option string)
    (video_id : string) : M (option string) :=
  match thumb_url with
  | None => ret None
  | Some u =>
      if truthy u then
        try_except
          (lift_fs (os_makedirs thumbs_dir) ;;
           let thumb_path := thumb_file video_id in
           resp <- http_get E u ;;
           match resp with
           | HttpBody content =>
               if truthy content
               then lift_fs (write_file thumb_path content) ;;
                    ret (Some thumb_path)
               else ret None
           | _ => ret None
           end)
          (fun _ =>
             logging EXCEPTION
               ("Thumbnail download failed for " +:+ video_id) ;;
             ret None)
      else ret None
  end.

Definition attach_args (fs : FS) (thumb_path : option string)
  : list string :=
  match thumb_path with
  | Some t =>
      if os_path_exists fs t
      then ["-attach"; t;
            "-metadata:s:t"; "mimetype=image/jpeg";
            "-metadata:s:t"; "filename=cover.jpg"]
      else []
  | None => []
  end.

(** The ffmpeg command of [embed_metadata]. *)
Definition embed_cmd (fs : FS) (local_file tmp_path : string)
    (thumb_path : option string) (m : metadata) (video_id : string)
  : list string :=
  let title := or_else (title m) video_id in
  let channel := or_else (channel m) "" in
  let upload_date := or_else (upload_date m) "" in
  let description := or_else (description m) "" in
  let url :=
    or_else (url m) ("https://www.youtube.com/watch?v=" +:+ video_id) in
  let keywords := join ", " (tags m) in
  let comment := "YouTubeID=" +:+ video_id +:+ " URL=" +:+ url in
  ["ffmpeg"; "-y"; "-i"; local_file]
  ++ attach_args fs thumb_path
  ++ metadata_arg "title" title
  ++ metadata_arg "artist" channel
  ++ metadata_arg "date" (date_tag upload_date)
  ++ metadata_arg "description" description
  ++ metadata_arg "keywords" keywords
  ++ metadata_arg "comment" comment
  ++ ["-c"; "copy"; tmp_path].

Definition base_ext (local_file : string) : string :=
  let e := snd (splitext local_file) in
  if truthy e then e else ".webm".

(** [try: os.unlink(p)  except Exception: pass] *)
Definition unlink_quietly (p : string) : M unit :=
  try_except (lift_fs (os_unlink p)) (fun _ => ret tt).

(** The [finally] clause of [embed_metadata]. *)
Definition remove_thumbnail (thumb_path : option string) : M unit :=
  match thumb_path with
  | Some t => unlink_quietly t
  | None => ret tt
  end.

(** The [try ... except ... finally] block of [embed_metadata]. *)
Definition tag_and_replace (E : extern) (local_file tmp_path : string)
    (thumb_path : option string) (m : metadata) (video_id : string)
  : M unit :=
  try_finally
    (try_except
       (fs <- get_fs ;;
        let cmd := embed_cmd fs local_file tmp_path thumb_path m video_id in
        subprocess_run_ffmpeg E cmd tmp_path ;;
        lift_fs (os_replace tmp_path local_file) ;;
        logging INFO ("[" +:+ video_id +:+ "] Metadata embedded successfully"))
       (fun e =>
          match e with
          | CalledProcessError =>
              logging EXCEPTION
                ("ffmpeg metadata embedding failed for " +:+ video_id) ;;
              unlink_quietly tmp_path
          | _ =>
              logging EXCEPTION
                ("Unexpected error during metadata embedding for "
                 +:+ video_id) ;;
              unlink_quietly tmp_path
          end))
    (remove_thumbnail thumb_path).

(** [embed_metadata(local_file, meta, video_id)] *)
Definition embed_metadata (E : extern) (local_file : string)
    (meta : option metadata) (video_id : string) : M unit :=
  match meta with
  | None => ret tt
  | Some m =>
      thumb_path <- download_thumbnail E (thumbnail_url m) video_id ;;
      tmp_path <- mkstemp E (".tagged" +:+ base_ext local_file)
                    (dirname local_file) ;;
      tag_and_replace E local_file tmp_path thumb_path m video_id
  end.

(** *** Final format conversion (the post-processing block of
    [download_with_ytdlp]) *)

Definition current_ext (chosen : string) : string :=
  lower (lstrip_dot (snd (splitext chosen))).

Definition converted_path (chosen desired_ext : string) : string :=
  fst (splitext chosen) +:+ "." +:+ desired_ext.

Definition remux_cmd (chosen converted : string) : list string :=
  ["ffmpeg"; "-y"; "-i"; chosen; "-c"; "copy"; converted].

Definition skip_message (vid : string) : string :=
  "[" +:+ vid +:+ "] Skipping mp4->webm container copy to avoid invalid file; consider final_format=mp4".

(** Returns the path that [chosen] names after the block. *)
Definition final_format_conversion (E : extern) (cfg : option config)
    (vid chosen : string) : M string :=
  let desired :=
    match cfg with Some c => final_format c | None => None end in
  match desired with
  | None => ret chosen
  | Some desired_ext =>
      if negb (truthy desired_ext) then ret chosen
      else
        let cur := current_ext chosen in
        if String.eqb cur "mp4" && String.eqb desired_ext "webm" then
          logging WARNING (skip_message vid) ;;
          ret chosen
        else if negb (String.eqb cur desired_ext) then
          let converted := converted_path chosen desired_ext in
          try_except
            (subprocess_run_ffmpeg E (remux_cmd chosen converted) converted ;;
             lift_fs (os_unlink chosen) ;;
             ret converted)
            (fun _ =>
               logging EXCEPTION
                 ("Final format conversion failed for " +:+ vid) ;;
               ret chosen)
        else ret chosen
  end.

(** *** yt-dlp (WEBM + MP4 fallback) *)

Definition MAX_VIDEO_RETRIES : nat := 4.

Definition EXTRACTOR_RETRIES : nat := 2.

Definition FORMAT_WEBM : string :=
  "bestvideo[ext=webm][height<=1080]+bestaudio[ext=webm]/"
  +:+ "bestvideo[ext=webm][height<=720]+bestaudio[ext=webm]/"
  +:+ "bestvideo[ext=mp4][height<=1080]+bestaudio[ext=m4a]/"
  +:+ "bestvideo[ext=mp4][height<=720]+bestaudio[ext=m4a]".

Definition headers (user_agent : string) : pyval :=
  PDict [("User-Agent", PStr user_agent);
         ("Accept-Language", PStr "en-US,en;q=0.9")].

Definition extractor_chain : list (string * pyval) :=
  [("android",
    headers "com.google.android.youtube/19.42.37 (Linux; Android 14)");
   ("tv_embedded",
    headers "Mozilla/5.0 (SmartTV; Linux; Tizen 6.5) AppleWebKit/537.36");
   ("web",
    headers ("Mozilla/5.0 (Macintosh; Intel Mac OS X 10_15_7)"
             +:+ " AppleWebKit/605.1.15 (KHTML, like Gecko) Safari/605.1.15"))].

(** The dictionary [opts] as first built for an attempt. *)
Definition base_opts (temp_dir client_name : string) (hdrs : pyval)
  : gmap string pyval :=
  list_to_map
    [("outtmpl", PStr (os_path_join temp_dir "%(id)s.%(ext)s"));
     ("paths", PDict [("temp", PStr "/tmp/yt-dlp")]);
     ("format", PStr FORMAT_WEBM);
     ("quiet", PBool true);
     ("continuedl", PBool true);
     ("socket_timeout", PInt 120);
     ("retries", PInt 5);
     ("forceipv4", PBool true);
     ("http_headers", hdrs);
     ("extractor_args",
      PDict [("youtube", PList [PStr ("player_client=" +:+ client_name)])]);
     ("remote_components", PList [PStr "ejs:github"])].

(** [opts.update(config.get("yt_dlp_opts") or {})] *)
Definition merge_config_opts (cfg : option config)
    (opts : gmap string pyval) : gmap string pyval :=
  match cfg with
  | Some c =>
      match yt_dlp_opts c with
      | Some o => o ∪ opts
      | None => opts
      end
  | None => opts
  end.

(** [opts["js_runtimes"] = ...]; the unpacking of
    [js_runtime.split(":", 1)] raises when there is no colon. *)
Definition add_js_runtime (js_runtime : option string)
    (opts : gmap string pyval) : res (gmap string pyval) :=
  match js_runtime with
  | None => Ok opts
  | Some r =>
      if truthy r then
        match split_once ":" r with
        | Some (runtime_name, runtime_path) =>
            Ok (<["js_runtimes" :=
                    PDict [(runtime_name,
                            PDict [("path", PStr runtime_path)])]]> opts)
        | None => Raise ValueError
        end
      else Ok opts
  end.

Definition attempt_opts (temp_dir : string) (js_runtime : option string)
    (cfg : option config) (client_name : string) (hdrs : pyval)
  : res (gmap string pyval) :=
  add_js_runtime js_runtime
    (merge_config_opts cfg (base_opts temp_dir client_name hdrs)).

(** The entries that an extraction left in [temp_dir]. *)
Definition populate (temp_dir : string) (files : list (string * inode))
  : FS :=
  map (fun e : string * inode => (os_path_join temp_dir (fst e), snd e))
      files.

(** [with YoutubeDL(opts) as ydl: info = ydl.extract_info(...)]; the
    result is the truth value of [info]. *)
Definition extract_info (E : extern) (opts : gmap string pyval)
    (video_url temp_dir : string) : M bool :=
  fun s =>
    let out := ydl_extract_info E (sys_clock s) opts video_url in
    let s' :=
      with_fs (sys_fs s ++ populate temp_dir (ydl_files out))
              (external (CallYdl opts video_url) s) in
    match ydl_res out with
    | YdlRaise => (Raise OtherError, s')
    | YdlNoInfo => (Ok false, s')
    | YdlInfo => (Ok true, s')
    end.

Fixpoint first_match (vid ext : string) (names : list string)
  : option string :=
  match names with
  | [] => None
  | f :: rest =>
      if startswith f vid && endswith f ext then Some f
      else first_match vid ext rest
  end.

(** "Prefer .webm if present, else accept mp4": the name chosen in a
    listing. *)
Definition choose_name (vid : string) (names : list string)
  : option string :=
  match first_match vid ".webm" names with
  | Some f => Some f
  | None => first_match vid ".mp4" names
  end.

Definition reset_temp_dir (temp_dir vid : string) : M unit :=
  fs <- get_fs ;;
  (if os_path_exists fs temp_dir then
     if is_partial_file_stuck fs temp_dir vid then
       logging WARNING
         ("[" +:+ vid +:+ "] Stuck partial detected, wiping temp_dir") ;;
       modify_fs (shutil_rmtree temp_dir)
     else ret tt
   else ret tt) ;;
  modify_fs (shutil_rmtree temp_dir) ;;
  lift_fs (os_makedirs temp_dir).

(** One iteration of the innermost loop; [Some p] stands for
    [return p], [None] for falling through to the next iteration. *)
Definition attempt_once (E : extern) (video_url temp_dir : string)
    (js_runtime : option string) (meta : option metadata)
    (cfg : option config) (vid client_name : string) (hdrs : pyval)
  : M (option string) :=
  reset_temp_dir temp_dir vid ;;
  opts <- lift_res (attempt_opts temp_dir js_runtime cfg client_name hdrs) ;;
  info <- try_except
            (i <- extract_info E opts video_url temp_dir ;; ret (Some i))
            (fun _ =>
               logging WARNING
                 ("[" +:+ vid +:+ "] " +:+ client_name +:+ " failed") ;;
               ret None) ;;
  match info with
  | None => ret None
  | Some false =>
      logging WARNING
        ("[" +:+ vid +:+ "] No info returned from extractor "
         +:+ client_name) ;;
      ret None
  | Some true =>
      fs <- get_fs ;;
      match choose_name vid (os_listdir fs temp_dir) with
      | Some f =>
          let chosen := os_path_join temp_dir f in
          logging INFO
            ("[" +:+ vid +:+ "] SUCCESS via " +:+ client_name +:+ " → "
             +:+ basename chosen) ;;
          embed_metadata E chosen meta vid ;;
          final <- final_format_conversion E cfg vid chosen ;;
          ret (Some final)
      | None =>
          logging WARNING
            ("[" +:+ vid +:+ "] Extractor " +:+ client_name
             +:+ " produced no usable output") ;;
          ret None
      end
  end.

(** [download_with_ytdlp(video_url, temp_dir, js_runtime, meta, config)];
    [Ok None] is the return value [None]. *)
Definition download_with_ytdlp (E : extern) (video_url temp_dir : string)
    (js_runtime : option string) (meta : option metadata)
    (cfg : option config) : M (option string) :=
  let vid := split_last "v=" video_url in
  r <- for_first (seq 0 MAX_VIDEO_RETRIES)
         (fun attempt =>
            logging INFO
              ("[" +:+ vid +:+ "] Download attempt "
               +:+ pretty (S attempt) +:+ "/"
               +:+ pretty MAX_VIDEO_RETRIES) ;;
            r <- for_first extractor_chain
                   (fun c =>
                      logging INFO
                        ("[" +:+ vid +:+ "] Trying extractor: " +:+ fst c) ;;
                      for_first (seq 0 EXTRACTOR_RETRIES)
                        (fun _ =>
                           attempt_once E video_url temp_dir js_runtime
                             meta cfg vid (fst c) (snd c))) ;;
            match r with
            | Some chosen => ret (Some chosen)
            | None =>
                logging WARNING
                  ("[" +:+ vid +:+ "] All extractors failed this attempt.") ;;
                ret None
            end) ;;
  match r with
  | Some chosen => ret (Some chosen)
  | None =>
      logging ERROR
        ("[" +:+ vid +:+ "] PERMANENT FAILURE after "
         +:+ pretty MAX_VIDEO_RETRIES +:+ " attempts.") ;;
      ret None
  end.

(** *** The plan of attempts and what the tests look for *)

(** The clients of the successive attempts: [MAX_VIDEO_RETRIES] passes
    over the chain, [EXTRACTOR_RETRIES] attempts per client. *)
Definition attempt_schedule : list (string * pyval) :=
  flat_map
    (fun _ : nat =>
       flat_map (fun c : string * pyval => repeat c EXTRACTOR_RETRIES)
                extractor_chain)
    (seq 0 MAX_VIDEO_RETRIES).

Definition opts_of (temp_dir : string) (js_runtime : option string)
    (cfg : option config) (c : string * pyval)
  : option (gmap string pyval) :=
  match attempt_opts temp_dir js_runtime cfg (fst c) (snd c) with
  | Ok o => Some o
  | Raise _ => None
  end.

(** The option dictionaries handed to [YoutubeDL], attempt by attempt,
    if no attempt succeeds. *)
Definition attempt_plan (temp_dir : string) (js_runtime : option string)
    (cfg : option config) : list (gmap string pyval) :=
  omap (opts_of temp_dir js_runtime cfg) attempt_schedule.

(** [step.get("extractor_args") is None] *)
Definition is_default_step (step : gmap string pyval) : bool :=
  match step !! "extractor_args" with
  | None | Some PNone => true
  | Some _ => false
  end.

(** ["best" in (step.get("format") or "")] *)
Definition has_best_format (step : gmap string pyval) : bool :=
  match step !! "format" with
  | Some (PStr f) => contains "best" f
  | _ => false
  end.

(** The two checks of [test_attempt_plan_has_default_and_best]. *)
Definition has_default (plan : list (gmap string pyval)) : bool :=
  existsb is_default_step plan.

Definition has_best (plan : list (gmap string pyval)) : bool :=
  existsb has_best_format plan.

(** Modelled from the spec: an attempt with no extractor-specific
    override, the default attempt of an AttemptPlan.  The function that
    builds the plans is missing, see below. *)
Definition default_attempt : gmap string pyval :=
  {[ "extractor_args" := PNone ]}.

(** Modelled from the spec: an attempt whose format selector is the
    generic best-quality fallback of an AttemptPlan.  The function that
    builds the plans is missing, see below. *)
Definition best_fallback_attempt : gmap string pyval :=
  {[ "format" := PStr "best" ]}.

(** Modelled from the spec: [engine.core._build_download_attempt_plan],
    which [tests/test_ytdlp_attempt_plan.py] calls with a strictness
    mode and which is not among the sources.  The spec (AttemptPlan)
    has the plan of every mode contain an attempt with no
    extractor-specific override and an attempt whose format selector is
    a generic best-quality fallback.  It does not say which other
    attempts a mode has: they are the parameter [mode_attempts]. *)
Definition build_download_attempt_plan
    (mode_attempts : string -> list (gmap string pyval)) (mode : string)
  : list (gmap string pyval) :=
  mode_attempts mode ++ [default_attempt; best_fallback_attempt].

(** [test_attempt_plan_has_default_and_best], for the plan of [mode]:
    both assertions hold. *)
Definition test_attempt_plan_has_default_and_best
    (mode_attempts : string -> list (gmap string pyval)) (mode : string)
  : bool :=
  let plan := build_download_attempt_plan mode_attempts mode in
  has_default plan && has_best plan.

(** The calls to [YoutubeDL] among the recorded calls. *)
Definition ydl_calls (s : sys) : list (gmap string pyval * string) :=
  omap (fun c => match c with
                 | CallYdl o u => Some (o, u)
                 | _ => None
                 end)
       (sys_calls s).

Definition ffmpeg_calls (s : sys) : list (list string) :=
  omap (fun c => match c with
                 | CallFfmpeg cmd => Some cmd
                 | _ => None
                 end)
       (sys_calls s).

(** The values [v] of the arguments [-metadata date=v] of an ffmpeg
    command. *)
Fixpoint date_arguments (cmd : list string) : list string :=
  match cmd with
  | [] => []
  | a :: rest =>
      (if String.eqb a "-metadata" then
         match rest with
         | b :: _ => if startswith b "date=" then [drop 5 b] else []
         | [] => []
         end
       else [])
      ++ date_arguments rest
  end.

(** The first argument of [cmd], if there is one, is not a date
    value. *)
Definition head_safe (cmd : list string) : Prop :=
  match cmd with
  | [] => True
  | b :: _ => startswith b "date=" = false
  end.

(** Every character of [s] is one of the decimal digits 0 to 9. *)
Definition decimal_digits (s : string) : bool :=
  all_chars (fun c => (48 <=? code c)%N && (code c <=? 57)%N) s.

(** The input file of an ffmpeg command of the script: what follows
    [ffmpeg -y -i]. *)
Definition ffmpeg_input (cmd : list string) : string := nth 3 cmd "".

(** The external calls made since the calls [c0] all satisfy [P]. *)
Definition calls_since (P : call -> Prop) (c0 : list call) (s : sys)
  : Prop :=
  exists added,
    sys_calls s = c0 ++ added /\ forall c, In c added -> P c.

(** The listing of a scratch directory that holds [files] only. *)
Definition scratch_listing (temp_dir : string)
    (files : list (string * inode)) : list string :=
  os_listdir (populate temp_dir files) temp_dir.

(** What yt-dlp answers to attempt number [k] of a download that starts
    at clock value [t0]. *)
Definition attempt_outcome (E : extern) (video_url temp_dir : string)
    (js_runtime : option string) (cfg : option config) (t0 k : nat)
  : option ydl_outcome :=
  match attempt_schedule !! k with
  | Some c =>
      match opts_of temp_dir js_runtime cfg c with
      | Some o => Some (ydl_extract_info E (t0 + k) o video_url)
      | None => None
      end
  | None => None
  end.

(** The name that attempt number [k] yields: there is one when yt-dlp
    returned an info dictionary and the scan of the scratch directory
    finds a file. *)
Definition attempt_hit (E : extern) (video_url temp_dir : string)
    (js_runtime : option string) (cfg : option config) (t0 k : nat)
  : option string :=
  match attempt_outcome E video_url temp_dir js_runtime cfg t0 k with
  | Some out =>
      match ydl_res out with
      | YdlInfo =>
          choose_name (split_last "v=" video_url)
            (scratch_listing temp_dir (ydl_files out))
      | _ => None
      end
  | None => None
  end.

(** [temp_dir] can be made a directory: once what lies there is
    removed, [os.makedirs] returns.  It does not when the path is
    empty, when it names a regular file, or when one of the ancestors
    that it needs is a regular file or cannot be made. *)
Definition temp_dir_ok (fs : FS) (temp_dir : string) : Prop :=
  exists fs', os_makedirs temp_dir (shutil_rmtree temp_dir fs) = Ok fs'.

(** The directory [d] is there, and so is the directory in which it
    lies. *)
Definition dir_ready (fs : FS) (d : string) : Prop :=
  fs_lookup d fs = Some new_dir
  /\ let head := fst (parent_and_name d) in
     truthy head = false \/ is_root head = true
     \/ os_path_isdir fs head = true.

(** The entries [created] are new directories at [name] or at shorter
    paths. *)
Definition made_for (name : string) (created : FS) : Prop :=
  forall p i, In (p, i) created ->
    i = new_dir
    /\ (p = name \/ (String.length p < String.length name)%nat).

(** A temporary file can be created whenever the script asks for one. *)
Definition tempfile_ok (E : extern) : Prop :=
  forall t, mkstemp_random E t <> None.

(** The path that [download_with_ytdlp] returns for the file [chosen]:
    [chosen] itself, or the converted path when a final format is
    configured. *)
Definition returned_path (cfg : option config) (chosen p : string) : Prop :=
  p = chosen \/
  exists c desired,
    cfg = Some c /\ final_format c = Some desired /\
    truthy desired = true /\ p = converted_path chosen desired.

(** The calls to yt-dlp so far are [c]. *)
Definition ydl_inv (c : list (gmap string pyval * string)) (s : sys)
  : Prop :=
  ydl_calls s = c.

(** Between attempts: [k] attempts were made since the clock value
    [t0], the scratch path can be made a directory, and the calls to
    yt-dlp so far are [calls0] followed by the first [k] of the plan. *)
Definition engine_inv (video_url temp_dir : string)
    (plan : list (gmap string pyval))
    (calls0 : list (gmap string pyval * string)) (t0 k : nat) (s : sys)
  : Prop :=
  sys_clock s = (t0 + k)%nat /\
  temp_dir_ok (sys_fs s) temp_dir /\
  ydl_calls s
  = calls0 ++ map (fun o => (o, video_url)) (firstn k plan).

(** After the first hit, at attempt [k]. *)
Definition engine_post (video_url temp_dir : string) (cfg : option config)
    (plan : list (gmap string pyval))
    (calls0 : list (gmap string pyval * string))
    (hit : nat -> option string) (k : nat) (p : string) (s : sys) : Prop :=
  exists f,
    hit k = Some f /\
    returned_path cfg (os_path_join temp_dir f) p /\
    ydl_calls s
    = calls0 ++ map (fun o => (o, video_url)) (firstn (S k) plan).

(** The configuration does not rebind key [k] of the options. *)
Definition not_overridden (cfg : option config) (k : string) : Prop :=
  forall c o, cfg = Some c -> yt_dlp_opts c = Some o -> o !! k = None.

(** The runtime hint can be unpacked: absent, empty, or with a colon. *)
Definition js_runtime_ok (js_runtime : option string) : Prop :=
  forall r, js_runtime = Some r -> truthy r = true ->
            exists a b, split_once ":" r = Some (a, b).

End Sys.

(* ===================================================================== *)
(** ** The run: ledger, background copies and [run_once] *)
(* ===================================================================== *)

Module Run.
Import PyStr Sys.

(** *** Filename helpers *)

(** The characters that the first substitution removes: backslash,
    slash, colon, star, question mark, double quote, angle brackets and
    the vertical bar. *)
Definition unsafe_char (c : ascii) : bool :=
  let n := code c in
  ((n =? 92) || (n =? 47) || (n =? 58) || (n =? 42) || (n =? 63)
   || (n =? 34) || (n =? 60) || (n =? 62) || (n =? 124))%N.

Fixpoint remove_chars (p : ascii -> bool) (s : string) : string :=
  match s with
  | EmptyString => EmptyString
  | String a s' =>
      if p a then remove_chars p s' else String a (remove_chars p s')
  end.

(** The second substitution: every run of white space becomes one
    space. *)
Fixpoint collapse_spaces (in_space : bool) (s : string) : string :=
  match s with
  | EmptyString => EmptyString
  | String a s' =>
      if isspace_char a
      then if in_space then collapse_spaces true s'
           else String " " (collapse_spaces true s')
      else String a (collapse_spaces false s')
  end.

(** [sanitize_for_filesystem(name)], with [maxlen=180]; the NFC
    normalisation leaves the first 256 code points as they are. *)
Definition sanitize_for_filesystem (name : option string) : string :=
  match name with
  | None => ""
  | Some n =>
      if truthy n then
        let n1 := remove_chars unsafe_char n in
        let n2 := strip (collapse_spaces false n1) in
        if (len n2 >? 180) then rstrip (take 180 n2) else n2
      else ""
  end.

(** [pretty_filename(title, channel, upload_date)] *)
Definition pretty_filename (title channel upload_date : option string)
  : string :=
  let title_s := sanitize_for_filesystem title in
  let channel_s := sanitize_for_filesystem channel in
  let d := or_else upload_date "" in
  if truthy d && (len d =? 8) && isdigit d then
    let mm := slice 4 6 d in
    let yyyy := slice 0 4 d in
    title_s +:+ " - " +:+ channel_s +:+ " (" +:+ mm +:+ "-" +:+ yyyy +:+ ")"
  else title_s +:+ " - " +:+ channel_s.

(** *** The playlist source *)

(** An API client is known by the account it was built for. *)
Definition client : Type := string.

(** One element of the result of [get_playlist_videos]. *)
Record entry := {
  videoId : option string;
  playlistItemId : option string
}.

(** The [snippet] of a [videos().list] item. *)
Record snippet := {
  publishedAt : option string;
  sn_title : option string;
  channelTitle : option string;
  sn_description : option string;
  sn_tags : list string;
  thumbnails : gmap string string  (* size name -> url *)
}.

(** One row of the table [downloads]; the key is [video_id]. *)
Record ledger_row := {
  row_playlist : string;
  row_downloaded_at : nat;
  row_filepath : string
}.

(** What [after_copy] binds as default arguments when it is defined,
    with the arguments of [async_copy]. *)
Record job := {
  job_src : string;
  job_dst : string;
  job_video_id : string;
  job_playlist : string;
  job_entry_id : option string;
  job_temp : string;
  job_remove : bool;
  job_yt_service : client
}.

(** The calls of the run, in order; those that work on an item carry
    its identifier. *)
Inductive event :=
| EvListPlaylist (yt : client) (playlist_id : string)
| EvGetMetadata (yt : client) (vid : string)
| EvDownload (vid video_url temp_dir : string)
| EvCopyStart (vid src dst : string)
| EvCopyDone (vid : string) (success : bool)
| EvDeleteItem (yt : client) (entry_id : string)
| EvNotify (message : string).

(** The collaborators of a run. *)
Record services := {
  ext : extern;
  pid : string;
  environ_js_runtime : option string;
  which : string -> option string;
  load_credentials : nat -> string -> res unit;
  playlist_items : nat -> client -> string -> res (list entry);
  videos_list : nat -> client -> string -> res (list snippet);
  percent_format :
    string -> string -> string -> string -> string -> res string;
  copy2 : nat -> string -> string -> bool;
  db_connect : nat -> bool;
  db_write : nat -> bool;
  delete_item : nat -> client -> string -> bool;
  urlopen : nat -> string -> bool;
  scheduler : nat -> list nat
}.

(** The state of a run.  [cleaned_name] is the local variable of
    [run_once] of that name: [after_copy] reads it through its closure
    when it is called, whereas the fields of a [job] were bound when
    [after_copy] was defined. *)
Record run_state := {
  sys_of : sys;
  ledger : gmap string ledger_row;
  run_successes : list string;
  run_failures : list (option string);
  yt_clients : gmap string (option client);
  cleaned_name : string;
  pending_copies : list job;
  finished : list nat;
  trace : list event
}.

Definition R (A : Type) : Type := ST run_state A.

Definition with_sys (s : sys) (st : run_state) : run_state :=
  {| sys_of := s; ledger := ledger st; run_successes := run_successes st;
     run_failures := run_failures st; yt_clients := yt_clients st;
     cleaned_name := cleaned_name st; pending_copies := pending_copies st;
     finished := finished st; trace := trace st |}.

Definition with_ledger (l : gmap string ledger_row) (st : run_state)
  : run_state :=
  {| sys_of := sys_of st; ledger := l; run_successes := run_successes st;
     run_failures := run_failures st; yt_clients := yt_clients st;
     cleaned_name := cleaned_name st; pending_copies := pending_copies st;
     finished := finished st; trace := trace st |}.

Definition with_successes (l : list string) (st : run_state) : run_state :=
  {| sys_of := sys_of st; ledger := ledger st; run_successes := l;
     run_failures := run_failures st; yt_clients := yt_clients st;
     cleaned_name := cleaned_name st; pending_copies := pending_copies st;
     finished := finished st; trace := trace st |}.

Definition with_failures (l : list (option string)) (st : run_state)
  : run_state :=
  {| sys_of := sys_of st; ledger := ledger st;
     run_successes := run_successes st;
     run_failures := l; yt_clients := yt_clients st;
     cleaned_name := cleaned_name st; pending_copies := pending_copies st;
     finished := finished st; trace := trace st |}.

Definition with_clients (c : gmap string (option client)) (st : run_state)
  : run_state :=
  {| sys_of := sys_of st; ledger := ledger st;
     run_successes := run_successes st;
     run_failures := run_failures st; yt_clients := c;
     cleaned_name := cleaned_name st; pending_copies := pending_copies st;
     finished := finished st; trace := trace st |}.

Definition with_cleaned_name (n : string) (st : run_state) : run_state :=
  {| sys_of := sys_of st; ledger := ledger st;
     run_successes := run_successes st;
     run_failures := run_failures st; yt_clients := yt_clients st;
     cleaned_name := n; pending_copies := pending_copies st;
     finished := finished st; trace := trace st |}.

Definition with_pending (l : list job) (st : run_state) : run_state :=
  {| sys_of := sys_of st; ledger := ledger st;
     run_successes := run_successes st;
     run_failures := run_failures st; yt_clients := yt_clients st;
     cleaned_name := cleaned_name st; pending_copies := l;
     finished := finished st; trace := trace st |}.

Definition with_finished (l : list nat) (st : run_state) : run_state :=
  {| sys_of := sys_of st; ledger := ledger st;
     run_successes := run_successes st;
     run_failures := run_failures st; yt_clients := yt_clients st;
     cleaned_name := cleaned_name st; pending_copies := pending_copies st;
     finished := l; trace := trace st |}.

Definition with_trace (l : list event) (st : run_state) : run_state :=
  {| sys_of := sys_of st; ledger := ledger st;
     run_successes := run_successes st;
     run_failures := run_failures st; yt_clients := yt_clients st;
     cleaned_name := cleaned_name st; pending_copies := pending_copies st;
     finished := finished st; trace := l |}.

Definition get {S} : ST S S := fun st => (Ok st, st).

Definition modify {S} (f : S -> S) : ST S unit := fun st => (Ok tt, f st).

(** A step of the lower layer, run on the system part of the state. *)
Definition lift_sys {A} (m : M A) : R A :=
  fun st =>
    match m (sys_of st) with
    | (r, s') => (r, with_sys s' st)
    end.

Definition log (l : level) (msg : string) : R unit :=
  lift_sys (logging l msg).

Definition emit (e : event) : R unit :=
  modify (fun st => with_trace (trace st ++ [e]) st).

(** The clock value for an oracle; the clock advances. *)
Definition now : R nat :=
  fun st => (Ok (sys_clock (sys_of st)), with_sys (tick (sys_of st)) st).

(** *** Config + API *)

Definition or_opt (a b : option string) : option string :=
  match a with
  | Some x => if truthy x then a else b
  | None => b
  end.

(** [resolve_js_runtime(config)] *)
Definition resolve_js_runtime (S : services) (cfg : config)
  : option string :=
  let detect :=
    match which S "deno" with
    | Some d => Some ("deno:" +:+ d)
    | None =>
        match which S "node" with
        | Some n => Some ("node:" +:+ n)
        | None => None
        end
    end in
  match or_opt (js_runtime_cfg cfg) (environ_js_runtime S) with
  | Some r => if truthy r then Some r else detect
  | None => detect
  end.

(** The body of the loop of [build_youtube_clients] for one account. *)
Definition build_client (S : services) (acc : string * option string)
  : R unit :=
  let name := fst acc in
  match snd acc with
  | None =>
      log ERROR ("Account " +:+ name
                 +:+ " has no 'token' path configured; skipping")
  | Some token_path =>
      if truthy token_path then
        t <- now ;;
        match load_credentials S t token_path with
        | Ok _ =>
            modify (fun st =>
                      with_clients (<[name := Some name]> (yt_clients st)) st)
        | Raise RefreshError =>
            log ERROR ("OAuth refresh failed for account " +:+ name)
        | Raise _ =>
            log EXCEPTION
              ("Failed to initialize YouTube client for account " +:+ name)
        end
      else
        log ERROR ("Account " +:+ name
                   +:+ " has no 'token' path configured; skipping")
  end.

(** [get_playlist_videos(youtube, playlist_id)]; the oracle gives the
    entries of all pages, or the exception of the first call that
    fails. *)
Definition get_playlist_videos (S : services) (yt : client)
    (playlist_id : string) : R (list entry) :=
  emit (EvListPlaylist yt playlist_id) ;;
  t <- now ;;
  lift_res (playlist_items S t yt playlist_id).

Fixpoint remove_dashes (s : string) : string :=
  match s with
  | EmptyString => EmptyString
  | String "-" s' => remove_dashes s'
  | String a s' => String a (remove_dashes s')
  end.

Definition metadata_of_snippet (snip : snippet) (video_id : string)
  : metadata :=
  let t := thumbnails snip in
  {| title := sn_title snip;
     channel := channelTitle snip;
     upload_date :=
       Some (remove_dashes
               (take 10 (match publishedAt snip with
                         | Some d => d
                         | None => ""
                         end)));
     description := Some (or_else (sn_description snip) "");
     tags := sn_tags snip;
     url := Some ("https://www.youtube.com/watch?v=" +:+ video_id);
     thumbnail_url :=
       or_opt (t !! "maxres")
         (or_opt (t !! "standard")
            (or_opt (t !! "high")
               (or_opt (t !! "medium") (t !! "default")))) |}.

(** [get_video_metadata(youtube, video_id)] *)
Definition get_video_metadata (S : services) (yt : client)
    (video_id : string) : R (option metadata) :=
  emit (EvGetMetadata yt video_id) ;;
  t <- now ;;
  items <- lift_res (videos_list S t yt video_id) ;;
  match items with
  | [] => ret None
  | snip :: _ => ret (Some (metadata_of_snippet snip video_id))
  end.

(** *** Async copy worker and its completion callback *)

Definition DB_PATH : string := "database/db.sqlite".

(** [init_db()]: the directory of the database is made, the database
    file is opened, and created if it is not there, and the table is
    created if the file does not have it.  [sqlite3] raises
    OperationalError when the file cannot be opened, as for a path that
    names a directory, or cannot be written. *)
Definition init_db (S : services) : R unit :=
  lift_sys (lift_fs (os_makedirs (dirname DB_PATH))) ;;
  t <- now ;;
  st <- get ;;
  let fs := sys_fs (sys_of st) in
  if os_path_isdir fs DB_PATH then raise OperationalError
  else if db_connect S t then
    if os_path_exists fs DB_PATH then ret tt
    else lift_sys (modify_fs (fun fs => fs ++ [(DB_PATH, empty_file)]))
  else raise OperationalError.

(** The [INSERT INTO downloads] of [after_copy], on a connection of its
    own; [video_id] is the primary key. *)
Definition db_insert (S : services) (video_id playlist dst : string)
  : R unit :=
  t <- now ;;
  st <- get ;;
  match ledger st !! video_id with
  | Some _ => raise OtherError
  | None =>
      if db_write S t then
        modify (with_ledger
                  (<[video_id :=
                       {| row_playlist := playlist;
                          row_downloaded_at := t;
                          row_filepath := dst |}]> (ledger st)))
      else raise OtherError
  end.

Definition playlist_item_delete (S : services) (yt : client)
    (entry_id : string) : R unit :=
  emit (EvDeleteItem yt entry_id) ;;
  t <- now ;;
  if delete_item S t yt entry_id then ret tt else raise HttpError.

(** [after_copy(success, dst)] for the item of job [j]. *)
Definition after_copy (S : services) (success : bool) (dst : string)
    (j : job) : R unit :=
  emit (EvCopyDone (job_video_id j) success) ;;
  (if success then
     log INFO ("Copy OK → " +:+ dst) ;;
     modify (fun st =>
               with_successes (run_successes st ++ [cleaned_name st]) st) ;;
     try_except
       (db_insert S (job_video_id j) (job_playlist j) dst)
       (fun _ =>
          log EXCEPTION ("DB insert failed for " +:+ job_video_id j))
   else
     log ERROR ("Copy FAILED for " +:+ job_video_id j) ;;
     modify (fun st =>
               with_failures
                 (run_failures st ++ [Some (cleaned_name st)]) st)) ;;
  lift_sys (modify_fs (shutil_rmtree (job_temp j))) ;;
  match job_entry_id j with
  | Some entry_id =>
      if success && job_remove j && truthy entry_id then
        try_except
          (playlist_item_delete S (job_yt_service j) entry_id)
          (fun _ =>
             log EXCEPTION ("Failed removing " +:+ job_video_id j))
      else ret tt
  | None => ret tt
  end.

(** [shutil.copy2(src, dst)] *)
Definition shutil_copy2 (S : services) (src dst : string) : R unit :=
  t <- now ;;
  st <- get ;;
  let fs := sys_fs (sys_of st) in
  match fs_lookup src fs with
  | None => raise FileNotFoundError
  | Some i =>
      if is_dir i then raise IsADirectoryError
      else if copy2 S t src dst then
        let target :=
          if os_path_isdir fs dst then os_path_join dst (basename src)
          else dst in
        lift_sys (modify_fs (fs_put target i))
      else raise OSError
  end.

(** The function [run] of [async_copy], the body of the thread. *)
Definition copy_thread (S : services) (j : job) : R unit :=
  try_except
    (lift_sys (lift_fs (os_makedirs (dirname (job_dst j)))) ;;
     shutil_copy2 S (job_src j) (job_dst j) ;;
     after_copy S true (job_dst j) j)
    (fun _ =>
       log EXCEPTION "Copy failed" ;;
       after_copy S false (job_dst j) j).

(** [async_copy(src, dst, after_copy)] followed by
    [pending_copies.append(t)]: the thread is started. *)
Definition async_copy (j : job) : R unit :=
  emit (EvCopyStart (job_video_id j) (job_src j) (job_dst j)) ;;
  modify (fun st => with_pending (pending_copies st ++ [j]) st).

(** Thread number [i] runs to its end, if it was started and has not
    ended yet.  An exception that escapes the thread ends the thread
    only. *)
Definition complete (S : services) (i : nat) : R unit :=
  st <- get ;;
  match pending_copies st !! i with
  | Some j =>
      if existsb (Nat.eqb i) (finished st) then ret tt
      else
        modify (fun st => with_finished (i :: finished st) st) ;;
        try_except (copy_thread S j) (fun _ => ret tt)
  | None => ret tt
  end.

(** A point at which the main thread can be overtaken: the threads
    picked by the scheduler end here, in the order it gives. *)
Definition run_ready (S : services) : R unit :=
  t <- now ;;
  for_each (scheduler S t) (complete S).

(** [for t in pending_copies: t.join()] *)
Definition join_all (S : services) : R unit :=
  run_ready S ;;
  st <- get ;;
  for_each (seq 0 (length (pending_copies st))) (complete S).

(** *** Main pipeline *)

Definition LOCK_FILE : string := "/tmp/yt_archiver.lock".

Definition nl : string := String (ascii_of_nat 10) EmptyString.

Definition show (x : option string) : string :=
  match x with Some t => t | None => "None" end.

(** The extension of the final name. *)
Definition final_ext (cfg : config) (local_file : string) : string :=
  match final_format cfg with
  | Some e =>
      if truthy e then e
      else
        let x := lstrip_dot (snd (splitext local_file)) in
        if truthy x then x else "webm"
  | None =>
      let x := lstrip_dot (snd (splitext local_file)) in
      if truthy x then x else "webm"
  end.

Definition default_name (m : metadata) (vid ext : string) : string :=
  pretty_filename (title m) (channel m) (upload_date m)
  +:+ "_" +:+ take 8 vid +:+ "." +:+ ext.

(** The name under which the item is filed and reported. *)
Definition build_name (S : services) (cfg : config) (m : metadata)
    (vid ext : string) : string :=
  match filename_template cfg with
  | Some template =>
      if truthy template then
        match percent_format S template
                (sanitize_for_filesystem (Some (or_else (title m) vid)))
                (sanitize_for_filesystem (Some (or_else (channel m) "")))
                (or_else (upload_date m) "") ext with
        | Ok n => n
        | Raise _ => default_name m vid ext
        end
      else default_name m vid ext
  | None => default_name m vid ext
  end.

(** What follows the ledger check in the body of the loop over the
    entries of a playlist.  [Some tt] stands for [break], [None] for
    going on with the next entry. *)
Definition process_item (S : services) (cfg : config) (pl : playlist)
    (yt : client) (js_runtime : option string) (e : entry) (vid : string)
  : R (option unit) :=
  fetched <-
    try_except
      (m <- get_video_metadata S yt vid ;; ret (inl m))
      (fun ex =>
         match ex with
         | HttpError =>
             log EXCEPTION ("Metadata fetch failed " +:+ vid) ;;
             ret (inr None)
         | RefreshError =>
             log ERROR ("OAuth refresh failed for account " +:+ account pl
                        +:+ " while fetching video " +:+ vid) ;;
             modify (fun st =>
                       with_failures
                         (run_failures st ++ [Some (vid +:+ " (auth)")])
                         st) ;;
             modify (fun st =>
                       with_clients
                         (<[account pl := None]> (yt_clients st)) st) ;;
             ret (inr (Some tt))
         | _ => raise ex
         end) ;;
  match fetched with
  | inr ctl => ret ctl
  | inl None =>
      log WARNING ("Skipping " +:+ vid +:+ ": no metadata") ;;
      ret None
  | inl (Some m) =>
      log INFO ("START download: " +:+ vid
                +:+ " (" +:+ show (title m) +:+ ")") ;;
      let video_url := show (url m) in
      let temp_dir := os_path_join "temp_downloads" vid in
      emit (EvDownload vid video_url temp_dir) ;;
      local_file <-
        lift_sys (download_with_ytdlp (ext S) video_url temp_dir
                    js_runtime (Some m) (Some cfg)) ;;
      run_ready S ;;
      match local_file with
      | None =>
          log WARNING ("Download FAILED: " +:+ vid) ;;
          modify (fun st =>
                    with_failures (run_failures st ++ [title m]) st) ;;
          lift_sys (modify_fs (shutil_rmtree temp_dir)) ;;
          ret None
      | Some local_file =>
          let ext := final_ext cfg local_file in
          let name := build_name S cfg m vid ext in
          modify (with_cleaned_name name) ;;
          let final_path := os_path_join (folder pl) name in
          async_copy
            {| job_src := local_file; job_dst := final_path;
               job_video_id := vid; job_playlist := playlist_id pl;
               job_entry_id := playlistItemId e; job_temp := temp_dir;
               job_remove := remove_after_download pl;
               job_yt_service := yt |} ;;
          log INFO "COPY started in background → next download begins" ;;
          ret None
      end
  end.

(** The body of [for entry in videos]. *)
Definition process_entry (S : services) (cfg : config) (pl : playlist)
    (yt : client) (js_runtime : option string) (e : entry)
  : R (option unit) :=
  run_ready S ;;
  match videoId e with
  | None => ret None
  | Some vid =>
      if negb (truthy vid) then ret None
      else
        st <- get ;;
        match ledger st !! vid with
        | Some _ => ret None
        | None => process_item S cfg pl yt js_runtime e vid
        end
  end.

(** The body of [for pl in playlists]. *)
Definition process_playlist (S : services) (cfg : config)
    (js_runtime : option string) (pl : playlist) : R unit :=
  run_ready S ;;
  st <- get ;;
  match mjoin (yt_clients st !! account pl) with
  | None =>
      log ERROR ("No valid YouTube client for account '" +:+ account pl
                 +:+ "'; skipping playlist " +:+ playlist_id pl) ;;
      modify (fun st =>
                with_failures
                  (run_failures st ++ [Some (playlist_id pl +:+ " (auth)")])
                  st)
  | Some yt =>
      fetched <-
        try_except
          (v <- get_playlist_videos S yt (playlist_id pl) ;; ret (Some v))
          (fun ex =>
             match ex with
             | HttpError =>
                 log EXCEPTION ("Playlist fetch failed " +:+ playlist_id pl) ;;
                 ret None
             | RefreshError =>
                 log ERROR ("OAuth refresh failed for account "
                            +:+ account pl +:+ " while fetching playlist "
                            +:+ playlist_id pl) ;;
                 modify (fun st =>
                           with_failures
                             (run_failures st
                              ++ [Some (playlist_id pl +:+ " (auth)")]) st) ;;
                 modify (fun st =>
                           with_clients
                             (<[account pl := None]> (yt_clients st)) st) ;;
                 ret None
             | _ => raise ex
             end) ;;
      match fetched with
      | None => ret tt
      | Some videos =>
          for_first videos (process_entry S cfg pl yt js_runtime) ;;
          ret tt
      end
  end.

(** The loop [for pl in playlists] of [run_once]. *)
Definition run_playlists (S : services) (cfg : config)
    (js_runtime : option string) (pls : list playlist) : R unit :=
  for_each pls (process_playlist S cfg js_runtime).

Definition bullets {A} (f : A -> string) (l : list A) : string :=
  join nl (map (fun t => "• " +:+ f t) l).

Definition summary (successes : list string)
    (failures : list (option string)) : string :=
  "YouTube Archiver Summary" +:+ nl
  +:+ "✔ Success: " +:+ pretty (length successes) +:+ nl
  +:+ "✖ Failed: " +:+ pretty (length failures) +:+ nl +:+ nl
  +:+ (match successes with
       | [] => ""
       | _ => "Downloaded:" +:+ nl +:+ bullets id successes +:+ nl +:+ nl
       end)
  +:+ (match failures with
       | [] => ""
       | _ => "Failed:" +:+ nl +:+ bullets show failures
       end).

(** [telegram_notify(config, message)] *)
Definition telegram_notify (S : services) (cfg : config) (message : string)
  : R unit :=
  match telegram cfg with
  | Some (Some token, Some chat_id) =>
      if truthy token && truthy chat_id then
        emit (EvNotify message) ;;
        t <- now ;;
        if urlopen S t message then ret tt
        else log ERROR "Telegram notify failed"
      else ret tt
  | _ => ret tt
  end.

(** The [finally] block of [run_once].  When the loop over the
    playlists was left by an exception, the copy threads were not
    joined: they go on while the block runs, and can end before the
    lists are read, while the request is sent, and before the lock file
    is removed. *)
Definition finish (S : services) (cfg : config) : R unit :=
  run_ready S ;;
  try_except
    (st <- get ;;
     (match run_successes st, run_failures st with
      | [], [] => ret tt
      | ok, ko =>
          let msg := summary ok ko in
          run_ready S ;;
          telegram_notify S cfg msg
      end) ;;
     run_ready S ;;
     lift_sys (lift_fs (os_unlink LOCK_FILE)))
    (fun ex =>
       match ex with
       | FileNotFoundError => ret tt
       | _ => raise ex
       end).

Definition rule : string :=
  nl +:+ String.concat "" (repeat "-" 80) +:+ nl.

Definition initial (s : sys) (l : gmap string ledger_row) : run_state :=
  {| sys_of := s; ledger := l; run_successes := []; run_failures := [];
     yt_clients := ∅; cleaned_name := ""; pending_copies := [];
     finished := []; trace := [] |}.

(** [config[key]] *)
Definition config_key {A} (x : option A) : R A :=
  match x with
  | Some a => ret a
  | None => raise KeyError
  end.

(** [run_once(config)], from the system state [s] and the rows [l] of
    the table [downloads]. *)
Definition run_once (S : services) (cfg : config) (s : sys)
    (l : gmap string ledger_row) : res unit * run_state :=
  (if os_path_exists (sys_fs s) LOCK_FILE then
     log WARNING "Lockfile present — skipping run"
   else
     lift_sys (lift_fs (write_file LOCK_FILE (pid S))) ;;
     init_db S ;;
     accounts <- config_key (accounts cfg) ;;
     playlists <- config_key (playlists cfg) ;;
     let js_runtime := resolve_js_runtime S cfg in
     for_each accounts (build_client S) ;;
     try_finally
       (run_playlists S cfg js_runtime playlists ;;
        join_all S ;;
        log INFO rule ;;
        log INFO "Run complete." ;;
        log INFO (rule +:+ " " +:+ nl +:+ " " +:+ nl +:+ " " +:+ nl))
       (finish S cfg))
    (initial s l).

(** *** What the properties of a run speak about *)

(** The calls that work on item [vid]: the metadata fetch, the
    download (extraction, embedding and conversion) and the copy. *)
Definition works_on (vid : string) (e : event) : Prop :=
  match e with
  | EvGetMetadata _ v => v = vid
  | EvDownload v _ _ => v = vid
  | EvCopyStart v _ _ => v = vid
  | EvCopyDone v _ => v = vid
  | _ => False
  end.

(** Item [vid] is in the ledger, nothing has worked on it, and no
    copy of it is under way. *)
Definition dedup_inv (vid : string) (st : run_state) : Prop :=
  is_Some (ledger st !! vid)
  /\ (forall e, In e (trace st) -> ~ works_on vid e)
  /\ (forall j, In j (pending_copies st) -> job_video_id j <> vid).

(** The external call [c] is one of the download of item [v]: yt-dlp on
    the URL of the item, ffmpeg on a file of its scratch directory, or
    a request for a thumbnail. *)
Definition call_for (v : string) (c : call) : Prop :=
  match c with
  | CallYdl _ u => u = "https://www.youtube.com/watch?v=" +:+ v
  | CallFfmpeg cmd =>
      exists f,
        ffmpeg_input cmd
        = os_path_join (os_path_join "temp_downloads" v) f
  | CallGet _ => True
  end.

(** Every external call made since the calls [c0] is one of the
    download of an item other than [vid]. *)
Definition calls_inv (c0 : list call) (vid : string) (s : sys) : Prop :=
  calls_since (fun c => exists v, v <> vid /\ call_for v c) c0 s.

(** The invariant of the ledger check: item [vid] keeps the row it had
    when the run started, nothing has worked on it, no copy of it is
    under way, and no external program was called for it. *)
Definition gate_inv (c0 : list call) (row : ledger_row) (vid : string)
    (st : run_state) : Prop :=
  ledger st !! vid = Some row
  /\ dedup_inv vid st
  /\ calls_inv c0 vid (sys_of st).

(** *** What the properties of a file name speak about *)

(** No character of [s] is one that [sanitize_for_filesystem] removes. *)
Definition safe_name (s : string) : bool :=
  all_chars (fun c => negb (unsafe_char c)) s.

(** The only white space in [s] is the space character, and no two
    spaces follow each other; [in_space] tells whether a space comes
    just before [s]. *)
Fixpoint single_spaced (in_space : bool) (s : string) : bool :=
  match s with
  | EmptyString => true
  | String a s' =>
      if isspace_char a
      then Ascii.eqb a " " && negb in_space && single_spaced true s'
      else single_spaced false s'
  end.

(** *** What the properties of the copy threads speak about *)

Definition is_copy_start (e : event) : bool :=
  match e with EvCopyStart _ _ _ => true | _ => false end.

Definition is_copy_done (e : event) : bool :=
  match e with EvCopyDone _ _ => true | _ => false end.

Definition is_copy_ok (e : event) : bool :=
  match e with EvCopyDone _ true => true | _ => false end.

(** The events of the playlist loop, other than the start of a copy. *)
Definition is_main_event (e : event) : bool :=
  match e with
  | EvListPlaylist _ _ | EvGetMetadata _ _ | EvDownload _ _ _ => true
  | _ => false
  end.

Definition is_notify (e : event) : bool :=
  match e with EvNotify _ => true | _ => false end.

(** The request that the [finally] block of [run_once] sends in state
    [st]: the summary of the run lists, when one of them is not empty
    and the configuration names a bot token and a chat. *)
Definition summary_event (cfg : config) (st : run_state) : list event :=
  match run_successes st, run_failures st with
  | [], [] => []
  | ok, ko =>
      match telegram cfg with
      | Some (Some token, Some chat_id) =>
          if truthy token && truthy chat_id
          then [EvNotify (summary ok ko)]
          else []
      | _ => []
      end
  end.

(** The number of threads started, of callbacks that ran, and of
    callbacks that ran for a successful copy. *)
Definition copies_started (st : run_state) : nat :=
  length (List.filter is_copy_start (trace st)).

Definition copies_ended (st : run_state) : nat :=
  length (List.filter is_copy_done (trace st)).

Definition copies_ok (st : run_state) : nat :=
  length (List.filter is_copy_ok (trace st)).

(** The request that [after_copy] sends to the playlist, if any. *)
Definition delete_events (success : bool) (j : job) : list event :=
  match job_entry_id j with
  | Some entry_id =>
      if success && job_remove j && truthy entry_id
      then [EvDeleteItem (job_yt_service j) entry_id]
      else []
  | None => []
  end.

(** The row that [after_copy] writes for job [j] at time [t]. *)
Definition row_of (j : job) (t : nat) : ledger_row :=
  {| row_playlist := job_playlist j;
     row_downloaded_at := t;
     row_filepath := job_dst j |}.

(** From [st] to [st'], the callback of job [j] ran once, with
    [success]: what it did to the run lists, the ledger and the
    trace. *)
Definition callback_ran (success : bool) (j : job) (st st' : run_state)
  : Prop :=
  pending_copies st' = pending_copies st
  /\ finished st' = finished st
  /\ cleaned_name st' = cleaned_name st
  /\ yt_clients st' = yt_clients st
  /\ trace st'
     = trace st ++ EvCopyDone (job_video_id j) success
                   :: delete_events success j
  /\ run_successes st'
     = (if success then run_successes st ++ [cleaned_name st]
        else run_successes st)
  /\ run_failures st'
     = (if success then run_failures st
        else run_failures st ++ [Some (cleaned_name st)])
  /\ (ledger st' = ledger st
      \/ (success = true /\ ledger st !! job_video_id j = None
          /\ exists t,
               ledger st' = <[job_video_id j := row_of j t]> (ledger st)))
  /\ sys_fs (sys_of st')
     = shutil_rmtree (job_temp j) (sys_fs (sys_of st)).

(** The bookkeeping of the threads agrees with the trace: one thread
    per copy started, one callback per thread that ended, and no thread
    ended twice. *)
Definition threads_inv (st : run_state) : Prop :=
  copies_started st = length (pending_copies st)
  /\ copies_ended st = length (finished st)
  /\ List.NoDup (finished st)
  /\ forall i, In i (finished st) -> (i < length (pending_copies st))%nat.

(** Every thread that was started has ended. *)
Definition all_joined (st : run_state) : Prop :=
  threads_inv st
  /\ forall i, (i < length (pending_copies st))%nat -> In i (finished st).

(** Every row of the ledger was there when the run started with the
    rows [l], or is the row of a job of this run whose copy ended
    successfully. *)
Definition rows_inv (l : gmap string ledger_row) (st : run_state) : Prop :=
  forall v row,
    ledger st !! v = Some row ->
    l !! v = Some row
    \/ (In (EvCopyDone v true) (trace st)
        /\ exists j t,
             In j (pending_copies st) /\ job_video_id j = v
             /\ row = row_of j t).

(** Every request to remove a playlist item is that of a job of this
    run that asks for it and whose copy ended successfully. *)
Definition removals_inv (st : run_state) : Prop :=
  forall yt entry_id,
    In (EvDeleteItem yt entry_id) (trace st) ->
    exists j,
      In j (pending_copies st)
      /\ job_entry_id j = Some entry_id /\ job_remove j = true
      /\ job_yt_service j = yt
      /\ In (EvCopyDone (job_video_id j) true) (trace st).

End Run.


(* ===================================================================== *)
(** ** Concrete inputs *)
(* ===================================================================== *)

Module Scenario.
Import PyStr Sys Run.

Definition clip_dir : string := "temp_downloads/abc".

Definition clip_webm : string := "temp_downloads/abc/abc.webm".

Definition clip_mp4 : string := "temp_downloads/abc/abc.mp4".

Definition clip_url : string := "https://www.youtube.com/watch?v=abc".

(** An environment in which every external program succeeds; yt-dlp
    leaves the file [<id>.webm] in the scratch directory. *)
Definition fair : extern :=
  {| ydl_extract_info := fun _ _ u =>
       {| ydl_res := YdlInfo;
          ydl_files :=
            [(split_last "v=" u +:+ ".webm", regular "vp9+opus")] |};
     requests_get := fun _ _ => HttpBody "jpeg";
     ffmpeg := fun _ _ _ => ProcOk "remuxed";
     mkstemp_random := fun _ => Some "k3x9_ab1" |}.

(** The environment [fair] on a device that has no room for a new
    file. *)
Definition full_disk : extern :=
  {| ydl_extract_info := ydl_extract_info fair;
     requests_get := requests_get fair;
     ffmpeg := ffmpeg fair;
     mkstemp_random := fun _ => None |}.

(** An environment in which yt-dlp and ffmpeg always fail. *)
Definition hostile : extern :=
  {| ydl_extract_info := fun _ _ _ =>
       {| ydl_res := YdlRaise; ydl_files := [] |};
     requests_get := fun _ _ => HttpRaise;
     ffmpeg := fun _ _ _ => ProcFailed None;
     mkstemp_random := fun _ => Some "k3x9_ab1" |}.

Definition sys_with (fs : FS) : sys :=
  {| sys_fs := fs; sys_clock := 0; sys_log := []; sys_calls := [] |}.

(** A scratch directory that holds the finished file [abc.webm]. *)
Definition finished_webm : sys :=
  sys_with [(clip_dir, new_dir); (clip_webm, regular "vp9+opus")].

(** A scratch directory that holds the finished file [abc.mp4]. *)
Definition finished_mp4 : sys :=
  sys_with [(clip_dir, new_dir); (clip_mp4, regular "h264+aac")].

Definition config_with (fmt : option string) (pls : list playlist)
  : config :=
  {| accounts := Some [("main", Some "tokens/main.json")];
     playlists := Some pls;
     final_format := fmt;
     filename_template := None;
     yt_dlp_opts := None;
     js_runtime_cfg := None;
     telegram := None |}.

Definition sample_meta : metadata :=
  {| title := Some "Foo"; channel := Some "Bar";
     upload_date := Some "20230115"; description := Some "";
     tags := []; url := Some clip_url;
     thumbnail_url := Some "https://i.ytimg.com/vi/abc/hq.jpg" |}.

(** A scratch directory with a small partial file, one with a large
    partial file, and one whose partial file cannot be read. *)
Definition partial (size : option Z) : FS :=
  [(clip_dir, new_dir);
   ("temp_downloads/abc/abc.f248.webm.part",
    {| is_dir := false; st_size := size; data := "" |})].

(** A scratch directory with two partial files of the item, one
    stalled and one that has grown past the threshold, and the file of
    another item between them. *)
Definition two_partials : FS :=
  [(clip_dir, new_dir);
   ("temp_downloads/abc/abc.f251.webm.part",
    {| is_dir := false; st_size := Some 700000; data := "" |});
   ("temp_downloads/abc/xyz.webm", regular "other");
   ("temp_downloads/abc/abc.f248.webm.part",
    {| is_dir := false; st_size := Some 1000; data := "" |})].

(** *** Runs *)

Definition library : playlist :=
  {| playlist_id := "PL1"; folder := "/library"; account := "main";
     remove_after_download := false |}.

Definition item (vid : string) : entry :=
  {| videoId := Some vid; playlistItemId := Some ("item-" +:+ vid) |}.

Definition snippet_of (vid : string) : snippet :=
  {| publishedAt := Some "2023-01-15T10:00:00Z";
     sn_title := Some ("Video " +:+ vid);
     channelTitle := Some "Chan";
     sn_description := None;
     sn_tags := [];
     thumbnails := ∅ |}.

(** The collaborators of a run: the listing of every playlist is
    [listing], a copy succeeds when [copy_ok] accepts its source, and the
    threads end when [sched] says so. *)
Definition services_with (listing : res (list entry))
    (copy_ok : string -> bool) (sched : nat -> list nat) : services :=
  {| ext := fair;
     pid := "4242";
     environ_js_runtime := None;
     which := fun _ => None;
     load_credentials := fun _ _ => Ok tt;
     playlist_items := fun _ _ _ => listing;
     videos_list := fun _ _ vid => Ok [snippet_of vid];
     percent_format := fun _ _ _ _ _ => Raise OtherError;
     copy2 := fun _ src _ => copy_ok src;
     db_connect := fun _ => true;
     db_write := fun _ => true;
     delete_item := fun _ _ _ => true;
     urlopen := fun _ _ => true;
     scheduler := sched |}.

Definition one_playlist : config := config_with None [library].

(** The collaborators [S] on a device that has no room for a new
    file. *)
Definition on_full_disk (S : services) : services :=
  {| ext := full_disk;
     pid := pid S;
     environ_js_runtime := environ_js_runtime S;
     which := which S;
     load_credentials := load_credentials S;
     playlist_items := playlist_items S;
     videos_list := videos_list S;
     percent_format := percent_format S;
     copy2 := copy2 S;
     db_connect := db_connect S;
     db_write := db_write S;
     delete_item := delete_item S;
     urlopen := urlopen S;
     scheduler := scheduler S |}.

(** A configuration file without the key [accounts], which the
    configuration editor never adds. *)
Definition no_accounts : config :=
  {| accounts := None;
     playlists := Some [library];
     final_format := None;
     filename_template := None;
     yt_dlp_opts := None;
     js_runtime_cfg := None;
     telegram := None |}.

(** A configuration that names the JS runtime. *)
Definition with_hint (hint : string) : config :=
  {| accounts := Some [("main", Some "tokens/main.json")];
     playlists := Some [library];
     final_format := None;
     filename_template := None;
     yt_dlp_opts := None;
     js_runtime_cfg := Some hint;
     telegram := None |}.

(** The collaborators of [services_with] on a machine that has deno. *)
Definition with_deno (S : services) : services :=
  {| ext := ext S;
     pid := pid S;
     environ_js_runtime := environ_js_runtime S;
     which := fun name =>
       if String.eqb name "deno" then Some "/usr/bin/deno" else None;
     load_credentials := load_credentials S;
     playlist_items := playlist_items S;
     videos_list := videos_list S;
     percent_format := percent_format S;
     copy2 := copy2 S;
     db_connect := db_connect S;
     db_write := db_write S;
     delete_item := delete_item S;
     urlopen := urlopen S;
     scheduler := scheduler S |}.

(** Two items; the copy of the first one fails. *)
Definition first_copy_fails (sched : nat -> list nat) : services :=
  services_with (Ok [item "aaa"; item "bbb"])
    (fun src => negb (contains "aaa" src)) sched.

(** No thread ends before the join. *)
Definition late : nat -> list nat := fun _ => [].

(** Every thread ends at the first opportunity. *)
Definition prompt : nat -> list nat := fun _ => [0; 1]%nat.

Definition name_of (vid : string) : string :=
  default_name (metadata_of_snippet (snippet_of vid) vid) vid "webm".

(** A run under way: the client of account main is built. *)
Definition under_way : run_state :=
  with_clients {[ "main" := Some "main" ]} (initial (sys_with []) ∅).

Definition ledger_with (vid : string) : gmap string ledger_row :=
  {[ vid := {| row_playlist := "PL1"; row_downloaded_at := 0;
               row_filepath := "/library/old.webm" |} ]}.

End Scenario.

(* ===================================================================== *)
(** * Properties *)
(* ===================================================================== *)

(** ** The file system *)

Section FileSystem.
Import PyStr Sys.

Lemma eqb_false_ne (p q : string) : p <> q -> String.eqb p q = false.
Proof. intros H. now apply String.eqb_neq. Qed.

Lemma fs_lookup_app (p : string) (a b : FS) :
  fs_lookup p (a ++ b) =
  match fs_lookup p a with Some i => Some i | None => fs_lookup p b end.
Proof.
  induction a as [|[q i] a IH]; simpl; [reflexivity|].
  destruct (String.eqb p q); [reflexivity | exact IH].
Qed.

Lemma fs_lookup_delete_eq (p : string) (fs : FS) :
  fs_lookup p (fs_delete p fs) = None.
Proof.
  unfold fs_delete.
  induction fs as [|[q i] fs IH]; simpl; [reflexivity|].
  destruct (String.eqb p q) eqn:E; simpl; [exact IH|].
  rewrite E. exact IH.
Qed.

Lemma fs_lookup_delete_ne (p q : string) (fs : FS) :
  p <> q -> fs_lookup q (fs_delete p fs) = fs_lookup q fs.
Proof.
  intros Hne. unfold fs_delete.
  induction fs as [|[r i] fs IH]; simpl; [reflexivity|].
  destruct (String.eqb p r) eqn:E; simpl.
  - apply String.eqb_eq in E. subst r.
    rewrite eqb_false_ne by congruence. exact IH.
  - destruct (String.eqb q r); [reflexivity | exact IH].
Qed.

Lemma fs_lookup_map_put (p q : string) (i : inode) (fs : FS) :
  fs_lookup q
    (map (fun e : string * inode =>
            if String.eqb p (fst e) then (fst e, i) else e) fs)
  = if String.eqb p q
    then match fs_lookup q fs with Some _ => Some i | None => None end
    else fs_lookup q fs.
Proof.
  induction fs as [|[r j] fs IH]; simpl.
  - now destruct (String.eqb p q).
  - destruct (String.eqb p r) eqn:Epr; simpl.
    + apply String.eqb_eq in Epr. subst r.
      destruct (String.eqb q p) eqn:Eqp.
      * apply String.eqb_eq in Eqp. subst q. now rewrite String.eqb_refl.
      * exact IH.
    + destruct (String.eqb q r) eqn:Eqr.
      * apply String.eqb_eq in Eqr. subst r. now rewrite Epr.
      * exact IH.
Qed.

Lemma fs_lookup_put_eq (p : string) (i : inode) (fs : FS) :
  fs_lookup p (fs_put p i fs) = Some i.
Proof.
  unfold fs_put, os_path_exists.
  destruct (fs_lookup p fs) eqn:E.
  - rewrite fs_lookup_map_put, String.eqb_refl, E. reflexivity.
  - rewrite fs_lookup_app, E. simpl. now rewrite String.eqb_refl.
Qed.

Lemma fs_lookup_put_ne (p q : string) (i : inode) (fs : FS) :
  p <> q -> fs_lookup q (fs_put p i fs) = fs_lookup q fs.
Proof.
  intros Hne. unfold fs_put, os_path_exists.
  destruct (fs_lookup p fs) eqn:E.
  - rewrite fs_lookup_map_put, eqb_false_ne by assumption. reflexivity.
  - rewrite fs_lookup_app. destruct (fs_lookup q fs); [reflexivity|].
    simpl. rewrite eqb_false_ne by congruence. reflexivity.
Qed.

Lemma fs_lookup_filter_keep (f : string * inode -> bool) (p : string)
    (fs : FS) :
  (forall i, f (p, i) = true) ->
  fs_lookup p (List.filter f fs) = fs_lookup p fs.
Proof.
  intros Hk.
  induction fs as [|[q i] fs IH]; simpl; [reflexivity|].
  destruct (String.eqb p q) eqn:E.
  - apply String.eqb_eq in E. subst q. rewrite Hk. simpl.
    now rewrite String.eqb_refl.
  - destruct (f (q, i)); simpl; [rewrite E|]; exact IH.
Qed.

Lemma fs_lookup_filter_drop (f : string * inode -> bool) (p : string)
    (fs : FS) :
  (forall i, f (p, i) = false) ->
  fs_lookup p (List.filter f fs) = None.
Proof.
  intros Hk.
  induction fs as [|[q i] fs IH]; simpl; [reflexivity|].
  destruct (f (q, i)) eqn:Ef; simpl; [|exact IH].
  destruct (String.eqb p q) eqn:E; [|exact IH].
  apply String.eqb_eq in E. subst q. congruence.
Qed.

Lemma under_self (d : string) : under d d = true.
Proof. unfold under. now rewrite String.eqb_refl. Qed.

(** After [rmtree], the path is free unless it names a regular file. *)
Lemma rmtree_lookup_self (d : string) (fs : FS) :
  fs_lookup d (shutil_rmtree d fs) =
  match fs_lookup d fs with
  | Some i => if is_dir i then None else Some i
  | None => None
  end.
Proof.
  unfold shutil_rmtree.
  destruct (fs_lookup d fs) as [i|] eqn:E.
  - destruct (is_dir i); [|exact E].
    apply fs_lookup_filter_drop. intros j. simpl. now rewrite under_self.
  - apply fs_lookup_filter_drop. intros j. simpl. now rewrite under_self.
Qed.

Lemma rmtree_lookup_other (d p : string) (fs : FS) :
  under d p = false ->
  fs_lookup p (shutil_rmtree d fs) = fs_lookup p fs.
Proof.
  intros Hu. unfold shutil_rmtree.
  destruct (fs_lookup d fs) as [i|]; [destruct (is_dir i)|];
    try reflexivity;
    apply fs_lookup_filter_keep; intros j; simpl; now rewrite Hu.
Qed.

Lemma strip_prefix_prefix (pre s n : string) :
  strip_prefix pre s = Some n -> String.prefix pre s = true.
Proof.
  revert s. induction pre as [|a pre IH]; intros s H.
  - now destruct s.
  - destruct s as [|b s]; simpl in *; [discriminate|].
    destruct (Ascii.eqb a b) eqn:E; [|discriminate].
    apply Ascii.eqb_eq in E. subst b.
    destruct (ascii_dec a a); [|congruence]. eauto.
Qed.

Lemma child_under (d p n : string) :
  child_name d p = Some n -> under d p = true.
Proof.
  unfold child_name, under. intros H.
  destruct (strip_prefix (dir_prefix d) p) as [m|] eqn:E; [|discriminate].
  apply strip_prefix_prefix in E. rewrite E. apply orb_true_r.
Qed.

Lemma listdir_app (a b : FS) (d : string) :
  os_listdir (a ++ b) d = os_listdir a d ++ os_listdir b d.
Proof. unfold os_listdir. apply omap_app. Qed.

Lemma listdir_rmtree_dir (d : string) (fs : FS) :
  (forall i, fs_lookup d fs = Some i -> is_dir i = true) ->
  os_listdir (shutil_rmtree d fs) d = [].
Proof.
  intros Hd. unfold shutil_rmtree.
  assert (H : os_listdir
                (List.filter
                   (fun e : string * inode => negb (under d (fst e))) fs) d
              = []).
  { unfold os_listdir. clear Hd.
    induction fs as [|[q i] fs IH]; simpl; [reflexivity|].
    destruct (under d q) eqn:Eu; simpl; [exact IH|].
    destruct (child_name d q) as [n|] eqn:Ec; simpl.
    - apply child_under in Ec. congruence.
    - exact IH. }
  destruct (fs_lookup d fs) as [i|] eqn:E; [|exact H].
  rewrite (Hd i eq_refl). exact H.
Qed.

Lemma child_name_self (d : string) : child_name d d = None.
Proof.
  unfold child_name, dir_prefix.
  destruct (negb (truthy d) || endswith d "/") eqn:E.
  - assert (Hs : strip_prefix d d = Some "").
    { clear E. induction d as [|a d IH]; simpl; [reflexivity|].
      now rewrite Ascii.eqb_refl. }
    rewrite Hs. reflexivity.
  - assert (Hs : forall x, strip_prefix (d +:+ x) d = Some "" \/
                           strip_prefix (d +:+ x) d = None).
    { clear E. intros x. induction d as [|a d IH]; simpl.
      - destruct x; auto.
      - rewrite Ascii.eqb_refl. exact IH. }
    destruct (Hs "/") as [H|H]; rewrite H; reflexivity.
Qed.

End FileSystem.

(** ** Python strings *)

Section Strings.
Import PyStr.

Lemma append_cons (a : ascii) (s t : string) :
  String a s +:+ t = String a (s +:+ t).
Proof. reflexivity. Qed.

Lemma append_nil (t : string) : "" +:+ t = t.
Proof. reflexivity. Qed.

Lemma append_length (a b : string) :
  String.length (a +:+ b) = (String.length a + String.length b)%nat.
Proof.
  induction a as [|c a IH]; simpl; [reflexivity | now rewrite IH].
Qed.

Lemma app_assoc_str (a b c : string) : (a +:+ b) +:+ c = a +:+ (b +:+ c).
Proof.
  induction a as [|x a IH]; [reflexivity|].
  rewrite !append_cons. now rewrite IH.
Qed.

Lemma app_nil_r_str (a : string) : a +:+ "" = a.
Proof.
  induction a as [|x a IH]; [reflexivity|]. rewrite append_cons. now rewrite IH.
Qed.

Lemma rev_app_spec (s acc : string) :
  String.rev_app s acc = String.rev s +:+ acc.
Proof.
  unfold String.rev. revert acc.
  induction s as [|a s IH]; intros acc; [reflexivity|].
  cbn [String.rev_app]. rewrite IH, (IH (String a "")).
  now rewrite app_assoc_str.
Qed.

Lemma rev_cons (a : ascii) (s : string) :
  String.rev (String a s) = String.rev s +:+ String a "".
Proof. unfold String.rev at 1. cbn [String.rev_app]. apply rev_app_spec. Qed.

Lemma rev_app_distr (a b : string) :
  String.rev (a +:+ b) = String.rev b +:+ String.rev a.
Proof.
  induction a as [|x a IH].
  - rewrite append_nil. change (String.rev "") with "".
    now rewrite app_nil_r_str.
  - rewrite append_cons, !rev_cons, IH. apply app_assoc_str.
Qed.

Lemma rev_snoc (a : ascii) (s : string) :
  String.rev (s +:+ String a "") = String a (String.rev s).
Proof. rewrite rev_app_distr. reflexivity. Qed.

Lemma rev_length_str (s : string) :
  String.length (String.rev s) = String.length s.
Proof.
  induction s as [|a s IH]; [reflexivity|].
  rewrite rev_cons, append_length, IH. simpl. lia.
Qed.

Lemma rev_empty (s : string) : String.rev s = "" -> s = "".
Proof.
  intros H. apply (f_equal String.length) in H. rewrite rev_length_str in H.
  destruct s; [reflexivity | discriminate H].
Qed.

Lemma lstrip_snoc (x : string) (a : ascii) :
  lstrip (x +:+ String a "")
  = if String.eqb (lstrip x) ""
    then (if isspace_char a then "" else String a "")
    else lstrip x +:+ String a "".
Proof.
  induction x as [|b x IH]; [reflexivity|].
  rewrite append_cons. cbn [lstrip].
  destruct (isspace_char b); [exact IH | reflexivity].
Qed.

(** [rstrip] by recursion on the string. *)
Lemma rstrip_cons (a : ascii) (s : string) :
  rstrip (String a s)
  = if String.eqb (rstrip s) "" && isspace_char a then ""
    else String a (rstrip s).
Proof.
  unfold rstrip. rewrite rev_cons, lstrip_snoc.
  destruct (String.eqb_spec (lstrip (String.rev s)) "") as [E|E].
  - rewrite E. change (String.rev "") with "". cbn [String.eqb andb].
    now destruct (isspace_char a).
  - rewrite rev_snoc.
    destruct (String.eqb_spec (String.rev (lstrip (String.rev s))) "")
      as [E'|E']; [|reflexivity].
    apply rev_empty in E'. contradiction.
Qed.

Lemma rstrip_nil : rstrip "" = "".
Proof. reflexivity. Qed.

Lemma lstrip_length (s : string) :
  (String.length (lstrip s) <= String.length s)%nat.
Proof.
  induction s as [|a s IH]; [reflexivity|]. cbn [lstrip].
  destruct (isspace_char a); simpl; lia.
Qed.

Lemma rstrip_length (s : string) :
  (String.length (rstrip s) <= String.length s)%nat.
Proof.
  unfold rstrip. rewrite rev_length_str.
  etransitivity; [apply lstrip_length|]. now rewrite rev_length_str.
Qed.

Lemma take_length (n : nat) (s : string) :
  (String.length (take n s) <= n)%nat.
Proof.
  unfold take. revert n. induction s as [|a s IH]; intros [|n]; simpl;
    try lia.
  specialize (IH n). lia.
Qed.

Lemma take_cons (n : nat) (a : ascii) (s : string) :
  take (S n) (String a s) = String a (take n s).
Proof. reflexivity. Qed.

Lemma take_all (n : nat) (s : string) :
  (String.length s <= n)%nat -> take n s = s.
Proof.
  unfold take. revert n. induction s as [|a s IH]; intros [|n] H;
    simpl in *; try reflexivity; try lia.
  rewrite IH by lia. reflexivity.
Qed.

(** *** Properties of every character *)

Variable p : ascii -> bool.

Lemma all_chars_app (a b : string) :
  all_chars p (a +:+ b) = all_chars p a && all_chars p b.
Proof.
  induction a as [|x a IH]; [reflexivity|].
  rewrite append_cons. cbn [all_chars]. rewrite IH. apply andb_assoc.
Qed.

Lemma all_chars_rev (s : string) :
  all_chars p (String.rev s) = all_chars p s.
Proof.
  induction s as [|a s IH]; [reflexivity|].
  rewrite rev_cons, all_chars_app, IH. cbn [all_chars].
  rewrite andb_true_r. apply andb_comm.
Qed.

Lemma all_chars_lstrip (s : string) :
  all_chars p s = true -> all_chars p (lstrip s) = true.
Proof.
  induction s as [|a s IH]; [reflexivity|]. cbn [lstrip].
  destruct (isspace_char a); [|tauto].
  cbn [all_chars]. intros H. apply andb_true_iff in H. tauto.
Qed.

Lemma all_chars_rstrip (s : string) :
  all_chars p s = true -> all_chars p (rstrip s) = true.
Proof.
  intros H. unfold rstrip. rewrite all_chars_rev.
  apply all_chars_lstrip. now rewrite all_chars_rev.
Qed.

Lemma all_chars_substring (i n : nat) (s : string) :
  all_chars p s = true -> all_chars p (String.substring i n s) = true.
Proof.
  revert i n. induction s as [|a s IH]; intros i n H.
  - destruct i, n; reflexivity.
  - cbn [all_chars] in H. apply andb_true_iff in H as [Ha Hs].
    destruct i as [|i]; [destruct n as [|n]|]; cbn [String.substring].
    + reflexivity.
    + cbn [all_chars]. rewrite Ha. now apply IH.
    + now apply IH.
Qed.

Lemma all_chars_impl (q : ascii -> bool) (s : string) :
  (forall c, q c = true -> p c = true) ->
  all_chars q s = true -> all_chars p s = true.
Proof.
  intros Hqp. induction s as [|a s IH]; [reflexivity|].
  cbn [all_chars]. intros H. apply andb_true_iff in H as [Ha Hs].
  now rewrite (Hqp a Ha), IH.
Qed.

End Strings.


(** ** Paths and directories *)

Section Paths.
Import PyStr Sys.

Lemma truthy_length (s : string) :
  truthy s = true -> (0 < String.length s)%nat.
Proof. destruct s; [discriminate | simpl; lia]. Qed.

Lemma take_drop (i : nat) (s : string) : take i s +:+ drop i s = s.
Proof.
  unfold take. revert i. induction s as [|a s IH]; intros [|i]; try reflexivity.
  cbn [String.substring drop]. rewrite append_cons, IH. reflexivity.
Qed.

Lemma take_drop_length (i : nat) (s : string) :
  (String.length (take i s) + String.length (drop i s))%nat
  = String.length s.
Proof. rewrite <- append_length, take_drop. reflexivity. Qed.

Lemma rstrip_slash_rev_length (r : string) :
  (String.length (rstrip_slash_rev r) <= String.length r)%nat.
Proof.
  induction r as [|a r IH]; [reflexivity|].
  cbn [rstrip_slash_rev].
  destruct (ascii_dec a "/") as [->|Hne].
  - simpl. lia.
  - assert (H : rstrip_slash_rev (String a r) = String a r).
    { destruct a as [[] [] [] [] [] [] [] []]; try reflexivity.
      congruence. }
    cbn [rstrip_slash_rev] in H. rewrite H. reflexivity.
Qed.

Lemma dirname_length (p : string) :
  (String.length (dirname p) + String.length (basename p)
   <= String.length p)%nat.
Proof.
  unfold dirname, basename.
  set (i := Z.to_nat (rfind "/" p + 1)).
  pose proof (take_drop_length i p) as H.
  destruct (truthy (take i p) && negb (all_chars (Ascii.eqb "/") (take i p)));
    [|lia].
  rewrite rev_length_str.
  pose proof (rstrip_slash_rev_length (String.rev (take i p))) as H1.
  rewrite rev_length_str in H1. lia.
Qed.

(** *** The last character of a path *)

Lemma rev_rev (s : string) : String.rev (String.rev s) = s.
Proof.
  induction s as [|a s IH]; [reflexivity|].
  now rewrite rev_cons, rev_snoc, IH.
Qed.

Lemma snoc_cases (s : string) :
  s = "" \/ exists x a, s = x +:+ String a "".
Proof.
  destruct (String.rev s) as [|a r] eqn:E.
  - left. now apply rev_empty.
  - right. exists (String.rev r), a.
    apply (f_equal String.rev) in E.
    now rewrite rev_rev, rev_cons in E.
Qed.

Lemma rfind_from_app (c : ascii) (a b : string) (i acc : Z) :
  rfind_from c (a +:+ b) i acc
  = rfind_from c b (i + Z.of_nat (String.length a)) (rfind_from c a i acc).
Proof.
  revert i acc. induction a as [|x a IH]; intros i acc.
  - rewrite append_nil. simpl. now rewrite Z.add_0_r.
  - rewrite append_cons. cbn [rfind_from String.length]. rewrite IH.
    f_equal. lia.
Qed.

Lemma rfind_from_bound (c : ascii) (s : string) (i acc : Z) :
  (acc < i)%Z ->
  (rfind_from c s i acc < i + Z.of_nat (String.length s))%Z
  /\ (acc <= rfind_from c s i acc)%Z.
Proof.
  revert i acc. induction s as [|a s IH]; intros i acc H.
  - simpl. lia.
  - cbn [rfind_from String.length].
    destruct (Ascii.eqb a c).
    + destruct (IH (i + 1)%Z i ltac:(lia)). lia.
    + destruct (IH (i + 1)%Z acc ltac:(lia)). lia.
Qed.

Lemma drop_nonempty (n : nat) (s : string) :
  (n < String.length s)%nat -> truthy (drop n s) = true.
Proof.
  revert n. induction s as [|a s IH]; intros n H; [simpl in H; lia|].
  destruct n as [|n]; [reflexivity|]. cbn [drop]. apply IH. simpl in H. lia.
Qed.

Lemma drop_all (n : nat) (s : string) :
  (String.length s <= n)%nat -> drop n s = "".
Proof.
  revert n. induction s as [|a s IH]; intros n H; [now destruct n|].
  destruct n as [|n]; [simpl in H; lia|]. cbn [drop]. apply IH.
  simpl in H. lia.
Qed.

Lemma rfind_snoc (c a : ascii) (x : string) :
  rfind c (x +:+ String a "")
  = if Ascii.eqb a c then Z.of_nat (String.length x) else rfind c x.
Proof.
  unfold rfind. rewrite rfind_from_app. simpl. reflexivity.
Qed.

(** A path that does not end with a slash has a last component. *)
Lemma basename_snoc (x : string) (a : ascii) :
  a <> "/"%char -> truthy (basename (x +:+ String a "")) = true.
Proof.
  intros Ha. unfold basename. rewrite rfind_snoc.
  destruct (Ascii.eqb a "/") eqn:E; [apply Ascii.eqb_eq in E; congruence|].
  apply drop_nonempty. rewrite append_length. simpl.
  destruct (rfind_from_bound "/" x 0 (-1) ltac:(lia)) as [H1 H2].
  fold (rfind "/" x) in H1, H2. lia.
Qed.

Lemma rstrip_slash_rev_other (a : ascii) (r : string) :
  a <> "/"%char -> rstrip_slash_rev (String a r) = String a r.
Proof.
  intros Ha. destruct a as [[] [] [] [] [] [] [] []]; try reflexivity.
  congruence.
Qed.

(** The directory part of a path is shorter than the path, unless the
    path is empty or the root. *)
Lemma parent_shorter (name : string) :
  truthy name = true -> is_root name = false ->
  (String.length (fst (parent_and_name name)) < String.length name)%nat.
Proof.
  intros Ht Hr. unfold parent_and_name, os_path_split.
  pose proof (dirname_length name) as Hd.
  destruct (truthy (basename name)) eqn:Eb.
  - apply truthy_length in Eb. simpl. lia.
  - cbn [fst].
    pose proof (dirname_length (dirname name)) as Hd2.
    destruct (snoc_cases name) as [->|(x & a & ->)]; [discriminate|].
    destruct (ascii_dec a "/") as [->|Hne];
      [|rewrite basename_snoc in Eb by exact Hne; discriminate].
    (* the path ends with a slash, which [dirname] strips *)
    assert (Hlen : (String.length (dirname (x +:+ "/")) <= String.length x)%nat).
    { unfold dirname. rewrite rfind_snoc. cbn [Ascii.eqb Bool.eqb andb].
      change (Ascii.eqb "/" "/") with true. cbv iota.
      replace (Z.to_nat (Z.of_nat (String.length x) + 1))
        with (String.length (x +:+ "/")) by (rewrite append_length; simpl; lia).
      unfold take. rewrite take_all by lia. fold (take 0 "").
      unfold is_root in Hr. rewrite Ht in Hr. simpl in Hr.
      rewrite Ht, Hr. cbn [andb negb].
      rewrite rev_length_str, rev_snoc. cbn [rstrip_slash_rev].
      pose proof (rstrip_slash_rev_length (String.rev x)) as H.
      rewrite rev_length_str in H. exact H. }
    rewrite append_length. simpl. lia.
Qed.

Lemma prefix_longer (p s : string) :
  (String.length s < String.length p)%nat -> String.prefix p s = false.
Proof.
  revert p. induction s as [|b s IH]; intros [|a p] H; simpl in *;
    try lia; try reflexivity.
  destruct (ascii_dec a b); [apply IH; lia | reflexivity].
Qed.

Lemma eqb_longer (p s : string) :
  (String.length s < String.length p)%nat -> String.eqb s p = false.
Proof.
  intros H. apply eqb_false_ne. intros ->. lia.
Qed.

Lemma dir_prefix_length (d : string) :
  (String.length d <= String.length (dir_prefix d))%nat.
Proof.
  unfold dir_prefix. destruct (negb (truthy d) || endswith d "/"); [lia|].
  rewrite append_length. lia.
Qed.

(** A shorter path does not lie in the directory. *)
Lemma under_shorter (d p : string) :
  (String.length p < String.length d)%nat -> under d p = false.
Proof.
  intros H. unfold under. rewrite eqb_longer by exact H.
  rewrite prefix_longer; [reflexivity|].
  pose proof (dir_prefix_length d). lia.
Qed.

Lemma strip_prefix_longer (pre s : string) :
  (String.length s < String.length pre)%nat -> strip_prefix pre s = None.
Proof.
  revert s. induction pre as [|a pre IH]; intros [|b s] H; simpl in *;
    try lia; try reflexivity.
  destruct (Ascii.eqb a b); [apply IH; lia | reflexivity].
Qed.

Lemma child_name_shorter (d p : string) :
  (String.length p < String.length d)%nat -> child_name d p = None.
Proof.
  intros H. unfold child_name. rewrite strip_prefix_longer; [reflexivity|].
  pose proof (dir_prefix_length d). lia.
Qed.

End Paths.

(** ** [os.makedirs] *)

Section Makedirs.
Import PyStr Sys.

Lemma fs_lookup_in (p : string) (i : inode) (fs : FS) :
  fs_lookup p fs = Some i -> In (p, i) fs.
Proof.
  induction fs as [|[q j] fs IH]; simpl; [discriminate|].
  destruct (String.eqb p q) eqn:E.
  - apply String.eqb_eq in E. intros [= ->]. left. congruence.
  - auto.
Qed.

Lemma made_for_nil (name : string) : made_for name [].
Proof. intros p i []. Qed.

Lemma made_for_one (name : string) : made_for name [(name, new_dir)].
Proof. intros p i [[= <- <-]|[]]. auto. Qed.

Lemma made_for_up (head name : string) (created : FS) :
  (String.length head < String.length name)%nat ->
  made_for head created -> made_for name (created ++ [(name, new_dir)]).
Proof.
  intros Hlt Hc p i Hin. apply in_app_iff in Hin.
  destruct Hin as [Hin|[[= <- <-]|[]]]; [|auto].
  destruct (Hc p i Hin) as [-> [->|H]]; split; auto; right; lia.
Qed.

Lemma fs_lookup_made (name p : string) (created : FS) (i : inode) :
  made_for name created -> fs_lookup p created = Some i -> i = new_dir.
Proof.
  intros Hc Hl. apply fs_lookup_in in Hl. now destruct (Hc p i Hl).
Qed.

Lemma fs_lookup_not_made (name p : string) (created : FS) :
  made_for name created ->
  (String.length name < String.length p)%nat ->
  fs_lookup p created = None.
Proof.
  intros Hc Hlt. destruct (fs_lookup p created) as [i|] eqn:E; [|reflexivity].
  apply fs_lookup_in in E. destruct (Hc p i E) as [_ [->|H]]; lia.
Qed.

(** [mkdir] returns when the path is free and lies in a directory. *)
Lemma mkdir_exist_ok_free (name : string) (fs : FS) :
  fs_lookup name fs = None -> is_root name = false ->
  match mkdir_exist_ok name fs with
  | Ok fs' =>
      fs' = fs ++ [(name, new_dir)]
      /\ (let head := fst (parent_and_name name) in
          truthy head = false \/ is_root head = true
          \/ os_path_isdir fs head = true)
  | Raise e => e <> FileExistsError
  end.
Proof.
  intros Hl Hr. unfold mkdir_exist_ok, os_mkdir, os_path_exists, os_path_isdir.
  rewrite Hl, Hr. cbn [orb].
  destruct (truthy name); cbn [negb]; [|discriminate].
  destruct (truthy (fst (parent_and_name name))) eqn:Eh; cbn [negb orb];
    [|split; [reflexivity | now left]].
  destruct (is_root (fst (parent_and_name name))) eqn:Er;
    [split; [reflexivity | now (right; left)]|].
  destruct (fs_lookup (fst (parent_and_name name)) fs) as [i|] eqn:Ei;
    [|cbv iota; discriminate].
  destruct (is_dir i) eqn:Ed; [|cbv iota; discriminate].
  split; [reflexivity|]. right. right. reflexivity.
Qed.

Lemma makedirs_from_spec (n : nat) (name : string) (fs : FS) :
  fs_lookup name fs = None -> truthy name = true -> is_root name = false ->
  match makedirs_from n name fs with
  | Ok fs' =>
      exists created,
        fs' = fs ++ created /\ made_for name created
        /\ dir_ready fs' name
  | Raise e => e <> FileExistsError
  end.
Proof.
  revert name fs. induction n as [|n IH]; intros name fs Hl Ht Hr.
  - cbn [makedirs_from].
    assert (Hm := mkdir_exist_ok_free name fs Hl Hr).
    destruct (parent_and_name name) as [head tail] eqn:Ep.
    assert (Hgoal :
      match mkdir_exist_ok name fs with
      | Ok fs' =>
          exists created,
            fs' = fs ++ created /\ made_for name created
            /\ dir_ready fs' name
      | Raise e => e <> FileExistsError
      end).
    { destruct (mkdir_exist_ok name fs) as [fs'|e]; [|exact Hm].
      destruct Hm as [-> Hp]. exists [(name, new_dir)].
      split; [reflexivity|]. split; [apply made_for_one|].
      split.
      - rewrite fs_lookup_app, Hl. simpl. now rewrite String.eqb_refl.
      - rewrite Ep in *. cbn [fst] in *.
        destruct Hp as [Hp|[Hp|Hp]]; auto.
        right. right. unfold os_path_isdir in *.
        rewrite fs_lookup_app.
        destruct (fs_lookup head fs); [exact Hp | discriminate]. }
    destruct (truthy head && truthy tail
              && negb (os_path_exists fs head || is_root head));
      exact Hgoal.
  - cbn [makedirs_from].
    assert (Hm := mkdir_exist_ok_free name fs Hl Hr).
    pose proof (parent_shorter name Ht Hr) as Hlt.
    destruct (parent_and_name name) as [head tail] eqn:Ep.
    cbn [fst] in Hlt.
    destruct (truthy head && truthy tail
              && negb (os_path_exists fs head || is_root head)) eqn:Eg.
    + apply andb_true_iff in Eg as [Eg1 Eg3].
      apply andb_true_iff in Eg1 as [Eg1 Eg2].
      apply negb_true_iff, orb_false_iff in Eg3 as [Eg3 Eg4].
      assert (Hlh : fs_lookup head fs = None).
      { unfold os_path_exists in Eg3.
        destruct (fs_lookup head fs); [discriminate | reflexivity]. }
      specialize (IH head fs Hlh Eg1 Eg4).
      destruct (makedirs_from n head fs) as [fs1|e].
      * destruct IH as (created & -> & Hc & Hready).
        assert (Hfree : fs_lookup name (fs ++ created) = None).
        { rewrite fs_lookup_app, Hl.
          apply (fs_lookup_not_made head); assumption. }
        assert (Hdone :
          exists created0,
            (fs ++ created) ++ [(name, new_dir)] = fs ++ created0
            /\ made_for name created0
            /\ dir_ready ((fs ++ created) ++ [(name, new_dir)]) name).
        { exists (created ++ [(name, new_dir)]).
          split; [now rewrite app_assoc|].
          split; [now apply (made_for_up head)|].
          split.
          - rewrite fs_lookup_app, Hfree. simpl. now rewrite String.eqb_refl.
          - rewrite Ep. cbn [fst]. right. right.
            destruct Hready as [Hh _]. unfold os_path_isdir.
            rewrite fs_lookup_app, Hh. reflexivity. }
        destruct (String.eqb tail "."); [exact Hdone|].
        pose proof (mkdir_exist_ok_free name (fs ++ created) Hfree Hr) as Hm1.
        destruct (mkdir_exist_ok name (fs ++ created)) as [fs2|e];
          [|exact Hm1].
        destruct Hm1 as [-> _]. exact Hdone.
      * destruct e; try discriminate. congruence.
    + destruct (mkdir_exist_ok name fs) as [fs'|e]; [|exact Hm].
      destruct Hm as [-> Hp]. exists [(name, new_dir)].
      split; [reflexivity|]. split; [apply made_for_one|].
      split.
      * rewrite fs_lookup_app, Hl. simpl. now rewrite String.eqb_refl.
      * rewrite Ep in *. cbn [fst] in *.
        destruct Hp as [Hp|[Hp|Hp]]; auto.
        right. right. unfold os_path_isdir in *.
        rewrite fs_lookup_app.
        destruct (fs_lookup head fs); [exact Hp | discriminate].
Qed.

(** What a call of [os.makedirs] that returns has done: it has added
    directories, at the path and at shorter ones. *)
Lemma os_makedirs_adds (name : string) (fs fs' : FS) :
  os_makedirs name fs = Ok fs' ->
  exists created, fs' = fs ++ created /\ made_for name created.
Proof.
  unfold os_makedirs. intros H.
  destruct (fs_lookup name fs) as [i|] eqn:El.
  - destruct (is_dir i); [|discriminate]. injection H as <-.
    exists []. split; [now rewrite app_nil_r | apply made_for_nil].
  - destruct (truthy name) eqn:Et.
    + destruct (is_root name) eqn:Er.
      * (* the root *)
        destruct name as [|a name]; [discriminate|].
        destruct (String.length (String a name)) as [|n] eqn:En;
          [discriminate|].
        assert (Hroot : forall k, makedirs_from k (String a name) fs = Ok fs
                        \/ exists e, makedirs_from k (String a name) fs = Raise e).
        { intros k.
          destruct (makedirs_from k (String a name) fs) as [fs1|e] eqn:E;
            [|eauto].
          left. f_equal.
          assert (Hmk : forall fs0 fs2,
                    fs_lookup (String a name) fs0 = None ->
                    mkdir_exist_ok (String a name) fs0 = Ok fs2 -> fs2 = fs0).
          { intros fs0 fs2 H0. unfold mkdir_exist_ok, os_mkdir, os_path_exists.
            rewrite H0, Er, Et. cbn. rewrite orb_true_r. now intros [= <-]. }
          destruct k as [|k]; cbn [makedirs_from] in E.
          - destruct (parent_and_name (String a name)) as [h t].
            destruct (truthy h && truthy t
                      && negb (os_path_exists fs h || is_root h));
              now apply Hmk in E.
          - destruct (parent_and_name (String a name)) as [h t] eqn:Ep.
            destruct (truthy h && truthy t
                      && negb (os_path_exists fs h || is_root h)) eqn:Eg;
              [|now apply Hmk in E].
            (* the root has no last component *)
            exfalso. apply andb_true_iff in Eg as [Eg _].
            apply andb_true_iff in Eg as [_ Eg].
            unfold parent_and_name, os_path_split in Ep.
            assert (Hb : forall r, is_root r = true -> basename r = ""
                                   /\ dirname r = r).
            { clear. intros r Hr. unfold is_root in Hr.
              apply andb_true_iff in Hr as [Ht Ha].
              destruct (snoc_cases r) as [->|(x & c & ->)]; [discriminate|].
              rewrite all_chars_app in Ha.
              apply andb_true_iff in Ha as [Hx Hc].
              cbn [all_chars] in Hc. rewrite andb_true_r in Hc.
              apply Ascii.eqb_eq in Hc. subst c.
              assert (Hi : Z.to_nat (rfind "/" (x +:+ "/") + 1)
                           = String.length (x +:+ "/")).
              { rewrite rfind_snoc. change (Ascii.eqb "/" "/") with true.
                cbv iota. rewrite append_length. simpl. lia. }
              unfold basename, dirname. rewrite Hi.
              split; [apply drop_all; lia|].
              unfold take. rewrite take_all by lia.
              rewrite all_chars_app, Hx. simpl.
              now rewrite andb_false_r. }
            destruct (Hb _ Er) as [Hb1 Hb2].
            rewrite Hb1, Hb2 in Ep. cbn in Ep. rewrite Hb1 in Ep.
            injection Ep as <- <-. discriminate. }
        destruct (Hroot (S n)) as [E|[e E]]; rewrite E in H; [|discriminate].
        injection H as <-. exists [].
        split; [now rewrite app_nil_r | apply made_for_nil].
      * pose proof (makedirs_from_spec (String.length name) name fs El Et Er)
          as Hs.
        rewrite H in Hs. destruct Hs as (created & -> & Hc & _). eauto.
    + (* the empty path *)
      destruct name; [|discriminate].
      cbv -[fs_lookup] in H. rewrite El in H. discriminate.
Qed.

(** After [os.makedirs] of a path that was free, the directory is
    there. *)
Lemma os_makedirs_ready (name : string) (fs fs' : FS) :
  fs_lookup name fs = None -> is_root name = false ->
  os_makedirs name fs = Ok fs' -> dir_ready fs' name.
Proof.
  intros El Er H. unfold os_makedirs in H. rewrite El in H.
  destruct (truthy name) eqn:Et.
  - pose proof (makedirs_from_spec (String.length name) name fs El Et Er) as Hs.
    rewrite H in Hs. now destruct Hs as (created & _ & _ & Hready).
  - destruct name; [|discriminate].
    cbv -[fs_lookup] in H. rewrite El in H. discriminate.
Qed.

(** [os.makedirs] of a free path in a directory that is there adds the
    one directory. *)
Lemma os_makedirs_in_dir (name : string) (fs : FS) :
  fs_lookup name fs = None -> truthy name = true -> is_root name = false ->
  (let head := fst (parent_and_name name) in
   truthy head = false \/ is_root head = true
   \/ os_path_isdir fs head = true) ->
  os_makedirs name fs = Ok (fs ++ [(name, new_dir)]).
Proof.
  intros El Et Er Hp. unfold os_makedirs. rewrite El.
  assert (Hmk : mkdir_exist_ok name fs = Ok (fs ++ [(name, new_dir)])).
  { unfold mkdir_exist_ok, os_mkdir, os_path_exists. rewrite El, Et, Er.
    cbn [negb orb]. cbv zeta in Hp.
    destruct Hp as [Hp|[Hp|Hp]].
    - rewrite Hp. reflexivity.
    - rewrite Hp. now rewrite orb_true_r.
    - destruct (negb (truthy (fst (parent_and_name name)))
                || is_root (fst (parent_and_name name))); [reflexivity|].
      unfold os_path_isdir in Hp.
      destruct (fs_lookup (fst (parent_and_name name)) fs) as [i|];
        [|discriminate].
      now rewrite Hp. }
  assert (Hg : truthy (fst (parent_and_name name))
               && truthy (snd (parent_and_name name))
               && negb (os_path_exists fs (fst (parent_and_name name))
                        || is_root (fst (parent_and_name name))) = false).
  { cbv zeta in Hp. destruct Hp as [Hp|[Hp|Hp]].
    - now rewrite Hp.
    - rewrite Hp, orb_true_r. now rewrite andb_false_r.
    - unfold os_path_isdir in Hp. unfold os_path_exists.
      destruct (fs_lookup (fst (parent_and_name name)) fs); [|discriminate].
      now rewrite andb_false_r. }
  destruct (String.length name) as [|n]; cbn [makedirs_from];
    destruct (parent_and_name name) as [h t]; cbn [fst snd] in Hg;
    rewrite Hg; exact Hmk.
Qed.

(** *** The scratch directory *)

Lemma rmtree_idem (d : string) (fs : FS) :
  shutil_rmtree d (shutil_rmtree d fs) = shutil_rmtree d fs.
Proof.
  assert (Hf : forall l : FS,
            List.filter (fun e : string * inode => negb (under d (fst e)))
              (List.filter (fun e : string * inode => negb (under d (fst e))) l)
            = List.filter (fun e : string * inode => negb (under d (fst e))) l).
  { intros l. induction l as [|e l IH]; [reflexivity|]. simpl.
    destruct (negb (under d (fst e))) eqn:E; simpl; [rewrite E|];
      now rewrite IH. }
  pose proof (rmtree_lookup_self d fs) as Hl.
  unfold shutil_rmtree at 1. rewrite Hl.
  unfold shutil_rmtree.
  destruct (fs_lookup d fs) as [i|] eqn:E.
  - destruct (is_dir i) eqn:Ed; [apply Hf|]. rewrite Ed. reflexivity.
  - apply Hf.
Qed.

Lemma temp_dir_ok_rmtree (d : string) (fs : FS) :
  temp_dir_ok fs d -> temp_dir_ok (shutil_rmtree d fs) d.
Proof. unfold temp_dir_ok. now rewrite rmtree_idem. Qed.

Lemma temp_dir_not_file (d : string) (fs : FS) (i : inode) :
  temp_dir_ok fs d -> fs_lookup d fs = Some i -> is_dir i = true.
Proof.
  intros [fs' H] Hl. unfold os_makedirs in H.
  rewrite rmtree_lookup_self, Hl in H.
  destruct (is_dir i) eqn:Ed; [reflexivity|].
  cbv iota in H. rewrite Ed in H. discriminate.
Qed.

Lemma temp_dir_truthy (d : string) (fs : FS) :
  temp_dir_ok fs d -> truthy d = true.
Proof.
  intros [fs' H]. destruct d; [|reflexivity].
  unfold os_makedirs in H.
  destruct (fs_lookup "" (shutil_rmtree "" fs)) as [i|] eqn:El.
  - rewrite rmtree_lookup_self in El.
    destruct (fs_lookup "" fs) as [j|]; [|discriminate].
    destruct (is_dir j) eqn:Ed; [discriminate|].
    injection El as <-. rewrite Ed in H. discriminate.
  - cbv -[fs_lookup shutil_rmtree] in H. rewrite El in H. discriminate.
Qed.

Lemma dir_ready_app (d : string) (fs more : FS) :
  dir_ready fs d -> dir_ready (fs ++ more) d.
Proof.
  intros [Hl Hp]. split.
  - now rewrite fs_lookup_app, Hl.
  - cbv zeta in *. destruct Hp as [Hp|[Hp|Hp]]; auto.
    right. right. unfold os_path_isdir in *. rewrite fs_lookup_app.
    destruct (fs_lookup (fst (parent_and_name d)) fs); [exact Hp|discriminate].
Qed.

(** A scratch directory that is there can be made again. *)
Lemma dir_ready_ok (d : string) (fs : FS) :
  truthy d = true -> is_root d = false ->
  dir_ready fs d -> temp_dir_ok fs d.
Proof.
  intros Ht Hr [Hl Hp]. unfold temp_dir_ok.
  eexists. apply os_makedirs_in_dir; [|exact Ht|exact Hr|].
  - rewrite rmtree_lookup_self, Hl. reflexivity.
  - cbv zeta in *. destruct Hp as [Hp|[Hp|Hp]]; auto.
    right. right. unfold os_path_isdir in *.
    rewrite rmtree_lookup_other; [exact Hp|].
    apply under_shorter, parent_shorter; assumption.
Qed.

End Makedirs.

(** ** Files of a scratch directory *)

Section ScratchFiles.
Import PyStr Sys.

Lemma last_not_slash (d : string) :
  truthy d = true -> endswith d "/" = false ->
  exists x a, d = x +:+ String a "" /\ a <> "/"%char.
Proof.
  intros Ht He. destruct (snoc_cases d) as [->|(x & a & ->)]; [discriminate|].
  exists x, a. split; [reflexivity|]. intros ->.
  unfold endswith in He. rewrite rev_snoc in He.
  change (String.rev "/") with "/" in He. cbn in He.
  destruct (String.rev x); discriminate.
Qed.

Lemma not_root_of_no_slash (d : string) :
  endswith d "/" = false -> is_root d = false.
Proof.
  intros He. unfold is_root. destruct (truthy d) eqn:Ht; [|reflexivity].
  destruct (last_not_slash d Ht He) as (x & a & -> & Ha).
  rewrite all_chars_app. cbn [all_chars andb].
  destruct (Ascii.eqb "/" a) eqn:E.
  - apply Ascii.eqb_eq in E. congruence.
  - now rewrite andb_false_r.
Qed.

Lemma no_slash_cons (a : ascii) (f : string) :
  contains "/" (String a f) = false ->
  a <> "/"%char /\ contains "/" f = false.
Proof.
  cbn [contains]. intros H. apply orb_false_iff in H as [H1 H2].
  split; [|exact H2]. intros ->. cbn in H1.
  destruct f; discriminate.
Qed.

Lemma rfind_from_none (f : string) (i acc : Z) :
  contains "/" f = false -> rfind_from "/" f i acc = acc.
Proof.
  revert i acc. induction f as [|a f IH]; intros i acc H; [reflexivity|].
  apply no_slash_cons in H as [Ha Hf]. cbn [rfind_from].
  destruct (Ascii.eqb a "/") eqn:E; [apply Ascii.eqb_eq in E; congruence|].
  now apply IH.
Qed.

Lemma take_app_exact (a b : string) : take (String.length a) (a +:+ b) = a.
Proof.
  unfold take. induction a as [|x a IH]; [now destruct b|].
  rewrite append_cons. cbn [String.length String.substring]. now rewrite IH.
Qed.

(** A file of the listing of [d] lies in the directory [d]. *)
Lemma dirname_join (d f : string) :
  truthy d = true -> endswith d "/" = false ->
  truthy f = true -> contains "/" f = false ->
  os_path_join d f = d +:+ "/" +:+ f
  /\ dirname (os_path_join d f) = d.
Proof.
  intros Htd Hed Htf Hcf.
  assert (Hj : os_path_join d f = d +:+ "/" +:+ f).
  { unfold os_path_join. rewrite Htd, Hed. cbn [negb orb].
    destruct f as [|a f]; [discriminate|].
    apply no_slash_cons in Hcf as [Ha _].
    unfold startswith. cbn [String.prefix].
    destruct (ascii_dec "/" a) as [<-|_]; [congruence | reflexivity]. }
  split; [exact Hj|]. rewrite Hj.
  destruct (last_not_slash d Htd Hed) as (x & a & Hd & Ha).
  assert (Hr : rfind "/" (d +:+ "/" +:+ f) = Z.of_nat (String.length d)).
  { unfold rfind. rewrite rfind_from_app. cbn [append rfind_from].
    rewrite append_cons, append_nil. cbn [rfind_from].
    change (Ascii.eqb "/" "/") with true. cbv iota.
    now apply rfind_from_none. }
  unfold dirname. rewrite Hr.
  replace (Z.to_nat (Z.of_nat (String.length d) + 1))
    with (String.length (d +:+ "/")) by (rewrite append_length; simpl; lia).
  rewrite <- app_assoc_str, take_app_exact.
  assert (Hall : all_chars (Ascii.eqb "/") (d +:+ "/") = false).
  { rewrite Hd, !all_chars_app. cbn [all_chars].
    destruct (Ascii.eqb "/" a) eqn:E;
      [apply Ascii.eqb_eq in E; congruence|].
    now rewrite !andb_false_r. }
  assert (Htr : truthy (d +:+ "/") = true).
  { destruct d; [discriminate | reflexivity]. }
  rewrite Htr, Hall. cbn [andb negb].
  rewrite rev_snoc. cbn [rstrip_slash_rev].
  rewrite Hd, rev_snoc, rstrip_slash_rev_other by exact Ha.
  now rewrite <- rev_snoc, rev_rev.
Qed.

Lemma listdir_names (fs : FS) (d f : string) :
  In f (os_listdir fs d) -> truthy f = true /\ contains "/" f = false.
Proof.
  unfold os_listdir. induction fs as [|[p i] fs IH]; simpl; [tauto|].
  destruct (child_name d p) as [n|] eqn:E; simpl; [|exact IH].
  intros [<-|H]; [|now apply IH].
  unfold child_name in E.
  destruct (strip_prefix (dir_prefix d) p) as [m|]; [|discriminate].
  destruct (truthy m && negb (contains "/" m)) eqn:Em; [|discriminate].
  injection E as <-. apply andb_true_iff in Em as [H1 H2].
  split; [exact H1|]. now apply negb_true_iff in H2.
Qed.

Lemma listdir_made (d : string) (created : FS) :
  made_for d created -> os_listdir created d = [].
Proof.
  unfold os_listdir. induction created as [|[p i] created IH]; intros H;
    [reflexivity|].
  simpl. assert (Hp : child_name d p = None).
  { destruct (H p i (or_introl eq_refl)) as [_ [->|Hlt]];
      [apply child_name_self | now apply child_name_shorter]. }
  rewrite Hp. simpl. apply IH. intros q j Hq. apply (H q j). now right.
Qed.

(** A path in [d] is longer than [d]. *)
Lemma join_longer (d f : string) :
  truthy d = true -> endswith d "/" = false ->
  truthy f = true -> contains "/" f = false ->
  (String.length d < String.length (os_path_join d f))%nat.
Proof.
  intros H1 H2 H3 H4. destruct (dirname_join d f H1 H2 H3 H4) as [-> _].
  rewrite !append_length. simpl. lia.
Qed.

End ScratchFiles.


(** ** PartialFileMonitor *)

Section PartialFileMonitor.
Import PyStr Sys.

Lemma stuck_scan_true (fs : FS) (temp_dir vid : string)
    (names : list string) :
  stuck_scan fs temp_dir vid names = true <->
  exists f, In f names /\ in_progress vid f /\
    match os_path_getsize fs (os_path_join temp_dir f) with
    | Ok size => size < 524288
    | Raise _ => True
    end.
Proof.
  unfold in_progress.
  induction names as [|g names IH]; simpl.
  - split; [discriminate | intros (f & [] & _)].
  - destruct (startswith g vid && endswith g ".part") eqn:Em.
    + apply andb_true_iff in Em.
      destruct (os_path_getsize fs (os_path_join temp_dir g))
        as [size|e] eqn:Eg.
      * destruct (size <? 1024 * 512) eqn:El.
        -- split; [intros _ | reflexivity].
           exists g. rewrite Eg. apply Z.ltb_lt in El.
           repeat split; first [tauto | lia].
        -- rewrite IH. apply Z.ltb_ge in El.
           split; intros (f & Hin & Hm & Hs).
           ++ exists f. tauto.
           ++ destruct Hin as [<-|Hin]; [|exists f; tauto].
              rewrite Eg in Hs. lia.
      * split; [intros _ | reflexivity].
        exists g. rewrite Eg. tauto.
    + rewrite IH. split; intros (f & Hin & Hm & Hs).
      * exists f. tauto.
      * destruct Hin as [<-|Hin]; [|exists f; tauto].
        destruct Hm as [H1 H2]. rewrite H1, H2 in Em. discriminate.
Qed.

(** C10: when the scratch directory does not exist, the monitor
    answers "not stalled" for every item identifier; a missing
    directory is not treated as an inspection failure. *)
Theorem missing_scratch_dir_not_stalled (fs : FS) (temp_dir vid : string) :
  os_path_exists fs temp_dir = false ->
  is_partial_file_stuck fs temp_dir vid = false.
Proof.
  unfold is_partial_file_stuck, os_path_isdir, os_path_exists.
  destruct (fs_lookup temp_dir fs); [discriminate | reflexivity].
Qed.

(** C4: for an existing scratch directory, the monitor answers
    "stalled" as soon as some in-progress artifact of the item is
    smaller than 512 KiB (524288 bytes) or its size cannot be read, and
    "not stalled" when every in-progress artifact of the item has a
    readable size of at least 512 KiB. *)
Theorem partial_file_monitor (fs : FS) (temp_dir vid : string) :
  os_path_isdir fs temp_dir = true ->
  let artifact f := In f (os_listdir fs temp_dir) /\ in_progress vid f in
  let size_of f := os_path_getsize fs (os_path_join temp_dir f) in
  ((exists f size, artifact f /\ size_of f = Ok size /\ size < 524288) ->
   is_partial_file_stuck fs temp_dir vid = true)
  /\
  ((forall f, artifact f -> exists size, size_of f = Ok size /\ 524288 <= size) ->
   is_partial_file_stuck fs temp_dir vid = false)
  /\
  ((exists f e, artifact f /\ size_of f = Raise e) ->
   is_partial_file_stuck fs temp_dir vid = true).
Proof.
  intros Hdir artifact size_of.
  unfold is_partial_file_stuck. rewrite Hdir. simpl.
  split; [|split].
  - intros (f & size & [Hin Hm] & Hs & Hlt).
    apply stuck_scan_true. exists f. subst size_of. simpl in Hs.
    rewrite Hs. tauto.
  - intros Hall.
    destruct (stuck_scan fs temp_dir vid (os_listdir fs temp_dir)) eqn:E;
      [|reflexivity].
    apply stuck_scan_true in E. destruct E as (f & Hin & Hm & Hs).
    destruct (Hall f (conj Hin Hm)) as (size & Hsz & Hge).
    subst size_of. simpl in Hsz. rewrite Hsz in Hs. lia.
  - intros (f & e & [Hin Hm] & Hs).
    apply stuck_scan_true. exists f. subst size_of. simpl in Hs.
    rewrite Hs. tauto.
Qed.

End PartialFileMonitor.


(** ** ContainerConverter *)

Section ContainerConverter.
Import PyStr Sys.

Lemma string_eqb_false (a b : string) : a <> b -> String.eqb a b = false.
Proof. intros H. now apply String.eqb_neq. Qed.

(** C1, as amended: with a final format configured, the block refuses
    (and logs) the conversion of an mp4 file to webm: no remux is run,
    no file changes and the path returned is the source; it does
    nothing when the extension already is the desired one; and it runs
    the stream-copy remux for every other pair of extensions, webm to
    mp4 included.  It never raises. *)
Theorem conversion_policy (E : extern) (cfg : config) (vid chosen : string)
    (s : sys) (desired : string) :
  final_format cfg = Some desired -> truthy desired = true ->
  let r := final_format_conversion E (Some cfg) vid chosen s in
  let s' := snd r in
  (exists p, fst r = Ok p)
  /\ (current_ext chosen = "mp4" /\ desired = "webm" ->
      fst r = Ok chosen /\ sys_calls s' = sys_calls s /\
      sys_fs s' = sys_fs s /\
      sys_log s' = sys_log s ++ [(WARNING, skip_message vid)])
  /\ (current_ext chosen = desired -> r = (Ok chosen, s))
  /\ (current_ext chosen <> desired ->
      ~ (current_ext chosen = "mp4" /\ desired = "webm") ->
      sys_calls s' =
        sys_calls s
        ++ [CallFfmpeg (remux_cmd chosen (converted_path chosen desired))]).
Proof.
  intros Hf Ht r s'. subst s' r.
  unfold final_format_conversion. rewrite Hf, Ht.
  cbv beta iota zeta delta [negb].
  destruct (String.eqb (current_ext chosen) "mp4" && String.eqb desired "webm")
    eqn:Erefuse.
  - apply andb_true_iff in Erefuse. destruct Erefuse as [E1 E2].
    apply String.eqb_eq in E1, E2.
    split; [eexists; reflexivity|].
    split; [intros _; repeat split|].
    split; [intros Heq; rewrite E1, E2 in Heq; discriminate|].
    intros _ Hn. tauto.
  - assert (Hnot : ~ (current_ext chosen = "mp4" /\ desired = "webm")).
    { intros [H1 H2]. rewrite H1, H2 in Erefuse. discriminate. }
    destruct (String.eqb (current_ext chosen) desired) eqn:Esame;
      cbv beta iota zeta delta [negb].
    + apply String.eqb_eq in Esame.
      split; [eexists; reflexivity|].
      split; [tauto|]. split; [reflexivity|]. tauto.
    + apply String.eqb_neq in Esame.
      unfold try_except, bind, subprocess_run_ffmpeg, lift_fs, ret, logging.
      cbv beta zeta.
      destruct (ffmpeg E (sys_clock s)
                  (remux_cmd chosen (converted_path chosen desired))
                  (sys_fs s)) as [out|[part|]|];
        cbv beta iota zeta;
        try (destruct (os_unlink chosen _); cbv beta iota zeta);
        (split; [eexists; reflexivity|]);
        (split; [tauto|]); (split; [tauto|]); intros _ _; reflexivity.
Qed.

Lemma conversion_policy_witness :
  let r := final_format_conversion Scenario.fair
             (Some (Scenario.config_with (Some "webm") [])) "abc"
             Scenario.clip_mp4 Scenario.finished_mp4 in
  fst r = Ok Scenario.clip_mp4 /\
  sys_calls (snd r) = [] /\
  sys_fs (snd r) = sys_fs Scenario.finished_mp4.
Proof.
  pose proof (conversion_policy Scenario.fair
                (Scenario.config_with (Some "webm") []) "abc"
                Scenario.clip_mp4 Scenario.finished_mp4 "webm"
                eq_refl eq_refl) as H.
  destruct H as (_ & H & _).
  destruct (H (conj eq_refl eq_refl)) as (H1 & H2 & H3 & _).
  exact (conj H1 (conj H2 H3)).
Defined.

(** C1, as stated, fails: with final format mp4, a finished webm file
    is remuxed, the source is removed and an mp4 output is produced. *)
Lemma webm_to_mp4_is_not_refused :
  ~ (forall (E : extern) (cfg : config) (vid chosen : string) (s : sys),
       current_ext chosen = "webm" -> final_format cfg = Some "mp4" ->
       let s' := snd (final_format_conversion E (Some cfg) vid chosen s) in
       ffmpeg_calls s' = ffmpeg_calls s /\
       fs_lookup chosen (sys_fs s') = fs_lookup chosen (sys_fs s) /\
       fs_lookup (converted_path chosen "mp4") (sys_fs s') = None).
Proof.
  intros H.
  specialize (H Scenario.fair (Scenario.config_with (Some "mp4") []) "abc"
                Scenario.clip_webm Scenario.finished_webm eq_refl eq_refl).
  vm_compute in H. destruct H as [H _]. discriminate H.
Qed.

End ContainerConverter.


(** ** MetadataEmbedder *)

Section MetadataEmbedder.
Import PyStr Sys.

Ltac run :=
  unfold unlink_quietly;
  unfold bind, ret, raise, try_except, try_finally, lift_fs, lift_res,
    logging, modify_fs, get_fs;
  cbv beta iota zeta.

Ltac no_thumb :=
  exists None; simpl;
  split; [reflexivity | split; [auto | intros ? ?; discriminate]].

(** The thumbnail download returns, whatever happens; it changes no
    entry other than the thumbnail file, and no directory. *)
Lemma download_thumbnail_spec (E : extern) (u : option string)
    (vid : string) (s : sys) :
  let r := download_thumbnail E u vid s in
  exists thumb,
    fst r = Ok thumb
    /\ (forall p i, fs_lookup p (sys_fs s) = Some i ->
                    p <> thumb_file vid \/ is_dir i = true ->
                    fs_lookup p (sys_fs (snd r)) = Some i)
    /\ (forall t, thumb = Some t ->
          t = thumb_file vid /\
          exists c, fs_lookup t (sys_fs (snd r)) = Some (regular c)).
Proof.
  unfold download_thumbnail.
  destruct u as [u|]; [destruct (truthy u)|];
    try no_thumb.
  run.
  destruct (os_makedirs thumbs_dir (sys_fs s)) as [fs1|e] eqn:Hm;
    cbv beta iota zeta.
  2:{ no_thumb. }
  destruct (os_makedirs_adds _ _ _ Hm) as (created & -> & _).
  assert (Hkeep : forall p i, fs_lookup p (sys_fs s) = Some i ->
                              fs_lookup p (sys_fs s ++ created) = Some i).
  { intros p i Hp. now rewrite fs_lookup_app, Hp. }
  unfold http_get. simpl sys_clock.
  destruct (requests_get E (sys_clock s) u) as [| |content];
    cbv beta iota zeta;
    try no_thumb.
  destruct (truthy content); cbv beta iota zeta;
    try no_thumb.
  unfold write_file. simpl sys_fs.
  destruct (os_path_isdir (sys_fs s ++ created) (thumb_file vid)) eqn:Ed;
    cbv beta iota zeta;
    try no_thumb.
  exists (Some (thumb_file vid)). simpl.
  split; [reflexivity | split].
  - intros p i Hp [Hne|Hdir].
    + rewrite fs_lookup_put_ne by congruence. auto.
    + destruct (String.eqb p (thumb_file vid)) eqn:Ep.
      * apply String.eqb_eq in Ep. subst p.
        unfold os_path_isdir in Ed. rewrite (Hkeep _ _ Hp) in Ed. congruence.
      * apply String.eqb_neq in Ep.
        rewrite fs_lookup_put_ne by congruence. auto.
  - intros t [= <-]. split; [reflexivity|].
    exists content. apply fs_lookup_put_eq.
Qed.

Lemma dir_exists_kept (d : string) (fs fs' : FS) :
  (forall p i, fs_lookup p fs = Some i -> is_dir i = true ->
               fs_lookup p fs' = Some i) ->
  dir_exists fs d = true -> dir_exists fs' d = true.
Proof.
  intros Hkeep. unfold dir_exists, os_path_isdir.
  destruct (negb (truthy d) || is_root d); [reflexivity|]. cbn [orb].
  destruct (fs_lookup d fs) as [i|] eqn:E; [|discriminate].
  intros Hd. now rewrite (Hkeep d i E Hd).
Qed.

Lemma longest_path_bound (p : string) (i : inode) (fs : FS) :
  In (p, i) fs -> (String.length p <= longest_path fs)%nat.
Proof.
  unfold longest_path.
  induction fs as [|e fs IH]; simpl; [tauto|].
  intros [->|H]; simpl; [lia|]. specialize (IH H). lia.
Qed.

Lemma underscores_length (n : nat) : String.length (underscores n) = n.
Proof. induction n as [|n IH]; simpl; [reflexivity | now rewrite IH]. Qed.

Lemma join_tmp_length (dir x : string) :
  (String.length ("tmp" +:+ x) <=
   String.length (os_path_join dir ("tmp" +:+ x)))%nat.
Proof.
  unfold os_path_join. change (startswith ("tmp" +:+ x) "/") with false.
  cbv iota.
  destruct (negb (truthy dir) || endswith dir "/");
    rewrite !append_length; lia.
Qed.

(** [mkstemp] returns a path that did not exist. *)
Lemma mkstemp_fresh (random : string) (fs : FS) (suffix dir : string) :
  fs_lookup (mkstemp_path random fs suffix dir) fs = None.
Proof.
  unfold mkstemp_path, os_path_exists.
  set (cand := os_path_join dir ("tmp" +:+ random +:+ suffix)).
  set (long := os_path_join dir
                 ("tmp" +:+ underscores (S (longest_path fs)) +:+ suffix)).
  destruct (fs_lookup cand fs) as [i0|] eqn:Ec; [|exact Ec].
  destruct (fs_lookup long fs) as [i1|] eqn:El; [|reflexivity].
  apply fs_lookup_in, longest_path_bound in El.
  pose proof (join_tmp_length dir
                (underscores (S (longest_path fs)) +:+ suffix)) as Hj.
  fold long in Hj.
  rewrite !append_length, underscores_length in Hj.
  simpl String.length in Hj. lia.
Qed.

(** [mkstemp] returns when the directory is there and the file can be
    created. *)
Lemma mkstemp_returns (E : extern) (suffix dir random : string) (s : sys) :
  dir_exists (sys_fs s) dir = true ->
  mkstemp_random E (sys_clock s) = Some random ->
  mkstemp E suffix dir s
  = (Ok (mkstemp_path random (sys_fs s) suffix dir),
     {| sys_fs := sys_fs s
                  ++ [(mkstemp_path random (sys_fs s) suffix dir, empty_file)];
        sys_clock := S (sys_clock s);
        sys_log := sys_log s; sys_calls := sys_calls s |}).
Proof. intros Hd Hr. unfold mkstemp. now rewrite Hd, Hr. Qed.

Lemma os_unlink_file (p : string) (i : inode) (fs : FS) :
  fs_lookup p fs = Some i -> is_dir i = false ->
  os_unlink p fs = Ok (fs_delete p fs).
Proof. intros H1 H2. unfold os_unlink. now rewrite H1, H2. Qed.

Lemma os_replace_file (src dst : string) (i j : inode) (fs : FS) :
  fs_lookup src fs = Some i -> fs_lookup dst fs = Some j ->
  is_dir j = false -> src <> dst ->
  os_replace src dst fs = Ok (fs_delete src (fs_put dst i fs)).
Proof.
  intros H1 H2 H3 H4. unfold os_replace, os_path_isdir.
  rewrite H1, H2, H3. now rewrite string_eqb_false.
Qed.

Ltac fs_simpl :=
  repeat first
    [ rewrite fs_lookup_delete_eq
    | rewrite fs_lookup_put_eq
    | rewrite fs_lookup_delete_ne by congruence
    | rewrite fs_lookup_put_ne by congruence ].

(** The [finally] clause removes the thumbnail and leaves the other
    files as they are. *)
Lemma thumb_cleanup (thumb : option string) (s : sys) :
  (forall t, thumb = Some t ->
     exists c, fs_lookup t (sys_fs s) = Some (regular c)) ->
  exists s',
    remove_thumbnail thumb s = (Ok tt, s')
    /\ (forall t, thumb = Some t -> fs_lookup t (sys_fs s') = None)
    /\ (forall p, thumb <> Some p ->
                  fs_lookup p (sys_fs s') = fs_lookup p (sys_fs s)).
Proof.
  intros Ht. unfold remove_thumbnail. destruct thumb as [t|].
  - destruct (Ht t eq_refl) as [c Hc].
    run. rewrite (os_unlink_file _ _ _ Hc eq_refl).
    eexists. split; [reflexivity|]. simpl. split.
    + intros t' [= <-]. apply fs_lookup_delete_eq.
    + intros p Hp. apply fs_lookup_delete_ne. congruence.
  - exists s. repeat split; intros; discriminate.
Qed.

Lemma tag_and_replace_spec (E : extern) (local_file tmp_path : string)
    (thumb : option string) (m : metadata) (vid : string) (s : sys)
    (orig tmp : inode) :
  fs_lookup local_file (sys_fs s) = Some orig -> is_dir orig = false ->
  fs_lookup tmp_path (sys_fs s) = Some tmp -> is_dir tmp = false ->
  tmp_path <> local_file ->
  (forall t, thumb = Some t ->
     t <> local_file /\ t <> tmp_path /\
     exists c, fs_lookup t (sys_fs s) = Some (regular c)) ->
  let r := tag_and_replace E local_file tmp_path thumb m vid s in
  let fs' := sys_fs (snd r) in
  fst r = Ok tt
  /\ match ffmpeg E (sys_clock s)
              (embed_cmd (sys_fs s) local_file tmp_path thumb m vid)
              (sys_fs s) with
     | ProcOk out => fs_lookup local_file fs' = Some (regular out)
     | _ => fs_lookup local_file fs' = Some orig
     end
  /\ fs_lookup tmp_path fs' = None
  /\ (forall t, thumb = Some t -> fs_lookup t fs' = None).
Proof.
  intros Hl Hf Ht Htf Hne Hth r fs'. subst fs' r.
  unfold tag_and_replace, try_finally.
  (* the state after the [try ... except] part *)
  assert (Hbody :
    exists s1,
      try_except
        (fs <- get_fs ;;
         subprocess_run_ffmpeg E
           (embed_cmd fs local_file tmp_path thumb m vid) tmp_path ;;
         lift_fs (os_replace tmp_path local_file) ;;
         logging INFO ("[" +:+ vid +:+ "] Metadata embedded successfully"))
        (fun e =>
           match e with
           | CalledProcessError =>
               logging EXCEPTION
                 ("ffmpeg metadata embedding failed for " +:+ vid) ;;
               unlink_quietly tmp_path
           | _ =>
               logging EXCEPTION
                 ("Unexpected error during metadata embedding for "
                  +:+ vid) ;;
               unlink_quietly tmp_path
           end) s = (Ok tt, s1)
      /\ match ffmpeg E (sys_clock s)
                  (embed_cmd (sys_fs s) local_file tmp_path thumb m vid)
                  (sys_fs s) with
         | ProcOk out => fs_lookup local_file (sys_fs s1) = Some (regular out)
         | _ => fs_lookup local_file (sys_fs s1) = Some orig
         end
      /\ fs_lookup tmp_path (sys_fs s1) = None
      /\ (forall t, t <> local_file -> t <> tmp_path ->
                    fs_lookup t (sys_fs s1) = fs_lookup t (sys_fs s))).
  { run. unfold subprocess_run_ffmpeg. cbv beta iota zeta.
    destruct (ffmpeg E (sys_clock s)
                (embed_cmd (sys_fs s) local_file tmp_path thumb m vid)
                (sys_fs s)) as [out|[part|]|]; cbv beta iota zeta.
    - simpl sys_fs.
      erewrite os_replace_file; [| apply fs_lookup_put_eq
                                 | rewrite fs_lookup_put_ne by congruence;
                                   exact Hl
                                 | exact Hf | exact Hne].
      cbv beta iota zeta. eexists. split; [reflexivity|]. simpl.
      repeat split; intros; fs_simpl; reflexivity.
    - simpl sys_fs.
      erewrite os_unlink_file; [| apply fs_lookup_put_eq | reflexivity].
      cbv beta iota zeta. eexists. split; [reflexivity|]. simpl.
      repeat split; intros; fs_simpl; auto.
    - simpl sys_fs.
      erewrite os_unlink_file; [| exact Ht | exact Htf].
      cbv beta iota zeta. eexists. split; [reflexivity|]. simpl.
      repeat split; intros; fs_simpl; auto.
    - simpl sys_fs.
      erewrite os_unlink_file; [| exact Ht | exact Htf].
      cbv beta iota zeta. eexists. split; [reflexivity|]. simpl.
      repeat split; intros; fs_simpl; auto. }
  destruct Hbody as (s1 & Hrun & Hloc & Htmp & Hframe).
  rewrite Hrun.
  destruct (thumb_cleanup thumb s1) as (s2 & Hfin & Hgone & Hkeep).
  { intros t Hsome. destruct (Hth t Hsome) as (H1 & H2 & c & Hc).
    exists c. rewrite Hframe by assumption. exact Hc. }
  cbv beta iota zeta. rewrite Hfin. simpl.
  assert (Hn1 : thumb <> Some local_file).
  { intros Hs. destruct (Hth _ Hs) as (H & _). congruence. }
  assert (Hn2 : thumb <> Some tmp_path).
  { intros Hs. destruct (Hth _ Hs) as (_ & H & _). congruence. }
  split; [reflexivity|].
  rewrite !Hkeep by assumption.
  split; [exact Hloc|]. split; [exact Htmp | exact Hgone].
Qed.

(** X26: When the temporary file can be created (the directory of the
    file is there and [mkstemp] finds room in it), embedding returns.
    When ffmpeg exits with status 0 the tagged temporary file takes
    the place of the original in one rename; in every other case the
    original file is found as it was.  Either way the temporary file is
    gone afterwards, and so is the thumbnail file if one had been
    downloaded. *)
Theorem embed_metadata_outcome (E : extern) (local_file : string)
    (m : metadata) (vid : string) (s : sys) (orig : inode)
    (random : string) :
  fs_lookup local_file (sys_fs s) = Some orig -> is_dir orig = false ->
  local_file <> thumb_file vid ->
  dir_exists (sys_fs s) (dirname local_file) = true ->
  let r1 := download_thumbnail E (thumbnail_url m) vid s in
  mkstemp_random E (sys_clock (snd r1)) = Some random ->
  let thumb := match fst r1 with Ok t => t | Raise _ => None end in
  let suffix := ".tagged" +:+ base_ext local_file in
  let tmp_path :=
    mkstemp_path random (sys_fs (snd r1)) suffix (dirname local_file) in
  let s2 := snd (mkstemp E suffix (dirname local_file) (snd r1)) in
  let cmd := embed_cmd (sys_fs s2) local_file tmp_path thumb m vid in
  let r := embed_metadata E local_file (Some m) vid s in
  let fs' := sys_fs (snd r) in
  fst r = Ok tt
  /\ match ffmpeg E (sys_clock s2) cmd (sys_fs s2) with
     | ProcOk tagged => fs_lookup local_file fs' = Some (regular tagged)
     | _ => fs_lookup local_file fs' = Some orig
     end
  /\ fs_lookup tmp_path fs' = None
  /\ (forall t, thumb = Some t -> fs_lookup t fs' = None).
Proof.
  intros Hl Hf Hne Hdir r1 Hrand thumb suffix tmp_path s2 cmd r fs'.
  destruct (download_thumbnail_spec E (thumbnail_url m) vid s)
    as (th & Hr1 & Hkeep & Hth).
  fold r1 in Hr1, Hkeep, Hth.
  assert (Hthumb : thumb = th) by (subst thumb; now rewrite Hr1).
  pose proof (mkstemp_fresh random (sys_fs (snd r1)) suffix
                (dirname local_file)) as Hfresh.
  fold tmp_path in Hfresh.
  assert (Hl1 : fs_lookup local_file (sys_fs (snd r1)) = Some orig)
    by (apply Hkeep; auto).
  assert (Hdir1 : dir_exists (sys_fs (snd r1)) (dirname local_file) = true).
  { apply (dir_exists_kept _ (sys_fs s)); [|exact Hdir].
    intros p i Hp Hd. apply Hkeep; auto. }
  pose proof (mkstemp_returns E suffix (dirname local_file) random (snd r1)
                Hdir1 Hrand) as Hmk.
  fold tmp_path in Hmk.
  assert (Hs2 : sys_fs s2 = sys_fs (snd r1) ++ [(tmp_path, empty_file)])
    by (subst s2; now rewrite Hmk).
  assert (Hr : r = tag_and_replace E local_file tmp_path thumb m vid s2).
  { subst r s2 thumb tmp_path. unfold embed_metadata, bind.
    fold r1. fold suffix.
    destruct r1 as [x s1]. cbn [fst snd] in *. subst x.
    rewrite Hmk. reflexivity. }
  subst fs'. rewrite Hr.
  apply (tag_and_replace_spec E local_file tmp_path thumb m vid s2
           orig empty_file).
  - rewrite Hs2, fs_lookup_app, Hl1. reflexivity.
  - exact Hf.
  - rewrite Hs2, fs_lookup_app, Hfresh. simpl.
    now rewrite String.eqb_refl.
  - reflexivity.
  - intros Heq. rewrite Heq in Hfresh. congruence.
  - intros t Hsome. rewrite Hthumb in Hsome.
    destruct (Hth t Hsome) as (-> & c & Hc).
    split; [congruence|]. split; [intros Heq; rewrite Heq in Hc; congruence|].
    exists c. rewrite Hs2, fs_lookup_app, Hc. reflexivity.
Qed.

(** X27: When the temporary file cannot be created, [embed_metadata]
    raises what [tempfile.mkstemp] raises: the call stands before the
    [try] statement.  The [finally] clause is not reached, and a
    thumbnail that was downloaded stays where it is. *)
Theorem embedding_failure_escapes (E : extern) (local_file : string)
    (m : metadata) (vid : string) (s : sys) (e : exn) :
  let r1 := download_thumbnail E (thumbnail_url m) vid s in
  let suffix := ".tagged" +:+ base_ext local_file in
  fst (mkstemp E suffix (dirname local_file) (snd r1)) = Raise e ->
  let r := embed_metadata E local_file (Some m) vid s in
  fst r = Raise e
  /\ sys_fs (snd r) = sys_fs (snd r1)
  /\ sys_calls (snd r) = sys_calls (snd r1)
  /\ (forall t, fst r1 = Ok (Some t) ->
        exists c, fs_lookup t (sys_fs (snd r)) = Some (regular c)).
Proof.
  intros r1 suffix Hmk r.
  destruct (download_thumbnail_spec E (thumbnail_url m) vid s)
    as (th & Hr1 & _ & Hth).
  fold r1 in Hr1, Hth.
  assert (Hs : sys_fs (snd (mkstemp E suffix (dirname local_file) (snd r1)))
               = sys_fs (snd r1)
               /\ sys_calls (snd (mkstemp E suffix (dirname local_file) (snd r1)))
                  = sys_calls (snd r1)).
  { revert Hmk. unfold mkstemp.
    destruct (negb (dir_exists (sys_fs (snd r1)) (dirname local_file)));
      [intros _; split; reflexivity|].
    destruct (mkstemp_random E (sys_clock (snd r1)));
      [discriminate | intros _; split; reflexivity]. }
  assert (Hr : r = (Raise e,
                    snd (mkstemp E suffix (dirname local_file) (snd r1)))).
  { subst r. unfold embed_metadata, bind. fold r1. fold suffix.
    destruct r1 as [x s1]. simpl in Hr1. subst x. cbn [snd] in *.
    destruct (mkstemp E suffix (dirname local_file) s1) as [[p|e'] s2];
      simpl in Hmk; [discriminate|]. now injection Hmk as ->. }
  rewrite Hr. cbn [fst snd]. destruct Hs as [Hs1 Hs2].
  split; [reflexivity|]. split; [exact Hs1|]. split; [exact Hs2|].
  intros t Ht. rewrite Hr1 in Ht. injection Ht as ->.
  destruct (Hth t eq_refl) as (_ & c & Hc). exists c. now rewrite Hs1.
Qed.

End MetadataEmbedder.


(** ** Reasoning about computations *)

Section Logic.
Context {St : Type}.

Lemma stable_ret {A} (I : St -> Prop) (a : A) : stable I (ret a).
Proof. intros s H. exact H. Qed.

Lemma stable_raise {A} (I : St -> Prop) (e : exn) : stable I (@raise St A e).
Proof. intros s H. exact H. Qed.

Lemma stable_lift_res {A} (I : St -> Prop) (r : res A) :
  stable I (@lift_res St A r).
Proof. intros s H. exact H. Qed.

Lemma stable_bind {A B} (I : St -> Prop) (m : ST St A) (k : A -> ST St B) :
  stable I m -> (forall a, stable I (k a)) -> stable I (bind m k).
Proof.
  intros Hm Hk s H. unfold bind. specialize (Hm s H).
  destruct (m s) as [[a|e] s']; simpl in *; [now apply Hk | exact Hm].
Qed.

Lemma stable_try_except {A} (I : St -> Prop) (m : ST St A)
    (h : exn -> ST St A) :
  stable I m -> (forall e, stable I (h e)) -> stable I (try_except m h).
Proof.
  intros Hm Hh s H. unfold try_except. specialize (Hm s H).
  destruct (m s) as [[a|e] s']; simpl in *; [exact Hm | now apply Hh].
Qed.

Lemma stable_try_finally {A} (I : St -> Prop) (m : ST St A) (f : ST St unit) :
  stable I m -> stable I f -> stable I (try_finally m f).
Proof.
  intros Hm Hf s H. unfold try_finally. specialize (Hm s H).
  destruct (m s) as [r s']. simpl in Hm. specialize (Hf s' Hm).
  destruct (f s') as [[u|e] s'']; exact Hf.
Qed.

Lemma stable_for_first {A R} (I : St -> Prop) (l : list A)
    (body : A -> ST St (option R)) :
  (forall x, In x l -> stable I (body x)) -> stable I (for_first l body).
Proof.
  induction l as [|x l IH]; intros Hb; simpl.
  - apply stable_ret.
  - apply stable_bind; [apply Hb; now left|].
    intros [v|]; [apply stable_ret|]. apply IH. intros y Hy.
    apply Hb. now right.
Qed.

Lemma stable_for_each {A} (I : St -> Prop) (l : list A)
    (body : A -> ST St unit) :
  (forall x, In x l -> stable I (body x)) -> stable I (for_each l body).
Proof.
  induction l as [|x l IH]; intros Hb; simpl.
  - apply stable_ret.
  - apply stable_bind; [apply Hb; now left|].
    intros _. apply IH. intros y Hy. apply Hb. now right.
Qed.

Lemma always_ok_stable {A} (I : St -> Prop) (m : ST St A) :
  always_ok I m -> stable I m.
Proof. intros H s Hs. destruct (H s Hs) as (a & _ & Hi). exact Hi. Qed.

Lemma always_ok_ret {A} (I : St -> Prop) (a : A) : always_ok I (ret a).
Proof. intros s H. exists a. split; [reflexivity | exact H]. Qed.

Lemma always_ok_bind {A B} (I : St -> Prop) (m : ST St A) (k : A -> ST St B) :
  always_ok I m -> (forall a, always_ok I (k a)) -> always_ok I (bind m k).
Proof.
  intros Hm Hk s H. unfold bind. destruct (Hm s H) as (a & Ha & Hi).
  destruct (m s) as [r s']. simpl in *. subst r. now apply Hk.
Qed.

Lemma always_ok_try_except {A} (I : St -> Prop) (m : ST St A)
    (h : exn -> ST St A) :
  stable I m -> (forall e, always_ok I (h e)) ->
  always_ok I (try_except m h).
Proof.
  intros Hm Hh s H. unfold try_except. specialize (Hm s H).
  destruct (m s) as [[a|e] s']; simpl in *; [|now apply Hh].
  exists a. split; [reflexivity | exact Hm].
Qed.

Lemma always_ok_try_finally {A} (I : St -> Prop) (m : ST St A)
    (f : ST St unit) :
  always_ok I m -> always_ok I f -> always_ok I (try_finally m f).
Proof.
  intros Hm Hf s H. unfold try_finally. destruct (Hm s H) as (a & Ha & Hi).
  destruct (m s) as [r s']. simpl in *. subst r.
  destruct (Hf s' Hi) as (u & Hu & Hi').
  destruct (f s') as [[u'|e] s'']; simpl in *; [|discriminate].
  exists a. split; [reflexivity | exact Hi'].
Qed.

(** *** Searches *)

Context {R : Type}.
Variable hit : nat -> bool.
Variable J : nat -> St -> Prop.
Variable Q : nat -> R -> St -> Prop.

Local Open Scope nat_scope.

Lemma scans_for_first {A} (w : nat) (l : list A)
    (body : A -> ST St (option R)) (n : nat) :
  (forall i x, l !! i = Some x -> scans hit J Q (n + w * i) w (body x)) ->
  scans hit J Q n (w * length l) (for_first l body).
Proof.
  revert n. induction l as [|x l IH]; intros n Hb s Hj.
  - simpl. split.
    + intros _. exists s. split; [reflexivity|].
      now replace (n + w * 0) with n by lia.
    + intros k Hk. lia.
  - assert (Hx : scans hit J Q n w (body x)).
    { specialize (Hb 0 x eq_refl).
      now replace (n + w * 0) with n in Hb by lia. }
    assert (Hl : scans hit J Q (n + w) (w * length l) (for_first l body)).
    { apply IH. intros i y Hy. specialize (Hb (S i) y Hy).
      now replace (n + w * S i) with (n + w + w * i) in Hb by lia. }
    destruct (Hx s Hj) as [Hmiss Hhit].
    simpl length. simpl for_first. unfold bind.
    split.
    + intros Hnone.
      destruct Hmiss as (s1 & E1 & Hj1); [intros k Hk; apply Hnone; lia|].
      rewrite E1.
      destruct (Hl s1 Hj1) as [Hmiss' _].
      destruct Hmiss' as (s2 & E2 & Hj2); [intros k Hk; apply Hnone; lia|].
      exists s2. split; [exact E2|].
      now replace (n + w * S (length l)) with (n + w + w * length l) by lia.
    + intros k Hk Hkhit Hfirst.
      destruct (Nat.lt_ge_cases k (n + w)) as [Hlt|Hge].
      * destruct (Hhit k) as (v & s1 & E1 & Hq); [lia | exact Hkhit | |].
        { intros j Hjk. apply Hfirst. lia. }
        rewrite E1. exists v, s1. split; [reflexivity | exact Hq].
      * destruct Hmiss as (s1 & E1 & Hj1);
          [intros j Hjk; apply Hfirst; lia|].
        rewrite E1.
        destruct (Hl s1 Hj1) as [_ Hhit'].
        destruct (Hhit' k) as (v & s2 & E2 & Hq); [lia | exact Hkhit | |].
        { intros j Hjk. apply Hfirst. lia. }
        exists v, s2. split; [exact E2 | exact Hq].
Qed.

(** A step before the search that keeps [J n], such as a log entry. *)
Lemma scans_prologue {A} (n w : nat) (pre : ST St A) (m : ST St (option R)) :
  (forall s, J n s -> exists a s', pre s = (Ok a, s') /\ J n s') ->
  scans hit J Q n w m -> scans hit J Q n w (bind pre (fun _ => m)).
Proof.
  intros Hpre Hm s Hj. destruct (Hpre s Hj) as (a & s1 & E1 & Hj1).
  unfold bind. rewrite E1. exact (Hm s1 Hj1).
Qed.

(** A step after a search without hit that keeps [J (n + w)]. *)
Lemma scans_epilogue (n w : nat) (m : ST St (option R)) (post : ST St unit) :
  (forall s, J (n + w) s -> exists s', post s = (Ok tt, s') /\ J (n + w) s') ->
  scans hit J Q n w m ->
  scans hit J Q n w
    (bind m (fun r => match r with
                      | Some c => ret (Some c)
                      | None => bind post (fun _ => ret None)
                      end)).
Proof.
  intros Hpost Hm s Hj. destruct (Hm s Hj) as [Hmiss Hhit]. split.
  - intros Hnone. destruct (Hmiss Hnone) as (s1 & E1 & Hj1).
    destruct (Hpost s1 Hj1) as (s2 & E2 & Hj2).
    exists s2. unfold bind. rewrite E1, E2. split; [reflexivity | exact Hj2].
  - intros k Hk Hkhit Hfirst.
    destruct (Hhit k Hk Hkhit Hfirst) as (v & s1 & E1 & Hq).
    exists v, s1. unfold bind. rewrite E1. split; [reflexivity | exact Hq].
Qed.

End Logic.


(** ** ExtractorFallbackEngine: the plan of attempts *)

Section AttemptPlan.
Import PyStr Sys.

Lemma schedule_clients (c : string * pyval) :
  In c attempt_schedule -> In c extractor_chain.
Proof.
  unfold attempt_schedule. intros H.
  apply in_flat_map in H. destruct H as (p & _ & H).
  apply in_flat_map in H. destruct H as (x & Hx & H).
  apply repeat_spec in H. now subst c.
Qed.

Lemma schedule_length : length attempt_schedule = 24%nat.
Proof. reflexivity. Qed.

Lemma attempt_opts_lookup (temp_dir : string) (js : option string)
    (cfg : option config) (client : string) (hdrs : pyval)
    (o : gmap string pyval) (k : string) :
  attempt_opts temp_dir js cfg client hdrs = Ok o ->
  k <> "js_runtimes" -> not_overridden cfg k ->
  o !! k = base_opts temp_dir client hdrs !! k.
Proof.
  intros Ho Hk Hcfg.
  assert (Hm : merge_config_opts cfg (base_opts temp_dir client hdrs) !! k
               = base_opts temp_dir client hdrs !! k).
  { unfold merge_config_opts. destruct cfg as [c|]; [|reflexivity].
    destruct (yt_dlp_opts c) as [ov|] eqn:Eo; [|reflexivity].
    apply lookup_union_r. exact (Hcfg c ov eq_refl Eo). }
  unfold attempt_opts, add_js_runtime in Ho.
  destruct js as [r|]; [destruct (truthy r)|];
    try (injection Ho as <-; exact Hm).
  destruct (split_once ":" r) as [[a b]|]; [|discriminate].
  injection Ho as <-. rewrite lookup_insert_ne by congruence. exact Hm.
Qed.

Lemma attempt_opts_ok (temp_dir : string) (js : option string)
    (cfg : option config) (client : string) (hdrs : pyval) :
  js_runtime_ok js ->
  exists o, attempt_opts temp_dir js cfg client hdrs = Ok o.
Proof.
  intros Hjs. unfold attempt_opts, add_js_runtime.
  destruct js as [r|]; [|eexists; reflexivity].
  destruct (truthy r) eqn:Et; [|eexists; reflexivity].
  destruct (Hjs r eq_refl Et) as (a & b & ->). eexists; reflexivity.
Qed.

Lemma plan_is_map (temp_dir : string) (js : option string)
    (cfg : option config) :
  js_runtime_ok js ->
  map Some (attempt_plan temp_dir js cfg)
  = map (opts_of temp_dir js cfg) attempt_schedule.
Proof.
  intros Hjs. unfold attempt_plan.
  induction attempt_schedule as [|c l IH]; simpl; [reflexivity|].
  destruct (attempt_opts_ok temp_dir js cfg (fst c) (snd c) Hjs) as [o Ho].
  assert (Hc : opts_of temp_dir js cfg c = Some o)
    by (unfold opts_of; now rewrite Ho).
  rewrite Hc. simpl. f_equal. exact IH.
Qed.

Lemma plan_length (temp_dir : string) (js : option string)
    (cfg : option config) :
  js_runtime_ok js -> length (attempt_plan temp_dir js cfg) = 24%nat.
Proof.
  intros Hjs. rewrite <- (length_map Some), plan_is_map by assumption.
  now rewrite length_map.
Qed.

Lemma plan_step_shape (temp_dir : string) (js : option string)
    (cfg : option config) (step : gmap string pyval) :
  not_overridden cfg "extractor_args" -> not_overridden cfg "format" ->
  In step (attempt_plan temp_dir js cfg) ->
  exists client,
    In client ["android"; "tv_embedded"; "web"]
    /\ step !! "extractor_args"
       = Some (PDict [("youtube",
                       PList [PStr ("player_client=" +:+ client)])])
    /\ step !! "format" = Some (PStr FORMAT_WEBM).
Proof.
  intros Hx Hf Hin. unfold attempt_plan in Hin.
  apply list_elem_of_In, list_elem_of_omap in Hin.
  destruct Hin as (c & Hc & Ho).
  apply list_elem_of_In, schedule_clients in Hc.
  unfold opts_of in Ho.
  destruct (attempt_opts temp_dir js cfg (fst c) (snd c)) as [o|] eqn:Eo;
    [|discriminate].
  injection Ho as ->.
  exists (fst c). split.
  - simpl in Hc. destruct Hc as [<-|[<-|[<-|[]]]]; simpl; tauto.
  - split.
    + rewrite (attempt_opts_lookup _ _ _ _ _ _ _ Eo) by (congruence || assumption).
      reflexivity.
    + rewrite (attempt_opts_lookup _ _ _ _ _ _ _ Eo) by (congruence || assumption).
      reflexivity.
Qed.

(** X28: The option dictionaries that [download_with_ytdlp] hands to
    yt-dlp, attempt by attempt.  Unless the configuration rebinds
    these options, every attempt carries an extractor-specific
    override, the player client of its profile, so that none of them
    is a default attempt; and every attempt uses the one format
    selector of the script, in which best-quality selectors occur.
    With a runtime hint that can be unpacked there are 24 of them. *)
Theorem attempt_plan_shape (temp_dir : string) (js : option string)
    (cfg : option config) :
  not_overridden cfg "extractor_args" -> not_overridden cfg "format" ->
  let plan := attempt_plan temp_dir js cfg in
  (forall step, In step plan ->
     exists client,
       In client ["android"; "tv_embedded"; "web"]
       /\ step !! "extractor_args"
          = Some (PDict [("youtube",
                          PList [PStr ("player_client=" +:+ client)])])
       /\ step !! "format" = Some (PStr FORMAT_WEBM))
  /\ has_default plan = false
  /\ (js_runtime_ok js -> length plan = 24%nat /\ has_best plan = true).
Proof.
  intros Hx Hf plan.
  assert (Hshape := fun step => plan_step_shape temp_dir js cfg step Hx Hf).
  fold plan in Hshape.
  split; [exact Hshape|]. split.
  - unfold has_default. destruct (existsb is_default_step plan) eqn:Ee;
      [|reflexivity].
    apply existsb_exists in Ee. destruct Ee as (step & Hin & Hd).
    destruct (Hshape step Hin) as (client & _ & Ha & _).
    unfold is_default_step in Hd. rewrite Ha in Hd. discriminate.
  - intros Hjs. pose proof (plan_length temp_dir js cfg Hjs) as Hlen.
    fold plan in Hlen. split; [exact Hlen|].
    unfold has_best. destruct plan as [|step rest] eqn:Ep;
      [discriminate|].
    destruct (Hshape step (or_introl eq_refl)) as (client & _ & _ & Hfmt).
    simpl. unfold has_best_format at 1. rewrite Hfmt. reflexivity.
Qed.

Lemma attempt_plan_shape_witness :
  let plan := attempt_plan Scenario.clip_dir None None in
  has_default plan = false /\ length plan = 24%nat /\ has_best plan = true.
Proof.
  assert (Hn : forall k, not_overridden None k) by (intros k c o [=]).
  assert (Hjs : js_runtime_ok None) by (intros r [=]).
  destruct (attempt_plan_shape Scenario.clip_dir None None
              (Hn "extractor_args") (Hn "format")) as (_ & H1 & H2).
  destruct (H2 Hjs) as [H3 H4].
  exact (conj H1 (conj H3 H4)).
Defined.

End AttemptPlan.

(** ** AttemptPlan, as the spec describes it *)

Section SpecPlan.
Import PyStr Sys.

(** C2: for every strictness mode, the plan of extraction attempts
    holds an attempt with no extractor-specific override, a default
    attempt, and an attempt whose format selector is a generic
    best-quality fallback, whatever other attempts the mode has: both
    assertions of [test_attempt_plan_has_default_and_best] hold for the
    plan of every mode. *)
Theorem attempt_plan_has_default_and_best
    (mode_attempts : string -> list (gmap string pyval)) (mode : string) :
  let plan := build_download_attempt_plan mode_attempts mode in
  (exists step, In step plan /\ step !! "extractor_args" = Some PNone)
  /\ (exists step, In step plan /\ step !! "format" = Some (PStr "best"))
  /\ has_default plan = true
  /\ has_best plan = true
  /\ test_attempt_plan_has_default_and_best mode_attempts mode = true.
Proof.
  intros plan.
  assert (Hd : has_default plan = true).
  { subst plan. unfold has_default, build_download_attempt_plan.
    rewrite existsb_app. apply orb_true_iff. right. reflexivity. }
  assert (Hb : has_best plan = true).
  { subst plan. unfold has_best, build_download_attempt_plan.
    rewrite existsb_app. apply orb_true_iff. right. reflexivity. }
  split; [|split; [|split; [exact Hd|split; [exact Hb|]]]].
  - exists default_attempt. split; [|reflexivity].
    subst plan. unfold build_download_attempt_plan.
    apply in_app_iff. right. now left.
  - exists best_fallback_attempt. split; [|reflexivity].
    subst plan. unfold build_download_attempt_plan.
    apply in_app_iff. right. right. now left.
  - unfold test_attempt_plan_has_default_and_best. fold plan.
    now rewrite Hd, Hb.
Qed.

End SpecPlan.


(** ** ExtractorFallbackEngine: the retry loop *)

Section Engine.
Import PyStr Sys.

Lemma bind_ok {St A B} (m : ST St A) (k : A -> ST St B) (s s' : St) (a : A) :
  m s = (Ok a, s') -> bind m k s = k a s'.
Proof. intros H. unfold bind. now rewrite H. Qed.

Lemma bind_raise {St A B} (m : ST St A) (k : A -> ST St B) (s s' : St)
    (e : exn) :
  m s = (Raise e, s') -> bind m k s = (Raise e, s').
Proof. intros H. unfold bind. now rewrite H. Qed.

(** *** The scan of the scratch directory *)

Lemma first_match_some (vid ext f : string) (names : list string) :
  first_match vid ext names = Some f ->
  In f names /\ startswith f vid = true /\ endswith f ext = true.
Proof.
  induction names as [|g names IH]; simpl; [discriminate|].
  destruct (startswith g vid && endswith g ext) eqn:E.
  - intros [= ->]. apply andb_true_iff in E. tauto.
  - intros H. specialize (IH H). tauto.
Qed.

Lemma first_match_none (vid ext : string) (names : list string) :
  first_match vid ext names = None ->
  forall g, In g names -> startswith g vid = true -> endswith g ext = false.
Proof.
  induction names as [|h names IH]; simpl; [tauto|].
  destruct (startswith h vid && endswith h ext) eqn:E; [discriminate|].
  intros H g [<-|Hg] Hs; [|now apply IH].
  rewrite Hs in E. exact E.
Qed.

Lemma choose_name_some (vid f : string) (names : list string) :
  choose_name vid names = Some f ->
  In f names /\ startswith f vid = true /\
  (endswith f ".webm" = true \/
   (endswith f ".mp4" = true /\
    forall g, In g names -> startswith g vid = true ->
              endswith g ".webm" = false)).
Proof.
  unfold choose_name.
  destruct (first_match vid ".webm" names) as [w|] eqn:Ew.
  - intros [= ->]. apply first_match_some in Ew. tauto.
  - intros Hm. apply first_match_some in Hm.
    pose proof (first_match_none _ _ _ Ew). tauto.
Qed.

Lemma choose_name_none (vid : string) (names : list string) :
  choose_name vid names = None ->
  forall g, In g names -> startswith g vid = true ->
            endswith g ".webm" = false /\ endswith g ".mp4" = false.
Proof.
  unfold choose_name.
  destruct (first_match vid ".webm" names) as [w|] eqn:Ew; [discriminate|].
  intros Hm g Hg Hs.
  split; eapply first_match_none; eassumption.
Qed.

End Engine.

(** *** What embedding and conversion leave untouched *)

Section Untouched.
Import PyStr Sys.

Variable c0 : list (gmap string pyval * string).

Lemma stable_logging (l : level) (msg : string) :
  stable (ydl_inv c0) (logging l msg).
Proof. intros s H. exact H. Qed.

Lemma always_ok_logging (l : level) (msg : string) :
  always_ok (ydl_inv c0) (logging l msg).
Proof. intros s H. exists tt. split; [reflexivity | exact H]. Qed.

Lemma stable_lift_fs (f : FS -> res FS) : stable (ydl_inv c0) (lift_fs f).
Proof.
  intros s H. unfold lift_fs. destruct (f (sys_fs s)); exact H.
Qed.

Lemma stable_modify_fs (f : FS -> FS) : stable (ydl_inv c0) (modify_fs f).
Proof. intros s H. exact H. Qed.

Lemma stable_get_fs : stable (ydl_inv c0) get_fs.
Proof. intros s H. exact H. Qed.

Lemma ydl_calls_external (c : call) (s : sys) :
  match c with CallYdl _ _ => False | _ => True end ->
  ydl_calls (external c s) = ydl_calls s.
Proof.
  intros Hc. unfold ydl_calls, external. simpl. rewrite omap_app.
  destruct c; [tauto| |]; simpl; apply app_nil_r.
Qed.

Lemma stable_http_get (E : extern) (u : string) :
  stable (ydl_inv c0) (http_get E u).
Proof.
  intros s H. unfold http_get, ydl_inv in *.
  destruct (requests_get E (sys_clock s) u); simpl;
    now rewrite ydl_calls_external.
Qed.

Lemma stable_ffmpeg (E : extern) (cmd : list string) (out : string) :
  stable (ydl_inv c0) (subprocess_run_ffmpeg E cmd out).
Proof.
  intros s H. unfold subprocess_run_ffmpeg, ydl_inv in *.
  destruct (ffmpeg E (sys_clock s) cmd (sys_fs s)) as [o|[p|]|]; simpl;
    try (change (ydl_calls (with_fs ?f ?x)) with (ydl_calls x));
    now rewrite ydl_calls_external.
Qed.

Lemma always_ok_unlink_quietly (p : string) :
  always_ok (ydl_inv c0) (unlink_quietly p).
Proof.
  apply always_ok_try_except; [apply stable_lift_fs|].
  intros e. apply always_ok_ret.
Qed.

Lemma always_ok_download_thumbnail (E : extern) (u : option string)
    (vid : string) :
  always_ok (ydl_inv c0) (download_thumbnail E u vid).
Proof.
  unfold download_thumbnail.
  destruct u as [u|]; [|apply always_ok_ret].
  destruct (truthy u); [|apply always_ok_ret].
  apply always_ok_try_except.
  - apply stable_bind; [apply stable_lift_fs|]. intros _.
    apply stable_bind; [apply stable_http_get|]. intros [| |content];
      try apply stable_ret.
    destruct (truthy content); [|apply stable_ret].
    apply stable_bind; [apply stable_lift_fs|]. intros _. apply stable_ret.
  - intros e. apply always_ok_bind; [apply always_ok_logging|].
    intros _. apply always_ok_ret.
Qed.

Lemma always_ok_tag_and_replace (E : extern) (local_file tmp_path : string)
    (thumb : option string) (m : metadata) (vid : string) :
  always_ok (ydl_inv c0)
    (tag_and_replace E local_file tmp_path thumb m vid).
Proof.
  unfold tag_and_replace.
  apply always_ok_try_finally.
  - apply always_ok_try_except.
    + apply stable_bind; [apply stable_get_fs|]. intros fs.
      apply stable_bind; [apply stable_ffmpeg|]. intros _.
      apply stable_bind; [apply stable_lift_fs|]. intros _.
      apply stable_logging.
    + intros e.
      destruct e;
        (apply always_ok_bind; [apply always_ok_logging|]; intros _;
         apply always_ok_unlink_quietly).
  - unfold remove_thumbnail. destruct thumb as [t|];
      [apply always_ok_unlink_quietly | apply always_ok_ret].
Qed.

(** Embedding returns when the temporary file can be created. *)
Lemma embed_metadata_returns (E : extern) (local_file : string)
    (meta : option metadata) (vid : string) (s : sys) :
  tempfile_ok E ->
  dir_exists (sys_fs s) (dirname local_file) = true ->
  ydl_inv c0 s ->
  exists a,
    fst (embed_metadata E local_file meta vid s) = Ok a
    /\ ydl_inv c0 (snd (embed_metadata E local_file meta vid s)).
Proof.
  intros Htmp Hdir H. unfold embed_metadata.
  destruct meta as [m|]; [|now apply always_ok_ret].
  destruct (download_thumbnail_spec E (thumbnail_url m) vid s)
    as (th & Hr1 & Hkeep & _).
  destruct (always_ok_download_thumbnail E (thumbnail_url m) vid s H)
    as (th' & _ & Hi1).
  destruct (download_thumbnail E (thumbnail_url m) vid s) as [x s1] eqn:Ed.
  cbn [fst snd] in *. subst x.
  assert (Hdir1 : dir_exists (sys_fs s1) (dirname local_file) = true).
  { apply (dir_exists_kept _ (sys_fs s)); [|exact Hdir].
    intros p i Hp Hd. apply Hkeep; auto. }
  destruct (mkstemp_random E (sys_clock s1)) as [random|] eqn:Er;
    [|now destruct (Htmp _ Er)].
  pose proof (mkstemp_returns E (".tagged" +:+ base_ext local_file)
                (dirname local_file) random s1 Hdir1 Er) as Hmk.
  unfold bind. rewrite Ed, Hmk.
  apply always_ok_tag_and_replace. exact Hi1.
Qed.

(** Conversion never raises, and returns the source path or the
    converted path. *)
Lemma conversion_result (E : extern) (cfg : option config)
    (vid chosen : string) (s : sys) :
  ydl_inv c0 s ->
  exists p s',
    final_format_conversion E cfg vid chosen s = (Ok p, s')
    /\ returned_path cfg chosen p /\ ydl_inv c0 s'.
Proof.
  intros H. unfold final_format_conversion, returned_path.
  destruct cfg as [c|]; [|exists chosen, s; auto].
  destruct (final_format c) as [desired|] eqn:Ef; [|exists chosen, s; auto].
  destruct (truthy desired) eqn:Et; cbv beta iota zeta delta [negb];
    [|exists chosen, s; auto].
  destruct (String.eqb (current_ext chosen) "mp4" && String.eqb desired "webm").
  { eexists _, _. split; [reflexivity|]. split; [now left | exact H]. }
  destruct (String.eqb (current_ext chosen) desired);
    cbv beta iota zeta delta [negb]; [exists chosen, s; auto|].
  unfold try_except, bind, ret, lift_fs, logging. cbv beta iota zeta.
  pose proof (stable_ffmpeg E (remux_cmd chosen (converted_path chosen desired))
                (converted_path chosen desired) s H) as Hs.
  destruct (subprocess_run_ffmpeg E
              (remux_cmd chosen (converted_path chosen desired))
              (converted_path chosen desired) s) as [[u|e] s1];
    simpl in Hs; cbv beta iota zeta.
  - destruct (os_unlink chosen (sys_fs s1)); cbv beta iota zeta.
    + eexists _, _. split; [reflexivity|]. split; [|exact Hs].
      right. exists c, desired. auto.
    + eexists _, _. split; [reflexivity|]. split; [now left | exact Hs].
  - eexists _, _. split; [reflexivity|]. split; [now left | exact Hs].
Qed.

End Untouched.

(** *** One attempt, and the loops around it *)

Section Attempts.
Import PyStr Sys.

(** The reset of the scratch directory returns when the directory can
    be made; it leaves what lay outside, and the directories that it
    had to make. *)
Lemma reset_temp_dir_spec (temp_dir vid : string) (s : sys) :
  temp_dir_ok (sys_fs s) temp_dir ->
  exists s' created,
    reset_temp_dir temp_dir vid s = (Ok tt, s')
    /\ sys_clock s' = sys_clock s /\ sys_calls s' = sys_calls s
    /\ sys_fs s' = shutil_rmtree temp_dir (sys_fs s) ++ created
    /\ made_for temp_dir created
    /\ os_listdir (sys_fs s') temp_dir = []
    /\ (is_root temp_dir = false -> dir_ready (sys_fs s') temp_dir).
Proof.
  intros Hok. unfold reset_temp_dir.
  (* the state after the check for a stuck partial file *)
  assert (Hfirst :
    exists s1,
      (if os_path_exists (sys_fs s) temp_dir
       then if is_partial_file_stuck (sys_fs s) temp_dir vid
            then logging WARNING
                   ("[" +:+ vid +:+ "] Stuck partial detected, wiping temp_dir") ;;
                 modify_fs (shutil_rmtree temp_dir)
            else ret tt
       else ret tt) s = (Ok tt, s1)
      /\ sys_clock s1 = sys_clock s /\ sys_calls s1 = sys_calls s
      /\ shutil_rmtree temp_dir (sys_fs s1)
         = shutil_rmtree temp_dir (sys_fs s)).
  { destruct (os_path_exists (sys_fs s) temp_dir);
      [destruct (is_partial_file_stuck (sys_fs s) temp_dir vid)|];
      try (exists s; repeat split; reflexivity).
    eexists. split; [reflexivity|]. simpl.
    repeat split. apply rmtree_idem. }
  destruct Hfirst as (s1 & E1 & Hc1 & Hk1 & Hrm).
  unfold bind at 1. unfold get_fs at 1. cbv beta iota zeta.
  rewrite (bind_ok _ _ _ _ _ E1).
  unfold bind, modify_fs, lift_fs. cbv beta iota zeta.
  simpl sys_fs. rewrite Hrm.
  destruct Hok as [fs' Hmk]. rewrite Hmk.
  destruct (os_makedirs_adds _ _ _ Hmk) as (created & -> & Hmade).
  assert (Hfile : forall i, fs_lookup temp_dir (sys_fs s) = Some i ->
                            is_dir i = true).
  { intros i. apply temp_dir_not_file. now exists (shutil_rmtree temp_dir (sys_fs s) ++ created). }
  assert (Hfree : fs_lookup temp_dir (shutil_rmtree temp_dir (sys_fs s)) = None).
  { rewrite rmtree_lookup_self.
    destruct (fs_lookup temp_dir (sys_fs s)) as [j|] eqn:Ej; [|reflexivity].
    now rewrite (Hfile j eq_refl). }
  eexists _, created. split; [reflexivity|]. simpl.
  split; [exact Hc1|]. split; [exact Hk1|]. split; [reflexivity|].
  split; [exact Hmade|]. split.
  - rewrite listdir_app, listdir_rmtree_dir by exact Hfile.
    now apply listdir_made.
  - intros Hr. now apply (os_makedirs_ready _ _ _ Hfree Hr).
Qed.

Variable E : extern.
Variables video_url temp_dir : string.
Variable js : option string.
Variable meta : option metadata.
Variable cfg : option config.
Variable s0 : sys.
Hypothesis Hjs : js_runtime_ok js.
Hypothesis Htmp : tempfile_ok E.
Hypothesis Hslash : endswith temp_dir "/" = false.

Let vid := split_last "v=" video_url.
Let plan := attempt_plan temp_dir js cfg.
Let hit := attempt_hit E video_url temp_dir js cfg (sys_clock s0).
Let hitb (k : nat) : bool :=
  match hit k with Some _ => true | None => false end.
Let J := engine_inv video_url temp_dir plan (ydl_calls s0) (sys_clock s0).
Let Q := engine_post video_url temp_dir cfg plan (ydl_calls s0) hit.

Lemma plan_lookup (k : nat) (c : string * pyval) (o : gmap string pyval) :
  attempt_schedule !! k = Some c ->
  attempt_opts temp_dir js cfg (fst c) (snd c) = Ok o ->
  plan !! k = Some o.
Proof.
  intros Hs Ho.
  pose proof (plan_is_map temp_dir js cfg Hjs) as Hm.
  apply (f_equal (fun l => l !! k)) in Hm.
  rewrite !list_lookup_fmap in Hm. fold plan in Hm. rewrite Hs in Hm.
  simpl in Hm. unfold opts_of in Hm. rewrite Ho in Hm.
  destruct (plan !! k); simpl in Hm; congruence.
Qed.

Lemma attempt_scans (k : nat) (c : string * pyval) :
  attempt_schedule !! k = Some c ->
  scans hitb J Q k 1
    (attempt_once E video_url temp_dir js meta cfg vid (fst c) (snd c)).
Proof.
  intros Hs s (Hclock & Hok & Hcalls).
  pose proof (temp_dir_truthy _ _ Hok) as Htruthy.
  pose proof (not_root_of_no_slash _ Hslash) as Hroot.
  destruct (reset_temp_dir_spec temp_dir vid s Hok)
    as (s1 & created & E1 & Hc1 & Hk1 & _ & _ & Hls1 & Hready).
  specialize (Hready Hroot).
  destruct (attempt_opts_ok temp_dir js cfg (fst c) (snd c) Hjs) as [o Ho].
  pose proof (plan_lookup k c o Hs Ho) as Hplan.
  pose proof (take_S_r plan k o Hplan) as Htake.
  set (out := ydl_extract_info E (sys_clock s0 + k) o video_url).
  assert (Hhit : hit k = match ydl_res out with
                         | YdlInfo =>
                             choose_name vid
                               (scratch_listing temp_dir (ydl_files out))
                         | _ => None
                         end).
  { unfold hit, attempt_hit, attempt_outcome. rewrite Hs.
    unfold opts_of. rewrite Ho. reflexivity. }
  set (s2 := with_fs (sys_fs s1 ++ populate temp_dir (ydl_files out))
               (external (CallYdl o video_url) s1)).
  assert (Hj2 : forall s3, sys_clock s3 = sys_clock s2 ->
                           sys_fs s3 = sys_fs s2 ->
                           sys_calls s3 = sys_calls s2 -> J (k + 1)%nat s3).
  { intros s3 H1 H2 H3. unfold J, engine_inv. split; [|split].
    - rewrite H1. simpl. rewrite Hc1, Hclock. lia.
    - rewrite H2. simpl.
      apply dir_ready_ok; [exact Htruthy | exact Hroot|].
      now apply dir_ready_app.
    - unfold ydl_calls in *. rewrite H3. simpl. rewrite omap_app, Hk1, Hcalls.
      simpl. replace (k + 1)%nat with (S k) by lia.
      fold plan. rewrite Htake, map_app, app_assoc. reflexivity. }
  assert (Hextract :
    extract_info E o video_url temp_dir s1
    = (match ydl_res out with
       | YdlRaise => Raise OtherError
       | YdlNoInfo => Ok false
       | YdlInfo => Ok true
       end, s2)).
  { unfold extract_info. rewrite Hc1, Hclock. fold out. fold s2.
    now destruct (ydl_res out). }
  assert (Hlist : os_listdir (sys_fs s2) temp_dir
                  = scratch_listing temp_dir (ydl_files out)).
  { unfold s2. simpl. rewrite listdir_app, Hls1. reflexivity. }
  assert (Hrun :
    attempt_once E video_url temp_dir js meta cfg vid (fst c) (snd c) s
    = (info <- try_except
                 (i <- extract_info E o video_url temp_dir ;; ret (Some i))
                 (fun _ =>
                    logging WARNING
                      ("[" +:+ vid +:+ "] " +:+ fst c +:+ " failed") ;;
                    ret None) ;;
       match info with
       | None => ret None
       | Some false =>
           logging WARNING
             ("[" +:+ vid +:+ "] No info returned from extractor "
              +:+ fst c) ;;
           ret None
       | Some true =>
           fs <- get_fs ;;
           match choose_name vid (os_listdir fs temp_dir) with
           | Some f =>
               let chosen := os_path_join temp_dir f in
               logging INFO
                 ("[" +:+ vid +:+ "] SUCCESS via " +:+ fst c +:+ " → "
                  +:+ basename chosen) ;;
               embed_metadata E chosen meta vid ;;
               final <- final_format_conversion E cfg vid chosen ;;
               ret (Some final)
           | None =>
               logging WARNING
                 ("[" +:+ vid +:+ "] Extractor " +:+ fst c
                  +:+ " produced no usable output") ;;
               ret None
           end
       end) s1).
  { unfold attempt_once. rewrite (bind_ok _ _ _ _ _ E1). rewrite Ho.
    reflexivity. }
  rewrite Hrun. clear Hrun.
  match goal with
  | |- context [?prog s1] =>
      match prog with
      | bind _ _ =>
          assert (Hcases :
            match hit k with
            | None => exists s', prog s1 = (Ok None, s') /\ J (k + 1)%nat s'
            | Some _ =>
                exists p s', prog s1 = (Ok (Some p), s') /\ Q k p s'
            end)
      end
  end.
  { unfold Q, engine_post. rewrite Hhit.
    unfold bind, try_except, get_fs, ret, logging. cbv beta iota zeta.
    rewrite Hextract.
    destruct (ydl_res out) eqn:Eres; cbv beta iota zeta.
    - eexists. split; [reflexivity|]. now apply Hj2.
    - eexists. split; [reflexivity|]. now apply Hj2.
    - change (sys_fs s2) with (sys_fs s2). rewrite Hlist.
      destruct (choose_name vid (scratch_listing temp_dir (ydl_files out)))
        as [f|] eqn:Ef; cbv beta iota zeta.
      2:{ eexists. split; [reflexivity|]. now apply Hj2. }
      set (chosen := os_path_join temp_dir f).
      set (cs := ydl_calls s2).
      assert (Hdir : dir_exists (sys_fs s2) (dirname chosen) = true).
      { destruct (choose_name_some _ _ _ Ef) as (Hin & _).
        destruct (listdir_names _ _ _ Hin) as [Hf1 Hf2].
        unfold chosen.
        destruct (dirname_join temp_dir f Htruthy Hslash Hf1 Hf2) as [_ ->].
        unfold dir_exists, os_path_isdir.
        destruct (dir_ready_app temp_dir (sys_fs s1)
                    (populate temp_dir (ydl_files out)) Hready) as [Hl _].
        unfold s2. simpl sys_fs. rewrite Hl. apply orb_true_r. }
      match goal with
      | |- context [embed_metadata E chosen meta vid ?st] =>
          destruct (embed_metadata_returns cs E chosen meta vid st Htmp
                      Hdir eq_refl)
            as ([] & He & Hi);
          destruct (embed_metadata E chosen meta vid st) as [re s4]
      end.
      simpl in He, Hi. subst re. cbv beta iota zeta.
      destruct (conversion_result cs E cfg vid chosen s4 Hi)
        as (p & s5 & Ec & Hret & Hi5).
      rewrite Ec. cbv beta iota zeta.
      exists p, s5. split; [reflexivity|].
      exists f. split; [reflexivity|]. split; [exact Hret|].
      unfold ydl_inv in Hi5. rewrite Hi5. unfold cs, ydl_calls, s2. simpl.
      rewrite omap_app. fold (ydl_calls s1).
      unfold ydl_calls in *. rewrite Hk1, Hcalls. simpl.
      fold plan. rewrite Htake, map_app, app_assoc. reflexivity. }
  unfold hitb. split.
  - intros Hnone. specialize (Hnone k ltac:(lia)).
    destruct (hit k); [discriminate | exact Hcases].
  - intros k' Hk' Hyes _. assert (k' = k) by lia. subst k'.
    destruct (hit k); [exact Hcases | discriminate].
Qed.

Lemma schedule_index (p j i : nat) (c : string * pyval) :
  (p < 4)%nat -> extractor_chain !! j = Some c -> (i < 2)%nat ->
  attempt_schedule !! (6 * p + 2 * j + i)%nat = Some c.
Proof.
  intros Hp Hc Hi.
  destruct p as [|[|[|[|p]]]]; try lia;
    (destruct j as [|[|[|j]]]; simpl in Hc; try discriminate;
     injection Hc as <-;
     destruct i as [|[|i]]; try lia; reflexivity).
Qed.

Lemma logging_keeps (n : nat) (l : level) (msg : string) (s : sys) :
  J n s -> exists a s', logging l msg s = (Ok a, s') /\ J n s'.
Proof. intros H. exists tt. eexists. split; [reflexivity | exact H]. Qed.

Lemma retries_scan (n : nat) (c : string * pyval) :
  (forall i, (i < 2)%nat -> attempt_schedule !! (n + i)%nat = Some c) ->
  scans hitb J Q n 2
    (logging INFO ("[" +:+ vid +:+ "] Trying extractor: " +:+ fst c) ;;
     for_first (seq 0 EXTRACTOR_RETRIES)
       (fun _ =>
          attempt_once E video_url temp_dir js meta cfg vid (fst c) (snd c))).
Proof.
  intros Hc. apply scans_prologue; [intros s; apply logging_keeps|].
  change 2%nat with (1 * length (seq 0 EXTRACTOR_RETRIES))%nat.
  apply scans_for_first. intros i x Hx.
  apply lookup_seq in Hx. destruct Hx as [_ Hi].
  rewrite Nat.mul_1_l. apply attempt_scans, Hc. exact Hi.
Qed.

Lemma pass_scan (p : nat) :
  (p < 4)%nat ->
  scans hitb J Q (6 * p) 6
    (logging INFO
       ("[" +:+ vid +:+ "] Download attempt " +:+ pretty (S p) +:+ "/"
        +:+ pretty MAX_VIDEO_RETRIES) ;;
     r <- for_first extractor_chain
            (fun c =>
               logging INFO
                 ("[" +:+ vid +:+ "] Trying extractor: " +:+ fst c) ;;
               for_first (seq 0 EXTRACTOR_RETRIES)
                 (fun _ =>
                    attempt_once E video_url temp_dir js meta cfg vid
                      (fst c) (snd c))) ;;
     match r with
     | Some chosen => ret (Some chosen)
     | None =>
         logging WARNING
           ("[" +:+ vid +:+ "] All extractors failed this attempt.") ;;
         ret None
     end).
Proof.
  intros Hp. apply scans_prologue; [intros s; apply logging_keeps|].
  apply scans_epilogue.
  { intros s Hj. destruct (logging_keeps _ WARNING
      ("[" +:+ vid +:+ "] All extractors failed this attempt.") s Hj)
      as ([] & s' & H1 & H2). eauto. }
  change 6%nat with (2 * length extractor_chain)%nat at 2.
  apply scans_for_first. intros j c Hc. apply retries_scan.
  intros i Hi. rewrite <- Nat.add_assoc.
  replace (6 * p + (2 * j + i))%nat with (6 * p + 2 * j + i)%nat by lia.
  now apply schedule_index.
Qed.

Lemma download_scans :
  scans hitb J Q 0 24
    (download_with_ytdlp E video_url temp_dir js meta cfg).
Proof.
  unfold download_with_ytdlp. fold vid.
  apply scans_epilogue.
  { intros s Hj. destruct (logging_keeps _ ERROR
      ("[" +:+ vid +:+ "] PERMANENT FAILURE after "
       +:+ pretty MAX_VIDEO_RETRIES +:+ " attempts.") s Hj)
      as ([] & s' & H1 & H2). eauto. }
  change 24%nat with (6 * length (seq 0 MAX_VIDEO_RETRIES))%nat.
  apply scans_for_first. intros i x Hx.
  apply lookup_seq in Hx. destruct Hx as [-> Hi]. simpl.
  apply pass_scan. exact Hi.
Qed.

Lemma hit_in_range (k : nat) (f : string) : hit k = Some f -> (k < 24)%nat.
Proof.
  unfold hit, attempt_hit, attempt_outcome. intros H.
  destruct (attempt_schedule !! k) eqn:Hsch; [|discriminate].
  apply lookup_lt_Some in Hsch. exact Hsch.
Qed.


End Attempts.

(** ** The external calls of a download *)

Section Calls.
Import PyStr Sys.

Variable P : call -> Prop.
Variable c0 : list call.

Let K := calls_since P c0.

Lemma stable_bind_post {St A B} (I : St -> Prop) (Q : A -> Prop)
    (m : ST St A) (k : A -> ST St B) :
  stable I m -> (forall s a, fst (m s) = Ok a -> Q a) ->
  (forall a, Q a -> stable I (k a)) -> stable I (bind m k).
Proof.
  intros Hm HQ Hk s H. unfold bind. specialize (Hm s H).
  specialize (HQ s).
  destruct (m s) as [[a|e] s']; simpl in *; [apply Hk; auto | exact Hm].
Qed.

Lemma calls_same {A} (m : M A) :
  (forall s, sys_calls (snd (m s)) = sys_calls s) -> stable K m.
Proof.
  intros Hm s (added & H1 & H2). exists added. now rewrite Hm.
Qed.

Lemma calls_logging (l : level) (msg : string) : stable K (logging l msg).
Proof. now apply calls_same. Qed.

Lemma calls_lift_fs (f : FS -> res FS) : stable K (lift_fs f).
Proof.
  apply calls_same. intros s. unfold lift_fs.
  now destruct (f (sys_fs s)).
Qed.

Lemma calls_modify_fs (f : FS -> FS) : stable K (modify_fs f).
Proof. now apply calls_same. Qed.

Lemma calls_get_fs : stable K get_fs.
Proof. now apply calls_same. Qed.

Lemma calls_mkstemp (E : extern) (suffix dir : string) :
  stable K (mkstemp E suffix dir).
Proof.
  apply calls_same. intros s. unfold mkstemp.
  destruct (negb (dir_exists (sys_fs s) dir)); [reflexivity|].
  now destruct (mkstemp_random E (sys_clock s)).
Qed.

Lemma calls_external (c : call) (s : sys) :
  P c -> K s -> K (external c s).
Proof.
  intros Hc (added & H1 & H2). exists (added ++ [c]). split.
  - simpl. now rewrite H1, app_assoc.
  - intros c' Hin. apply in_app_iff in Hin.
    destruct Hin as [Hin|[<-|[]]]; auto.
Qed.

Lemma calls_with_fs (fs : FS) (s : sys) : K s -> K (with_fs fs s).
Proof. intros H. exact H. Qed.

Lemma calls_ffmpeg (E : extern) (cmd : list string) (out : string) :
  P (CallFfmpeg cmd) -> stable K (subprocess_run_ffmpeg E cmd out).
Proof.
  intros Hc s H. unfold subprocess_run_ffmpeg.
  destruct (ffmpeg E (sys_clock s) cmd (sys_fs s)) as [o|[p|]|]; simpl;
    try apply calls_with_fs; now apply calls_external.
Qed.

Hypothesis HGet : forall u, P (CallGet u).

Lemma calls_http_get (E : extern) (u : string) : stable K (http_get E u).
Proof.
  intros s H. unfold http_get.
  destruct (requests_get E (sys_clock s) u); simpl;
    now apply calls_external.
Qed.

Ltac calls :=
  repeat first
    [ apply stable_ret | apply stable_raise | apply stable_lift_res
    | apply calls_logging | apply calls_lift_fs | apply calls_modify_fs
    | apply calls_get_fs | apply calls_mkstemp | apply calls_http_get
    | apply stable_bind; [|intros ?]
    | apply stable_try_except; [|intros ?]
    | apply stable_try_finally ].

Lemma calls_download_thumbnail (E : extern) (u : option string)
    (vid : string) :
  stable K (download_thumbnail E u vid).
Proof.
  unfold download_thumbnail.
  destruct u as [u|]; [|calls]. destruct (truthy u); [|calls].
  apply stable_try_except; [|intros ?; calls].
  apply stable_bind; [calls|]. intros _.
  apply stable_bind; [calls|]. intros [| |content]; calls.
  destruct (truthy content); calls.
Qed.

Variables video_url temp_dir : string.
Hypothesis HYdl : forall o, P (CallYdl o video_url).
Hypothesis HFf :
  forall cmd f,
    ffmpeg_input cmd = os_path_join temp_dir f -> P (CallFfmpeg cmd).

Lemma calls_embed_metadata (E : extern) (f : string)
    (meta : option metadata) (vid : string) :
  stable K (embed_metadata E (os_path_join temp_dir f) meta vid).
Proof.
  unfold embed_metadata, tag_and_replace, remove_thumbnail, unlink_quietly.
  destruct meta as [m|]; [|calls].
  apply stable_bind; [apply calls_download_thumbnail|]. intros thumb.
  apply stable_bind; [calls|]. intros tmp.
  apply stable_try_finally; [|destruct thumb; calls].
  apply stable_try_except; [|intros e; destruct e; calls].
  apply stable_bind; [calls|]. intros fs.
  apply stable_bind; [|intros _; calls].
  apply calls_ffmpeg. now apply (HFf _ f).
Qed.

Lemma calls_conversion (E : extern) (cfg : option config)
    (vid f : string) :
  stable K (final_format_conversion E cfg vid (os_path_join temp_dir f)).
Proof.
  unfold final_format_conversion.
  destruct (match cfg with Some c => final_format c | None => None end)
    as [desired|]; [|calls].
  destruct (negb (truthy desired)); [calls|].
  destruct (String.eqb (current_ext (os_path_join temp_dir f)) "mp4"
            && String.eqb desired "webm"); [calls|].
  destruct (negb (String.eqb (current_ext (os_path_join temp_dir f)) desired));
    [|calls].
  apply stable_try_except; [|intros ?; calls].
  apply stable_bind; [|intros _; calls].
  apply calls_ffmpeg. now apply (HFf _ f).
Qed.

Lemma calls_extract_info (E : extern) (o : gmap string pyval) :
  stable K (extract_info E o video_url temp_dir).
Proof.
  intros s H. unfold extract_info.
  assert (Hs : K (with_fs
                    (sys_fs s ++ populate temp_dir
                       (ydl_files (ydl_extract_info E (sys_clock s) o video_url)))
                    (external (CallYdl o video_url) s))).
  { apply calls_with_fs, calls_external; [apply HYdl | exact H]. }
  destruct (ydl_res (ydl_extract_info E (sys_clock s) o video_url));
    exact Hs.
Qed.

Lemma calls_attempt_once (E : extern) (js : option string)
    (meta : option metadata) (cfg : option config)
    (vid client_name : string) (hdrs : pyval) :
  stable K (attempt_once E video_url temp_dir js meta cfg vid client_name hdrs).
Proof.
  unfold attempt_once, reset_temp_dir.
  apply stable_bind.
  { apply stable_bind; [calls|]. intros fs.
    apply stable_bind; [|intros _; calls].
    destruct (os_path_exists fs temp_dir); [|calls].
    destruct (is_partial_file_stuck fs temp_dir vid); calls. }
  intros _. apply stable_bind; [calls|]. intros opts.
  apply stable_bind.
  { apply stable_try_except; [|intros ?; calls].
    apply stable_bind; [apply calls_extract_info | intros ?; calls]. }
  intros [[|]|]; [|calls|calls].
  apply stable_bind; [calls|]. intros fs.
  destruct (choose_name vid (os_listdir fs temp_dir)) as [f|]; [|calls].
  cbv zeta.
  apply stable_bind; [calls|]. intros _.
  apply stable_bind; [apply calls_embed_metadata|]. intros _.
  apply stable_bind; [apply calls_conversion | intros ?; calls].
Qed.

(** Every external call of a download is one of the three: yt-dlp on
    the URL, ffmpeg on a file of the scratch directory, or the request
    for the thumbnail. *)
Lemma calls_download (E : extern) (js : option string)
    (meta : option metadata) (cfg : option config) :
  stable K (download_with_ytdlp E video_url temp_dir js meta cfg).
Proof.
  unfold download_with_ytdlp.
  apply stable_bind; [|intros [chosen|]; calls].
  apply stable_for_first. intros attempt _.
  apply stable_bind; [calls|]. intros _.
  apply stable_bind; [|intros [chosen|]; calls].
  apply stable_for_first. intros c _.
  apply stable_bind; [calls|]. intros _.
  apply stable_for_first. intros i _. apply calls_attempt_once.
Qed.

End Calls.

(** ** RunCoordinator and CopyLedgerWorker *)

Section Dedup.
Import PyStr Sys Run.

Variable S : services.
Variable vid : string.
Variable c0 : list call.
Variable row : ledger_row.

Let I := gate_inv c0 row vid.

Lemma stable_lift_sys {A} (m : M A) :
  stable (calls_inv c0 vid) m -> stable I (lift_sys m).
Proof.
  intros Hm st (Hl & Hd & Hc). unfold lift_sys.
  specialize (Hm (sys_of st) Hc).
  destruct (m (sys_of st)) as [r s'].
  split; [exact Hl | split; [exact Hd | exact Hm]].
Qed.

Lemma stable_quiet {A} (m : M A) :
  (forall s, sys_calls (snd (m s)) = sys_calls s) -> stable I (lift_sys m).
Proof. intros H. apply stable_lift_sys. now apply calls_same. Qed.

Lemma stable_log (l : level) (msg : string) : stable I (log l msg).
Proof. now apply stable_quiet. Qed.

Lemma stable_sys_modify_fs (f : FS -> FS) :
  stable I (lift_sys (modify_fs f)).
Proof. now apply stable_quiet. Qed.

Lemma stable_sys_lift_fs (f : FS -> res FS) :
  stable I (lift_sys (lift_fs f)).
Proof.
  apply stable_quiet. intros s. unfold lift_fs. now destruct (f (sys_fs s)).
Qed.

Lemma stable_now : stable I now.
Proof. intros st H. exact H. Qed.

Lemma stable_get : stable I (@get run_state).
Proof. intros st H. exact H. Qed.

Lemma stable_modify (f : run_state -> run_state) :
  (forall st, I st -> I (f st)) -> stable I (modify f).
Proof. intros Hf st H. now apply Hf. Qed.

Lemma stable_bind_get {B} (k : run_state -> R B) :
  (forall st, I st -> I (snd (k st st))) -> stable I (bind get k).
Proof. intros Hk st H. exact (Hk st H). Qed.

Lemma stable_emit (e : event) : ~ works_on vid e -> stable I (emit e).
Proof.
  intros He st (Hrow & (Hl & Ht & Hp) & Hc).
  split; [exact Hrow|]. split; [|exact Hc].
  split; [exact Hl|]. split; [|exact Hp].
  simpl. intros e' Hin. apply in_app_iff in Hin.
  destruct Hin as [Hin|[<-|[]]]; [now apply Ht | exact He].
Qed.

Ltac stab :=
  repeat first
    [ apply stable_ret | apply stable_raise | apply stable_lift_res
    | apply stable_log | apply stable_sys_modify_fs
    | apply stable_sys_lift_fs | apply stable_now
    | apply stable_get
    | apply stable_bind; [|intros ?]
    | apply stable_try_except; [|intros ?]
    | apply stable_try_finally
    | apply stable_modify; intros ? HH; exact HH ].

Lemma stable_db_insert (video_id playlist dst : string) :
  stable I (db_insert S video_id playlist dst).
Proof.
  unfold db_insert. apply stable_bind; [apply stable_now|]. intros t.
  apply stable_bind_get. intros st H.
  destruct (ledger st !! video_id) eqn:El; [exact H|].
  destruct (db_write S t); [|exact H].
  destruct H as (Hrow & (Hl & Ht & Hp) & Hc).
  assert (Hne : video_id <> vid) by (intros ->; congruence).
  split; [|split; [split; [|split; assumption]|exact Hc]]; simpl.
  - now rewrite lookup_insert_ne.
  - now rewrite lookup_insert_ne.
Qed.

Lemma stable_after_copy (success : bool) (dst : string) (j : job) :
  job_video_id j <> vid -> stable I (after_copy S success dst j).
Proof.
  intros Hj. unfold after_copy, playlist_item_delete.
  apply stable_bind; [apply stable_emit; exact Hj|]. intros _.
  apply stable_bind.
  - destruct success; [|stab].
    apply stable_bind; [stab|]. intros _.
    apply stable_bind; [stab|]. intros _.
    apply stable_try_except; [apply stable_db_insert | intros ?; stab].
  - intros _. apply stable_bind; [stab|]. intros _.
    destruct (job_entry_id j) as [entry_id|]; [|stab].
    destruct (success && job_remove j && truthy entry_id); [|stab].
    apply stable_try_except; [|intros ?; stab].
    apply stable_bind; [apply stable_emit; tauto|]. intros _.
    apply stable_bind; [stab|]. intros t.
    destruct (delete_item S t (job_yt_service j) entry_id); stab.
Qed.

Lemma stable_copy_thread (j : job) :
  job_video_id j <> vid -> stable I (copy_thread S j).
Proof.
  intros Hj. unfold copy_thread, shutil_copy2.
  apply stable_try_except.
  - apply stable_bind; [stab|]. intros _.
    apply stable_bind; [|intros _; now apply stable_after_copy].
    apply stable_bind; [stab|]. intros t.
    apply stable_bind_get. intros st H.
    destruct (fs_lookup (job_src j) (sys_fs (sys_of st))) as [i|]; [|exact H].
    destruct (is_dir i); [exact H|].
    destruct (copy2 S t (job_src j) (job_dst j)); [|exact H].
    now apply stable_sys_modify_fs.
  - intros e. apply stable_bind; [stab|]. intros _.
    now apply stable_after_copy.
Qed.

Lemma stable_complete (i : nat) : stable I (complete S i).
Proof.
  unfold complete. apply stable_bind_get. intros st H.
  destruct (pending_copies st !! i) as [j|] eqn:Ej; [|exact H].
  destruct (existsb (Nat.eqb i) (finished st)); [exact H|].
  assert (Hj : job_video_id j <> vid).
  { destruct H as (_ & (_ & _ & Hp) & _). apply Hp.
    apply list_elem_of_In. eapply list_elem_of_lookup_2. exact Ej. }
  assert (Hst : stable I
    (modify (fun st => with_finished (i :: finished st) st) ;;
     try_except (copy_thread S j) (fun _ => ret tt))).
  { apply stable_bind; [stab|]. intros _.
    apply stable_try_except; [now apply stable_copy_thread | intros ?; stab]. }
  exact (Hst st H).
Qed.

Lemma stable_run_ready : stable I (run_ready S).
Proof.
  unfold run_ready. apply stable_bind; [stab|]. intros t.
  apply stable_for_each. intros i _. apply stable_complete.
Qed.

Lemma stable_join_all : stable I (join_all S).
Proof.
  unfold join_all. apply stable_bind; [apply stable_run_ready|]. intros _.
  apply stable_bind_get. intros st H.
  apply stable_for_each; [|exact H]. intros i _. apply stable_complete.
Qed.

Variable cfg : config.

(** The metadata of an item name its URL. *)
Lemma fetched_url (pl : playlist) (yt : client) (v : string)
    (h : exn -> R (option metadata + option unit))
    (st : run_state) (a : option metadata + option unit) :
  (forall ex st', match fst (h ex st') with
                  | Ok (inl _) => False
                  | _ => True
                  end) ->
  fst (try_except (m <- get_video_metadata S yt v ;; ret (inl m)) h st)
  = Ok a ->
  forall m, a = inl (Some m) ->
            url m = Some ("https://www.youtube.com/watch?v=" +:+ v).
Proof.
  intros Hh. unfold get_video_metadata, try_except, bind, emit, modify, now,
    lift_res, ret.
  cbn [fst snd sys_of with_trace with_sys].
  match goal with
  | |- context [videos_list S ?t yt v] =>
      destruct (videos_list S t yt v) as [[|snip items]|ex]
  end; cbn [fst].
  - intros [= <-] m [=].
  - intros [= <-] m [= <-]. reflexivity.
  - intros Ha m ->.
    match type of Ha with
    | fst (h ex ?st') = _ => specialize (Hh ex st')
    end.
    now rewrite Ha in Hh.
Qed.

Lemma stable_process_item (pl : playlist) (yt : client)
    (js : option string) (e : entry) (v : string) :
  v <> vid -> stable I (process_item S cfg pl yt js e v).
Proof.
  intros Hv. unfold process_item, async_copy.
  apply (stable_bind_post I
           (fun a => forall m, a = inl (Some m) ->
              url m = Some ("https://www.youtube.com/watch?v=" +:+ v))).
  - unfold get_video_metadata. apply stable_try_except.
    + apply stable_bind; [|intros ?; stab].
      apply stable_bind; [apply stable_emit; exact Hv|]. intros _.
      apply stable_bind; [stab|]. intros t.
      apply stable_bind; [stab|]. intros [|snip items]; stab.
    + intros ex. destruct ex; stab.
  - intros st a. apply fetched_url; [exact pl|].
    intros ex st'. destruct ex; exact Logic.I.
  - intros [[m|]|ctl] Hurl; [|stab|stab].
    specialize (Hurl m eq_refl).
    apply stable_bind; [stab|]. intros _.
    apply stable_bind; [apply stable_emit; exact Hv|]. intros _.
    apply stable_bind.
    { apply stable_lift_sys. rewrite Hurl. cbn [show].
      apply calls_download.
      - intros u. exists v. split; [exact Hv | exact Logic.I].
      - intros o. exists v. split; [exact Hv | reflexivity].
      - intros cmd f Hin. exists v. split; [exact Hv|]. now exists f. }
    intros local_file.
    apply stable_bind; [apply stable_run_ready|]. intros _.
    destruct local_file as [local_file|]; [|stab].
    apply stable_bind; [stab|]. intros _.
    apply stable_bind; [|intros _; stab].
    apply stable_bind; [apply stable_emit; exact Hv|]. intros _.
    apply stable_modify. intros st (Hrow & (Hl & Ht & Hp) & Hc).
    split; [exact Hrow|]. split; [|exact Hc].
    split; [exact Hl|]. split; [exact Ht|]. simpl.
    intros j Hin. apply in_app_iff in Hin.
    destruct Hin as [Hin|[<-|[]]]; [now apply Hp | exact Hv].
Qed.

Lemma stable_process_entry (pl : playlist) (yt : client)
    (js : option string) (e : entry) :
  stable I (process_entry S cfg pl yt js e).
Proof.
  unfold process_entry.
  apply stable_bind; [apply stable_run_ready|]. intros _.
  destruct (videoId e) as [v|]; [|stab].
  destruct (negb (truthy v)); [stab|].
  apply stable_bind_get. intros st H.
  destruct (ledger st !! v) eqn:El; [exact H|].
  apply stable_process_item; [|exact H].
  intros ->. destruct H as (Hrow & _). congruence.
Qed.

Lemma stable_process_playlist (js : option string) (pl : playlist) :
  stable I (process_playlist S cfg js pl).
Proof.
  unfold process_playlist, get_playlist_videos.
  apply stable_bind; [apply stable_run_ready|]. intros _.
  apply stable_bind_get. intros st H.
  destruct (mjoin (yt_clients st !! account pl)) as [yt|].
  - assert (Hst : forall k : option (list entry) -> R unit,
              (forall a, stable I (k a)) ->
              stable I
                (bind (try_except
                   (v <- (emit (EvListPlaylist yt (playlist_id pl)) ;;
                          t <- now ;;
                          lift_res (playlist_items S t yt (playlist_id pl))) ;;
                    ret (Some v))
                   (fun ex =>
                      match ex with
                      | HttpError =>
                          log EXCEPTION
                            ("Playlist fetch failed " +:+ playlist_id pl) ;;
                          ret None
                      | RefreshError =>
                          log ERROR
                            ("OAuth refresh failed for account "
                             +:+ account pl +:+ " while fetching playlist "
                             +:+ playlist_id pl) ;;
                          modify (fun st =>
                                    with_failures
                                      (run_failures st
                                       ++ [Some (playlist_id pl +:+ " (auth)")])
                                      st) ;;
                          modify (fun st =>
                                    with_clients
                                      (<[account pl := None]> (yt_clients st))
                                      st) ;;
                          ret None
                      | _ => raise ex
                      end)) k)).
    { intros k Hk. apply stable_bind; [|exact Hk].
      apply stable_try_except.
      - apply stable_bind; [|intros ?; stab].
        apply stable_bind; [apply stable_emit; tauto|]. intros _. stab.
      - intros ex. destruct ex; stab. }
    apply Hst; [|exact H].
    intros [videos|]; [|stab].
    apply stable_bind; [|intros ?; stab].
    apply stable_for_first. intros e _. apply stable_process_entry.
  - assert (Hst : stable I
              (log ERROR ("No valid YouTube client for account '"
                          +:+ account pl +:+ "'; skipping playlist "
                          +:+ playlist_id pl) ;;
               modify (fun st =>
                         with_failures
                           (run_failures st
                            ++ [Some (playlist_id pl +:+ " (auth)")]) st)))
      by stab.
    exact (Hst st H).
Qed.

Lemma stable_telegram_notify (message : string) :
  stable I (telegram_notify S cfg message).
Proof.
  unfold telegram_notify.
  destruct (telegram cfg) as [[[token|] [chat_id|]]|];
    try apply stable_ret.
  destruct (truthy token && truthy chat_id); [|apply stable_ret].
  apply stable_bind; [apply stable_emit; tauto|]. intros _.
  apply stable_bind; [apply stable_now|]. intros t.
  destruct (urlopen S t message); [apply stable_ret | apply stable_log].
Qed.

Lemma stable_finish : stable I (finish S cfg).
Proof.
  unfold finish.
  apply stable_bind; [apply stable_run_ready|]. intros _.
  apply stable_try_except; [|intros ex; destruct ex; stab].
  apply stable_bind_get. intros st H.
  assert (Hst : forall m : R unit, stable I m ->
            stable I (m ;; run_ready S ;;
                      lift_sys (lift_fs (os_unlink LOCK_FILE)))).
  { intros m Hm. apply stable_bind; [exact Hm | intros _].
    apply stable_bind; [apply stable_run_ready | intros _; stab]. }
  apply Hst; [|exact H].
  destruct (run_successes st), (run_failures st);
    first [ apply stable_ret
          | apply stable_bind;
            [apply stable_run_ready
            | intros _; apply stable_telegram_notify] ].
Qed.

Lemma stable_build_client (acc : string * option string) :
  stable I (build_client S acc).
Proof.
  unfold build_client. destruct (snd acc) as [token_path|]; [|stab].
  destruct (truthy token_path); [|stab].
  apply stable_bind; [stab|]. intros t.
  destruct (load_credentials S t token_path) as [u|ex]; [stab|].
  destruct ex; stab.
Qed.

Lemma stable_init_db : stable I (init_db S).
Proof.
  unfold init_db. apply stable_bind; [stab|]. intros _.
  apply stable_bind; [stab|]. intros t.
  apply stable_bind_get. intros st H.
  destruct (os_path_isdir (sys_fs (sys_of st)) DB_PATH); [exact H|].
  destruct (db_connect S t); [|exact H].
  destruct (os_path_exists (sys_fs (sys_of st)) DB_PATH); [exact H|].
  now apply stable_sys_modify_fs.
Qed.

Lemma stable_config_key {A} (x : option A) : stable I (config_key x).
Proof. destruct x; stab. Qed.

Lemma stable_run_body :
  stable I
    (lift_sys (lift_fs (write_file LOCK_FILE (pid S))) ;;
     init_db S ;;
     accounts <- config_key (accounts cfg) ;;
     playlists <- config_key (playlists cfg) ;;
     for_each accounts (build_client S) ;;
     try_finally
       (run_playlists S cfg (resolve_js_runtime S cfg) playlists ;;
        join_all S ;;
        log INFO rule ;;
        log INFO "Run complete." ;;
        log INFO (rule +:+ " " +:+ nl +:+ " " +:+ nl +:+ " " +:+ nl))
       (finish S cfg)).
Proof.
  apply stable_bind; [stab|]. intros _.
  apply stable_bind; [apply stable_init_db|]. intros _.
  apply stable_bind; [apply stable_config_key|]. intros accs.
  apply stable_bind; [apply stable_config_key|]. intros pls.
  apply stable_bind.
  { apply stable_for_each. intros acc _. apply stable_build_client. }
  intros _. apply stable_try_finally; [|apply stable_finish].
  apply stable_bind.
  { apply stable_for_each. intros pl _. apply stable_process_playlist. }
  intros _. apply stable_bind; [apply stable_join_all|]. intros _. stab.
Qed.

(** The invariant of the ledger check holds at the end of a run. *)
Lemma run_once_keeps (s : sys) (l : gmap string ledger_row) :
  l !! vid = Some row -> c0 = sys_calls s -> I (snd (run_once S cfg s l)).
Proof.
  intros Hl Hc0.
  assert (H0 : I (initial s l)).
  { split; [exact Hl|]. split.
    - split; [now exists row|]. split; intros x [].
    - exists []. split; [now rewrite app_nil_r, Hc0 | intros c []]. }
  unfold run_once. revert H0. generalize (initial s l). intros st H0.
  destruct (os_path_exists (sys_fs s) LOCK_FILE).
  - now apply stable_log.
  - now apply stable_run_body.
Qed.

End Dedup.

Section LedgerGate.
Import PyStr Sys Run.

Lemma append_inj (a x y : string) : a +:+ x = a +:+ y -> x = y.
Proof.
  induction a as [|c a IH]; [now rewrite !append_nil|].
  rewrite !append_cons. intros [= H]. now apply IH.
Qed.


End LedgerGate.


Section PlaylistFetch.
Import PyStr Sys Run.

Variable S : services.

Let T : run_state -> Prop := fun _ => True.

Lemma stable_true {A} (m : R A) : stable T m.
Proof. intros st _. exact Logic.I. Qed.

Lemma always_ok_for_each {A} (l : list A) (body : A -> R unit) :
  (forall x, always_ok T (body x)) -> always_ok T (for_each l body).
Proof.
  intros Hb. induction l as [|x l IH]; simpl.
  - apply always_ok_ret.
  - apply always_ok_bind; [apply Hb | intros _; exact IH].
Qed.

Lemma always_ok_complete (i : nat) : always_ok T (complete S i).
Proof.
  unfold complete. apply always_ok_bind.
  - intros st _. exists st. split; [reflexivity | exact Logic.I].
  - intros st. destruct (pending_copies st !! i) as [j|];
      [|apply always_ok_ret].
    destruct (existsb (Nat.eqb i) (finished st)); [apply always_ok_ret|].
    apply always_ok_bind.
    + intros s _. exists tt. split; [reflexivity | exact Logic.I].
    + intros _. apply always_ok_try_except; [apply stable_true|].
      intros e. apply always_ok_ret.
Qed.

(** The threads cannot make the main thread raise. *)
Lemma run_ready_returns (st : run_state) :
  run_ready S st = (Ok tt, snd (run_ready S st)).
Proof.
  assert (H : always_ok T (run_ready S)).
  { unfold run_ready. apply always_ok_bind.
    - intros s _. eexists. split; [reflexivity | exact Logic.I].
    - intros t. apply always_ok_for_each. intros i.
      apply always_ok_complete. }
  destruct (H st Logic.I) as ([] & Hr & _).
  destruct (run_ready S st) as [r st1]. simpl in *. now subst r.
Qed.

(** C3, as amended: when the listing of a playlist cannot be fetched,
    the playlist is skipped and the run goes on with the remaining
    playlists.  After an HTTP error the failure is logged and the
    failure list is left as it is; after a failed token refresh the
    entry "<playlist> (auth)" is added to the failure list and the
    client of the account is dropped for the rest of the run. *)
Theorem playlist_fetch_failure (cfg : config) (js : option string)
    (pl : playlist) (rest : list playlist) (st : run_state) (yt : client) :
  let st1 := snd (run_ready S st) in
  mjoin (yt_clients st1 !! account pl) = Some yt ->
  let answer :=
    playlist_items S (sys_clock (sys_of st1)) yt (playlist_id pl) in
  let skipped failures clients :=
    exists st2,
      run_playlists S cfg js (pl :: rest) st
      = run_playlists S cfg js rest st2
      /\ run_failures st2 = failures
      /\ yt_clients st2 = clients
      /\ trace st2 = trace st1 ++ [EvListPlaylist yt (playlist_id pl)]
      /\ ledger st2 = ledger st1
      /\ pending_copies st2 = pending_copies st1 in
  (answer = Raise HttpError ->
   skipped (run_failures st1) (yt_clients st1))
  /\ (answer = Raise RefreshError ->
      skipped (run_failures st1 ++ [Some (playlist_id pl +:+ " (auth)")])
              (<[account pl := None]> (yt_clients st1))).
Proof.
  intros st1 Hyt answer skipped.
  assert (Hstep : forall st2,
            process_playlist S cfg js pl st = (Ok tt, st2) ->
            run_playlists S cfg js (pl :: rest) st
            = run_playlists S cfg js rest st2).
  { intros st2 H. unfold run_playlists. simpl.
    now rewrite (bind_ok _ _ _ _ _ H). }
  assert (Hrun :
    process_playlist S cfg js pl st
    = (fetched <-
         try_except
           (v <- get_playlist_videos S yt (playlist_id pl) ;; ret (Some v))
           (fun ex =>
              match ex with
              | HttpError =>
                  log EXCEPTION ("Playlist fetch failed " +:+ playlist_id pl) ;;
                  ret None
              | RefreshError =>
                  log ERROR ("OAuth refresh failed for account "
                             +:+ account pl +:+ " while fetching playlist "
                             +:+ playlist_id pl) ;;
                  modify (fun st =>
                            with_failures
                              (run_failures st
                               ++ [Some (playlist_id pl +:+ " (auth)")]) st) ;;
                  modify (fun st =>
                            with_clients
                              (<[account pl := None]> (yt_clients st)) st) ;;
                  ret None
              | _ => raise ex
              end) ;;
       match fetched with
       | None => ret tt
       | Some videos =>
           for_first videos (process_entry S cfg pl yt js) ;;
           ret tt
       end) st1).
  { unfold process_playlist.
    rewrite (bind_ok _ _ _ _ _ (run_ready_returns st)). fold st1.
    unfold bind at 1. unfold get at 1. cbv beta iota zeta.
    now rewrite Hyt. }
  assert (Hlist :
    get_playlist_videos S yt (playlist_id pl) st1
    = (answer,
       with_sys (tick (sys_of st1))
         (with_trace (trace st1 ++ [EvListPlaylist yt (playlist_id pl)])
            st1))) by reflexivity.
  split; intros Ha; subst skipped; cbv beta; rewrite Ha in Hlist.
  - eexists. split.
    + apply Hstep. rewrite Hrun.
      unfold bind at 1. unfold try_except. unfold bind at 1.
      rewrite Hlist. reflexivity.
    + simpl. auto.
  - eexists. split.
    + apply Hstep. rewrite Hrun.
      unfold bind at 1. unfold try_except. unfold bind at 1.
      rewrite Hlist. reflexivity.
    + simpl. auto.
Qed.

End PlaylistFetch.

(** ** MetadataEmbedder: the date tag *)

Section DateTag.
Import PyStr Sys.

Lemma eight_chars (d : string) :
  String.length d = 8%nat ->
  d = slice 0 4 d +:+ slice 4 6 d +:+ slice 6 8 d.
Proof.
  intros H.
  do 8 (destruct d as [|? d]; [discriminate|]).
  destruct d; [reflexivity | discriminate].
Qed.

Lemma slice_length (i j : nat) (d : string) :
  (i <= j)%nat -> (j <= String.length d)%nat ->
  String.length (slice i j d) = (j - i)%nat.
Proof.
  unfold slice. intros Hij Hj.
  assert (G : forall n m s, (n + m <= String.length s)%nat ->
                            String.length (substring n m s) = m).
  { induction n as [|n IHn]; intros m s Hs.
    - revert s Hs. induction m as [|m IHm]; intros s Hs.
      + now destruct s.
      + destruct s as [|a s]; simpl in *; [lia|].
        f_equal. apply IHm. lia.
    - destruct s as [|a s]; simpl in *; [lia|]. apply IHn. lia. }
  apply G. lia.
Qed.

(** *** The date argument of the ffmpeg command *)

Lemma date_arguments_app (l1 l2 : list string) :
  head_safe l2 ->
  date_arguments (l1 ++ l2) = date_arguments l1 ++ date_arguments l2.
Proof.
  intros H. induction l1 as [|a l1 IH]; [reflexivity|].
  cbn [app date_arguments]. rewrite IH, app_assoc. f_equal. f_equal.
  destruct l1 as [|b l1]; [|reflexivity].
  destruct l2 as [|b l2]; [reflexivity|].
  cbn [app]. cbn [head_safe] in H. now rewrite H.
Qed.

Lemma head_safe_metadata (key value : string) (rest : list string) :
  head_safe rest -> head_safe (metadata_arg key value ++ rest).
Proof.
  intros H. unfold metadata_arg. destruct (truthy value); [reflexivity|].
  exact H.
Qed.

Lemma head_safe_attach (fs : FS) (thumb : option string)
    (rest : list string) :
  head_safe rest -> head_safe (attach_args fs thumb ++ rest).
Proof.
  intros H. unfold attach_args. destruct thumb as [t|]; [|exact H].
  destruct (os_path_exists fs t); [reflexivity | exact H].
Qed.

Lemma date_arguments_attach (fs : FS) (thumb : option string) :
  date_arguments (attach_args fs thumb) = [].
Proof.
  unfold attach_args. destruct thumb as [t|]; [|reflexivity].
  destruct (os_path_exists fs t); [|reflexivity].
  cbn [date_arguments]. destruct (String.eqb t "-metadata"); reflexivity.
Qed.

Lemma date_arguments_of_date (tag : string) :
  date_arguments (metadata_arg "date" tag)
  = if truthy tag then [tag] else [].
Proof. unfold metadata_arg. destruct tag; reflexivity. Qed.

(** The date arguments of the command of [embed_metadata] are those of
    the date tag. *)
Lemma embed_cmd_date (fs : FS) (local_file tmp_path : string)
    (thumb : option string) (m : metadata) (vid : string) :
  date_arguments (embed_cmd fs local_file tmp_path thumb m vid)
  = let tag := date_tag (or_else (upload_date m) "") in
    if truthy tag then [tag] else [].
Proof.
  unfold embed_cmd. cbv zeta.
  assert (H7 : head_safe ["-c"; "copy"; tmp_path]) by reflexivity.
  repeat match goal with
         | H : head_safe ?rest
           |- context [metadata_arg ?k ?v ++ ?rest] =>
             lazymatch goal with
             | _ : head_safe (metadata_arg k v ++ rest) |- _ => fail
             | _ => pose proof (head_safe_metadata k v rest H)
             end
         end.
  match goal with
  | H : head_safe ?rest |- context [attach_args fs thumb ++ ?rest] =>
      pose proof (head_safe_attach fs thumb rest H) as Ha
  end.
  rewrite !date_arguments_app by assumption.
  rewrite date_arguments_attach, date_arguments_of_date.
  assert (Hk : forall k v, k = "title" \/ k = "artist" \/ k = "description"
                           \/ k = "keywords" \/ k = "comment" ->
                           date_arguments (metadata_arg k v) = []).
  { intros k v Hk. unfold metadata_arg. destruct (truthy v); [|reflexivity].
    destruct Hk as [->|[->|[->|[->| ->]]]]; reflexivity. }
  rewrite !Hk by tauto.
  assert (Hstart : date_arguments ["ffmpeg"; "-y"; "-i"; local_file] = []).
  { cbn [date_arguments]. destruct (String.eqb local_file "-metadata");
      reflexivity. }
  assert (Hend : date_arguments ["-c"; "copy"; tmp_path] = []).
  { cbn [date_arguments]. destruct (String.eqb tmp_path "-metadata");
      reflexivity. }
  rewrite Hstart, Hend. cbn [app]. now rewrite app_nil_r.
Qed.

(** *** The ffmpeg call of the embedding *)

Lemma tag_and_replace_calls (E : extern) (local_file tmp_path : string)
    (thumb : option string) (m : metadata) (vid : string) (s : sys) :
  sys_calls (snd (tag_and_replace E local_file tmp_path thumb m vid s))
  = sys_calls s
    ++ [CallFfmpeg (embed_cmd (sys_fs s) local_file tmp_path thumb m vid)].
Proof.
  assert (Hq : forall (A : Type) (c : list call) (m0 : M A),
            (forall s0, sys_calls (snd (m0 s0)) = sys_calls s0) ->
            forall s0, sys_calls s0 = c -> sys_calls (snd (m0 s0)) = c).
  { intros A c m0 H s0 <-. apply H. }
  assert (Hfs : forall f s0, sys_calls (snd (lift_fs f s0)) = sys_calls s0).
  { intros f s0. unfold lift_fs. now destruct (f (sys_fs s0)). }
  assert (Hun : forall p s0,
            sys_calls (snd (unlink_quietly p s0)) = sys_calls s0).
  { intros p s0. unfold unlink_quietly, try_except, lift_fs.
    now destruct (os_unlink p (sys_fs s0)). }
  unfold tag_and_replace, try_finally.
  set (c := sys_calls s
            ++ [CallFfmpeg
                  (embed_cmd (sys_fs s) local_file tmp_path thumb m vid)]).
  match goal with
  | |- sys_calls (snd (let (r, s') := ?body s in _)) = _ =>
      assert (Hbody : sys_calls (snd (body s)) = c);
      [|destruct (body s) as [r s1]; cbn [snd] in Hbody]
  end.
  { unfold try_except, bind, get_fs, subprocess_run_ffmpeg, logging.
    cbv beta iota zeta.
    destruct (ffmpeg E (sys_clock s)
                (embed_cmd (sys_fs s) local_file tmp_path thumb m vid)
                (sys_fs s)) as [o|[p|]|]; cbv beta iota zeta.
    - match goal with
      | |- context [lift_fs ?f ?s0] =>
          pose proof (Hfs f s0) as H1;
          destruct (lift_fs f s0) as [[u|e] s2]; cbn [snd] in H1
      end; cbv beta iota zeta.
      + cbn [snd sys_calls]. rewrite H1. reflexivity.
      + destruct e;
          (cbv beta iota zeta;
           match goal with
           | |- context [unlink_quietly ?p ?s0] =>
               rewrite (Hun p s0)
           end; cbn [sys_calls]; rewrite H1; reflexivity).
    - match goal with
      | |- context [unlink_quietly ?p ?s0] => rewrite (Hun p s0)
      end. reflexivity.
    - match goal with
      | |- context [unlink_quietly ?p ?s0] => rewrite (Hun p s0)
      end. reflexivity.
    - match goal with
      | |- context [unlink_quietly ?p ?s0] => rewrite (Hun p s0)
      end. reflexivity. }
  assert (Hfin : sys_calls (snd (remove_thumbnail thumb s1)) = c).
  { unfold remove_thumbnail. destruct thumb as [t|]; [|exact Hbody].
    now rewrite Hun. }
  destruct (remove_thumbnail thumb s1) as [[u|e] s2]; exact Hfin.
Qed.

Lemma ffmpeg_calls_gets (c0 : list call) (s : sys) :
  calls_since (fun c => match c with CallGet _ => True | _ => False end)
    c0 s ->
  ffmpeg_calls s
  = omap (fun c => match c with
                   | CallFfmpeg cmd => Some cmd
                   | _ => None
                   end) c0.
Proof.
  intros (added & H1 & H2). unfold ffmpeg_calls. rewrite H1, omap_app.
  assert (Hn : omap (fun c => match c with
                              | CallFfmpeg cmd => Some cmd
                              | _ => None
                              end) added = []).
  { clear H1. induction added as [|c added IH]; [reflexivity|].
    simpl. pose proof (H2 c (or_introl eq_refl)) as Hc.
    destruct c; try contradiction. simpl. apply IH.
    intros c' Hc'. apply H2. now right. }
  rewrite Hn. apply app_nil_r.
Qed.

(** [embed_metadata] runs ffmpeg once, on the command [embed_cmd],
    unless the temporary file cannot be created. *)
Lemma embed_metadata_calls (E : extern) (local_file : string)
    (m : metadata) (vid : string) (s : sys) :
  let r := embed_metadata E local_file (Some m) vid s in
  (exists e, fst r = Raise e /\ ffmpeg_calls (snd r) = ffmpeg_calls s)
  \/ (exists fs tmp_path thumb,
        ffmpeg_calls (snd r)
        = ffmpeg_calls s
          ++ [embed_cmd fs local_file tmp_path thumb m vid]).
Proof.
  cbv zeta. unfold embed_metadata, bind.
  pose proof (calls_download_thumbnail
                (fun c => match c with CallGet _ => True | _ => False end)
                (sys_calls s) (fun _ => Logic.I) E (thumbnail_url m) vid s)
    as Hd.
  destruct (download_thumbnail_spec E (thumbnail_url m) vid s)
    as (th & Hth & _).
  destruct (download_thumbnail E (thumbnail_url m) vid s) as [x s1].
  cbn [fst snd] in *. subst x.
  assert (H1 : ffmpeg_calls s1 = ffmpeg_calls s).
  { apply ffmpeg_calls_gets. apply Hd.
    exists []. split; [now rewrite app_nil_r | intros c []]. }
  assert (Hmk : sys_calls (snd (mkstemp E (".tagged" +:+ base_ext local_file)
                                  (dirname local_file) s1))
                = sys_calls s1).
  { unfold mkstemp.
    destruct (negb (dir_exists (sys_fs s1) (dirname local_file)));
      [reflexivity|].
    now destruct (mkstemp_random E (sys_clock s1)). }
  destruct (mkstemp E (".tagged" +:+ base_ext local_file)
              (dirname local_file) s1) as [[tmp|e] s2]; cbn [snd] in Hmk.
  - right. exists (sys_fs s2), tmp, th.
    unfold ffmpeg_calls at 1. rewrite tag_and_replace_calls, omap_app, Hmk.
    fold (ffmpeg_calls s1). now rewrite H1.
  - left. exists e. split; [reflexivity|]. cbn [snd].
    unfold ffmpeg_calls at 1. rewrite Hmk. exact H1.
Qed.

(** C9, as amended: the ffmpeg command of [embed_metadata] carries a
    date argument exactly when the upload date has eight characters
    that [str.isdigit] accepts, which are the decimal digits and, among
    the first 256 code points, the superscripts one, two and three.
    The value of the argument is then the date with a hyphen after the
    year and after the month, so that 20230115 gives 2023-01-15.  For
    any other upload date the command has no date argument.  The
    command is the one that [embed_metadata] runs. *)
Theorem date_tag_normalisation (m : metadata) (vid local_file : string) :
  let d := or_else (upload_date m) "" in
  (len d = 8 /\ isdigit d = true ->
     exists yyyy mm dd,
       d = yyyy +:+ mm +:+ dd /\
       String.length yyyy = 4%nat /\ String.length mm = 2%nat /\
       String.length dd = 2%nat /\
       forall fs tmp_path thumb,
         date_arguments (embed_cmd fs local_file tmp_path thumb m vid)
         = [yyyy +:+ "-" +:+ mm +:+ "-" +:+ dd])
  /\ (~ (len d = 8 /\ isdigit d = true) ->
        forall fs tmp_path thumb,
          date_arguments (embed_cmd fs local_file tmp_path thumb m vid) = [])
  /\ (String.length d = 8%nat -> decimal_digits d = true ->
        isdigit d = true)
  /\ (upload_date m = Some "20230115" ->
        forall fs tmp_path thumb,
          date_arguments (embed_cmd fs local_file tmp_path thumb m vid)
          = ["2023-01-15"])
  /\ (forall E s,
        let r := embed_metadata E local_file (Some m) vid s in
        (exists e, fst r = Raise e /\ ffmpeg_calls (snd r) = ffmpeg_calls s)
        \/ (exists fs tmp_path thumb,
              ffmpeg_calls (snd r)
              = ffmpeg_calls s
                ++ [embed_cmd fs local_file tmp_path thumb m vid])).
Proof.
  intros d.
  split; [|split; [|split; [|split]]].
  - intros [Hl Hd].
    assert (Hn : String.length d = 8%nat) by (unfold len in Hl; lia).
    exists (slice 0 4 d), (slice 4 6 d), (slice 6 8 d).
    split; [now apply eight_chars|].
    rewrite !slice_length by lia.
    repeat split.
    intros fs tmp_path thumb. rewrite embed_cmd_date. fold d. cbv zeta.
    unfold date_tag. rewrite Hd, Hl. cbn [andb Z.eqb Pos.eqb].
    do 8 (destruct d as [|? d]; [discriminate|]). reflexivity.
  - intros Hn fs tmp_path thumb. rewrite embed_cmd_date. fold d. cbv zeta.
    unfold date_tag.
    destruct ((len d =? 8) && isdigit d) eqn:E; [|reflexivity].
    exfalso. apply Hn. apply andb_true_iff in E. destruct E as [E1 E2].
    apply Z.eqb_eq in E1. tauto.
  - intros Hn Hd. unfold isdigit. destruct d as [|a d]; [discriminate|].
    revert Hd. unfold decimal_digits. generalize (String a d). clear.
    intros x. induction x as [|c x IH]; [reflexivity|].
    cbn [all_chars]. intros H. apply andb_true_iff in H as [H1 H2].
    rewrite (IH H2), andb_true_r. unfold isdigit_char.
    now rewrite H1.
  - intros Hu fs tmp_path thumb. rewrite embed_cmd_date, Hu. reflexivity.
  - intros E s. apply embed_metadata_calls.
Qed.

Lemma date_tag_normalisation_witness :
  (len "20230115" = 8 /\ isdigit "20230115" = true)
  /\ forall fs tmp_path thumb,
       date_arguments
         (embed_cmd fs Scenario.clip_webm tmp_path thumb
            Scenario.sample_meta "abc")
       = ["2023-01-15"].
Proof.
  split; [split; reflexivity|].
  destruct (date_tag_normalisation Scenario.sample_meta "abc"
              Scenario.clip_webm) as (_ & _ & _ & H & _).
  apply H. reflexivity.
Defined.

(** C9, as stated, fails: an upload date of eight characters of which
    one is the superscript two is not made of eight digits 0 to 9, and
    [str.isdigit] accepts it, so that the command has a date
    argument. *)
Lemma superscript_date_is_tagged :
  ~ (forall (fs : FS) (local_file tmp_path : string)
            (thumb : option string) (m : metadata) (vid : string),
       let d := or_else (upload_date m) "" in
       date_arguments (embed_cmd fs local_file tmp_path thumb m vid) <> []
       <-> (String.length d = 8%nat /\ decimal_digits d = true)).
Proof.
  intros H.
  destruct (H [] Scenario.clip_webm "tmp.webm" None
              {| title := None; channel := None;
                 upload_date :=
                   Some (String (ascii_of_nat 178) "0230115");
                 description := None; tags := []; url := None;
                 thumbnail_url := None |} "abc") as [H1 _].
  assert (Hd : decimal_digits (String (ascii_of_nat 178) "0230115") = true).
  { apply H1. vm_compute. discriminate. }
  vm_compute in Hd. discriminate Hd.
Qed.

End DateTag.


(** ** Instances *)

Section Instances.
Import PyStr Sys Run.

Lemma missing_scratch_dir_not_stalled_witness :
  os_path_exists [] Scenario.clip_dir = false
  /\ is_partial_file_stuck [] Scenario.clip_dir "abc" = false.
Proof.
  split; [reflexivity|].
  apply (missing_scratch_dir_not_stalled [] Scenario.clip_dir "abc").
  reflexivity.
Defined.

Lemma partial_file_monitor_witness :
  os_path_isdir (Scenario.partial (Some 1000)) Scenario.clip_dir = true
  /\ is_partial_file_stuck (Scenario.partial (Some 1000))
       Scenario.clip_dir "abc" = true
  /\ is_partial_file_stuck (Scenario.partial (Some 524288))
       Scenario.clip_dir "abc" = false
  /\ is_partial_file_stuck (Scenario.partial None)
       Scenario.clip_dir "abc" = true.
Proof.
  split; [reflexivity|].
  split; [|split].
  - destruct (partial_file_monitor (Scenario.partial (Some 1000))
                Scenario.clip_dir "abc" eq_refl) as (H & _ & _).
    apply H. exists "abc.f248.webm.part", 1000.
    split; [split; [left; reflexivity | split; reflexivity]|].
    split; [reflexivity | lia].
  - destruct (partial_file_monitor (Scenario.partial (Some 524288))
                Scenario.clip_dir "abc" eq_refl) as (_ & H & _).
    apply H. intros f [[Hf|[]] _]. subst f.
    exists 524288. split; [reflexivity | lia].
  - destruct (partial_file_monitor (Scenario.partial None)
                Scenario.clip_dir "abc" eq_refl) as (_ & _ & H).
    apply H. exists "abc.f248.webm.part", OSError.
    split; [split; [left; reflexivity | split; reflexivity]|].
    reflexivity.
Defined.

Lemma embed_metadata_outcome_witness :
  fs_lookup Scenario.clip_webm (sys_fs Scenario.finished_webm)
  = Some (regular "vp9+opus")
  /\ Scenario.clip_webm <> thumb_file "abc"
  /\ dir_exists (sys_fs Scenario.finished_webm)
       (dirname Scenario.clip_webm) = true
  /\ let r := embed_metadata Scenario.fair Scenario.clip_webm
                (Some Scenario.sample_meta) "abc" Scenario.finished_webm in
     fst r = Ok tt
     /\ fs_lookup Scenario.clip_webm (sys_fs (snd r))
        = Some (regular "remuxed")
     /\ fs_lookup (thumb_file "abc") (sys_fs (snd r)) = None.
Proof.
  assert (Hne : Scenario.clip_webm <> thumb_file "abc") by discriminate.
  split; [reflexivity|]. split; [exact Hne|]. split; [reflexivity|].
  pose proof (embed_metadata_outcome Scenario.fair Scenario.clip_webm
                Scenario.sample_meta "abc" Scenario.finished_webm
                (regular "vp9+opus") "k3x9_ab1" eq_refl eq_refl Hne
                eq_refl eq_refl) as H.
  cbv zeta in H. destruct H as (H1 & H2 & _ & H4).
  split; [exact H1|]. split; [exact H2|].
  apply H4. reflexivity.
Defined.

Lemma embedding_failure_escapes_witness :
  let r := embed_metadata Scenario.full_disk Scenario.clip_webm
             (Some Scenario.sample_meta) "abc" Scenario.finished_webm in
  fst r = Raise OSError
  /\ fs_lookup (thumb_file "abc") (sys_fs (snd r)) = Some (regular "jpeg").
Proof.
  pose proof (embedding_failure_escapes Scenario.full_disk
                Scenario.clip_webm Scenario.sample_meta "abc"
                Scenario.finished_webm OSError eq_refl) as H.
  cbv zeta in H. destruct H as (H1 & H2 & _ & _).
  split; [exact H1|]. rewrite H2. reflexivity.
Defined.

(** C5 on a device that has no room for a new file: the thumbnail of
    the item is downloaded, [tempfile.mkstemp] raises OSError, and the
    exception leaves [embed_metadata], then [download_with_ytdlp], then
    the loop of [run_once]: the thumbnail file stays, the item is
    neither copied nor counted as a failure, and the run ends with the
    exception after its first item. *)
Theorem tagging_failure_aborts_the_run :
  let r := embed_metadata Scenario.full_disk Scenario.clip_webm
             (Some Scenario.sample_meta) "abc" Scenario.finished_webm in
  let d := download_with_ytdlp Scenario.full_disk Scenario.clip_url
             Scenario.clip_dir None (Some Scenario.sample_meta) None
             (Scenario.sys_with []) in
  let run :=
    run_once
      (Scenario.on_full_disk
         (Scenario.services_with
            (Ok [Scenario.item "aaa"; Scenario.item "bbb"])
            (fun _ => true) Scenario.late))
      Scenario.one_playlist (Scenario.sys_with []) ∅ in
  fst r = Raise OSError
  /\ fs_lookup Scenario.clip_webm (sys_fs (snd r))
     = Some (regular "vp9+opus")
  /\ fs_lookup (thumb_file "abc") (sys_fs (snd r)) = Some (regular "jpeg")
  /\ fst d = Raise OSError
  /\ fs_lookup (thumb_file "abc") (sys_fs (snd d)) = Some (regular "jpeg")
  /\ length (ydl_calls (snd d)) = 1%nat
  /\ fst run = Raise OSError
  /\ trace (snd run)
     = [EvListPlaylist "main" "PL1"; EvGetMetadata "main" "aaa";
        EvDownload "aaa" "https://www.youtube.com/watch?v=aaa"
          "temp_downloads/aaa"]
  /\ run_failures (snd run) = []
  /\ run_successes (snd run) = [].
Proof. vm_compute. repeat split; reflexivity. Qed.



Lemma playlist_fetch_failure_witness :
  let S := Scenario.services_with (Raise RefreshError)
             (fun _ => true) Scenario.late in
  mjoin (yt_clients (snd (run_ready S Scenario.under_way))
           !! account Scenario.library) = Some "main"
  /\ exists st2,
       run_playlists S Scenario.one_playlist None [Scenario.library]
         Scenario.under_way
       = run_playlists S Scenario.one_playlist None [] st2
       /\ run_failures st2 = [Some "PL1 (auth)"]
       /\ yt_clients st2 !! "main" = Some None.
Proof.
  intros S.
  assert (Hyt : mjoin (yt_clients (snd (run_ready S Scenario.under_way))
                         !! account Scenario.library) = Some "main")
    by (vm_compute; reflexivity).
  split; [exact Hyt|].
  destruct (playlist_fetch_failure S Scenario.one_playlist None
              Scenario.library [] Scenario.under_way "main" Hyt)
    as [_ H].
  destruct (H eq_refl) as (st2 & E1 & E2 & E3 & _).
  exists st2. split; [exact E1|]. split; [rewrite E2; reflexivity|].
  rewrite E3. apply lookup_insert_eq.
Defined.

(** C3, as stated, fails: a playlist whose listing fails with an HTTP
    error is fetched and skipped, and the failure list of the run stays
    empty. *)
Lemma http_error_is_not_recorded :
  ~ (forall (S : services) (cfg : config) (s : sys)
            (l : gmap string ledger_row) (pl : playlist) (yt : client)
            (pls : list playlist),
       playlists cfg = Some pls -> In pl pls ->
       (forall t c, exists e,
          playlist_items S t c (playlist_id pl) = Raise e) ->
       In (EvListPlaylist yt (playlist_id pl))
          (trace (snd (run_once S cfg s l))) ->
       run_failures (snd (run_once S cfg s l)) <> []).
Proof.
  intros H.
  apply (H (Scenario.services_with (Raise HttpError) (fun _ => true)
              Scenario.late)
           Scenario.one_playlist (Scenario.sys_with []) ∅
           Scenario.library "main" [Scenario.library]).
  - reflexivity.
  - left. reflexivity.
  - intros t c. exists HttpError. reflexivity.
  - vm_compute. left. reflexivity.
  - vm_compute. reflexivity.
Qed.

(** What [after_copy] does for a failed copy: it adds the value that
    [cleaned_name] has at that moment to the failure list, writes no
    row, and removes the scratch directory of the item. *)
Lemma after_copy_on_failure (S : services) (dst : string) (j : job)
    (st : run_state) :
  let r := after_copy S false dst j st in
  fst r = Ok tt
  /\ run_failures (snd r) = run_failures st ++ [Some (cleaned_name st)]
  /\ run_successes (snd r) = run_successes st
  /\ ledger (snd r) = ledger st
  /\ sys_fs (sys_of (snd r))
     = shutil_rmtree (job_temp j) (sys_fs (sys_of st)).
Proof.
  unfold after_copy. destruct (job_entry_id j) as [entry_id|];
    simpl; repeat split; reflexivity.
Qed.

(** C6 on the run of two items in which no copy ends before the join
    and the copy of the first item fails: the failure list names the
    second item, whose copy succeeded, and not the first one.  No row is
    written for the first item and its scratch directory is removed.
    When the failed copy ends before the second item is named, the
    failure list names the first item. *)
Theorem failed_copy_is_reported_under_a_later_name :
  let run sched :=
    snd (run_once (Scenario.first_copy_fails sched) Scenario.one_playlist
           (Scenario.sys_with []) ∅) in
  In (EvCopyDone "aaa" false) (trace (run Scenario.late))
  /\ In (EvCopyDone "bbb" true) (trace (run Scenario.late))
  /\ run_failures (run Scenario.late) = [Some (Scenario.name_of "bbb")]
  /\ Scenario.name_of "aaa" <> Scenario.name_of "bbb"
  /\ ledger (run Scenario.late) !! "aaa" = None
  /\ os_path_exists (sys_fs (sys_of (run Scenario.late)))
       "temp_downloads/aaa" = false
  /\ run_failures (run Scenario.prompt) = [Some (Scenario.name_of "aaa")].
Proof.
  vm_compute. repeat split; try discriminate.
  - do 7 right. left. reflexivity.
  - do 8 right. left. reflexivity.
Qed.

End Instances.


(** * Further properties *)

(** ** PartialFileMonitor and the scratch directory *)

Section ScratchDirectory.
Import PyStr Sys.

Lemma fs_lookup_perm (p : string) (fs fs' : FS) :
  List.NoDup (map fst fs) -> Permutation fs fs' ->
  fs_lookup p fs = fs_lookup p fs'.
Proof.
  intros Hnd Hp. induction Hp as [|[q i] a b Hab IH
                                 |[q i] [r j] a|a b c Hab IH1 Hbc IH2].
  - reflexivity.
  - simpl. destruct (String.eqb p q); [reflexivity|].
    apply IH. now inversion Hnd.
  - simpl. destruct (String.eqb p r) eqn:E1, (String.eqb p q) eqn:E2;
      try reflexivity.
    apply String.eqb_eq in E1, E2. subst q r. simpl in Hnd.
    inversion Hnd as [|? ? Hnin _]. exfalso. apply Hnin. now left.
  - rewrite IH1 by assumption. apply IH2.
    eapply Permutation_NoDup; [|exact Hnd]. now apply Permutation_map.
Qed.

(** X1: The answer of the monitor does not depend on the order in which
    [os.listdir] reports the entries of the scratch directory. *)
Theorem monitor_ignores_listing_order (fs fs' : FS) (temp_dir vid : string) :
  List.NoDup (map fst fs) -> Permutation fs fs' ->
  is_partial_file_stuck fs temp_dir vid
  = is_partial_file_stuck fs' temp_dir vid.
Proof.
  intros Hnd Hp.
  assert (Hl : forall p, fs_lookup p fs = fs_lookup p fs')
    by (intros p; now apply fs_lookup_perm).
  unfold is_partial_file_stuck, os_path_isdir. rewrite <- Hl.
  destruct (negb _); [reflexivity|].
  assert (Hnames : Permutation (os_listdir fs temp_dir)
                               (os_listdir fs' temp_dir)).
  { unfold os_listdir. now apply omap_Permutation. }
  assert (Hscan : forall names b,
            stuck_scan fs temp_dir vid names = b <->
            stuck_scan fs' temp_dir vid names = b).
  { intros names b. induction names as [|g names IH]; simpl; [tauto|].
    unfold os_path_getsize. rewrite <- Hl. 
    destruct (startswith g vid && endswith g ".part"); [|exact IH].
    destruct (fs_lookup (os_path_join temp_dir g) fs) as [i|]; [|tauto].
    destruct (st_size i) as [z|]; [|tauto].
    destruct (z <? 1024 * 512); [tauto | exact IH]. }
  destruct (stuck_scan fs' temp_dir vid (os_listdir fs' temp_dir)) eqn:E2.
  - apply stuck_scan_true in E2. destruct E2 as (f & Hin & Hf & Hs).
    apply stuck_scan_true. exists f. split.
    + eapply Permutation_in; [symmetry; exact Hnames | exact Hin].
    + split; [exact Hf|]. unfold os_path_getsize in *. now rewrite Hl.
  - destruct (stuck_scan fs temp_dir vid (os_listdir fs temp_dir)) eqn:E1;
      [|reflexivity].
    apply stuck_scan_true in E1. destruct E1 as (f & Hin & Hf & Hs).
    assert (E3 : stuck_scan fs' temp_dir vid (os_listdir fs' temp_dir) = true).
    { apply stuck_scan_true. exists f. split.
      - eapply Permutation_in; [exact Hnames | exact Hin].
      - split; [exact Hf|]. unfold os_path_getsize in *. now rewrite <- Hl. }
    congruence.
Qed.

Lemma monitor_ignores_listing_order_witness :
  List.NoDup (map fst Scenario.two_partials)
  /\ Permutation Scenario.two_partials (rev Scenario.two_partials)
  /\ os_listdir Scenario.two_partials Scenario.clip_dir
     = ["abc.f251.webm.part"; "xyz.webm"; "abc.f248.webm.part"]
  /\ os_listdir (rev Scenario.two_partials) Scenario.clip_dir
     = ["abc.f248.webm.part"; "xyz.webm"; "abc.f251.webm.part"]
  /\ is_partial_file_stuck (rev Scenario.two_partials)
       Scenario.clip_dir "abc" = true
  /\ is_partial_file_stuck Scenario.two_partials Scenario.clip_dir "abc"
     = is_partial_file_stuck (rev Scenario.two_partials)
         Scenario.clip_dir "abc".
Proof.
  assert (Hnd : List.NoDup (map fst Scenario.two_partials)).
  { apply NoDup_ListNoDup. vm_compute. 
    repeat (constructor; [intros H; repeat (apply elem_of_cons in H as [H|H]; [discriminate H|]); now apply elem_of_nil in H|]).
    constructor. }
  assert (Hp : Permutation Scenario.two_partials (rev Scenario.two_partials))
    by apply Permutation_rev.
  split; [exact Hnd|]. split; [exact Hp|].
  split; [reflexivity|]. split; [reflexivity|]. split; [reflexivity|].
  apply (monitor_ignores_listing_order _ _ Scenario.clip_dir "abc" Hnd Hp).
Defined.

End ScratchDirectory.


(** ** The reset of the scratch directory *)

Section ScratchReset.
Import PyStr Sys.



End ScratchReset.


(** ** What escapes the retry loops *)

Section EngineEdges.
Import PyStr Sys.

Lemma for_first_raise {St A B} (x : A) (l : list A)
    (body : A -> ST St (option B)) (s s' : St) (e : exn) :
  body x s = (Raise e, s') -> for_first (x :: l) body s = (Raise e, s').
Proof. intros H. simpl. now apply bind_raise. Qed.

Lemma split_once_go_none (sep : string) (n : nat) (s acc : string) :
  contains sep s = false -> split_once_go sep n s acc = None.
Proof.
  revert acc. induction s as [|a s IH]; intros acc H; [reflexivity|].
  simpl in *. apply orb_false_iff in H as [Hp Hc].
  rewrite Hp. now apply IH.
Qed.

Lemma split_once_none (sep s : string) :
  contains sep s = false -> split_once sep s = None.
Proof. apply split_once_go_none. Qed.

Lemma with_fs_same (s : sys) : with_fs (sys_fs s) s = s.
Proof. now destruct s. Qed.

(** What the first attempt raises, the whole download raises: the loops
    of [download_with_ytdlp] catch nothing outside [extract_info]. *)
Lemma first_attempt_raises (E : extern) (video_url temp_dir : string)
    (js : option string) (meta : option metadata) (cfg : option config)
    (e : exn) (P : sys -> Prop) (s : sys) :
  (forall s1,
      sys_fs s1 = sys_fs s -> sys_calls s1 = sys_calls s ->
      exists s2,
        attempt_once E video_url temp_dir js meta cfg
          (split_last "v=" video_url) "android"
          (headers "com.google.android.youtube/19.42.37 (Linux; Android 14)")
          s1 = (Raise e, s2) /\ P s2) ->
  exists s2,
    download_with_ytdlp E video_url temp_dir js meta cfg s = (Raise e, s2)
    /\ P s2.
Proof.
  intros H.
  set (m1 := "[" +:+ split_last "v=" video_url +:+ "] Download attempt "
             +:+ pretty 1%nat +:+ "/" +:+ pretty MAX_VIDEO_RETRIES).
  set (m2 := "[" +:+ split_last "v=" video_url +:+ "] Trying extractor: "
             +:+ "android").
  destruct (H (snd (logging INFO m2 (snd (logging INFO m1 s))))
              eq_refl eq_refl) as (s2 & E2 & HP).
  exists s2. split; [|exact HP].
  unfold download_with_ytdlp.
  apply bind_raise.
  change (seq 0 MAX_VIDEO_RETRIES) with (0 :: seq 1 3)%nat.
  apply for_first_raise.
  erewrite bind_ok by reflexivity.
  apply bind_raise.
  unfold extractor_chain. apply for_first_raise.
  erewrite bind_ok by reflexivity.
  change (seq 0 EXTRACTOR_RETRIES) with (0 :: seq 1 1)%nat.
  apply for_first_raise. exact E2.
Qed.

Lemma reset_on_file (temp_dir vid : string) (i : inode) (s : sys) :
  truthy temp_dir = true ->
  fs_lookup temp_dir (sys_fs s) = Some i -> is_dir i = false ->
  reset_temp_dir temp_dir vid s = (Raise FileExistsError, s).
Proof.
  intros Ht Hl Hd. destruct s as [fs c l k]. simpl in Hl.
  unfold reset_temp_dir, bind, get_fs, modify_fs, lift_fs, os_makedirs,
    os_path_exists, is_partial_file_stuck, os_path_isdir, shutil_rmtree, ret,
    with_fs.
  simpl. rewrite Hl, Hd. simpl. rewrite Hl, Hd. simpl.
  rewrite Hl, Hd. reflexivity.
Qed.

(** X3: When the scratch path of an item names a regular file,
    [download_with_ytdlp] raises FileExistsError on its first attempt:
    [shutil.rmtree] ignores the error and leaves the file, [os.makedirs]
    fails on it, and nothing in the loops catches that.  No external
    program was called and no file has changed. *)
Theorem scratch_path_is_a_file (E : extern) (video_url temp_dir : string)
    (js : option string) (meta : option metadata) (cfg : option config)
    (i : inode) (s : sys) :
  truthy temp_dir = true ->
  fs_lookup temp_dir (sys_fs s) = Some i -> is_dir i = false ->
  let r := download_with_ytdlp E video_url temp_dir js meta cfg s in
  fst r = Raise FileExistsError
  /\ sys_fs (snd r) = sys_fs s
  /\ sys_calls (snd r) = sys_calls s.
Proof.
  intros Ht Hl Hd r.
  destruct (first_attempt_raises E video_url temp_dir js meta cfg
              FileExistsError
              (fun s2 => sys_fs s2 = sys_fs s /\ sys_calls s2 = sys_calls s) s)
    as (s2 & E2 & Hfs & Hcalls).
  { intros s1 Hfs1 Hc1. exists s1. split; [|split; assumption].
    unfold attempt_once. apply bind_raise.
    apply (reset_on_file _ _ i); [exact Ht| now rewrite Hfs1 | exact Hd]. }
  subst r. rewrite E2. simpl. split; [reflexivity|split; assumption].
Qed.

Lemma scratch_path_is_a_file_witness :
  let s := Scenario.sys_with [(Scenario.clip_dir, regular "not a directory")] in
  let r := download_with_ytdlp Scenario.fair Scenario.clip_url
             Scenario.clip_dir None None None s in
  fst r = Raise FileExistsError
  /\ sys_fs (snd r) = sys_fs s
  /\ sys_calls (snd r) = sys_calls s.
Proof.
  apply (scratch_path_is_a_file Scenario.fair Scenario.clip_url
           Scenario.clip_dir None None None (regular "not a directory"));
    reflexivity.
Defined.



End EngineEdges.


(** ** Files that embedding and conversion leave alone *)

Section Frames.
Import PyStr Sys.

Variable p : string.
Variable v : option inode.

Let keeps (s : sys) : Prop := fs_lookup p (sys_fs s) = v.

Lemma keeps_logging (l : level) (msg : string) : stable keeps (logging l msg).
Proof. intros s H. exact H. Qed.

Lemma keeps_get_fs : stable keeps get_fs.
Proof. intros s H. exact H. Qed.

Lemma keeps_unlink (q : string) : p <> q -> stable keeps (lift_fs (os_unlink q)).
Proof.
  intros Hne s H. unfold lift_fs, os_unlink.
  destruct (fs_lookup q (sys_fs s)) as [i|]; [|exact H].
  destruct (is_dir i); [exact H|].
  unfold keeps. simpl. now rewrite fs_lookup_delete_ne.
Qed.

Lemma keeps_unlink_quietly (q : string) :
  p <> q -> stable keeps (unlink_quietly q).
Proof.
  intros Hne. unfold unlink_quietly.
  apply stable_try_except; [now apply keeps_unlink|].
  intros _. apply stable_ret.
Qed.

Lemma keeps_replace (a b : string) :
  p <> a -> p <> b -> stable keeps (lift_fs (os_replace a b)).
Proof.
  intros Ha Hb s H. unfold lift_fs, os_replace.
  destruct (fs_lookup a (sys_fs s)) as [i|]; [|exact H].
  destruct (os_path_isdir (sys_fs s) b); [exact H|].
  destruct (String.eqb a b); [exact H|].
  unfold keeps. simpl.
  rewrite fs_lookup_delete_ne by congruence.
  now rewrite fs_lookup_put_ne by congruence.
Qed.

Lemma keeps_ffmpeg (E : extern) (cmd : list string) (out : string) :
  p <> out -> stable keeps (subprocess_run_ffmpeg E cmd out).
Proof.
  intros Hne s H. unfold subprocess_run_ffmpeg.
  destruct (ffmpeg E (sys_clock s) cmd (sys_fs s)) as [c|[c|]|];
    unfold keeps; simpl; try exact H;
    now rewrite fs_lookup_put_ne by congruence.
Qed.

Lemma keeps_tag_and_replace (E : extern) (local_file tmp_path : string)
    (thumb : option string) (m : metadata) (vid : string) :
  p <> local_file -> p <> tmp_path -> thumb <> Some p ->
  stable keeps (tag_and_replace E local_file tmp_path thumb m vid).
Proof.
  intros Hl Ht Hth. unfold tag_and_replace.
  apply stable_try_finally.
  - apply stable_try_except.
    + apply stable_bind; [apply keeps_get_fs|]. intros fs.
      apply stable_bind; [now apply keeps_ffmpeg|]. intros _.
      apply stable_bind; [now apply keeps_replace|]. intros _.
      apply keeps_logging.
    + intros e.
      assert (Hh : forall msg,
                stable keeps (logging EXCEPTION msg ;; unlink_quietly tmp_path)).
      { intros msg. apply stable_bind; [apply keeps_logging|].
        intros _. now apply keeps_unlink_quietly. }
      destruct e; apply Hh.
  - unfold remove_thumbnail. destruct thumb as [t|]; [|apply stable_ret].
    apply keeps_unlink_quietly. congruence.
Qed.

End Frames.

Section Bystanders.
Import PyStr Sys.

(** X5: Tagging a file leaves every other file as it was: an entry that
    exists before [embed_metadata] and is neither the media file nor the
    thumbnail scratch file of the item is found unchanged afterwards,
    whatever the thumbnail download and ffmpeg did. *)
Theorem embed_metadata_touches_nothing_else (E : extern)
    (local_file : string) (meta : option metadata) (vid : string)
    (s : sys) (p : string) (i : inode) :
  fs_lookup p (sys_fs s) = Some i ->
  p <> local_file -> p <> thumb_file vid ->
  fs_lookup p (sys_fs (snd (embed_metadata E local_file meta vid s)))
  = Some i.
Proof.
  intros Hp Hl Ht. unfold embed_metadata.
  destruct meta as [m|]; [|exact Hp].
  destruct (download_thumbnail_spec E (thumbnail_url m) vid s)
    as (th & Hr1 & Hkeep & Hth).
  unfold bind at 1.
  destruct (download_thumbnail E (thumbnail_url m) vid s) as [r1 s1].
  simpl in Hr1, Hkeep, Hth. subst r1.
  pose proof (Hkeep p i Hp (or_introl Ht)) as Hp1.
  unfold bind, mkstemp.
  destruct (negb (dir_exists (sys_fs s1) (dirname local_file)));
    [exact Hp1|].
  destruct (mkstemp_random E (sys_clock s1)) as [random|]; [|exact Hp1].
  pose proof (mkstemp_fresh random (sys_fs s1)
                (".tagged" +:+ base_ext local_file)
                (dirname local_file)) as Hfresh.
  apply (keeps_tag_and_replace p (Some i)).
  - exact Hl.
  - intros ->. rewrite Hfresh in Hp1. discriminate.
  - intros Hs. destruct (Hth p Hs) as [Heq _]. contradiction.
  - simpl. rewrite fs_lookup_app, Hp1. reflexivity.
Qed.

Lemma embed_metadata_touches_nothing_else_witness :
  fs_lookup Scenario.clip_dir
    (sys_fs (snd (embed_metadata Scenario.fair Scenario.clip_webm
                    (Some Scenario.sample_meta) "abc"
                    Scenario.finished_webm)))
  = Some new_dir.
Proof.
  apply (embed_metadata_touches_nothing_else Scenario.fair
           Scenario.clip_webm (Some Scenario.sample_meta) "abc"
           Scenario.finished_webm Scenario.clip_dir new_dir).
  - reflexivity.
  - discriminate.
  - discriminate.
Defined.

(** X6: The remux of the final-format block, when it is attempted on a
    regular file: if ffmpeg exits with status 0 the converted path holds
    its output, the source file is removed and the converted path is
    returned; otherwise the source file is found as it was and its own
    path is returned, and an output that a failed ffmpeg had begun is
    left where it is.  No other path changes. *)
Theorem remux_outcome (E : extern) (cfg : config) (vid chosen : string)
    (s : sys) (desired : string) (src : inode) :
  final_format cfg = Some desired -> truthy desired = true ->
  current_ext chosen <> desired ->
  ~ (current_ext chosen = "mp4" /\ desired = "webm") ->
  fs_lookup chosen (sys_fs s) = Some src -> is_dir src = false ->
  converted_path chosen desired <> chosen ->
  let converted := converted_path chosen desired in
  let r := final_format_conversion E (Some cfg) vid chosen s in
  let fs' := sys_fs (snd r) in
  match ffmpeg E (sys_clock s) (remux_cmd chosen converted) (sys_fs s) with
  | ProcOk out =>
      fst r = Ok converted
      /\ fs_lookup converted fs' = Some (regular out)
      /\ fs_lookup chosen fs' = None
  | ProcFailed (Some part) =>
      fst r = Ok chosen
      /\ fs_lookup chosen fs' = Some src
      /\ fs_lookup converted fs' = Some (regular part)
  | _ =>
      fst r = Ok chosen
      /\ fs_lookup chosen fs' = Some src
      /\ fs_lookup converted fs' = fs_lookup converted (sys_fs s)
  end
  /\ (forall p, p <> chosen -> p <> converted ->
                fs_lookup p fs' = fs_lookup p (sys_fs s)).
Proof.
  intros Hf Ht Hne Hnot Hsrc Hreg Hconv converted r fs'. subst fs' r converted.
  unfold final_format_conversion. rewrite Hf, Ht.
  cbv beta iota zeta delta [negb].
  assert (E1 : String.eqb (current_ext chosen) "mp4"
               && String.eqb desired "webm" = false).
  { apply andb_false_iff.
    destruct (String.eqb_spec (current_ext chosen) "mp4") as [H1|H1];
      [|now left].
    destruct (String.eqb_spec desired "webm") as [H2|H2]; [|now right].
    tauto. }
  rewrite E1, (string_eqb_false _ _ Hne).
  cbv beta iota zeta delta [negb].
  unfold try_except, bind, subprocess_run_ffmpeg, lift_fs, ret, logging.
  cbv beta zeta.
  destruct (ffmpeg E (sys_clock s)
              (remux_cmd chosen (converted_path chosen desired)) (sys_fs s))
    as [out|[part|]|]; cbv beta iota zeta; simpl sys_fs.
  - erewrite os_unlink_file;
      [| rewrite fs_lookup_put_ne by congruence; exact Hsrc | exact Hreg].
    cbv beta iota zeta. simpl.
    split; [split; [reflexivity|split]|].
    + rewrite fs_lookup_delete_ne by congruence. apply fs_lookup_put_eq.
    + apply fs_lookup_delete_eq.
    + intros p Hp1 Hp2. rewrite fs_lookup_delete_ne by congruence.
      now rewrite fs_lookup_put_ne by congruence.
  - simpl. split; [split; [reflexivity|split]|].
    + rewrite fs_lookup_put_ne by congruence. exact Hsrc.
    + apply fs_lookup_put_eq.
    + intros p Hp1 Hp2. now rewrite fs_lookup_put_ne by congruence.
  - simpl. repeat split; try assumption. 
  - simpl. repeat split; try assumption.
Qed.

Lemma remux_outcome_witness :
  let r := final_format_conversion Scenario.fair
             (Some (Scenario.config_with (Some "mp4") [])) "abc"
             Scenario.clip_webm Scenario.finished_webm in
  fst r = Ok Scenario.clip_mp4
  /\ fs_lookup Scenario.clip_mp4 (sys_fs (snd r)) = Some (regular "remuxed")
  /\ fs_lookup Scenario.clip_webm (sys_fs (snd r)) = None.
Proof.
  pose proof (remux_outcome Scenario.fair
                (Scenario.config_with (Some "mp4") []) "abc"
                Scenario.clip_webm Scenario.finished_webm "mp4"
                (regular "vp9+opus")) as H.
  apply H.
  - reflexivity.
  - reflexivity.
  - discriminate.
  - intros [H1 _]. discriminate H1.
  - reflexivity.
  - reflexivity.
  - discriminate.
Defined.

End Bystanders.


(** ** From the playlist API to the download *)

Section RoundTrips.
Import PyStr Sys Run.

Lemma remove_dashes_digit (a : ascii) (s : string) :
  isdigit_char a = true ->
  remove_dashes (String a s) = String a (remove_dashes s).
Proof.
  destruct a as [[] [] [] [] [] [] [] []]; intros H; try reflexivity;
    vm_compute in H; discriminate H.
Qed.



Lemma length_2 (s : string) :
  String.length s = 2%nat -> exists a b, s = String a (String b "").
Proof.
  destruct s as [|a [|b [|c s]]]; try discriminate. intros _. eauto.
Qed.

Lemma length_4 (s : string) :
  String.length s = 4%nat ->
  exists a b c d, s = String a (String b (String c (String d ""))).
Proof.
  destruct s as [|a [|b [|c [|d [|e s]]]]]; try discriminate.
  intros _. eauto.
Qed.

(** X7: The date that ends up in the file: when [publishedAt] starts with
    [YYYY-MM-DD] (digits), [get_video_metadata] stores [YYYYMMDD] as
    [upload_date], and the date tag that [embed_metadata] derives from
    it is [YYYY-MM-DD] again, whatever follows in the time stamp. *)
Theorem published_date_round_trip (snip : snippet) (vid : string)
    (y m d rest : string) :
  String.length y = 4%nat -> String.length m = 2%nat ->
  String.length d = 2%nat ->
  all_chars isdigit_char (y +:+ m +:+ d) = true ->
  publishedAt snip = Some (y +:+ "-" +:+ m +:+ "-" +:+ d +:+ rest) ->
  upload_date (metadata_of_snippet snip vid) = Some (y +:+ m +:+ d)
  /\ date_tag (y +:+ m +:+ d) = y +:+ "-" +:+ m +:+ "-" +:+ d.
Proof.
  intros Hy Hm Hd Hdig Hp.
  destruct (length_4 y Hy) as (y1 & y2 & y3 & y4 & ->).
  destruct (length_2 m Hm) as (m1 & m2 & ->).
  destruct (length_2 d Hd) as (d1 & d2 & ->).
  repeat first [rewrite append_cons in Hp | rewrite append_nil in Hp].
  repeat first [rewrite append_cons in Hdig | rewrite append_nil in Hdig].
  repeat first [rewrite append_cons | rewrite append_nil].
  split.
  - unfold metadata_of_snippet. rewrite Hp. cbn [upload_date].
    f_equal. cbn [all_chars] in Hdig.
    repeat (apply andb_true_iff in Hdig as [? Hdig]).
    unfold take. cbn [String.substring].
    repeat first [ rewrite remove_dashes_digit by assumption
                 | change (remove_dashes (String "-" ?s))
                     with (remove_dashes s) ].
    destruct rest; reflexivity.
  - unfold date_tag, isdigit, len. cbn [String.length Z.of_nat].
    rewrite Hdig. reflexivity.
Qed.

Lemma published_date_round_trip_witness :
  upload_date (metadata_of_snippet (Scenario.snippet_of "abc") "abc")
  = Some "20230115"
  /\ date_tag "20230115" = "2023-01-15".
Proof.
  apply (published_date_round_trip (Scenario.snippet_of "abc") "abc"
           "2023" "01" "15" "T10:00:00Z"); reflexivity.
Defined.

Lemma split_last_go_none (sep : string) (n : nat) (s cur : string) :
  contains sep s = false -> split_last_go sep n s cur = cur.
Proof.
  revert cur. induction s as [|a s IH]; intros cur H; [reflexivity|].
  cbn [contains] in H. apply orb_false_iff in H as [Hp Hc].
  cbn [split_last_go]. rewrite Hp. now apply IH.
Qed.

(** Characters other than [v] cannot start the separator. *)
Lemma split_last_go_skip (n : nat) (pre t cur : string) :
  all_chars (fun c => negb (Ascii.eqb c "v")) pre = true ->
  split_last_go "v=" n (pre +:+ t) cur = split_last_go "v=" n t cur.
Proof.
  revert cur. induction pre as [|a pre IH]; intros cur H; [reflexivity|].
  cbn [all_chars] in H. apply andb_true_iff in H as [Ha H].
  rewrite append_cons. cbn [split_last_go String.prefix].
  destruct (ascii_dec "v" a) as [<-|_]; [discriminate Ha|].
  now apply IH.
Qed.

(** X8: The identifier survives the detour through the watch URL: the
    URL that [get_video_metadata] builds for an identifier without the
    text [v=] gives that identifier back in [download_with_ytdlp], so
    the scratch directory [temp_downloads/<id>] is scanned for files of
    the same identifier. *)
Theorem video_id_round_trip (snip : snippet) (vid : string) :
  contains "v=" vid = false ->
  split_last "v=" (show (url (metadata_of_snippet snip vid))) = vid.
Proof.
  intros H. unfold metadata_of_snippet, show, url, split_last.
  change ("https://www.youtube.com/watch?v=" +:+ vid)
    with ("https://www.youtube.com/watch?" +:+ String "v" (String "=" vid)).
  rewrite split_last_go_skip by reflexivity.
  cbn [split_last_go String.prefix String.length drop].
  assert (Hnil : String.prefix "" vid = true) by now destruct vid.
  rewrite Hnil.
  destruct (ascii_dec "v" "v") as [_|Hn]; [|congruence].
  destruct (ascii_dec "=" "=") as [_|Hn]; [|congruence].
  destruct (ascii_dec "v" "=") as [Hn|_]; [discriminate Hn|].
  now apply split_last_go_none.
Qed.

Lemma video_id_round_trip_witness :
  split_last "v="
    (show (url (metadata_of_snippet (Scenario.snippet_of "dQw4w9WgXcQ")
                  "dQw4w9WgXcQ")))
  = "dQw4w9WgXcQ".
Proof.
  apply (video_id_round_trip (Scenario.snippet_of "dQw4w9WgXcQ")
           "dQw4w9WgXcQ").
  reflexivity.
Defined.

Lemma split_once_go_some (sep : string) (n : nat) (s acc : string) :
  sep <> "" -> contains sep s = true ->
  exists a b, split_once_go sep n s acc = Some (a, b).
Proof.
  intros Hsep. revert acc. induction s as [|c s IH]; intros acc H.
  - destruct sep; [congruence | discriminate H].
  - cbn [contains] in H. cbn [split_once_go].
    destruct (String.prefix sep (String c s)); [eauto|].
    apply IH. exact H.
Qed.

(** X9: The hint that [resolve_js_runtime] hands to the download can be
    unpacked by [js_runtime.split(":", 1)] whenever the configured hint
    (from the configuration or the environment), if there is one, holds
    a colon: the hints built from a detected deno or node always do. *)
Theorem resolved_runtime_unpacks (S : services) (cfg : config) :
  (forall r, or_opt (js_runtime_cfg cfg) (environ_js_runtime S) = Some r ->
             truthy r = true -> contains ":" r = true) ->
  js_runtime_ok (resolve_js_runtime S cfg).
Proof.
  intros Hcfg r Hr Ht.
  assert (Hdet : forall d,
            r = "deno:" +:+ d \/ r = "node:" +:+ d ->
            exists a b, split_once ":" r = Some (a, b)).
  { intros d [-> | ->]; destruct d; eexists _, _; reflexivity. }
  unfold resolve_js_runtime in Hr.
  destruct (or_opt (js_runtime_cfg cfg) (environ_js_runtime S))
    as [r0|] eqn:E0.
  - destruct (truthy r0) eqn:Et0.
    + injection Hr as <-. apply split_once_go_some; [discriminate|].
      now apply Hcfg.
    + destruct (which S "deno") as [d|]; [injection Hr as <-; eauto|].
      destruct (which S "node") as [d|]; [injection Hr as <-; eauto|].
      discriminate.
  - destruct (which S "deno") as [d|]; [injection Hr as <-; eauto|].
    destruct (which S "node") as [d|]; [injection Hr as <-; eauto|].
    discriminate.
Qed.

Lemma resolved_runtime_unpacks_witness :
  let S := Scenario.services_with (Ok []) (fun _ => true) Scenario.late in
  let hint := "node:/opt/node/bin/node" in
  (contains ":" hint = true
   /\ resolve_js_runtime S (Scenario.with_hint hint) = Some hint
   /\ exists a b, split_once ":" hint = Some (a, b))
  /\ (resolve_js_runtime (Scenario.with_deno S) (Scenario.config_with None [])
      = Some "deno:/usr/bin/deno"
      /\ exists a b, split_once ":" "deno:/usr/bin/deno" = Some (a, b)).
Proof.
  intros S hint. split.
  - split; [reflexivity|]. split; [reflexivity|].
    apply (resolved_runtime_unpacks S (Scenario.with_hint hint));
      [|reflexivity|reflexivity].
    intros r Hr _. vm_compute in Hr. injection Hr as <-. reflexivity.
  - split; [reflexivity|].
    apply (resolved_runtime_unpacks (Scenario.with_deno S)
             (Scenario.config_with None []));
      [|reflexivity|reflexivity].
    intros r Hr. vm_compute in Hr. discriminate Hr.
Defined.

End RoundTrips.


(** ** File names *)

Section FileNames.
Import PyStr Sys Run.

Let safe (c : ascii) : bool := negb (unsafe_char c).

Lemma remove_chars_safe (s : string) :
  safe_name (remove_chars unsafe_char s) = true.
Proof.
  unfold safe_name. induction s as [|a s IH]; [reflexivity|].
  cbn [remove_chars]. destruct (unsafe_char a) eqn:E; [exact IH|].
  cbn [all_chars]. now rewrite E, IH.
Qed.

Lemma remove_chars_id (s : string) :
  safe_name s = true -> remove_chars unsafe_char s = s.
Proof.
  unfold safe_name. induction s as [|a s IH]; [reflexivity|].
  cbn [all_chars remove_chars]. intros H.
  apply andb_true_iff in H as [Ha Hs].
  apply negb_true_iff in Ha. now rewrite Ha, IH.
Qed.

Lemma collapse_safe (b : bool) (s : string) :
  safe_name s = true -> safe_name (collapse_spaces b s) = true.
Proof.
  unfold safe_name. revert b. induction s as [|a s IH]; intros b;
    [reflexivity|].
  cbn [all_chars collapse_spaces]. intros H.
  apply andb_true_iff in H as [Ha Hs].
  destruct (isspace_char a); [destruct b|]; cbn [all_chars];
    rewrite ?Ha, ?IH by assumption; reflexivity.
Qed.

Lemma collapse_single_spaced (b : bool) (s : string) :
  single_spaced b (collapse_spaces b s) = true.
Proof.
  revert b. induction s as [|a s IH]; intros b; [reflexivity|].
  cbn [collapse_spaces]. destruct (isspace_char a) eqn:E.
  - destruct b; [apply IH|]. cbn [single_spaced].
    change (isspace_char " ") with true. cbv iota.
    rewrite IH. reflexivity.
  - cbn [single_spaced]. rewrite E. apply IH.
Qed.

Lemma collapse_id (b : bool) (s : string) :
  single_spaced b s = true -> collapse_spaces b s = s.
Proof.
  revert b. induction s as [|a s IH]; intros b; [reflexivity|].
  cbn [single_spaced collapse_spaces].
  destruct (isspace_char a).
  - intros H. apply andb_true_iff in H as [H Hs].
    apply andb_true_iff in H as [Ha Hb].
    apply negb_true_iff in Hb. subst b.
    apply Ascii.eqb_eq in Ha. subst a. now rewrite IH.
  - intros H. now rewrite IH.
Qed.

Lemma single_spaced_lstrip (b b' : bool) (s : string) :
  single_spaced b s = true -> single_spaced b' (lstrip s) = true.
Proof.
  revert b. induction s as [|a s IH]; intros b; [reflexivity|].
  cbn [lstrip]. destruct (isspace_char a) eqn:E.
  - cbn [single_spaced]. rewrite E. intros H.
    apply andb_true_iff in H as [_ Hs]. now apply (IH true).
  - cbn [single_spaced]. rewrite E. tauto.
Qed.

Lemma single_spaced_rstrip (b : bool) (s : string) :
  single_spaced b s = true -> single_spaced b (rstrip s) = true.
Proof.
  revert b. induction s as [|a s IH]; intros b; [reflexivity|].
  rewrite rstrip_cons.
  destruct (String.eqb (rstrip s) "" && isspace_char a); [reflexivity|].
  cbn [single_spaced]. destruct (isspace_char a).
  - intros H. apply andb_true_iff in H as [H Hs]. rewrite H.
    now apply IH.
  - apply IH.
Qed.

Lemma single_spaced_take (b : bool) (n : nat) (s : string) :
  single_spaced b s = true -> single_spaced b (take n s) = true.
Proof.
  revert b n. induction s as [|a s IH]; intros b [|n]; try reflexivity.
  rewrite take_cons. cbn [single_spaced]. destruct (isspace_char a).
  - intros H. apply andb_true_iff in H as [H Hs]. rewrite H.
    now apply IH.
  - apply IH.
Qed.

Lemma lstrip_idem (s : string) : lstrip (lstrip s) = lstrip s.
Proof.
  induction s as [|a s IH]; [reflexivity|]. cbn [lstrip].
  destruct (isspace_char a) eqn:E; [exact IH|].
  cbn [lstrip]. now rewrite E.
Qed.

Lemma lstrip_fixed (a : ascii) (s : string) :
  lstrip (String a s) = String a s -> isspace_char a = false.
Proof.
  cbn [lstrip]. destruct (isspace_char a); [|reflexivity].
  intros H. apply (f_equal String.length) in H.
  pose proof (lstrip_length s). simpl in H. lia.
Qed.

Lemma lstrip_rstrip (s : string) :
  lstrip s = s -> lstrip (rstrip s) = rstrip s.
Proof.
  destruct s as [|a s]; [reflexivity|]. intros H.
  apply lstrip_fixed in H. rewrite rstrip_cons, H, andb_false_r.
  cbn [lstrip]. now rewrite H.
Qed.

Lemma lstrip_take (n : nat) (s : string) :
  lstrip s = s -> lstrip (take n s) = take n s.
Proof.
  destruct s as [|a s]; [now destruct n|]. intros H.
  apply lstrip_fixed in H. destruct n as [|n]; [reflexivity|].
  rewrite take_cons. cbn [lstrip]. now rewrite H.
Qed.

Lemma rstrip_idem (s : string) : rstrip (rstrip s) = rstrip s.
Proof.
  induction s as [|a s IH]; [reflexivity|].
  rewrite rstrip_cons.
  destruct (String.eqb (rstrip s) "" && isspace_char a) eqn:E;
    [reflexivity|].
  rewrite rstrip_cons, IH, E. reflexivity.
Qed.

(** The shape of a sanitised name. *)
Lemma sanitize_shape (name : option string) :
  let r := sanitize_for_filesystem name in
  safe_name r = true
  /\ (String.length r <= 180)%nat
  /\ single_spaced false r = true
  /\ lstrip r = r /\ rstrip r = r.
Proof.
  unfold sanitize_for_filesystem.
  destruct name as [n|]; [|repeat split; reflexivity || (simpl; lia)].
  destruct (truthy n); [|repeat split; reflexivity || (simpl; lia)].
  set (c := collapse_spaces false (remove_chars unsafe_char n)).
  assert (Hsafe : safe_name (strip c) = true).
  { apply all_chars_rstrip, all_chars_lstrip, collapse_safe,
      remove_chars_safe. }
  assert (Hss : single_spaced false (strip c) = true).
  { apply single_spaced_rstrip, (single_spaced_lstrip false),
      collapse_single_spaced. }
  assert (Hl : lstrip (strip c) = strip c)
    by apply lstrip_rstrip, lstrip_idem.
  assert (Hr : rstrip (strip c) = strip c) by apply rstrip_idem.
  cbv zeta. destruct (len (strip c) >? 180) eqn:Elen.
  - split; [now apply all_chars_rstrip, all_chars_substring|].
    split.
    { etransitivity; [apply rstrip_length | apply take_length]. }
    split; [now apply single_spaced_rstrip, single_spaced_take|].
    split; [now apply lstrip_rstrip, lstrip_take | apply rstrip_idem].
  - split; [exact Hsafe|]. split; [|auto].
    unfold len in Elen. lia.
Qed.

(** X10: [sanitize_for_filesystem] returns a name of at most 180 characters
    that holds none of the characters it removes, in which the only
    white space is single spaces between other characters: nothing at
    either end, no run of two. *)
Theorem sanitized_name_shape (name : option string) :
  let r := sanitize_for_filesystem name in
  safe_name r = true
  /\ (String.length r <= 180)%nat
  /\ single_spaced false r = true
  /\ strip r = r.
Proof.
  destruct (sanitize_shape name) as (H1 & H2 & H3 & H4 & H5).
  cbv zeta. split; [exact H1|]. split; [exact H2|]. split; [exact H3|].
  unfold strip. now rewrite H4.
Qed.

(** X11: Sanitising a sanitised name changes nothing. *)
Theorem sanitize_is_idempotent (name : option string) :
  sanitize_for_filesystem (Some (sanitize_for_filesystem name))
  = sanitize_for_filesystem name.
Proof.
  destruct (sanitize_shape name) as (H1 & H2 & H3 & H4 & H5).
  cbv zeta in *. set (r := sanitize_for_filesystem name) in *.
  unfold sanitize_for_filesystem at 1.
  destruct (truthy r) eqn:Et.
  - rewrite (remove_chars_id r H1), (collapse_id false r H3).
    unfold strip. rewrite H4, H5.
    assert (Hlen : (len r >? 180) = false) by (unfold len; lia).
    now rewrite Hlen.
  - unfold truthy in Et. apply negb_false_iff, String.eqb_eq in Et.
    now rewrite Et.
Qed.

Lemma digit_is_safe (c : ascii) :
  isdigit_char c = true -> safe c = true.
Proof.
  destruct c as [[] [] [] [] [] [] [] []]; intros H; try reflexivity;
    vm_compute in H; discriminate H.
Qed.

Lemma safe_app (a b : string) :
  safe_name a = true -> safe_name b = true -> safe_name (a +:+ b) = true.
Proof.
  unfold safe_name. intros Ha Hb. now rewrite all_chars_app, Ha, Hb.
Qed.

Lemma pretty_filename_safe (t c d : option string) :
  safe_name (pretty_filename t c d) = true.
Proof.
  unfold pretty_filename.
  destruct (sanitize_shape t) as (Ht & _).
  destruct (sanitize_shape c) as (Hc & _).
  cbv zeta in *.
  destruct (truthy (or_else d "") && (len (or_else d "") =? 8)
            && isdigit (or_else d "")) eqn:E.
  - apply andb_true_iff in E as [_ Hd].
    assert (Hs : safe_name (or_else d "") = true).
    { unfold isdigit in Hd. destruct (or_else d ""); [discriminate|].
      unfold safe_name.
      apply (all_chars_impl _ isdigit_char); [apply digit_is_safe|exact Hd]. }
    repeat (apply safe_app; try assumption; try reflexivity);
      now apply all_chars_substring.
  - repeat (apply safe_app; try assumption; try reflexivity).
Qed.

(** X12: The default file name of an item, ["<pretty name>_<id[:8]>.<ext>"],
    holds no path separator and none of the other characters removed by
    [sanitize_for_filesystem], whatever the title, the channel and the
    upload date are, as long as the identifier and the extension hold
    none. *)
Theorem default_name_is_safe (m : metadata) (vid ext : string) :
  safe_name vid = true -> safe_name ext = true ->
  safe_name (default_name m vid ext) = true.
Proof.
  intros Hv He. unfold default_name.
  repeat (apply safe_app; try assumption; try reflexivity).
  - apply pretty_filename_safe.
  - now apply all_chars_substring.
Qed.

Lemma default_name_is_safe_witness :
  safe_name
    (default_name
       {| title := Some "AC/DC: Back in Black?"; channel := Some "a|b";
          upload_date := Some "20230115"; description := None;
          tags := []; url := None; thumbnail_url := None |}
       "dQw4w9WgXcQ" "webm") = true.
Proof.
  apply default_name_is_safe; reflexivity.
Defined.

End FileNames.


(** ** The lock file *)

Section LockFile.
Import PyStr Sys Run.

Lemma run_once_locked (S : services) (cfg : config) (s : sys)
    (l : gmap string ledger_row) :
  os_path_exists (sys_fs s) LOCK_FILE = true ->
  run_once S cfg s l
  = log WARNING "Lockfile present — skipping run" (initial s l).
Proof. intros H. unfold run_once. now rewrite H. Qed.

(** X13: A run that finds the lock file returns at once: it logs one
    warning and does nothing else.  No playlist is listed, no item is
    fetched, downloaded or copied, no external program is called, no
    file and no row changes, and the lock file is left in place. *)
Theorem locked_run_is_skipped (S : services) (cfg : config) (s : sys)
    (l : gmap string ledger_row) :
  os_path_exists (sys_fs s) LOCK_FILE = true ->
  let r := run_once S cfg s l in
  fst r = Ok tt
  /\ trace (snd r) = []
  /\ ledger (snd r) = l
  /\ sys_fs (sys_of (snd r)) = sys_fs s
  /\ sys_calls (sys_of (snd r)) = sys_calls s
  /\ sys_log (sys_of (snd r))
     = sys_log s ++ [(WARNING, "Lockfile present — skipping run")]
  /\ run_successes (snd r) = [] /\ run_failures (snd r) = [].
Proof.
  intros H r. subst r. rewrite (run_once_locked S cfg s l H).
  repeat split; reflexivity.
Qed.

Lemma locked_run_is_skipped_witness :
  let r := run_once (Scenario.services_with (Ok [Scenario.item "abc"])
                       (fun _ => true) Scenario.late)
             Scenario.one_playlist
             (Scenario.sys_with [(LOCK_FILE, regular "4242")]) ∅ in
  fst r = Ok tt /\ trace (snd r) = [] /\ ledger (snd r) = ∅.
Proof.
  pose proof (locked_run_is_skipped
                (Scenario.services_with (Ok [Scenario.item "abc"])
                   (fun _ => true) Scenario.late)
                Scenario.one_playlist
                (Scenario.sys_with [(LOCK_FILE, regular "4242")]) ∅
                eq_refl) as (H1 & H2 & H3 & _).
  exact (conj H1 (conj H2 H3)).
Defined.

(** The lock is written when no lock file is there. *)
Lemma lock_written (S : services) (s : sys) (l : gmap string ledger_row) :
  os_path_exists (sys_fs s) LOCK_FILE = false ->
  lift_sys (lift_fs (write_file LOCK_FILE (pid S))) (initial s l)
  = (Ok tt,
     with_sys (with_fs (sys_fs s ++ [(LOCK_FILE, regular (pid S))]) s)
       (initial s l)).
Proof.
  intros Hlock. unfold os_path_exists in Hlock.
  destruct (fs_lookup LOCK_FILE (sys_fs s)) eqn:El; [discriminate|].
  unfold lift_sys, lift_fs, write_file, os_path_isdir, fs_put,
    os_path_exists.
  cbn [initial sys_of]. now rewrite El.
Qed.

(** [init_db] adds the directory and the file of the database when
    they are missing, and changes nothing else; it raises when the
    database cannot be opened. *)
Lemma init_db_spec (S : services) (st : run_state) :
  (forall i, fs_lookup (dirname DB_PATH) (sys_fs (sys_of st)) = Some i ->
             is_dir i = true) ->
  exists more,
    init_db S st
    = (if os_path_isdir (sys_fs (sys_of st)) DB_PATH
       then Raise OperationalError
       else if db_connect S (sys_clock (sys_of st)) then Ok tt
            else Raise OperationalError,
       with_sys
         {| sys_fs := sys_fs (sys_of st) ++ more;
            sys_clock := Datatypes.S (sys_clock (sys_of st));
            sys_log := sys_log (sys_of st);
            sys_calls := sys_calls (sys_of st) |} st).
Proof.
  intros Hdb. unfold init_db.
  assert (Hmk : exists created,
             os_makedirs (dirname DB_PATH) (sys_fs (sys_of st))
             = Ok (sys_fs (sys_of st) ++ created)
             /\ fs_lookup DB_PATH created = None).
  { destruct (fs_lookup (dirname DB_PATH) (sys_fs (sys_of st))) as [i|] eqn:E.
    - exists []. unfold os_makedirs. rewrite E, (Hdb i eq_refl).
      now rewrite app_nil_r.
    - exists [(dirname DB_PATH, new_dir)]. split; [|reflexivity].
      apply os_makedirs_in_dir; [exact E|reflexivity|reflexivity|].
      left. reflexivity. }
  destruct Hmk as (created & Hmk & Hfree).
  unfold bind at 1. unfold lift_sys at 1, lift_fs at 1. rewrite Hmk.
  unfold bind, now, get. cbn [sys_of with_sys sys_fs with_fs sys_clock tick].
  assert (Hdir : os_path_isdir (sys_fs (sys_of st) ++ created) DB_PATH
                 = os_path_isdir (sys_fs (sys_of st)) DB_PATH).
  { unfold os_path_isdir. rewrite fs_lookup_app, Hfree.
    now destruct (fs_lookup DB_PATH (sys_fs (sys_of st))). }
  rewrite Hdir.
  destruct (os_path_isdir (sys_fs (sys_of st)) DB_PATH).
  { exists created. reflexivity. }
  destruct (db_connect S (sys_clock (sys_of st))).
  2:{ exists created. reflexivity. }
  destruct (os_path_exists (sys_fs (sys_of st) ++ created) DB_PATH).
  - exists created. reflexivity.
  - exists (created ++ [(DB_PATH, empty_file)]).
    unfold lift_sys, modify_fs.
    cbn [sys_of with_sys sys_fs with_fs sys_clock sys_log sys_calls].
    now rewrite app_assoc.
Qed.

(** [init_db] in the state in which the run has taken the lock. *)
Lemma run_once_prologue (S : services) (s : sys)
    (l : gmap string ledger_row) :
  (forall i, fs_lookup (dirname DB_PATH) (sys_fs s) = Some i ->
             is_dir i = true) ->
  exists more,
    init_db S
      (with_sys (with_fs (sys_fs s ++ [(LOCK_FILE, regular (pid S))]) s)
         (initial s l))
    = (if os_path_isdir (sys_fs s) DB_PATH
       then Raise OperationalError
       else if db_connect S (sys_clock s) then Ok tt
            else Raise OperationalError,
       with_sys
         {| sys_fs := (sys_fs s ++ [(LOCK_FILE, regular (pid S))]) ++ more;
            sys_clock := Datatypes.S (sys_clock s);
            sys_log := sys_log s;
            sys_calls := sys_calls s |} (initial s l)).
Proof.
  intros Hdb.
  destruct (init_db_spec S
              (with_sys (with_fs (sys_fs s ++ [(LOCK_FILE, regular (pid S))]) s)
                 (initial s l))) as (more & Hi).
  { cbn [sys_of with_sys sys_fs with_fs]. intros i.
    rewrite fs_lookup_app.
    destruct (fs_lookup (dirname DB_PATH) (sys_fs s)) as [j|] eqn:Ed.
    - intros [= <-]. now apply Hdb.
    - discriminate. }
  exists more. rewrite Hi.
  cbn [sys_of with_sys sys_fs with_fs sys_clock sys_log sys_calls].
  assert (Hdir : os_path_isdir (sys_fs s ++ [(LOCK_FILE, regular (pid S))])
                   DB_PATH
                 = os_path_isdir (sys_fs s) DB_PATH).
  { unfold os_path_isdir. rewrite fs_lookup_app.
    now destruct (fs_lookup DB_PATH (sys_fs s)). }
  rewrite Hdir. reflexivity.
Qed.

Lemma build_client_returns (S : services) (acc : string * option string)
    (st : run_state) :
  exists st', build_client S acc st = (Ok tt, st').
Proof.
  unfold build_client. destruct (snd acc) as [tok|]; [|eexists; reflexivity].
  destruct (truthy tok); [|eexists; reflexivity].
  unfold bind, now.
  destruct (load_credentials S (sys_clock (sys_of st)) tok) as [u|[]];
    eexists; reflexivity.
Qed.

Lemma build_clients_return (S : services)
    (accs : list (string * option string)) (st : run_state) :
  exists st', for_each accs (build_client S) st = (Ok tt, st').
Proof.
  revert st. induction accs as [|acc accs IH]; intros st.
  - eexists. reflexivity.
  - destruct (build_client_returns S acc st) as [st1 E1].
    destruct (IH st1) as [st2 E2]. exists st2.
    cbn [for_each]. now rewrite (bind_ok _ _ _ _ _ E1).
Qed.

Lemma telegram_notify_returns (S : services) (cfg : config)
    (message : string) (st : run_state) :
  exists st',
    telegram_notify S cfg message st = (Ok tt, st')
    /\ sys_fs (sys_of st') = sys_fs (sys_of st).
Proof.
  unfold telegram_notify.
  destruct (telegram cfg) as [[[token|] [chat_id|]]|];
    try (exists st; split; reflexivity).
  destruct (truthy token && truthy chat_id);
    [|exists st; split; reflexivity].
  unfold bind, emit, modify, now. cbv beta iota zeta.
  cbn [sys_of with_trace with_sys].
  destruct (urlopen S _ message); eexists; split; reflexivity.
Qed.

(** The [finally] block removes the lock file, or it raises because
    the lock path is a directory. *)
Lemma finish_releases (S : services) (cfg : config) (st : run_state) :
  let r := finish S cfg st in
  (fst r = Ok tt /\ fs_lookup LOCK_FILE (sys_fs (sys_of (snd r))) = None)
  \/ fst r = Raise IsADirectoryError.
Proof.
  set (st0 := snd (run_ready S st)).
  assert (Hm : exists stA,
             (match run_successes st0, run_failures st0 with
              | [], [] => ret tt
              | ok, ko =>
                  let msg := summary ok ko in
                  run_ready S ;; telegram_notify S cfg msg
              end) st0 = (Ok tt, stA)).
  { destruct (run_successes st0) as [|x ok], (run_failures st0) as [|y ko];
      try (eexists; reflexivity);
      cbv zeta; rewrite (bind_ok _ _ _ _ _ (run_ready_returns S st0));
      match goal with
      | |- context [telegram_notify S cfg ?m ?st'] =>
          destruct (telegram_notify_returns S cfg m st') as (st1 & E1 & _)
      end; exists st1; exact E1. }
  destruct Hm as (stA & EA).
  set (st1 := snd (run_ready S stA)).
  assert (Hr : finish S cfg st
               = try_except (lift_sys (lift_fs (os_unlink LOCK_FILE)))
                   (fun ex => match ex with
                              | FileNotFoundError => ret tt
                              | _ => raise ex
                              end) st1).
  { unfold finish. rewrite (bind_ok _ _ _ _ _ (run_ready_returns S st)).
    fold st0. unfold try_except.
    unfold bind at 1. unfold get at 1. cbv beta iota.
    rewrite (bind_ok _ _ _ _ _ EA).
    rewrite (bind_ok _ _ _ _ _ (run_ready_returns S stA)).
    reflexivity. }
  cbv zeta. rewrite Hr.
  unfold try_except, lift_sys, lift_fs, os_unlink.
  destruct (fs_lookup LOCK_FILE (sys_fs (sys_of st1))) as [i|] eqn:El.
  - destruct (is_dir i).
    + right. reflexivity.
    + left. split; [reflexivity|]. cbn. apply fs_lookup_delete_eq.
  - left. split; [reflexivity|]. exact El.
Qed.

(** X14: A run that takes the lock and gets as far as the playlist loop
    gives the lock back.  When no lock file is there, the directory of
    the database can be made, the database can be opened, and the
    configuration has the keys [accounts] and [playlists], then,
    whatever happens in the playlist loop (it may return or raise at
    any point), the [finally] block removes the lock file.  The one
    exception is a lock path that has become a directory, on which
    [os.remove] raises IsADirectoryError. *)
Theorem lock_is_released (S : services) (cfg : config) (s : sys)
    (l : gmap string ledger_row)
    (accs : list (string * option string)) (pls : list playlist) :
  os_path_exists (sys_fs s) LOCK_FILE = false ->
  (forall i, fs_lookup (dirname DB_PATH) (sys_fs s) = Some i ->
             is_dir i = true) ->
  os_path_isdir (sys_fs s) DB_PATH = false ->
  db_connect S (sys_clock s) = true ->
  accounts cfg = Some accs -> playlists cfg = Some pls ->
  let r := run_once S cfg s l in
  fs_lookup LOCK_FILE (sys_fs (sys_of (snd r))) = None
  \/ fst r = Raise IsADirectoryError.
Proof.
  intros Hlock Hdb Hfile Hconn Haccs Hpls r. subst r.
  destruct (run_once_prologue S s l Hdb) as (more & E2).
  rewrite Hfile, Hconn in E2.
  match type of E2 with _ = (_, ?st) => set (st2 := st) in E2 end.
  destruct (build_clients_return S accs st2) as (st3 & E3).
  assert (Hrun : run_once S cfg s l
                 = try_finally
                     (run_playlists S cfg (resolve_js_runtime S cfg) pls ;;
                      join_all S ;;
                      log INFO rule ;;
                      log INFO "Run complete." ;;
                      log INFO (rule +:+ " " +:+ nl +:+ " " +:+ nl
                                +:+ " " +:+ nl))
                     (finish S cfg) st3).
  { unfold run_once. rewrite Hlock, Haccs, Hpls.
    rewrite (bind_ok _ _ _ _ _ (lock_written S s l Hlock)).
    rewrite (bind_ok _ _ _ _ _ E2).
    unfold config_key, bind at 1 2, ret. cbv beta iota.
    now rewrite (bind_ok _ _ _ _ _ E3). }
  rewrite Hrun. unfold try_finally.
  match goal with
  | |- context [let (r, s') := ?body st3 in _] =>
      destruct (body st3) as [rb st4]
  end.
  pose proof (finish_releases S cfg st4) as Hfin.
  destruct (finish S cfg st4) as [[u|e] st5]; cbn in Hfin |- *.
  - destruct Hfin as [[_ H]|H]; [now left | discriminate H].
  - destruct Hfin as [[H _]|H]; [discriminate H | now right].
Qed.

Lemma lock_is_released_witness :
  let S := Scenario.services_with
             (Ok [Scenario.item "abc"]) (fun _ => true) Scenario.late in
  let r := run_once S Scenario.one_playlist (Scenario.sys_with []) ∅ in
  (fs_lookup LOCK_FILE (sys_fs (sys_of (snd r))) = None
   \/ fst r = Raise IsADirectoryError)
  /\ fs_lookup DB_PATH (sys_fs (sys_of (snd r))) = Some empty_file.
Proof.
  intros S r. split; [|vm_compute; reflexivity].
  apply (lock_is_released S Scenario.one_playlist (Scenario.sys_with []) ∅
           [("main", Some "tokens/main.json")] [Scenario.library]).
  - reflexivity.
  - intros i H. discriminate H.
  - reflexivity.
  - reflexivity.
  - reflexivity.
  - reflexivity.
Defined.

(** X15: When the database directory cannot be made because its path names
    a regular file, the run raises FileExistsError from [init_db],
    which is called after the lock was written and before the [try]
    block: the lock file stays behind with the process id in it, and
    every later run is skipped without doing anything. *)
Theorem failed_start_leaves_the_lock (S : services) (cfg : config)
    (s : sys) (l : gmap string ledger_row) (i : inode) :
  os_path_exists (sys_fs s) LOCK_FILE = false ->
  fs_lookup (dirname DB_PATH) (sys_fs s) = Some i -> is_dir i = false ->
  let r := run_once S cfg s l in
  fst r = Raise FileExistsError
  /\ fs_lookup LOCK_FILE (sys_fs (sys_of (snd r))) = Some (regular (pid S))
  /\ trace (snd r) = []
  /\ forall S' cfg' l',
       let r' := run_once S' cfg' (sys_of (snd r)) l' in
       fst r' = Ok tt /\ trace (snd r') = [] /\ ledger (snd r') = l'
       /\ sys_fs (sys_of (snd r')) = sys_fs (sys_of (snd r)).
Proof.
  intros Hlock Hdb Hreg r.
  assert (Hr : r = (Raise FileExistsError,
                    with_sys (with_fs (sys_fs s ++ [(LOCK_FILE, regular (pid S))]) s)
                      (initial s l))).
  { subst r. unfold run_once. rewrite Hlock.
    unfold os_path_exists in Hlock.
    destruct (fs_lookup LOCK_FILE (sys_fs s)) eqn:El; [discriminate|].
    unfold bind at 1.
    unfold lift_sys at 1, lift_fs at 1, write_file, os_path_isdir, fs_put,
      os_path_exists.
    cbn [initial sys_of]. rewrite El. cbv beta iota.
    unfold bind at 1. unfold init_db. unfold bind at 1.
    unfold lift_sys at 1, lift_fs at 1, os_makedirs.
    cbn [sys_of with_sys sys_fs with_fs]. cbv iota.
    rewrite fs_lookup_app, Hdb, Hreg. reflexivity. }
  rewrite Hr. cbn [fst snd sys_of with_sys sys_fs with_fs trace initial].
  assert (Hl : fs_lookup LOCK_FILE (sys_fs s ++ [(LOCK_FILE, regular (pid S))])
               = Some (regular (pid S))).
  { rewrite fs_lookup_app. unfold os_path_exists in Hlock.
    destruct (fs_lookup LOCK_FILE (sys_fs s)); [discriminate|].
    reflexivity. }
  split; [reflexivity|]. split; [exact Hl|]. split; [reflexivity|].
  intros S' cfg' l'.
  rewrite run_once_locked
    by (unfold os_path_exists; cbn [sys_fs with_fs]; now rewrite Hl).
  repeat split; reflexivity.
Qed.

Lemma failed_start_leaves_the_lock_witness :
  let S := Scenario.services_with (Ok [Scenario.item "abc"])
             (fun _ => true) Scenario.late in
  let r := run_once S Scenario.one_playlist
             (Scenario.sys_with [("database", regular "not a directory")])
             ∅ in
  fst r = Raise FileExistsError
  /\ fs_lookup LOCK_FILE (sys_fs (sys_of (snd r))) = Some (regular "4242").
Proof.
  pose proof (failed_start_leaves_the_lock
                (Scenario.services_with (Ok [Scenario.item "abc"])
                   (fun _ => true) Scenario.late)
                Scenario.one_playlist
                (Scenario.sys_with [("database", regular "not a directory")])
                ∅ (regular "not a directory") eq_refl eq_refl eq_refl)
    as (H1 & H2 & _).
  exact (conj H1 H2).
Defined.

(** X29: The other ways in which a run fails between the writing of the
    lock file and the [try] statement: [init_db] raises
    OperationalError when the database cannot be opened, and
    [config["accounts"]] or [config["playlists"]] raises KeyError when
    the configuration lacks the key.  In each case the lock file stays
    behind with the process id in it and nothing was listed, fetched or
    downloaded. *)
Theorem start_failure_leaves_the_lock (S : services) (cfg : config)
    (s : sys) (l : gmap string ledger_row) :
  os_path_exists (sys_fs s) LOCK_FILE = false ->
  (forall i, fs_lookup (dirname DB_PATH) (sys_fs s) = Some i ->
             is_dir i = true) ->
  let r := run_once S cfg s l in
  let opened :=
    negb (os_path_isdir (sys_fs s) DB_PATH) && db_connect S (sys_clock s) in
  (opened = false -> fst r = Raise OperationalError)
  /\ (opened = true -> accounts cfg = None \/ playlists cfg = None ->
      fst r = Raise KeyError)
  /\ (opened = false \/ accounts cfg = None \/ playlists cfg = None ->
      fs_lookup LOCK_FILE (sys_fs (sys_of (snd r)))
      = Some (regular (pid S))
      /\ trace (snd r) = []
      /\ sys_calls (sys_of (snd r)) = sys_calls s).
Proof.
  intros Hlock Hdb r opened.
  destruct (run_once_prologue S s l Hdb) as (more & E2).
  match type of E2 with _ = (_, ?st) => set (st2 := st) in E2 end.
  assert (Hl : fs_lookup LOCK_FILE (sys_fs (sys_of st2))
               = Some (regular (pid S))).
  { subst st2. cbn [sys_of with_sys sys_fs].
    rewrite <- app_assoc, fs_lookup_app. unfold os_path_exists in Hlock.
    destruct (fs_lookup LOCK_FILE (sys_fs s)); [discriminate|].
    cbn [app fs_lookup]. now rewrite String.eqb_refl. }
  assert (Hopen : init_db S
                    (with_sys
                       (with_fs (sys_fs s ++ [(LOCK_FILE, regular (pid S))]) s)
                       (initial s l))
                  = (if opened then Ok tt else Raise OperationalError, st2)).
  { rewrite E2. subst opened.
    destruct (os_path_isdir (sys_fs s) DB_PATH); [reflexivity|].
    now destruct (db_connect S (sys_clock s)). }
  clear E2.
  assert (F1 : opened = false -> r = (Raise OperationalError, st2)).
  { intros Ho. rewrite Ho in Hopen. subst r. unfold run_once.
    rewrite Hlock, (bind_ok _ _ _ _ _ (lock_written S s l Hlock)).
    now rewrite (bind_raise _ _ _ _ _ Hopen). }
  assert (F2 : opened = true -> accounts cfg = None \/ playlists cfg = None ->
               r = (Raise KeyError, st2)).
  { intros Ho Hk. rewrite Ho in Hopen. subst r. unfold run_once.
    rewrite Hlock, (bind_ok _ _ _ _ _ (lock_written S s l Hlock)).
    rewrite (bind_ok _ _ _ _ _ Hopen).
    destruct Hk as [Hk|Hk]; rewrite Hk; [reflexivity|].
    now destruct (accounts cfg). }
  split; [|split].
  - intros Ho. now rewrite (F1 Ho).
  - intros Ho Hk. now rewrite (F2 Ho Hk).
  - intros Hk.
    assert (Hs : snd r = st2).
    { destruct opened eqn:Eo.
      - destruct Hk as [Hk|Hk]; [discriminate|]. now rewrite (F2 eq_refl Hk).
      - now rewrite (F1 eq_refl). }
    rewrite Hs. split; [exact Hl|]. split; reflexivity.
Qed.

Lemma start_failure_leaves_the_lock_witness :
  let S := Scenario.services_with (Ok [Scenario.item "abc"])
             (fun _ => true) Scenario.late in
  let r := run_once S Scenario.no_accounts (Scenario.sys_with []) ∅ in
  fst r = Raise KeyError
  /\ fs_lookup LOCK_FILE (sys_fs (sys_of (snd r))) = Some (regular "4242")
  /\ trace (snd r) = [].
Proof.
  intros S r.
  destruct (start_failure_leaves_the_lock S Scenario.no_accounts
              (Scenario.sys_with []) ∅ eq_refl)
    as (_ & H2 & H3).
  { intros i H. discriminate H. }
  split; [apply H2; [reflexivity | now left]|].
  destruct H3 as (H4 & H5 & _); [right; now left|].
  split; [exact H4 | exact H5].
Defined.

End LockFile.


(** ** The copy threads and the completion callback *)

Section CopyThreads.
Import PyStr Sys Run.

Variable S : services.

(** The ledger after the write of [after_copy] for job [j] in state
    [st]: a row is added when the identifier has none and the write
    succeeds. *)
Let written (j : job) (st : run_state) : gmap string ledger_row :=
  match ledger st !! job_video_id j with
  | Some _ => ledger st
  | None =>
      if db_write S (sys_clock (sys_of st))
      then <[job_video_id j := row_of j (sys_clock (sys_of st))]> (ledger st)
      else ledger st
  end.

Lemma written_cases (j : job) (st : run_state) :
  written j st = ledger st
  \/ (ledger st !! job_video_id j = None
      /\ exists t, written j st = <[job_video_id j := row_of j t]> (ledger st)).
Proof.
  unfold written. destruct (ledger st !! job_video_id j); [now left|].
  destruct (db_write S (sys_clock (sys_of st))); [|now left].
  right. split; [reflexivity|]. eexists. reflexivity.
Qed.

(** The ledger write of [after_copy], with its handler. *)
Lemma ledger_write_effect (j : job) (st : run_state) :
  exists s',
    try_except (db_insert S (job_video_id j) (job_playlist j) (job_dst j))
      (fun _ => log EXCEPTION ("DB insert failed for " +:+ job_video_id j))
      st
    = (Ok tt, with_sys s' (with_ledger (written j st) st))
    /\ sys_fs s' = sys_fs (sys_of st).
Proof.
  unfold written, try_except, db_insert, bind, now, get, raise, modify, log,
    lift_sys, logging.
  simpl.
  destruct (ledger st !! job_video_id j) eqn:El.
  - eexists. split; reflexivity.
  - destruct (db_write S (sys_clock (sys_of st)));
      eexists; split; reflexivity.
Qed.

(** The removal of the playlist item, with its handler. *)
Lemma item_delete_effect (success : bool) (j : job) (st : run_state) :
  exists s',
    (match job_entry_id j with
     | Some entry_id =>
         if success && job_remove j && truthy entry_id then
           try_except
             (playlist_item_delete S (job_yt_service j) entry_id)
             (fun _ =>
                log EXCEPTION ("Failed removing " +:+ job_video_id j))
         else ret tt
     | None => ret tt
     end) st
    = (Ok tt,
       with_sys s' (with_trace (trace st ++ delete_events success j) st))
    /\ sys_fs s' = sys_fs (sys_of st).
Proof.
  unfold delete_events.
  destruct (job_entry_id j) as [entry_id|].
  2:{ exists (sys_of st). rewrite app_nil_r. split; [|reflexivity].
      destruct st; reflexivity. }
  destruct (success && job_remove j && truthy entry_id).
  2:{ exists (sys_of st). rewrite app_nil_r. split; [|reflexivity].
      destruct st; reflexivity. }
  unfold try_except, playlist_item_delete, bind, emit, modify, now, raise,
    log, lift_sys, logging, ret.
  simpl.
  destruct (delete_item S (sys_clock (sys_of st)) (job_yt_service j) entry_id);
    eexists; split; reflexivity.
Qed.

(** [after_copy] never raises, and runs the steps of the callback. *)
Lemma after_copy_effect (success : bool) (j : job) (st : run_state) :
  exists st',
    after_copy S success (job_dst j) j st = (Ok tt, st')
    /\ callback_ran success j st st'
    /\ ledger st' = (if success then written j st else ledger st).
Proof.
  unfold after_copy.
  erewrite bind_ok by reflexivity.
  set (st1 := with_trace (trace st ++ [EvCopyDone (job_video_id j) success]) st).
  assert (Hmid : exists s2,
    (if success
     then log INFO ("Copy OK → " +:+ job_dst j) ;;
          modify (fun st => with_successes
                              (run_successes st ++ [cleaned_name st]) st) ;;
          try_except
            (db_insert S (job_video_id j) (job_playlist j) (job_dst j))
            (fun _ => log EXCEPTION
                        ("DB insert failed for " +:+ job_video_id j))
     else log ERROR ("Copy FAILED for " +:+ job_video_id j) ;;
          modify (fun st => with_failures
                              (run_failures st ++ [Some (cleaned_name st)])
                              st)) st1
    = (Ok tt,
       with_sys s2
         (with_ledger (if success then written j st else ledger st)
            (with_successes
               (if success then run_successes st ++ [cleaned_name st]
                else run_successes st)
               (with_failures
                  (if success then run_failures st
                   else run_failures st ++ [Some (cleaned_name st)]) st1))))
    /\ sys_fs s2 = sys_fs (sys_of st)).
  { destruct success.
    - erewrite bind_ok by reflexivity.
      erewrite bind_ok by reflexivity.
      match goal with
      | |- context [try_except _ _ ?x] =>
          destruct (ledger_write_effect j x) as (s' & E & Hfs)
      end.
      exists s'. split; [|exact Hfs].
      rewrite E. reflexivity.
    - erewrite bind_ok by reflexivity.
      eexists. split; reflexivity. }
  destruct Hmid as (s2 & E2 & Hfs2).
  rewrite (bind_ok _ _ _ _ _ E2).
  erewrite bind_ok by reflexivity.
  match goal with
  | |- context [match job_entry_id j with _ => _ end ?x] =>
      destruct (item_delete_effect success j x) as (s3 & E3 & Hfs3)
  end.
  eexists. split; [exact E3|].
  split; [|reflexivity].
  unfold callback_ran. simpl. simpl in Hfs3.
  repeat (split; [reflexivity|]).
  split; [now rewrite <- app_assoc|].
  split; [reflexivity|]. split; [reflexivity|].
  split; [|rewrite Hfs3, Hfs2; reflexivity].
  destruct success; [|now left].
  destruct (written_cases j st) as [H|[Hn H]]; [now left|].
  right. split; [reflexivity|]. split; assumption.
Qed.

Lemma lift_sys_shape {A} (m : M A) (st : run_state) :
  exists r s1, lift_sys m st = (r, with_sys s1 st).
Proof. unfold lift_sys. destruct (m (sys_of st)). eauto. Qed.

Lemma copy2_shape (src dst : string) (s0 : sys) (st : run_state) :
  exists r s1, shutil_copy2 S src dst (with_sys s0 st) = (r, with_sys s1 st).
Proof.
  unfold shutil_copy2, bind, now, get, raise, lift_sys, modify_fs. simpl.
  destruct (fs_lookup src (sys_fs s0)) as [i|]; [|eexists _, _; reflexivity].
  destruct (is_dir i); [eexists _, _; reflexivity|].
  destruct (copy2 S (sys_clock s0) src dst); eexists _, _; reflexivity.
Qed.

(** The thread body never raises and calls the callback once. *)
Lemma copy_thread_effect (j : job) (st : run_state) :
  exists b s1 st',
    copy_thread S j st = (Ok tt, st')
    /\ callback_ran b j (with_sys s1 st) st'
    /\ ledger st' = (if b then written j (with_sys s1 st) else ledger st).
Proof.
  unfold copy_thread, try_except.
  assert (Hfail : forall s1,
            exists s2 st',
              (log EXCEPTION "Copy failed" ;;
               after_copy S false (job_dst j) j) (with_sys s1 st)
              = (Ok tt, st')
              /\ callback_ran false j (with_sys s2 st) st'
              /\ ledger st' = ledger st).
  { intros s1.
    assert (El : log EXCEPTION "Copy failed" (with_sys s1 st)
                 = (Ok tt, with_sys (snd (logging EXCEPTION "Copy failed" s1))
                             st)) by reflexivity.
    rewrite (bind_ok _ _ _ _ _ El).
    destruct (after_copy_effect false j
                (with_sys (snd (logging EXCEPTION "Copy failed" s1)) st))
      as (st' & E & H & Hl).
    eexists _, st'. split; [exact E|]. split; [exact H | exact Hl]. }
  unfold bind at 1.
  destruct (lift_sys_shape (lift_fs (os_makedirs (dirname (job_dst j)))) st)
    as (rA & sA & EA).
  rewrite EA. destruct rA as [[]|e].
  - unfold bind at 1.
    destruct (copy2_shape (job_src j) (job_dst j) sA st) as (rB & sB & EB).
    rewrite EB. destruct rB as [[]|e].
    + destruct (after_copy_effect true j (with_sys sB st))
        as (st' & E & H & Hl).
      rewrite E. exists true, sB, st'. split; [reflexivity|].
      split; [exact H | exact Hl].
    + destruct (Hfail sB) as (s2 & st' & E & H & Hl).
      exists false, s2, st'. split; [exact E|]. split; [exact H | exact Hl].
  - destruct (Hfail sA) as (s2 & st' & E & H & Hl).
    exists false, s2, st'. split; [exact E|]. split; [exact H | exact Hl].
Qed.

Lemma existsb_eqb_in (i : nat) (l : list nat) :
  existsb (Nat.eqb i) l = true <-> In i l.
Proof.
  rewrite existsb_exists. split.
  - intros (x & Hx & Heq). apply Nat.eqb_eq in Heq. now subst x.
  - intros H. exists i. split; [exact H | apply Nat.eqb_refl].
Qed.

(** Thread number [i] is left alone when it was not started or has
    ended; otherwise it is marked as ended and its callback runs
    once. *)
Lemma complete_effect (i : nat) (st : run_state) :
  (complete S i st = (Ok tt, st)
   /\ (pending_copies st !! i = None \/ In i (finished st)))
  \/ (exists j b s1 st',
        pending_copies st !! i = Some j /\ ~ In i (finished st)
        /\ complete S i st = (Ok tt, st')
        /\ callback_ran b j
             (with_sys s1 (with_finished (i :: finished st) st)) st').
Proof.
  assert (Hc : complete S i st
               = match pending_copies st !! i with
                 | Some j =>
                     if existsb (Nat.eqb i) (finished st) then (Ok tt, st)
                     else try_except (copy_thread S j) (fun _ => ret tt)
                            (with_finished (i :: finished st) st)
                 | None => (Ok tt, st)
                 end).
  { unfold complete, bind, get, modify, ret.
    destruct (pending_copies st !! i); [|reflexivity].
    destruct (existsb (Nat.eqb i) (finished st)); reflexivity. }
  rewrite Hc. clear Hc.
  destruct (pending_copies st !! i) as [j|] eqn:Ej; [|left; auto].
  destruct (existsb (Nat.eqb i) (finished st)) eqn:Ef.
  - left. split; [reflexivity|]. right. now apply existsb_eqb_in.
  - right.
    assert (Hnot : ~ In i (finished st)).
    { intros Hin. apply existsb_eqb_in in Hin. congruence. }
    destruct (copy_thread_effect j (with_finished (i :: finished st) st))
      as (b & s1 & st' & E & H & _).
    exists j, b, s1, st'. split; [reflexivity|]. split; [exact Hnot|].
    split; [|exact H].
    unfold try_except. now rewrite E.
Qed.

Lemma rows_kept_by_callback (b : bool) (j : job) (st st' : run_state)
    (v : string) (row : ledger_row) :
  callback_ran b j st st' ->
  ledger st !! v = Some row -> ledger st' !! v = Some row.
Proof.
  intros (_ & _ & _ & _ & _ & _ & _ & [Hl|(_ & Hn & t & Hl)] & _) Hv;
    rewrite Hl; [exact Hv|].
  rewrite lookup_insert_ne; [exact Hv|]. intros Heq. congruence.
Qed.

Lemma filter_done_callback (b : bool) (j : job) :
  List.filter is_copy_done (EvCopyDone (job_video_id j) b :: delete_events b j)
  = [EvCopyDone (job_video_id j) b].
Proof.
  unfold delete_events. destruct (job_entry_id j) as [e|]; [|reflexivity].
  destruct (b && job_remove j && truthy e); reflexivity.
Qed.

Lemma filter_start_callback (b : bool) (j : job) :
  List.filter is_copy_start
    (EvCopyDone (job_video_id j) b :: delete_events b j) = [].
Proof.
  unfold delete_events. destruct (job_entry_id j) as [e|]; [|reflexivity].
  destruct (b && job_remove j && truthy e); reflexivity.
Qed.

Lemma filter_ok_callback (b : bool) (j : job) :
  List.filter is_copy_ok
    (EvCopyDone (job_video_id j) b :: delete_events b j)
  = if b then [EvCopyDone (job_video_id j) true] else [].
Proof.
  unfold delete_events. destruct (job_entry_id j) as [e|];
    [destruct (b && job_remove j && truthy e)|]; destruct b; reflexivity.
Qed.

(** X16: The completion callback of a copy that succeeded: it cannot raise,
    whatever the database and the playlist service do.  The name goes
    to the success list; a row is written when the identifier has none
    yet and the write succeeds, and a row that exists is never
    replaced; the scratch directory of the item is removed; the
    playlist item is deleted last, if the playlist asks for it. *)
Theorem callback_after_successful_copy (j : job) (st : run_state) :
  let r := after_copy S true (job_dst j) j st in
  fst r = Ok tt
  /\ run_successes (snd r) = run_successes st ++ [cleaned_name st]
  /\ run_failures (snd r) = run_failures st
  /\ ledger (snd r)
     = match ledger st !! job_video_id j with
       | Some _ => ledger st
       | None =>
           if db_write S (sys_clock (sys_of st))
           then <[job_video_id j := row_of j (sys_clock (sys_of st))]>
                  (ledger st)
           else ledger st
       end
  /\ sys_fs (sys_of (snd r))
     = shutil_rmtree (job_temp j) (sys_fs (sys_of st))
  /\ trace (snd r)
     = trace st ++ EvCopyDone (job_video_id j) true
                   :: delete_events true j.
Proof.
  destruct (after_copy_effect true j st) as (st' & E & H & Hl).
  cbv zeta. rewrite E. cbn [fst snd].
  destruct H as (_ & _ & _ & _ & Ht & Hok & Hko & _ & Hfs).
  split; [reflexivity|]. split; [exact Hok|]. split; [exact Hko|].
  split; [exact Hl|]. split; [exact Hfs | exact Ht].
Qed.

(** X17: The body of a copy thread never raises and calls the completion
    callback exactly once, with [True] or with [False]: the callback
    itself catches what its steps raise, so the handler of the thread
    cannot call it a second time.  The thread changes no row that
    exists and starts no other thread. *)
Theorem copy_thread_calls_back_once (j : job) (st : run_state) :
  exists b st',
    copy_thread S j st = (Ok tt, st')
    /\ List.filter is_copy_done (trace st')
       = List.filter is_copy_done (trace st)
         ++ [EvCopyDone (job_video_id j) b]
    /\ pending_copies st' = pending_copies st
    /\ (forall v row, ledger st !! v = Some row ->
                      ledger st' !! v = Some row).
Proof.
  destruct (copy_thread_effect j st) as (b & s1 & st' & E & H & _).
  exists b, st'. split; [exact E|].
  split; [|split].
  - destruct H as (_ & _ & _ & _ & Ht & _). rewrite Ht. cbn [trace with_sys].
    now rewrite List.filter_app, filter_done_callback.
  - now destruct H as (Hp & _).
  - intros v row Hv. now apply (rows_kept_by_callback b j (with_sys s1 st)).
Qed.

End CopyThreads.


(** ** Invariants of a run

    A property of the run state that the system layer, the failure list,
    the clients, the current name and the events of the main thread
    cannot disturb, and that the start and the end of a copy
    preserve, holds throughout [run_once]. *)

Section RunInvariant.
Import PyStr Sys Run.

Variable S : services.
Variable cfg : config.
Variable I : run_state -> Prop.

Hypothesis I_sys : forall st s, I st -> I (with_sys s st).
Hypothesis I_failures : forall st f, I st -> I (with_failures f st).
Hypothesis I_clients : forall st c, I st -> I (with_clients c st).
Hypothesis I_cleaned : forall st n, I st -> I (with_cleaned_name n st).
Hypothesis I_emit :
  forall st e, is_main_event e = true ->
               I st -> I (with_trace (trace st ++ [e]) st).
Hypothesis I_notify :
  forall st m, I st -> I (with_trace (trace st ++ [EvNotify m]) st).
Hypothesis I_async : forall j, stable I (async_copy j).
Hypothesis I_complete : forall i, stable I (complete S i).

Lemma inv_lift_sys {A} (m : M A) : stable I (lift_sys m).
Proof.
  intros st H. unfold lift_sys. destruct (m (sys_of st)). now apply I_sys.
Qed.

Lemma inv_log (l : level) (msg : string) : stable I (log l msg).
Proof. apply inv_lift_sys. Qed.

Lemma inv_now : stable I now.
Proof. intros st H. now apply I_sys. Qed.

Lemma inv_get : stable I (@get run_state).
Proof. intros st H. exact H. Qed.

Lemma inv_bind_get {B} (k : run_state -> R B) :
  (forall st, I st -> I (snd (k st st))) -> stable I (bind get k).
Proof. intros Hk st H. exact (Hk st H). Qed.

Lemma inv_emit (e : event) : is_main_event e = true -> stable I (emit e).
Proof. intros H1 st H. now apply I_emit. Qed.

Lemma inv_notify (m : string) : stable I (emit (EvNotify m)).
Proof. intros st H. now apply I_notify. Qed.

Lemma inv_failures (f : run_state -> list (option string)) :
  stable I (modify (fun st => with_failures (f st) st)).
Proof. intros st H. now apply I_failures. Qed.

Lemma inv_clients (f : run_state -> gmap string (option client)) :
  stable I (modify (fun st => with_clients (f st) st)).
Proof. intros st H. now apply I_clients. Qed.

Ltac keep :=
  repeat first
    [ apply stable_ret | apply stable_raise | apply stable_lift_res
    | apply inv_log | apply inv_lift_sys | apply inv_now
    | apply inv_get | apply inv_failures | apply inv_clients
    | apply inv_emit; reflexivity | apply inv_notify
    | apply stable_bind; [|intros ?]
    | apply stable_try_except; [|intros ?]
    | apply stable_try_finally ].

Lemma inv_run_ready : stable I (run_ready S).
Proof.
  unfold run_ready. apply stable_bind; [keep|]. intros t.
  apply stable_for_each. intros i _. apply I_complete.
Qed.

Lemma inv_join_all : stable I (join_all S).
Proof.
  unfold join_all. apply stable_bind; [apply inv_run_ready|]. intros _.
  apply inv_bind_get. intros st H.
  apply stable_for_each; [|exact H]. intros i _. apply I_complete.
Qed.

Lemma inv_process_item (pl : playlist) (yt : client)
    (js : option string) (e : entry) (v : string) :
  stable I (process_item S cfg pl yt js e v).
Proof.
  unfold process_item, get_video_metadata.
  apply stable_bind.
  - apply stable_try_except.
    + apply stable_bind; [|intros ?; keep].
      apply stable_bind; [keep|]. intros _.
      apply stable_bind; [keep|]. intros t.
      apply stable_bind; [keep|]. intros [|snip items]; keep.
    + intros ex. destruct ex; keep.
  - intros [[m|]|ctl]; [|keep|keep].
    apply stable_bind; [keep|]. intros _.
    apply stable_bind; [keep|]. intros _.
    apply stable_bind; [keep|]. intros local_file.
    apply stable_bind; [apply inv_run_ready|]. intros _.
    destruct local_file as [local_file|]; [|keep].
    apply stable_bind.
    { intros st H. now apply I_cleaned. }
    intros _. apply stable_bind; [apply I_async|]. intros _. keep.
Qed.

Lemma inv_process_entry (pl : playlist) (yt : client)
    (js : option string) (e : entry) :
  stable I (process_entry S cfg pl yt js e).
Proof.
  unfold process_entry.
  apply stable_bind; [apply inv_run_ready|]. intros _.
  destruct (videoId e) as [v|]; [|keep].
  destruct (negb (truthy v)); [keep|].
  apply inv_bind_get. intros st H.
  destruct (ledger st !! v); [exact H|].
  now apply inv_process_item.
Qed.

Lemma inv_process_playlist (js : option string) (pl : playlist) :
  stable I (process_playlist S cfg js pl).
Proof.
  unfold process_playlist, get_playlist_videos.
  apply stable_bind; [apply inv_run_ready|]. intros _.
  apply inv_bind_get. intros st H.
  destruct (mjoin (yt_clients st !! account pl)) as [yt|].
  - revert st H.
    match goal with
    | |- forall st, I st -> I (snd (?m st)) => change (stable I m)
    end.
    apply stable_bind.
    + apply stable_try_except.
      * apply stable_bind; [|intros ?; keep].
        apply stable_bind; [keep|]. intros _. keep.
      * intros ex. destruct ex; keep.
    + intros [videos|]; [|keep].
      apply stable_bind; [|intros ?; keep].
      apply stable_for_first. intros e _. apply inv_process_entry.
  - revert st H.
    match goal with
    | |- forall st, I st -> I (snd (?m st)) => change (stable I m)
    end.
    keep.
Qed.

Lemma inv_run_playlists (js : option string) (pls : list playlist) :
  stable I (run_playlists S cfg js pls).
Proof.
  unfold run_playlists. apply stable_for_each. intros pl _.
  apply inv_process_playlist.
Qed.

Lemma inv_telegram_notify (message : string) :
  stable I (telegram_notify S cfg message).
Proof.
  unfold telegram_notify.
  destruct (telegram cfg) as [[[token|] [chat_id|]]|];
    try apply stable_ret.
  destruct (truthy token && truthy chat_id); [|apply stable_ret].
  apply stable_bind; [keep|]. intros _.
  apply stable_bind; [keep|]. intros t.
  destruct (urlopen S t message); keep.
Qed.

Lemma inv_finish : stable I (finish S cfg).
Proof.
  unfold finish.
  apply stable_bind; [apply inv_run_ready|]. intros _.
  apply stable_try_except; [|intros ex; destruct ex; keep].
  apply inv_bind_get. intros st H.
  assert (Hst : forall m : R unit, stable I m ->
            stable I (m ;; run_ready S ;;
                      lift_sys (lift_fs (os_unlink LOCK_FILE)))).
  { intros m Hm. apply stable_bind; [exact Hm | intros _].
    apply stable_bind; [apply inv_run_ready | intros _; keep]. }
  apply Hst; [|exact H].
  destruct (run_successes st), (run_failures st);
    first [ apply stable_ret
          | apply stable_bind;
            [apply inv_run_ready | intros _; apply inv_telegram_notify] ].
Qed.

Lemma inv_build_client (acc : string * option string) :
  stable I (build_client S acc).
Proof.
  unfold build_client. destruct (snd acc) as [token_path|]; [|keep].
  destruct (truthy token_path); [|keep].
  apply stable_bind; [keep|]. intros t.
  destruct (load_credentials S t token_path) as [u|ex]; [keep|].
  destruct ex; keep.
Qed.

Lemma inv_init_db : stable I (init_db S).
Proof.
  unfold init_db. apply stable_bind; [keep|]. intros _.
  apply stable_bind; [keep|]. intros t.
  apply inv_bind_get. intros st H.
  destruct (os_path_isdir (sys_fs (sys_of st)) DB_PATH); [exact H|].
  destruct (db_connect S t); [|exact H].
  destruct (os_path_exists (sys_fs (sys_of st)) DB_PATH); [exact H|].
  now apply inv_lift_sys.
Qed.

Lemma inv_run_once (s : sys) (l : gmap string ledger_row) :
  I (initial s l) -> I (snd (run_once S cfg s l)).
Proof.
  unfold run_once. generalize (initial s l). intros st H0.
  destruct (os_path_exists (sys_fs s) LOCK_FILE).
  - now apply inv_log.
  - revert st H0. change (stable I
      (lift_sys (lift_fs (write_file LOCK_FILE (pid S))) ;;
       init_db S ;;
       accounts <- config_key (accounts cfg) ;;
       playlists <- config_key (playlists cfg) ;;
       for_each accounts (build_client S) ;;
       try_finally
         (run_playlists S cfg (resolve_js_runtime S cfg) playlists ;;
          join_all S ;;
          log INFO rule ;;
          log INFO "Run complete." ;;
          log INFO (rule +:+ " " +:+ nl +:+ " " +:+ nl +:+ " " +:+ nl))
         (finish S cfg))).
    apply stable_bind; [keep|]. intros _.
    apply stable_bind; [apply inv_init_db|]. intros _.
    apply stable_bind; [destruct (accounts cfg); keep|]. intros accs.
    apply stable_bind; [destruct (playlists cfg); keep|]. intros pls.
    apply stable_bind.
    { apply stable_for_each. intros acc _. apply inv_build_client. }
    intros _. apply stable_try_finally; [|apply inv_finish].
    apply stable_bind; [apply inv_run_playlists|]. intros _.
    apply stable_bind; [apply inv_join_all|]. intros _. keep.
Qed.

End RunInvariant.


(** ** The ledger, the playlist and the run lists *)

Section RunProperties.
Import PyStr Sys Run.

Lemma pending_in (st : run_state) (i : nat) (j : job) :
  pending_copies st !! i = Some j -> In j (pending_copies st).
Proof.
  intros Ej. apply list_elem_of_In. eapply list_elem_of_lookup_2. exact Ej.
Qed.

Lemma main_event_not_copy (e : event) :
  is_main_event e = true ->
  is_copy_start e = false /\ is_copy_done e = false
  /\ is_copy_ok e = false.
Proof. destruct e; try discriminate; auto. Qed.

(** *** The ledger *)

Lemma rows_persist (S : services) (cfg : config) (s : sys)
    (l : gmap string ledger_row) (v : string) (row : ledger_row) :
  l !! v = Some row ->
  ledger (snd (run_once S cfg s l)) !! v = Some row.
Proof.
  intros Hl.
  apply (inv_run_once S cfg (fun st => ledger st !! v = Some row));
    try (intros; assumption).
  - intros j st H. exact H.
  - intros i st H.
    destruct (complete_effect S i st)
      as [[E _]|(j & b & s1 & st' & Ej & Hn & E & Hc)]; rewrite E.
    + exact H.
    + eapply rows_kept_by_callback; [exact Hc | exact H].
Qed.

Lemma rows_inv_holds (S : services) (cfg : config) (s : sys)
    (l : gmap string ledger_row) :
  rows_inv l (snd (run_once S cfg s l)).
Proof.
  apply (inv_run_once S cfg (rows_inv l)).
  - intros st s0 H. exact H.
  - intros st f H. exact H.
  - intros st c H. exact H.
  - intros st n H. exact H.
  - intros st e _ H v row Hv.
    destruct (H v row Hv) as [Hold|(Hin & Hj)]; [now left|right].
    split; [|exact Hj]. cbn. apply in_or_app. now left.
  - intros st m H v row Hv.
    destruct (H v row Hv) as [Hold|(Hin & Hj)]; [now left|right].
    split; [|exact Hj]. cbn. apply in_or_app. now left.
  - intros j st H v row Hv.
    destruct (H v row Hv) as [Hold|(Hin & j0 & t & Hj & Hid & Hrow)];
      [now left|right].
    split; [cbn; apply in_or_app; now left|].
    exists j0, t. split; [|split; assumption].
    cbn. apply in_or_app. now left.
  - intros i st H.
    destruct (complete_effect S i st)
      as [[E _]|(j & b & s1 & st' & Ej & Hn & E & Hc)]; rewrite E;
      [exact H|].
    cbn [snd].
    destruct Hc as (Hp & _ & _ & _ & Ht & _ & _ & Hled & _).
    cbn [trace pending_copies ledger with_sys with_finished] in Hp, Ht, Hled.
    intros v row Hv.
    assert (Hmono : forall e, In e (trace st) -> In e (trace st')).
    { intros e He. rewrite Ht. apply in_or_app. now left. }
    assert (Hkeep : ledger st !! v = Some row ->
              l !! v = Some row
              \/ (In (EvCopyDone v true) (trace st')
                  /\ exists j0 t, In j0 (pending_copies st')
                                  /\ job_video_id j0 = v
                                  /\ row = row_of j0 t)).
    { intros Hv0.
      destruct (H v row Hv0) as [Hold|(Hin & j0 & t & Hj & Hid & Hrow)];
        [now left|right].
      split; [now apply Hmono|]. exists j0, t. rewrite Hp. auto. }
    destruct Hled as [Hsame|(Hb & Hfresh & t & Hins)].
    + apply Hkeep. now rewrite <- Hsame.
    + rewrite Hins in Hv.
      destruct (decide (job_video_id j = v)) as [Heq|Hne].
      * subst v. rewrite lookup_insert_eq in Hv. injection Hv as <-.
        right. split.
        { rewrite Ht, Hb. apply in_or_app. right. now left. }
        exists j, t. rewrite Hp.
        split; [now apply (pending_in st i)|auto].
      * rewrite lookup_insert_ne in Hv by exact Hne. now apply Hkeep.
  - intros v row Hv. now left.
Qed.

(** X18: The ledger only grows during a run, and only by rows of copies
    that succeeded: a row that exists when the run starts is found
    unchanged at its end, and every other row at the end is the row of an
    item whose copy ended successfully in this run, with the
    destination and the playlist of that copy. *)
Theorem ledger_only_grows_by_successful_copies (S : services)
    (cfg : config) (s : sys) (l : gmap string ledger_row) :
  let st := snd (run_once S cfg s l) in
  (forall v row, l !! v = Some row -> ledger st !! v = Some row)
  /\ (forall v row,
        ledger st !! v = Some row -> l !! v = None ->
        In (EvCopyDone v true) (trace st)
        /\ exists j t, In j (pending_copies st) /\ job_video_id j = v
                       /\ row = row_of j t).
Proof.
  cbv zeta. split.
  - intros v row. apply rows_persist.
  - intros v row Hv Hnew.
    destruct (rows_inv_holds S cfg s l v row Hv) as [Hold|H];
      [congruence | exact H].
Qed.

(** *** Removal from the playlist *)

Lemma delete_events_in (b : bool) (j : job) (yt : client) (e : string) :
  In (EvDeleteItem yt e) (delete_events b j) ->
  b = true /\ job_entry_id j = Some e /\ job_remove j = true
  /\ job_yt_service j = yt.
Proof.
  unfold delete_events. destruct (job_entry_id j) as [e0|]; [|intros []].
  destruct b; [|intros []]. cbn [andb].
  destruct (job_remove j); [|intros []]. cbn [andb].
  destruct (truthy e0); [|intros []].
  intros [[= <- <-]|[]]. auto.
Qed.

(** X19: An item is removed from its playlist only after it was archived:
    every removal request of a run belongs to a copy of this run that
    ended successfully, for a playlist with [remove_after_download]. *)
Theorem removal_only_after_successful_copy (S : services) (cfg : config)
    (s : sys) (l : gmap string ledger_row) :
  removals_inv (snd (run_once S cfg s l)).
Proof.
  apply (inv_run_once S cfg removals_inv).
  - intros st s0 H. exact H.
  - intros st f H. exact H.
  - intros st c H. exact H.
  - intros st n H. exact H.
  - intros st e He H yt id Hin. cbn in Hin.
    apply in_app_or in Hin as [Hin|[->|[]]]; [|discriminate He].
    destruct (H yt id Hin) as (j & Hj & H1 & H2 & H3 & H4).
    exists j. repeat (split; [assumption|]).
    cbn. apply in_or_app. now left.
  - intros st m H yt id Hin. cbn in Hin.
    apply in_app_or in Hin as [Hin|[[=]|[]]].
    destruct (H yt id Hin) as (j & Hj & H1 & H2 & H3 & H4).
    exists j. repeat (split; [assumption|]).
    cbn. apply in_or_app. now left.
  - intros j0 st H yt id Hin. cbn in Hin.
    apply in_app_or in Hin as [Hin|[[=]|[]]].
    destruct (H yt id Hin) as (j & Hj & H1 & H2 & H3 & H4).
    exists j. split; [cbn; apply in_or_app; now left|].
    repeat (split; [assumption|]).
    cbn. apply in_or_app. now left.
  - intros i st H.
    destruct (complete_effect S i st)
      as [[E _]|(j & b & s1 & st' & Ej & Hn & E & Hc)]; rewrite E;
      [exact H|].
    cbn [snd].
    destruct Hc as (Hp & _ & _ & _ & Ht & _).
    cbn [trace pending_copies with_sys with_finished] in Hp, Ht.
    intros yt id Hin. rewrite Ht in Hin.
    apply in_app_or in Hin as [Hin|[[=]|Hin]].
    + destruct (H yt id Hin) as (j0 & Hj & H1 & H2 & H3 & H4).
      exists j0. rewrite Hp, Ht. repeat (split; [assumption|]).
      apply in_or_app. now left.
    + apply delete_events_in in Hin as (-> & H1 & H2 & H3).
      exists j. rewrite Hp, Ht.
      split; [now apply (pending_in st i)|].
      repeat (split; [assumption|]).
      apply in_or_app. right. now left.
  - intros yt id [].
Qed.

(** *** The success list *)

(** X20: The success list of a run has one entry per copy that ended
    successfully, whether or not its row could be written. *)
Theorem one_success_entry_per_successful_copy (S : services)
    (cfg : config) (s : sys) (l : gmap string ledger_row) :
  let st := snd (run_once S cfg s l) in
  length (run_successes st) = copies_ok st.
Proof.
  cbv zeta.
  apply (inv_run_once S cfg
           (fun st => length (run_successes st) = copies_ok st)).
  - intros st s0 H. exact H.
  - intros st f H. exact H.
  - intros st c H. exact H.
  - intros st n H. exact H.
  - intros st e He H. unfold copies_ok in *. cbn.
    rewrite List.filter_app, length_app. cbn.
    destruct (main_event_not_copy e He) as (_ & _ & ->). cbn. lia.
  - intros st m H. unfold copies_ok in *. cbn.
    rewrite List.filter_app, length_app. cbn. lia.
  - intros j st H. unfold copies_ok in *. cbn.
    rewrite List.filter_app, length_app. cbn. lia.
  - intros i st H.
    destruct (complete_effect S i st)
      as [[E _]|(j & b & s1 & st' & Ej & Hn & E & Hc)]; rewrite E;
      [exact H|].
    cbn [snd].
    destruct Hc as (_ & _ & _ & _ & Ht & Hok & _).
    cbn [trace run_successes cleaned_name with_sys with_finished] in Ht, Hok.
    unfold copies_ok in *. rewrite Ht, Hok.
    rewrite List.filter_app, filter_ok_callback, !length_app.
    destruct b; rewrite ?length_app; cbn; lia.
  - reflexivity.
Qed.

End RunProperties.


(** ** The join *)

Section Join.
Import PyStr Sys Run.

Lemma bind_ok_inv {St A B} (m : ST St A) (k : A -> ST St B) (s s' : St)
    (b : B) :
  bind m k s = (Ok b, s') ->
  exists a s1, m s = (Ok a, s1) /\ k a s1 = (Ok b, s').
Proof.
  unfold bind. destruct (m s) as [[a|e] s1]; [eauto | discriminate].
Qed.

Lemma try_finally_ok_inv {St A} (body : ST St A) (fin : ST St unit)
    (s s' : St) (a : A) :
  try_finally body fin s = (Ok a, s') ->
  exists s1, body s = (Ok a, s1) /\ fin s1 = (Ok tt, s').
Proof.
  unfold try_finally. destruct (body s) as [r s1].
  destruct (fin s1) as [[[]|e] s2] eqn:Ef; intros H; [|discriminate H].
  injection H as -> ->. exists s1. split; [reflexivity | exact Ef].
Qed.

Lemma threads_sys (st : run_state) (s : sys) :
  threads_inv st -> threads_inv (with_sys s st).
Proof. intros H. exact H. Qed.

Lemma threads_emit (st : run_state) (e : event) :
  is_main_event e = true ->
  threads_inv st -> threads_inv (with_trace (trace st ++ [e]) st).
Proof.
  intros He (H1 & H2 & H3 & H4).
  destruct (main_event_not_copy e He) as (E1 & E2 & _).
  unfold threads_inv, copies_started, copies_ended in *. cbn.
  rewrite !List.filter_app. cbn. rewrite E1, E2, !app_nil_r. auto.
Qed.

Lemma threads_notify (st : run_state) (m : string) :
  threads_inv st -> threads_inv (with_trace (trace st ++ [EvNotify m]) st).
Proof.
  intros (H1 & H2 & H3 & H4).
  unfold threads_inv, copies_started, copies_ended in *. cbn.
  rewrite !List.filter_app. cbn. rewrite !app_nil_r. auto.
Qed.

Lemma threads_async (j : job) : stable threads_inv (async_copy j).
Proof.
  intros st (H1 & H2 & H3 & H4).
  unfold threads_inv, copies_started, copies_ended in *. cbn.
  rewrite !List.filter_app, !length_app. cbn.
  split; [lia|]. split; [lia|]. split; [exact H3|].
  intros i Hi. specialize (H4 i Hi). lia.
Qed.

(** One step of a join. *)
Lemma complete_step (S : services) (i : nat) (st : run_state) :
  threads_inv st ->
  exists st',
    complete S i st = (Ok tt, st')
    /\ threads_inv st'
    /\ pending_copies st' = pending_copies st
    /\ (forall k, In k (finished st) -> In k (finished st'))
    /\ ((i < length (pending_copies st))%nat -> In i (finished st')).
Proof.
  intros (H1 & H2 & H3 & H4).
  destruct (complete_effect S i st)
    as [[E Hc]|(j & b & s1 & st' & Ej & Hn & E & Hc)].
  - exists st. split; [exact E|]. split; [repeat split; assumption|].
    split; [reflexivity|]. split; [auto|].
    intros Hi. destruct Hc as [Hnone|Hin]; [|exact Hin].
    apply lookup_ge_None in Hnone. lia.
  - exists st'. split; [exact E|].
    destruct Hc as (Hp & Hf & _ & _ & Ht & _).
    cbn [trace pending_copies finished with_sys with_finished] in Hp, Hf, Ht.
    split; [|split; [exact Hp|]].
    + unfold threads_inv, copies_started, copies_ended.
      rewrite Ht, Hp, Hf, !List.filter_app, !length_app.
      rewrite filter_start_callback, filter_done_callback. cbn.
      unfold copies_started, copies_ended in H1, H2.
      split; [lia|]. split; [lia|]. split; [now constructor|].
      intros k [<-|Hk]; [|now apply H4].
      now apply lookup_lt_Some in Ej.
    + rewrite Hf. split; [intros k Hk; now right|]. intros _. now left.
Qed.

Lemma threads_complete (S : services) (i : nat) :
  stable threads_inv (complete S i).
Proof.
  intros st H. destruct (complete_step S i st H) as (st' & E & H' & _).
  now rewrite E.
Qed.

Lemma threads_inv_holds (S : services) (cfg : config) (s : sys)
    (l : gmap string ledger_row) :
  threads_inv (snd (run_once S cfg s l)).
Proof.
  apply (inv_run_once S cfg threads_inv).
  - apply threads_sys.
  - intros st f H. exact H.
  - intros st c H. exact H.
  - intros st n H. exact H.
  - apply threads_emit.
  - apply threads_notify.
  - apply threads_async.
  - apply threads_complete.
  - repeat split; [constructor | intros i []].
Qed.

(** The loop of the join over the thread numbers [idx]. *)
Lemma join_loop (S : services) (idx : list nat) (st : run_state) :
  threads_inv st ->
  exists st',
    for_each idx (complete S) st = (Ok tt, st')
    /\ threads_inv st'
    /\ pending_copies st' = pending_copies st
    /\ (forall k, In k (finished st) -> In k (finished st'))
    /\ (forall i, In i idx -> (i < length (pending_copies st))%nat ->
                  In i (finished st')).
Proof.
  revert st. induction idx as [|i idx IH]; intros st H.
  - exists st. split; [reflexivity|]. split; [exact H|].
    split; [reflexivity|]. split; [auto | intros i []].
  - destruct (complete_step S i st H) as (st1 & E1 & H1 & Hp1 & Hm1 & Hi1).
    destruct (IH st1 H1) as (st2 & E2 & H2 & Hp2 & Hm2 & Hi2).
    exists st2. split.
    { cbn [for_each]. now rewrite (bind_ok _ _ _ _ _ E1). }
    split; [exact H2|]. split; [congruence|].
    split; [auto|].
    intros k [<-|Hk] Hlt.
    + apply Hm2, Hi1, Hlt.
    + apply Hi2; [exact Hk | now rewrite Hp1].
Qed.

(** The join waits for every thread. *)
Lemma join_all_joins (S : services) (st : run_state) :
  threads_inv st ->
  exists st', join_all S st = (Ok tt, st') /\ all_joined st'.
Proof.
  intros H. unfold join_all.
  pose proof (inv_run_ready S threads_inv threads_sys (threads_complete S)
                st H) as H1.
  set (st1 := snd (run_ready S st)) in *.
  destruct (join_loop S (seq 0 (length (pending_copies st1))) st1 H1)
    as (st2 & E2 & H2 & Hp2 & _ & Hi2).
  exists st2. split.
  { rewrite (bind_ok _ _ _ _ _ (run_ready_returns S st)).
    unfold bind, get. exact E2. }
  split; [exact H2|].
  intros i Hi. rewrite Hp2 in Hi.
  apply Hi2; [|exact Hi]. apply in_seq. lia.
Qed.

Lemma joined_counts (st : run_state) :
  all_joined st ->
  copies_ended st = copies_started st
  /\ length (finished st) = length (pending_copies st).
Proof.
  intros ((H1 & H2 & H3 & H4) & Hall).
  assert (Hlen : length (finished st) = length (pending_copies st)).
  { pose proof (List.length_seq (length (pending_copies st)) 0) as Hs.
    assert (Hle : (length (finished st)
                   <= length (seq 0 (length (pending_copies st))))%nat).
    { apply NoDup_incl_length; [exact H3|].
      intros i Hi. apply in_seq. specialize (H4 i Hi). lia. }
    assert (Hge : (length (seq 0 (length (pending_copies st)))
                   <= length (finished st))%nat).
    { apply NoDup_incl_length; [apply seq_NoDup|].
      intros i Hi. apply in_seq in Hi. apply Hall. lia. }
    lia. }
  split; [|exact Hlen]. rewrite H1, H2. exact Hlen.
Qed.

Lemma joined_sys (st : run_state) (s : sys) :
  all_joined st -> all_joined (with_sys s st).
Proof. intros H. exact H. Qed.

Lemma joined_notify (st : run_state) (m : string) :
  all_joined st -> all_joined (with_trace (trace st ++ [EvNotify m]) st).
Proof.
  intros [H Hall]. split; [now apply threads_notify | exact Hall].
Qed.

(** Once every thread has ended, none is left to end. *)
Lemma joined_complete (S : services) (i : nat) :
  stable all_joined (complete S i).
Proof.
  intros st H. unfold complete, bind, get. cbv beta iota.
  destruct (pending_copies st !! i) as [j|] eqn:Ej; [|exact H].
  assert (Hin : In i (finished st)).
  { destruct H as [_ Hall]. apply Hall.
    apply lookup_lt_Some in Ej. exact Ej. }
  assert (He : existsb (Nat.eqb i) (finished st) = true).
  { apply existsb_exists. exists i. split; [exact Hin|].
    apply Nat.eqb_refl. }
  rewrite He. exact H.
Qed.

(** X21: When a run returns normally, every copy that it started has
    ended: the callbacks that ran are as many as the threads that were
    started, so every item that was copied is in the success list or
    in the failure list before the summary is sent.  A run that was
    skipped because of the lock file started none. *)
Theorem every_copy_is_joined (S : services) (cfg : config) (s : sys)
    (l : gmap string ledger_row) :
  fst (run_once S cfg s l) = Ok tt ->
  let st := snd (run_once S cfg s l) in
  copies_ended st = copies_started st
  /\ length (finished st) = length (pending_copies st).
Proof.
  intros Hok. cbv zeta. apply joined_counts.
  destruct (run_once S cfg s l) as [r stf] eqn:Er.
  cbn [fst snd] in *. subst r.
  unfold run_once in Er.
  destruct (os_path_exists (sys_fs s) LOCK_FILE).
  { injection Er as <-. split; [|intros i Hi; cbn in Hi; lia].
    repeat split; [constructor | intros i []]. }
  assert (H0 : threads_inv (initial s l))
    by (repeat split; [constructor | intros i []]).
  apply bind_ok_inv in Er as ([] & st1 & E1 & Er).
  apply bind_ok_inv in Er as ([] & st2 & E2 & Er).
  apply bind_ok_inv in Er as (accs & st2a & Ea & Er).
  apply bind_ok_inv in Er as (pls & st2b & Ep & Er).
  apply bind_ok_inv in Er as ([] & st3 & E3 & Er).
  apply try_finally_ok_inv in Er as (st4 & Eb & Ef).
  apply bind_ok_inv in Eb as ([] & st5 & E5 & Eb).
  apply bind_ok_inv in Eb as ([] & st6 & E6 & Eb).
  assert (H1 : threads_inv st1).
  { pose proof (inv_lift_sys threads_inv threads_sys
                  (lift_fs (write_file LOCK_FILE (pid S))) _ H0) as H.
    now rewrite E1 in H. }
  assert (H2 : threads_inv st2).
  { pose proof (inv_init_db S threads_inv threads_sys _ H1) as H.
    now rewrite E2 in H. }
  assert (st2a = st2).
  { destruct (accounts cfg); [now injection Ea as _ <- | discriminate Ea]. }
  subst st2a.
  assert (st2b = st2).
  { destruct (playlists cfg); [now injection Ep as _ <- | discriminate Ep]. }
  subst st2b.
  assert (H3 : threads_inv st3).
  { assert (Hs : stable threads_inv (for_each accs (build_client S))).
    { apply stable_for_each. intros acc _.
      apply inv_build_client; [apply threads_sys|].
      intros st c H. exact H. }
    pose proof (Hs st2 H2) as H. now rewrite E3 in H. }
  assert (H5 : threads_inv st5).
  { pose proof (inv_run_playlists S cfg threads_inv threads_sys
                  (fun st f H => H) (fun st c H => H) (fun st n H => H)
                  threads_emit threads_async (threads_complete S)
                  (resolve_js_runtime S cfg) pls st3 H3) as H.
    now rewrite E5 in H. }
  destruct (join_all_joins S st5 H5) as (st6' & E6' & H6).
  rewrite E6 in E6'. injection E6' as <-.
  assert (H4 : all_joined st4).
  { assert (Hs : stable all_joined
              (log INFO rule ;;
               log INFO "Run complete." ;;
               log INFO (rule +:+ " " +:+ nl +:+ " " +:+ nl +:+ " " +:+ nl))).
    { apply stable_bind; [apply inv_log, joined_sys|]. intros _.
      apply stable_bind; [apply inv_log, joined_sys|]. intros _.
      apply inv_log, joined_sys. }
    pose proof (Hs st6 H6) as H. now rewrite Eb in H. }
  pose proof (inv_finish S cfg all_joined joined_sys joined_notify
                (joined_complete S) st4 H4) as H.
  now rewrite Ef in H.
Qed.

Lemma every_copy_is_joined_witness :
  let r := run_once (Scenario.first_copy_fails Scenario.late)
             Scenario.one_playlist (Scenario.sys_with []) ∅ in
  copies_ended (snd r) = copies_started (snd r)
  /\ length (finished (snd r)) = length (pending_copies (snd r)).
Proof.
  apply (every_copy_is_joined (Scenario.first_copy_fails Scenario.late)
           Scenario.one_playlist (Scenario.sys_with []) ∅).
  vm_compute. reflexivity.
Defined.

(** X22: At every end of a run, normal or not, no thread has called back
    twice and no callback ran for a copy that was not started: the
    callbacks that ran are at most as many as the copies started. *)
Theorem callbacks_match_threads (S : services) (cfg : config) (s : sys)
    (l : gmap string ledger_row) :
  let st := snd (run_once S cfg s l) in
  List.NoDup (finished st)
  /\ (copies_ended st <= copies_started st)%nat.
Proof.
  cbv zeta. destruct (threads_inv_holds S cfg s l) as (H1 & H2 & H3 & H4).
  split; [exact H3|]. rewrite H1, H2.
  match goal with
  | |- (_ <= length ?p)%nat =>
      pose proof (List.length_seq (length p) 0) as Hs;
      assert (Hle : (length (finished (snd (run_once S cfg s l)))
                     <= length (seq 0 (length p)))%nat)
  end.
  { apply NoDup_incl_length; [exact H3|].
    intros i Hi. apply in_seq. specialize (H4 i Hi). lia. }
  lia.
Qed.

End Join.


(** ** Clients and destination names *)

Section Clients.
Import PyStr Sys Run.

(** One account: the loop body of [build_youtube_clients]. *)
Lemma build_client_effect (S : services) (acc : string * option string)
    (st : run_state) :
  exists s' c',
    build_client S acc st = (Ok tt, with_sys s' (with_clients c' st))
    /\ sys_fs s' = sys_fs (sys_of st)
    /\ sys_calls s' = sys_calls (sys_of st)
    /\ (c' = yt_clients st
        \/ (exists tok, snd acc = Some tok /\ truthy tok = true
                        /\ load_credentials S (sys_clock (sys_of st)) tok
                           = Ok tt)
           /\ c' = <[fst acc := Some (fst acc)]> (yt_clients st)).
Proof.
  unfold build_client.
  assert (Hskip : forall l msg,
            exists s' c',
              log l msg st = (Ok tt, with_sys s' (with_clients c' st))
              /\ sys_fs s' = sys_fs (sys_of st)
              /\ sys_calls s' = sys_calls (sys_of st)
              /\ (c' = yt_clients st
                  \/ (exists tok, snd acc = Some tok /\ truthy tok = true
                                  /\ load_credentials S
                                       (sys_clock (sys_of st)) tok = Ok tt)
                     /\ c' = <[fst acc := Some (fst acc)]> (yt_clients st))).
  { intros l msg. eexists _, (yt_clients st).
    split; [reflexivity|]. split; [reflexivity|].
    split; [reflexivity | now left]. }
  destruct (snd acc) as [tok|] eqn:Etok; [|apply Hskip].
  destruct (truthy tok) eqn:Et; [|apply Hskip].
  unfold bind, now. cbv beta iota.
  destruct (load_credentials S (sys_clock (sys_of st)) tok) as [[]|ex] eqn:El.
  - exists (tick (sys_of st)), (<[fst acc := Some (fst acc)]> (yt_clients st)).
    split; [reflexivity|]. split; [reflexivity|]. split; [reflexivity|].
    right. split; [|reflexivity]. exists tok. auto.
  - assert (Hlog : forall l msg,
              exists s' c',
                log l msg (with_sys (tick (sys_of st)) st)
                = (Ok tt, with_sys s' (with_clients c' st))
                /\ sys_fs s' = sys_fs (sys_of st)
                /\ sys_calls s' = sys_calls (sys_of st)
                /\ (c' = yt_clients st
                    \/ (exists tok0, Some tok = Some tok0
                                     /\ truthy tok0 = true
                                     /\ load_credentials S
                                          (sys_clock (sys_of st)) tok0
                                        = Ok tt)
                       /\ c' = <[fst acc := Some (fst acc)]> (yt_clients st))).
    { intros l msg. eexists _, (yt_clients st).
      split; [reflexivity|]. split; [reflexivity|].
      split; [reflexivity | now left]. }
    destruct ex; apply Hlog.
Qed.

(** X23: [build_youtube_clients] never raises, whatever the credentials of
    the accounts are, and touches neither the files nor the external
    programs.  Afterwards an account has a client only if it had one
    before or its entry names a token file; an account without a token
    path gets none. *)
Theorem clients_need_a_token (S : services)
    (accs : list (string * option string)) (st : run_state) :
  exists st',
    for_each accs (build_client S) st = (Ok tt, st')
    /\ sys_fs (sys_of st') = sys_fs (sys_of st)
    /\ sys_calls (sys_of st') = sys_calls (sys_of st)
    /\ ledger st' = ledger st /\ trace st' = trace st
    /\ forall name c,
         yt_clients st' !! name = Some c ->
         yt_clients st !! name = Some c
         \/ (c = Some name
             /\ exists tok, In (name, Some tok) accs /\ truthy tok = true).
Proof.
  revert st. induction accs as [|acc accs IH]; intros st.
  - exists st. repeat (split; [reflexivity|]). intros name c H. now left.
  - destruct (build_client_effect S acc st) as (s1 & c1 & E1 & Hfs1 & Hc1 & H1).
    destruct (IH (with_sys s1 (with_clients c1 st)))
      as (st2 & E2 & Hfs2 & Hc2 & Hl2 & Ht2 & H2).
    exists st2. split.
    { cbn [for_each]. now rewrite (bind_ok _ _ _ _ _ E1). }
    cbn [sys_of with_sys with_clients ledger trace yt_clients] in *.
    split; [congruence|]. split; [congruence|].
    split; [exact Hl2|]. split; [exact Ht2|].
    intros name c Hn.
    destruct (H2 name c Hn) as [Hold|(-> & tok & Hin & Ht)].
    + destruct H1 as [->|((tok & Ea & Ht & _) & ->)]; [now left|].
      destruct (decide (fst acc = name)) as [<-|Hne].
      * rewrite lookup_insert_eq in Hold. injection Hold as <-.
        right. split; [reflexivity|]. exists tok.
        split; [|exact Ht]. left. destruct acc as [a b].
        cbn in Ea |- *. now subst b.
      * rewrite lookup_insert_ne in Hold by exact Hne. now left.
    + right. split; [reflexivity|]. exists tok.
      split; [now right | exact Ht].
Qed.

End Clients.

Section Naming.
Import PyStr Sys Run.

(** X24: The name of the copy follows the configured format, not the
    file: when the final format is [webm] and the download is an mp4
    file, the conversion is refused and the file is left as it is, and
    yet the destination name that [run_once] builds for it ends in
    [.webm]. *)
Theorem refused_conversion_is_still_renamed (E : extern) (S : services)
    (cfg : config) (m : metadata) (vid chosen : string) (s : sys) :
  final_format cfg = Some "webm" -> current_ext chosen = "mp4" ->
  filename_template cfg = None ->
  let r := final_format_conversion E (Some cfg) vid chosen s in
  fst r = Ok chosen
  /\ sys_fs (snd r) = sys_fs s
  /\ build_name S cfg m vid (final_ext cfg chosen)
     = pretty_filename (title m) (channel m) (upload_date m)
       +:+ "_" +:+ take 8 vid +:+ ".webm".
Proof.
  intros Hf He Ht r. subst r.
  unfold final_format_conversion, build_name, final_ext, default_name.
  rewrite Hf, He, Ht. cbn. repeat split; reflexivity.
Qed.

Lemma refused_conversion_is_still_renamed_witness :
  let cfg := Scenario.config_with (Some "webm") [] in
  let r := final_format_conversion Scenario.fair (Some cfg) "abc"
             Scenario.clip_mp4 Scenario.finished_mp4 in
  fst r = Ok Scenario.clip_mp4
  /\ sys_fs (snd r) = sys_fs Scenario.finished_mp4
  /\ build_name (Scenario.services_with (Ok []) (fun _ => true)
                   Scenario.late) cfg Scenario.sample_meta "abc"
       (final_ext cfg Scenario.clip_mp4)
     = pretty_filename (Some "Foo") (Some "Bar") (Some "20230115")
       +:+ "_" +:+ take 8 "abc" +:+ ".webm".
Proof.
  apply (refused_conversion_is_still_renamed Scenario.fair
           (Scenario.services_with (Ok []) (fun _ => true) Scenario.late)
           (Scenario.config_with (Some "webm") []) Scenario.sample_meta
           "abc" Scenario.clip_mp4 Scenario.finished_mp4); reflexivity.
Defined.

End Naming.


(** ** The summary *)

Section Summary.
Import PyStr Sys Run.

Let quiet (st : run_state) : Prop := List.filter is_notify (trace st) = [].

Lemma snd_try_finally {St A} (body : ST St A) (fin : ST St unit) (s : St) :
  snd (try_finally body fin s) = snd (fin (snd (body s))).
Proof.
  unfold try_finally. destruct (body s) as [r s1]. cbn.
  destruct (fin s1) as [[u|e] s2]; reflexivity.
Qed.

Lemma quiet_append (st : run_state) (t : list event) :
  List.filter is_notify t = [] ->
  quiet st -> quiet (with_trace (trace st ++ t) st).
Proof.
  unfold quiet. intros Ht H. cbn. now rewrite List.filter_app, H, Ht.
Qed.

Lemma filter_notify_callback (b : bool) (j : job) :
  List.filter is_notify
    (EvCopyDone (job_video_id j) b :: delete_events b j) = [].
Proof.
  unfold delete_events. destruct (job_entry_id j) as [e|]; [|reflexivity].
  destruct (b && job_remove j && truthy e); reflexivity.
Qed.

Lemma quiet_complete (S : services) (i : nat) : stable quiet (complete S i).
Proof.
  intros st H.
  destruct (complete_effect S i st)
    as [[E _]|(j & b & s1 & st' & Ej & Hn & E & Hc)]; rewrite E;
    [exact H|].
  destruct Hc as (_ & _ & _ & _ & Ht & _).
  cbn [trace with_sys with_finished snd] in Ht |- *.
  unfold quiet in *. now rewrite Ht, List.filter_app, H, filter_notify_callback.
Qed.

Lemma quiet_emit (st : run_state) (e : event) :
  is_main_event e = true ->
  quiet st -> quiet (with_trace (trace st ++ [e]) st).
Proof.
  intros He. apply quiet_append. destruct e; try discriminate He; reflexivity.
Qed.

Lemma quiet_async (j : job) : stable quiet (async_copy j).
Proof.
  intros st H. unfold quiet in *. cbn.
  now rewrite List.filter_app, H.
Qed.

Let grown (ok : list string) (ko : list (option string))
    (st : run_state) : Prop :=
  (exists ok', run_successes st = ok ++ ok')
  /\ (exists ko', run_failures st = ko ++ ko').

Let sent (msg : string) (st : run_state) : Prop :=
  exists t0 t1,
    trace st = t0 ++ EvNotify msg :: t1
    /\ List.filter is_notify t0 = [] /\ List.filter is_notify t1 = [].

Let frozen (t : list event) (ok : list string) (ko : list (option string))
    (st : run_state) : Prop :=
  all_joined st
  /\ trace st = t /\ run_successes st = ok /\ run_failures st = ko.

(** The end of the [finally] block: the threads that have ended call
    back, and the lock file is removed. *)
Let release (S : services) : R unit :=
  run_ready S ;; lift_sys (lift_fs (os_unlink LOCK_FILE)).

Lemma grown_complete (S : services) (ok : list string)
    (ko : list (option string)) (i : nat) :
  stable (grown ok ko) (complete S i).
Proof.
  intros st [[ok' Hok] [ko' Hko]].
  destruct (complete_effect S i st)
    as [[E _]|(j & b & s1 & st' & Ej & Hn & E & Hc)]; rewrite E;
    [split; eauto|].
  destruct Hc as (_ & _ & _ & _ & _ & Hs & Hf & _).
  cbn [snd run_successes run_failures cleaned_name with_sys with_finished]
    in Hs, Hf |- *.
  unfold grown. rewrite Hs, Hf, Hok, Hko.
  destruct b; split; eauto; rewrite <- app_assoc; eauto.
Qed.

Lemma sent_complete (S : services) (msg : string) (i : nat) :
  stable (sent msg) (complete S i).
Proof.
  intros st (t0 & t1 & Ht & H0 & H1).
  destruct (complete_effect S i st)
    as [[E _]|(j & b & s1 & st' & Ej & Hn & E & Hc)]; rewrite E;
    [exists t0, t1; auto|].
  destruct Hc as (_ & _ & _ & _ & Ht' & _).
  cbn [snd trace with_sys with_finished] in Ht' |- *.
  exists t0, (t1 ++ EvCopyDone (job_video_id j) b :: delete_events b j).
  split; [rewrite Ht', Ht, <- app_assoc; reflexivity|].
  split; [exact H0|].
  now rewrite List.filter_app, H1, filter_notify_callback.
Qed.

(** Once every thread has ended, a scheduling point changes nothing. *)
Lemma joined_complete_noop (S : services) (i : nat) (st : run_state) :
  all_joined st -> complete S i st = (Ok tt, st).
Proof.
  intros H. unfold complete, bind, get. cbv beta iota.
  destruct (pending_copies st !! i) as [j|] eqn:Ej; [|reflexivity].
  assert (Hin : In i (finished st)).
  { destruct H as [_ Hall]. apply Hall.
    apply lookup_lt_Some in Ej. exact Ej. }
  assert (He : existsb (Nat.eqb i) (finished st) = true).
  { apply existsb_exists. exists i. split; [exact Hin|].
    apply Nat.eqb_refl. }
  rewrite He. reflexivity.
Qed.

Lemma frozen_complete (S : services) (t : list event) (ok : list string)
    (ko : list (option string)) (i : nat) :
  stable (frozen t ok ko) (complete S i).
Proof.
  intros st H. rewrite (joined_complete_noop S i st); [exact H|].
  now destruct H.
Qed.

Lemma stable_release (S : services) (I : run_state -> Prop) :
  (forall st s0, I st -> I (with_sys s0 st)) ->
  (forall i, stable I (complete S i)) ->
  stable I (release S).
Proof.
  intros Hsys Hc. unfold release.
  apply stable_bind; [now apply inv_run_ready|].
  intros _. now apply inv_lift_sys.
Qed.

Lemma snd_try_except {St A} (m : ST St A) (h : exn -> ST St A) (s : St) :
  (forall e s1, snd (h e s1) = s1) ->
  snd (try_except m h s) = snd (m s).
Proof.
  intros Hh. unfold try_except. destruct (m s) as [[a|e] s1];
    [reflexivity | apply Hh].
Qed.

(** Nothing is sent before the [finally] block: a run ends in a state
    without a notification, or with the [finally] block run from such a
    state. *)
Lemma run_once_shape (S : services) (cfg : config) (s : sys)
    (l : gmap string ledger_row) (P : run_state -> Prop) :
  (forall st, quiet st -> P st) ->
  (forall st4, quiet st4 -> P (snd (finish S cfg st4))) ->
  P (snd (run_once S cfg s l)).
Proof.
  intros Hquiet Hfin.
  assert (Hsys : forall st s0, quiet st -> quiet (with_sys s0 st))
    by (intros st s0 H; exact H).
  unfold run_once.
  destruct (os_path_exists (sys_fs s) LOCK_FILE);
    [apply Hquiet; reflexivity|].
  assert (H0 : quiet (initial s l)) by reflexivity.
  revert H0. generalize (initial s l). intros st0 H0.
  unfold bind at 1.
  pose proof (inv_lift_sys quiet Hsys
                (lift_fs (write_file LOCK_FILE (pid S))) st0 H0) as H1.
  destruct (lift_sys (lift_fs (write_file LOCK_FILE (pid S))) st0)
    as [[[]|e] st1]; [|apply Hquiet; exact H1].
  cbn [snd] in H1. unfold bind at 1.
  pose proof (inv_init_db S quiet Hsys st1 H1) as H2.
  destruct (init_db S st1) as [[[]|e] st2]; [|apply Hquiet; exact H2].
  cbn [snd] in H2. unfold bind at 1.
  destruct (accounts cfg) as [accs|]; [|apply Hquiet; exact H2].
  cbn [config_key ret]. unfold bind at 1.
  destruct (playlists cfg) as [pls|]; [|apply Hquiet; exact H2].
  cbn [config_key ret]. cbv zeta. unfold bind at 1.
  assert (Hcl : stable quiet (for_each accs (build_client S))).
  { apply stable_for_each. intros acc _.
    apply inv_build_client; [exact Hsys|]. intros st c H. exact H. }
  pose proof (Hcl st2 H2) as H3.
  destruct (for_each accs (build_client S) st2)
    as [[[]|e] st3]; [|apply Hquiet; exact H3].
  cbn [snd] in H3. rewrite snd_try_finally. apply Hfin.
  revert st3 H3.
  match goal with
  | |- forall st, quiet st -> quiet (snd (?m st)) => change (stable quiet m)
  end.
  apply stable_bind.
  { apply inv_run_playlists; try (intros; assumption).
    - apply quiet_emit.
    - apply quiet_async.
    - apply quiet_complete. }
  intros _. apply stable_bind.
  { apply inv_join_all; [exact Hsys | apply quiet_complete]. }
  intros _.
  apply stable_bind; [apply inv_log, Hsys|]. intros _.
  apply stable_bind; [apply inv_log, Hsys|]. intros _.
  apply inv_log, Hsys.
Qed.

Lemma telegram_notify_effect (S : services) (cfg : config)
    (message : string) (st : run_state) :
  exists s',
    telegram_notify S cfg message st
    = (Ok tt,
       with_sys s'
         (with_trace
            (trace st
             ++ match telegram cfg with
                | Some (Some token, Some chat_id) =>
                    if truthy token && truthy chat_id
                    then [EvNotify message] else []
                | _ => []
                end) st)).
Proof.
  assert (Hnone : exists s',
            (Ok tt, st)
            = (Ok tt, with_sys s' (with_trace (trace st ++ []) st))).
  { exists (sys_of st). rewrite app_nil_r. destruct st; reflexivity. }
  unfold telegram_notify.
  destruct (telegram cfg) as [[[token|] [chat_id|]]|]; try exact Hnone.
  destruct (truthy token && truthy chat_id); [|exact Hnone].
  unfold bind, emit, modify, now, ret, log, lift_sys, logging.
  cbn.
  destruct (urlopen S (sys_clock (sys_of st)) message);
    eexists; reflexivity.
Qed.

(** The steps of the [finally] block: the threads that have ended call
    back; the lists are read; when one of them is not empty, the threads
    that have ended since call back and the summary of the lists that
    were read is sent; then [release]. *)
Lemma finish_steps (S : services) (cfg : config) (st : run_state) :
  let stA := snd (run_ready S st) in
  let stB := snd (run_ready S stA) in
  exists stC,
    snd (finish S cfg st) = snd (release S stC)
    /\ ((run_successes stA = [] /\ run_failures stA = [] /\ stC = stA)
        \/ ((run_successes stA <> [] \/ run_failures stA <> [])
            /\ exists s',
                 stC = with_sys s'
                         (with_trace (trace stB ++ summary_event cfg stA)
                            stB))).
Proof.
  intros stA stB.
  assert (Hh : forall (ex : exn) (s1 : run_state),
             snd ((match ex with
                   | FileNotFoundError => ret tt
                   | _ => raise ex
                   end : R unit) s1) = s1)
    by (intros [] s1; reflexivity).
  assert (Hf : snd (finish S cfg st)
               = snd (((match run_successes stA, run_failures stA with
                        | [], [] => ret tt
                        | ok, ko =>
                            let msg := summary ok ko in
                            run_ready S ;; telegram_notify S cfg msg
                        end) ;; release S) stA)).
  { unfold finish. rewrite (bind_ok _ _ _ _ _ (run_ready_returns S st)).
    fold stA. rewrite snd_try_except by exact Hh.
    unfold bind at 1. unfold get at 1. reflexivity. }
  rewrite Hf. clear Hf.
  destruct (run_successes stA) as [|x ok] eqn:Eok.
  - destruct (run_failures stA) as [|y ko] eqn:Eko.
    + exists stA. split; [reflexivity|]. left. auto.
    + cbv zeta.
      destruct (telegram_notify_effect S cfg (summary [] (y :: ko)) stB)
        as (s' & En).
      assert (E : (run_ready S ;;
                   telegram_notify S cfg (summary [] (y :: ko))) stA
                  = (Ok tt,
                     with_sys s'
                       (with_trace
                          (trace stB
                           ++ match telegram cfg with
                              | Some (Some token, Some chat_id) =>
                                  if truthy token && truthy chat_id
                                  then [EvNotify (summary [] (y :: ko))]
                                  else []
                              | _ => []
                              end) stB)))
        by (rewrite (bind_ok _ _ _ _ _ (run_ready_returns S stA));
            exact En).
      eexists. split.
      * rewrite (bind_ok _ _ _ _ _ E). reflexivity.
      * right. split; [right; discriminate|]. exists s'.
        unfold summary_event. rewrite Eok, Eko. reflexivity.
  - cbv zeta.
    destruct (telegram_notify_effect S cfg
                (summary (x :: ok) (run_failures stA)) stB) as (s' & En).
    assert (E : (run_ready S ;;
                 telegram_notify S cfg
                   (summary (x :: ok) (run_failures stA))) stA
                = (Ok tt,
                   with_sys s'
                     (with_trace
                        (trace stB
                         ++ match telegram cfg with
                            | Some (Some token, Some chat_id) =>
                                if truthy token && truthy chat_id
                                then [EvNotify
                                        (summary (x :: ok)
                                           (run_failures stA))]
                                else []
                            | _ => []
                            end) stB)))
      by (rewrite (bind_ok _ _ _ _ _ (run_ready_returns S stA));
          exact En).
    eexists. split.
    + rewrite (bind_ok _ _ _ _ _ E). reflexivity.
    + right. split; [left; discriminate|]. exists s'.
      unfold summary_event. rewrite Eok. reflexivity.
Qed.

(** The [finally] block sends at most one notification. *)
Lemma finish_sends_once (S : services) (cfg : config) (st4 : run_state) :
  quiet st4 ->
  let st := snd (finish S cfg st4) in
  quiet st
  \/ exists ok ko,
       (ok <> [] \/ ko <> [])
       /\ sent (summary ok ko) st /\ grown ok ko st.
Proof.
  intros H4. cbv zeta.
  assert (Hsys : forall st s0, quiet st -> quiet (with_sys s0 st))
    by (intros st s0 H; exact H).
  pose proof (inv_run_ready S quiet Hsys (quiet_complete S) st4 H4) as HA.
  destruct (finish_steps S cfg st4) as (stC & -> & HC).
  cbv zeta in HC. set (stA := snd (run_ready S st4)) in *.
  destruct HC as [(_ & _ & ->)|(Hne & s' & ->)].
  { left. now apply (stable_release S quiet Hsys (quiet_complete S)). }
  set (stB := snd (run_ready S stA)).
  assert (HB : quiet stB /\ grown (run_successes stA) (run_failures stA) stB).
  { split.
    - apply (inv_run_ready S quiet Hsys (quiet_complete S) stA HA).
    - apply (inv_run_ready S (grown _ _)
               (fun st s0 H => H) (grown_complete S _ _) stA).
      split; exists []; now rewrite app_nil_r. }
  destruct HB as [HBq HBg].
  assert (Hev : summary_event cfg stA = []
                \/ summary_event cfg stA
                   = [EvNotify (summary (run_successes stA)
                                  (run_failures stA))]).
  { unfold summary_event.
    destruct (run_successes stA), (run_failures stA),
             (telegram cfg) as [[[token|] [chat_id|]]|]; auto;
      destruct (truthy token && truthy chat_id); auto. }
  destruct Hev as [->| ->].
  - left. apply (stable_release S quiet Hsys (quiet_complete S)).
    unfold quiet. cbn [trace with_sys with_trace].
    rewrite app_nil_r. exact HBq.
  - right. exists (run_successes stA), (run_failures stA).
    split; [exact Hne|]. split.
    + apply (stable_release S (sent _)
               (fun st s0 H => H) (sent_complete S _)).
      exists (trace stB), []. cbn [trace with_sys with_trace].
      split; [reflexivity|]. split; [exact HBq | reflexivity].
    + apply (stable_release S (grown _ _)
               (fun st s0 H => H) (grown_complete S _ _)).
      exact HBg.
Qed.

(** From a state in which every thread has ended, the [finally] block
    adds the notification and nothing else. *)
Lemma finish_joined (S : services) (cfg : config) (st4 : run_state) :
  all_joined st4 ->
  let st := snd (finish S cfg st4) in
  trace st = trace st4 ++ summary_event cfg st.
Proof.
  intros H4. cbv zeta.
  assert (Hsys : forall t ok ko st s0,
             frozen t ok ko st -> frozen t ok ko (with_sys s0 st))
    by (intros t ok ko st s0 H; exact H).
  assert (Hrun : forall t ok ko, stable (frozen t ok ko) (run_ready S))
    by (intros t ok ko;
        apply inv_run_ready; [apply Hsys | apply frozen_complete]).
  assert (Hrel : forall t ok ko, stable (frozen t ok ko) (release S))
    by (intros t ok ko;
        apply stable_release; [apply Hsys | apply frozen_complete]).
  assert (Hend : forall t ok ko st,
             frozen t ok ko st ->
             summary_event cfg st
             = match ok, ko with
               | [], [] => []
               | _, _ =>
                   match telegram cfg with
                   | Some (Some token, Some chat_id) =>
                       if truthy token && truthy chat_id
                       then [EvNotify (summary ok ko)] else []
                   | _ => []
                   end
               end).
  { intros t ok ko st (_ & _ & Es & Ef). unfold summary_event.
    rewrite Es, Ef. destruct ok, ko; reflexivity. }
  pose proof (Hrun _ _ _ st4 (conj H4 (conj eq_refl (conj eq_refl eq_refl))))
    as HA.
  destruct (finish_steps S cfg st4) as (stC & -> & HC).
  cbv zeta in HC. set (stA := snd (run_ready S st4)) in *.
  destruct HC as [(Eok & Eko & ->)|(Hne & s' & ->)].
  { pose proof (Hrel _ _ _ stA HA) as HR.
    rewrite (Hend _ _ _ _ HR).
    destruct HR as (_ & -> & _). destruct HA as (_ & _ & <- & <-).
    rewrite Eok, Eko. now rewrite app_nil_r. }
  set (stB := snd (run_ready S stA)).
  pose proof (Hrun _ _ _ stA HA) as HB. fold stB in HB.
  assert (HC : frozen (trace st4 ++ summary_event cfg stA)
                 (run_successes st4) (run_failures st4)
                 (with_sys s'
                    (with_trace (trace stB ++ summary_event cfg stA) stB))).
  { destruct HB as (HBj & HBt & HBs & HBf).
    split; [|cbn [trace run_successes run_failures with_sys with_trace];
             rewrite HBt; auto].
    apply joined_sys.
    assert (Hev : summary_event cfg stA = []
                  \/ exists m, summary_event cfg stA = [EvNotify m]).
    { unfold summary_event.
      destruct (run_successes stA), (run_failures stA),
               (telegram cfg) as [[[token|] [chat_id|]]|]; auto;
        destruct (truthy token && truthy chat_id); eauto. }
    destruct Hev as [-> | [m ->]].
    - rewrite app_nil_r. destruct stB; exact HBj.
    - now apply joined_notify. }
  pose proof (Hrel _ _ _ _ HC) as HR.
  rewrite (Hend _ _ _ _ HR), <- (Hend _ _ _ _ HA).
  now destruct HR as (_ & -> & _).
Qed.

(** A run that returns normally reaches the [finally] block with every
    thread ended and nothing sent. *)
Lemma normal_run_joins (S : services) (cfg : config) (s : sys)
    (l : gmap string ledger_row) :
  fst (run_once S cfg s l) = Ok tt ->
  (exists s', snd (run_once S cfg s l) = with_sys s' (initial s l))
  \/ exists st4,
       all_joined st4 /\ quiet st4
       /\ snd (run_once S cfg s l) = snd (finish S cfg st4).
Proof.
  intros Hok.
  assert (Hsys : forall st s0, quiet st -> quiet (with_sys s0 st))
    by (intros st s0 H; exact H).
  destruct (run_once S cfg s l) as [r stf] eqn:Er.
  cbn [fst snd] in *. subst r.
  unfold run_once in Er.
  destruct (os_path_exists (sys_fs s) LOCK_FILE).
  { injection Er as <-. left. eexists. reflexivity. }
  right.
  assert (H0 : threads_inv (initial s l))
    by (repeat split; [constructor | intros i []]).
  assert (Q0 : quiet (initial s l)) by reflexivity.
  apply bind_ok_inv in Er as ([] & st1 & E1 & Er).
  apply bind_ok_inv in Er as ([] & st2 & E2 & Er).
  apply bind_ok_inv in Er as (accs & st2a & Ea & Er).
  apply bind_ok_inv in Er as (pls & st2b & Ep & Er).
  apply bind_ok_inv in Er as ([] & st3 & E3 & Er).
  apply try_finally_ok_inv in Er as (st4 & Eb & Ef).
  apply bind_ok_inv in Eb as ([] & st5 & E5 & Eb).
  apply bind_ok_inv in Eb as ([] & st6 & E6 & Eb).
  assert (H1 : threads_inv st1 /\ quiet st1).
  { pose proof (inv_lift_sys threads_inv threads_sys
                  (lift_fs (write_file LOCK_FILE (pid S))) _ H0) as H.
    pose proof (inv_lift_sys quiet Hsys
                  (lift_fs (write_file LOCK_FILE (pid S))) _ Q0) as Q.
    now rewrite E1 in H, Q. }
  assert (H2 : threads_inv st2 /\ quiet st2).
  { pose proof (inv_init_db S threads_inv threads_sys _ (proj1 H1)) as H.
    pose proof (inv_init_db S quiet Hsys _ (proj2 H1)) as Q.
    now rewrite E2 in H, Q. }
  assert (st2a = st2).
  { destruct (accounts cfg); [now injection Ea as _ <- | discriminate Ea]. }
  subst st2a.
  assert (st2b = st2).
  { destruct (playlists cfg); [now injection Ep as _ <- | discriminate Ep]. }
  subst st2b.
  assert (H3 : threads_inv st3 /\ quiet st3).
  { assert (Hs : stable threads_inv (for_each accs (build_client S))).
    { apply stable_for_each. intros acc _.
      apply inv_build_client; [apply threads_sys|].
      intros st c H. exact H. }
    assert (Qs : stable quiet (for_each accs (build_client S))).
    { apply stable_for_each. intros acc _.
      apply inv_build_client; [exact Hsys|].
      intros st c H. exact H. }
    pose proof (Hs st2 (proj1 H2)) as H.
    pose proof (Qs st2 (proj2 H2)) as Q.
    now rewrite E3 in H, Q. }
  assert (H5 : threads_inv st5 /\ quiet st5).
  { pose proof (inv_run_playlists S cfg threads_inv threads_sys
                  (fun st f H => H) (fun st c H => H) (fun st n H => H)
                  threads_emit threads_async (threads_complete S)
                  (resolve_js_runtime S cfg) pls st3 (proj1 H3)) as H.
    pose proof (inv_run_playlists S cfg quiet Hsys
                  (fun st f H => H) (fun st c H => H) (fun st n H => H)
                  quiet_emit quiet_async (quiet_complete S)
                  (resolve_js_runtime S cfg) pls st3 (proj2 H3)) as Q.
    now rewrite E5 in H, Q. }
  destruct (join_all_joins S st5 (proj1 H5)) as (st6' & E6' & H6).
  rewrite E6 in E6'. injection E6' as <-.
  assert (Q6 : quiet st6).
  { pose proof (inv_join_all S quiet Hsys (quiet_complete S) st5 (proj2 H5))
      as Q.
    now rewrite E6 in Q. }
  assert (H4 : all_joined st4 /\ quiet st4).
  { assert (Hs : forall I : run_state -> Prop,
               (forall st s0, I st -> I (with_sys s0 st)) ->
               stable I
                 (log INFO rule ;;
                  log INFO "Run complete." ;;
                  log INFO
                    (rule +:+ " " +:+ nl +:+ " " +:+ nl +:+ " " +:+ nl))).
    { intros I HI.
      apply stable_bind; [apply inv_log, HI|]. intros _.
      apply stable_bind; [apply inv_log, HI|]. intros _.
      apply inv_log, HI. }
    pose proof (Hs _ joined_sys st6 H6) as H.
    pose proof (Hs _ Hsys st6 Q6) as Q.
    now rewrite Eb in H, Q. }
  exists st4. split; [apply H4|]. split; [apply H4|]. now rewrite Ef.
Qed.


End Summary.
